(* ===== verification/_CoqProject ===== *)
-Q . S2P
Prelude.v
CString.v
BenchUtils.v
NvmTypes.v
NvmUtil.v
NvmError.v
NvmQueue.v
NvmCmd.v
NvmCases.v
NvmDevice.v
Admin.v
AdminSpec.v
UgdsTypes.v
UgdsIo.v
UgdsIoSpec.v
UgdsIoCases.v
UgdsLive.v
UgdsThreads.v
UgdsThreadsInv.v
UgdsThreadsSpec.v
UgdsThreadsSolo.v
UgdsThreadsCases.v
LibState.v
Ctrl.v
CtrlThreads.v
Dma.v
LinuxDma.v
Aq.v
Rpc.v
UgdsHandle.v
UgdsRw.v
CtrlReset.v
AdminCases.v
DmaSpec.v
LibInv.v
LibProofs.v
LibApi.v
AqProofs.v
LibClient.v
Ledger.v
UgdsApi.v
UgdsLink.v
UgdsClient.v
UgdsTests.v
UgdsTestsSpec.v
UgdsCases.v
UgdsTestsCases.v
UgdsTyping.v
DrvList.v
DrvSg.v
DrvTest.v
DrvState.v
DrvMap.v
DrvPci.v
DrvOwn.v
DrvProofs.v
DrvInv.v
DrvCalls.v
DrvLife.v
DrvTasks.v
DrvTasksSpec.v
DrvTasksAlone.v
DrvSpec.v
DrvCases.v
DrvTasksCases.v
LinuxDmaRun.v
Abi.v
Stack.v
StackIo.v
