(* ===== verification/Prelude.v ===== *)
(** * uGDS: a verification of the GPU-direct storage library and its kernel module

    uGDS moves data between an NVMe namespace and GPU (or host) memory without the kernel's
    storage stack.  It has three layers.

    - The library [src/src/ugds_*.cpp]: a process opens the driver, registers handles (one per
      controller, each with up to 16 I/O queue pairs) and buffers, and reads and writes through
      [do_io], which builds NVMe commands in queue memory, rings doorbells and polls.
    - libnvm, [src/src/libnvm] and [src/include/libnvm]: controller handles, DMA handles, the admin
      queue and its commands, submission and completion queues, PRP lists.
    - The kernel module [src/drv]: binds to controllers, creates a device file for each, maps the
      registers into a process (mmap) and pins host, GPU and dma-buf memory for DMA (ioctl).

    The library calls libnvm; libnvm calls the module through its device file; what the kernel,
    the controller and the GPU runtime answer is a parameter everywhere.

    ** How code is modelled

    Integers are [Z] with the C type's wrap-around written out ([wrap], [u16], [u32], [u64], [s32]).
    A function with effects is a [M S A := S -> option (A * S)] on the state of its layer; [None] is
    undefined behaviour (a dangling or null pointer, an index outside an array, a double free or
    unlock, a broken contract of a kernel function), so a theorem that a call gives [Some] says it
    is defined and that it returns.  [wp m Q s] is total correctness.  Error paths are values:
    the status codes of the source.

    Every fallible call of the environment takes its result from a class, and the theorems hold
    for all instances, under the stated laws:
    - [Device] (NvmDevice.v), the controller: it changes completion entries in any way, at
      doorbells and while the host waits.  No law.  [HostMem] (UgdsHandle.v): bytes the controller wrote.  No law.
    - [Env] (LibState.v), the process's operating system and GPU runtime.  [machine_ok]
      (UgdsClient.v) is what the theorems on handles assume: mapping the registers succeeds (a
      failure is not noticed, LibClient.v), the page size is a power of two below 2^60, and the
      exponents in a controller's Identify data are below the width they shift.
    - [Serving] (UgdsLive.v), only for the theorem that transfers complete: a controller that
      answers each command it accepts within a number of polls, and posts nothing else.
    - [Kernel] (DrvState.v), what the module calls; [KernelOk] (DrvProofs.v) is documented
      behaviour, [Benign] excludes the six kinds of failure the module does not survive, each
      shown fatal in DrvCases.v.

    Loops that are not structural use [iter_until] with a bound, and the theorems show it is
    enough: the slots of the queue for [take_slot], [size / block_size + 1] turns for [io_run], the
    [timeout * 10^6 + 1] spins the code itself allows in [busy_poll], one turn per millisecond of
    the timeout for the waiting loops of queue.cpp and ctrl.cpp.  Walks over kernel lists have one
    unit of fuel per node and one for the head; the page loop of [sg_fill] has one per page
    wanted.

    ** libnvm

    - NvmTypes.v: structs of nvm_types.h.  NvmUtil.v: nvm_util.h, lib_util.h, regs.h; doorbells of
      different queues never overlap and lie in the mapped window.  NvmError.v: nvm_error.h and
      error.cpp; packing statuses is invertible.
    - NvmQueue.v: nvm_queue.h and queue.cpp.  A completion queue with its controller is a lossless
      FIFO (module [CqFifo]); a submission queue is a FIFO of capacity [qs - 1] exactly when its
      size divides 2^16 (module [SqFifo]); commands in flight have distinct identifiers (module
      [SqCid]); the blocking dequeue returns.
    - NvmCmd.v: nvm_cmd.h, against the controller's reading of a command and its PRP lists.
    - Admin.v and AdminSpec.v: admin.cpp, each function sends the command it should and reports
      what the controller said, with the exceptions stated there.
    - LibState.v, Ctrl.v, Dma.v, LinuxDma.v, Aq.v, Rpc.v: ctrl.cpp, linux_device.cpp, dma.cpp,
      linux_dma.cpp and rpc.cpp over a heap of reference-counted objects.  CtrlReset.v: the reset
      protocol on an arbitrary register file.  DmaSpec.v: the addresses of a DMA handle.
    - CtrlThreads.v: threads that take and put references to a controller, step by step with the
      lock of mutex.cpp: the controller is never used after it was freed, and the last to put
      releases the device, once, and frees the controller.
    - LibInv.v, LibProofs.v, LibApi.v, AqProofs.v: the ownership invariant [lib_inv] (each count
      is the number of pointers) and its preservation.  LibClient.v: all histories of calls
      are defined, failures change nothing, and nothing is left when all handles are given back.

    ** The library

    - UgdsTypes.v: ugds.h and ugds_internal.h.  UgdsIo.v: ugds_io.cpp.  UgdsIoSpec.v: a read or
      write moves exactly the bytes of the request, or an initial part of them and an error, for
      any controller.  UgdsIoCases.v: runs, among them two that go wrong.
    - UgdsLive.v: with a controller that answers, a transfer completes with its whole size.
    - UgdsThreads.v: [do_io] called by any number of threads on one handle, as steps that
      interleave; shared are the registry, the round robin counter, the locks and queues of the
      pairs, the memory and the controller.  UgdsThreadsInv.v and UgdsThreadsSpec.v: nothing
      undefined happens, one thread at a time uses a queue pair, each call asks for the bytes of
      its own request only, and every call returns (a bound on all schedules and no deadlock).
      The start ([start_ok]) has queue pairs whose memory does not overlap, and nobody
      deregisters a buffer a transfer is using ([label_ok]); UgdsThreadsCases.v has the
      race that happens otherwise.  UgdsThreadsSolo.v: without interruption the steps are [do_io].
    - UgdsHandle.v: ugds_handle.cpp, ugds_buf.cpp and ugds_driver.cpp over the libnvm model.
      Ledger.v: what a caller of libnvm owns, one rule per libnvm function.  UgdsApi.v: the
      lifetime functions against the ledger.
    - UgdsRw.v: [do_io] on the state of the whole process, with libnvm's own mapping functions.
      UgdsLink.v: libnvm keeps the promises [do_io] relies on (the class [DmaLaws] of
      UgdsIoSpec.v), and a registered handle is one [do_io] works on.  UgdsClient.v: all
      histories of calls, reads and writes included, are defined and leak nothing, and in all of
      them a transfer moves the bytes asked for.
    - UgdsTyping.v: after any calls each pointer of the C structs leads to a live object of the
      type it is declared with.
    - NvmCases.v, AdminCases.v, UgdsCases.v: the theorems at concrete values.

    ** The tests of the library

    - UgdsTests.v: test_utils.h and the four programs of src/test/functional that check return
      codes (driver_lifecycle, handle_register, buf_register, alignment_errors), run on the model
      of the library; a failed assertion ends the program.  UgdsTestsSpec.v: in every environment
      each of them ends, and passes with everything given back or fails in its set-up.
      UgdsTestsCases.v: an environment in which they pass, and failures they report.
    - CString.v: [strtoull] and [atoi] of the C library, with decimal numerals read back.
      BenchUtils.v: the options, sizes, times and totals of src/test/perf/bench_utils.h.

    ** The kernel module

    - DrvList.v: list.h and list.c as pointer operations, which implement sequences.
      DrvSg.v: [sg_flatten_to_addrs] against the bytes of the scatter-gather table.  DrvTest.v:
      its unit tests (src/drv/test/sg_flatten_test.c) with their tables and clean-up; they pass.
    - DrvState.v: structs, memory, held resources and the kernel's answers.  DrvMap.v: ctrl.c and
      map.c.  DrvPci.v: pci.c.
    - DrvOwn.v: ownership of memory, list nodes and resources, with a rule per primitive.
      DrvProofs.v, DrvInv.v, DrvCalls.v: every function on this ownership; the invariant
      [drv_inv] says memory and resources are exactly those of the controllers and mappings.
    - DrvLife.v: a machine of all events (probe, unplug, ioctl, mmap, GPU callbacks): every event
      is defined, unloading leaves nothing, failures are undone.  DrvSpec.v: what ioctl and mmap
      give to a process.  DrvCases.v: a kernel that meets the assumptions, and the
      failures that are fatal.
    - DrvTasks.v: [map_ioctl] called by several tasks, as steps that interleave: looking up the
      controller, making the descriptor, inserting it, answering, walking the list element by
      element without its lock, taking out and releasing.  Insertion and removal, which hold the
      lock throughout, are one step each.  DrvTasksSpec.v: every step is defined, no task touches
      the mappings of another, and unloading leaves nothing.  This holds as long as no mapping is
      taken out while another task walks, and as devices come and go between calls
      ([klabel_ok]); DrvTasksCases.v has the two races that happen otherwise.  DrvTasksAlone.v:
      without interruption the steps are [map_ioctl]; its fuel is the number of steps, which
      the theorem provides.

    ** Library and module together

    - LinuxDmaRun.v: the handle a mapping call of libnvm returns, in terms of the module's answer.
    - Abi.v: libnvm's own header of the ioctls (internal/ioctl.h), the bytes of its requests
      (linux_device.cpp), and that the module reads from them what was written.
    - Stack.v: with libnvm's ioctl served by the module ([served]), every byte of a host buffer or
      of exported GPU memory has through libnvm's handle the bus address of the page the module
      pinned for it or of the byte of the dma-buf.  The library's [Env] otherwise takes the
      results of ioctls as they come; unmapping is taken to succeed, as it does from the
      thread that mapped (DrvCases.v, [unmap_by_other_thread]).
    - StackIo.v: all layers, from [uGDSBufRegister] through the ioctl to [do_io]: the doorbells of
      a transfer on registered GPU memory ask for the bytes of the request at the bus addresses
      of the dma-buf's table (HIP) or of the NVIDIA driver (CUDA) the module holds.

    ** Not modelled

    - Concurrency outside [do_io], the ioctls of the module and the references of a controller:
      registering, deregistering and closing are one step each, and so are probing, removing, mmap
      and the callbacks of the module.  The counts of DMA mappings and of admin references are
      guarded by a lock in the way those of controllers are, and their functions are taken as one
      step.  A step sees all earlier ones: the fences and the weak memory they are for are
      outside the model.
    - Cache flushes for memory that is not local, C++ exceptions of the allocator, debug output
      and the names of device files.
    - The branches for other operating systems and for SmartIO that the Linux build leaves out.
    - The contents of buffers: the models say which bytes a command moves between which addresses,
      and data itself is not kept.  The functional tests that compare data (read_write_basic,
      read_write_large, read_write_unregistered, multi_offset, concurrent_qps), the example and
      the benchmark, which run GPU kernels on it, are therefore left out.
    - The floating-point arithmetic and the printing of bench_utils.h.
    - Headers with prototypes only, and the scripts. *)
From stdpp Require Import prelude gmap list numbers.
From Stdlib Require Import ZArith Lia.

Declare Scope ugds_scope.
Delimit Scope ugds_scope with ugds.
Local Open Scope Z_scope.

(** ** Machine integers

    A [w]-bit unsigned C integer is a [Z]; every C operation that can leave the
    range is followed by an explicit [wrap]. *)

Definition wrap (w z : Z) : Z := z mod 2 ^ w.

Abbreviation u8 := (wrap 8).
Abbreviation u16 := (wrap 16).
Abbreviation u32 := (wrap 32).
Abbreviation u64 := (wrap 64).

Definition fits (w z : Z) : Prop := 0 <= z < 2 ^ w.

#[export] Instance fits_dec w z : Decision (fits w z).
Proof. unfold fits. apply _. Defined.

(** A C [int] obtained by converting a wider value. *)
Definition s32 (z : Z) : Z := (z + 2 ^ 31) mod 2 ^ 32 - 2 ^ 31.
(** A [ssize_t] obtained by converting a [size_t]. *)
Definition s64 (z : Z) : Z := (z + 2 ^ 63) mod 2 ^ 64 - 2 ^ 63.

(** ** errno values (asm-generic/errno-base.h and errno.h) *)

Definition ENOMEM : Z := 12.
Definition EAGAIN : Z := 11.
Definition EBADF : Z := 9.
Definition EFAULT : Z := 14.
Definition EBUSY : Z := 16.
Definition EINVAL : Z := 22.
Definition ENOTTY : Z := 25.
Definition ENOSPC : Z := 28.
Definition ERANGE : Z := 34.
Definition EIO : Z := 5.
Definition ETIME : Z := 62.
Definition EOVERFLOW : Z := 75.
Definition ENOTSUP : Z := 95.

(** ** Sequential code

    [M S A] is C code over the state [S]: [None] is undefined behaviour (a null
    or dangling dereference, an index out of an array, a division by zero) or
    a loop whose bound was exhausted; the safety theorems show it away. *)

Definition M (S A : Type) : Type := S -> option (A * S).

#[export] Instance M_ret {S} : MRet (M S) := fun A a s => Some (a, s).
#[export] Instance M_bind {S} : MBind (M S) :=
  fun A B k m s => match m s with Some (a, s') => k a s' | None => None end.

Definition get {S} : M S S := fun s => Some (s, s).
Definition put {S} (s : S) : M S unit := fun _ => Some (tt, s).
Definition gets {S A} (f : S -> A) : M S A := fun s => Some (f s, s).
Definition modify {S} (f : S -> S) : M S unit := fun s => Some (tt, f s).
Definition undefined {S A} : M S A := fun _ => None.
Definition of_option {S A} (o : option A) : M S A :=
  match o with Some a => mret a | None => undefined end.

(** ** Bounded loops

    [iter_until p f s] runs the body [f] at most [p] times from [s]; the body
    returns [inl s'] to go on and [inr r] to leave the loop.  The bound is
    binary, so a loop with a bound of 10^11 that leaves early still computes. *)

Fixpoint iter_until {S R : Type} (p : positive) (f : S -> S + R) (s : S) : S + R :=
  match p with
  | xH => f s
  | xO p =>
      match iter_until p f s with
      | inl s' => iter_until p f s'
      | inr r => inr r
      end
  | xI p =>
      match f s with
      | inl s1 =>
          match iter_until p f s1 with
          | inl s' => iter_until p f s'
          | inr r => inr r
          end
      | inr r => inr r
      end
  end.

Fixpoint iter_fuel {S R : Type} (n : nat) (f : S -> S + R) (s : S) : S + R :=
  match n with
  | O => inl s
  | Datatypes.S n => match f s with inl s' => iter_fuel n f s' | inr r => inr r end
  end.

Lemma iter_fuel_add {S R} (f : S -> S + R) n m s :
  iter_fuel (n + m) f s =
    match iter_fuel n f s with inl s' => iter_fuel m f s' | inr r => inr r end.
Proof. revert s. induction n as [|n IH]; intros s; simpl; [done|]. by destruct (f s). Qed.

Lemma iter_until_fuel {S R} (f : S -> S + R) p s :
  iter_until p f s = iter_fuel (Pos.to_nat p) f s.
Proof.
  revert s. induction p as [p IH|p IH|]; intros s; cbn [iter_until].
  - rewrite Pos2Nat.inj_xI. cbn [iter_fuel]. destruct (f s) as [s1|]; [|done].
    rewrite IH. replace (2 * Pos.to_nat p)%nat with (Pos.to_nat p + Pos.to_nat p)%nat by lia.
    rewrite iter_fuel_add. by destruct (iter_fuel _ _ _).
  - rewrite Pos2Nat.inj_xO, IH.
    replace (2 * Pos.to_nat p)%nat with (Pos.to_nat p + Pos.to_nat p)%nat by lia.
    rewrite iter_fuel_add. by destruct (iter_fuel _ _ _).
  - simpl. by destruct (f s).
Qed.

(** The invariant rule for the loops above. *)
Lemma iter_fuel_inv {S R} (f : S -> S + R) (I : S -> Prop) (Q : R -> Prop) n s :
  I s ->
  (forall s, I s -> match f s with inl s' => I s' | inr r => Q r end) ->
  match iter_fuel n f s with inl s' => I s' | inr r => Q r end.
Proof.
  intros Hs Hf. revert s Hs. induction n as [|n IH]; intros s Hs; simpl; [done|].
  specialize (Hf s Hs). destruct (f s) as [s'|r]; [|done]. by apply IH.
Qed.

(** A loop whose variant [v] decreases at each turn leaves within [v s + 1] turns. *)
Lemma iter_fuel_total {S R} (f : S -> S + R) (I : S -> Prop) (v : S -> nat) n s :
  I s -> (v s < n)%nat ->
  (forall s s', I s -> f s = inl s' -> I s' /\ (v s' < v s)%nat) ->
  exists r, iter_fuel n f s = inr r.
Proof.
  intros Hs Hv Hf. revert s Hs Hv. induction n as [|n IH]; intros s Hs Hv; [lia|].
  simpl. destruct (f s) as [s'|r] eqn:E; [|eauto].
  destruct (Hf s s' Hs E) as [Hi Hlt]. apply IH; [done|lia].
Qed.

(** ** Lemmas on words and bit fields *)

Create HintDb word discriminated.
#[export] Hint Constants Opaque : word.
Create Rewrite HintDb wsimpl.

Lemma wrap_range w z : 0 <= w -> 0 <= wrap w z < 2 ^ w.
Proof. intros. unfold wrap. apply Z.mod_pos_bound. lia. Qed.

Lemma wrap_small w z : fits w z -> wrap w z = z.
Proof. unfold wrap, fits. intros. by apply Z.mod_small. Qed.

Lemma wrap_fits w z : 0 <= w -> fits w (wrap w z).
Proof. apply wrap_range. Qed.

Lemma wrap_wrap w v z : 0 <= w <= v -> wrap w (wrap v z) = wrap w z.
Proof.
  intros [??]. unfold wrap. apply Z.bits_inj'. intros i Hi.
  rewrite !Z.testbit_mod_pow2 by lia.
  destruct (Z.ltb_spec i w); [|done]. by rewrite (proj2 (Z.ltb_lt i v)) by lia.
Qed.

Lemma wrap_0 w : wrap w 0 = 0.
Proof. unfold wrap. apply Zmod_0_l. Qed.

#[export] Hint Resolve wrap_fits : word.
#[export] Hint Rewrite wrap_0 : wsimpl.

(** [word_lia] proves linear goals about words whose bounds are in the context. *)
Ltac wsmall :=
  repeat match goal with
  | |- context [wrap ?w ?z] => rewrite (wrap_small w z) by (unfold fits in *; lia)
  end.
Ltac word_lia := unfold fits in *; wsmall; lia.

Lemma land_mask z n : 0 <= n -> Z.land z (2 ^ n - 1) = z mod 2 ^ n.
Proof.
  intros. rewrite <- Z.land_ones by done. f_equal. rewrite Z.ones_equiv. lia.
Qed.

Lemma testbit_small z n i : 0 <= z < 2 ^ n -> n <= i -> Z.testbit z i = false.
Proof.
  intros Hz Hi. destruct (decide (0 <= n)) as [Hn|Hn].
  - rewrite <- (Z.mod_small z (2 ^ n)) by done. by apply Z.mod_pow2_bits_high.
  - rewrite Z.pow_neg_r in Hz by lia. lia.
Qed.

Lemma fits_bits w z :
  0 <= w -> (forall i, w <= i -> Z.testbit z i = false) -> fits w z.
Proof.
  intros Hw Hz. assert (z = wrap w z) as ->; [|by apply wrap_fits].
  apply Z.bits_inj'. intros i Hi. unfold wrap. rewrite Z.testbit_mod_pow2 by done.
  destruct (Z.ltb_spec i w); [done|]. by apply Hz.
Qed.

Lemma land_fits w a b : 0 <= w -> fits w a -> fits w (Z.land a b).
Proof.
  intros Hw Ha. apply fits_bits; [done|]. intros i Hi.
  by rewrite Z.land_spec, (testbit_small a w).
Qed.

Lemma lor_fits w a b : 0 <= w -> fits w a -> fits w b -> fits w (Z.lor a b).
Proof.
  intros Hw Ha Hb. apply fits_bits; [done|]. intros i Hi.
  by rewrite Z.lor_spec, (testbit_small a w), (testbit_small b w).
Qed.

#[export] Hint Resolve land_fits lor_fits : word.

Lemma lor_shiftl_add a b n :
  0 <= n -> 0 <= b < 2 ^ n -> Z.lor (Z.shiftl a n) b = a * 2 ^ n + b.
Proof.
  intros Hn Hb. rewrite <- Z.add_nocarry_lor.
  - by rewrite Z.shiftl_mul_pow2.
  - apply Z.bits_inj'. intros i Hi. rewrite Z.land_spec, Z.bits_0.
    destruct (decide (i < n)).
    + rewrite Z.shiftl_spec_low by lia. done.
    + rewrite <- (Z.mod_small b (2 ^ n)) by lia.
      rewrite Z.mod_pow2_bits_high by lia. apply andb_false_r.
Qed.

(** Masking with the complement of [2^k - 1] in a [w]-bit word rounds down. *)
Lemma land_page_mask a k w :
  0 <= k <= w -> fits w a ->
  Z.land a (wrap w (Z.lnot (2 ^ k - 1))) = a - a mod 2 ^ k.
Proof.
  intros [Hk Hw] Ha.
  assert (a - a mod 2 ^ k = Z.shiftl (Z.shiftr a k) k) as ->.
  { rewrite Z.shiftl_mul_pow2, Z.shiftr_div_pow2 by done.
    pose proof (Z.div_mod a (2 ^ k)). lia. }
  apply Z.bits_inj'. intros i Hi. rewrite Z.land_spec. unfold wrap.
  rewrite Z.testbit_mod_pow2 by lia.
  assert (2 ^ k - 1 = Z.ones k) as -> by (rewrite Z.ones_equiv; lia).
  rewrite Z.lnot_spec by done.
  destruct (decide (i < k)).
  - rewrite Z.ones_spec_low by lia. rewrite (Z.shiftl_spec_low _ k i) by lia.
    simpl. by rewrite !andb_false_r.
  - rewrite Z.ones_spec_high by lia. rewrite Z.shiftl_spec by lia.
    rewrite Z.shiftr_spec by lia. replace (i - k + k) with i by lia.
    destruct (Z.ltb_spec i w); simpl; [by rewrite andb_true_r|].
    rewrite andb_false_r. unfold fits in Ha.
    rewrite <- (Z.mod_small a (2 ^ w)) by lia.
    by rewrite Z.mod_pow2_bits_high by lia.
Qed.

(** ** Powers of two *)

Definition is_pow2 (z : Z) : Prop := exists k, 0 <= k /\ z = 2 ^ k.

Lemma is_pow2_pos z : is_pow2 z -> 0 < z.
Proof. intros (k & ? & ->). lia. Qed.

Lemma is_pow2_divide a b : is_pow2 a -> is_pow2 b -> a <= b -> (a | b).
Proof.
  intros (i & Hi & ->) (j & Hj & ->) Hle.
  exists (2 ^ (j - i)). rewrite <- Z.pow_add_r; [f_equal; lia| |lia].
  destruct (decide (i <= j)); [lia|].
  assert (2 ^ j < 2 ^ i) by (apply Z.pow_lt_mono_r; lia). lia.
Qed.

#[export] Hint Resolve is_pow2_pos : word.

(** Division rounding up, as [(a + b - 1) / b] computes it. *)
Definition cdiv (a b : Z) : Z := (a + b - 1) / b.

Lemma cdiv_spec a b : 0 < b -> (cdiv a b - 1) * b < a <= cdiv a b * b.
Proof. intros. unfold cdiv. Z.div_mod_to_equations. nia. Qed.

Lemma cdiv_mul a b : 0 < b -> cdiv (a * b) b = a.
Proof. intros. pose proof (cdiv_spec (a * b) b). nia. Qed.

Lemma cdiv_le a b c : 0 < b -> a <= c * b -> cdiv a b <= c.
Proof. intros. pose proof (cdiv_spec a b). nia. Qed.

Lemma cdiv_mono a a' b : 0 < b -> a <= a' -> cdiv a b <= cdiv a' b.
Proof. intros. unfold cdiv. apply Z.div_le_mono; lia. Qed.

Lemma cdiv_add a c b : 0 < b -> cdiv (c * b + a) b = c + cdiv a b.
Proof.
  intros. unfold cdiv. replace (c * b + a + b - 1) with (a + b - 1 + c * b) by lia.
  rewrite Z.div_add by lia. lia.
Qed.

Lemma cdiv_pos a b : 0 < b -> 0 < a -> 1 <= cdiv a b.
Proof. intros. pose proof (cdiv_spec a b). nia. Qed.

(** ** Arrays indexed by [Z] *)

(** [a[i]] in C; reading outside the array is undefined. *)
Definition zlookup {A} (l : list A) (i : Z) : option A :=
  if decide (0 <= i) then l !! Z.to_nat i else None.

Notation "l @[ i ]" := (zlookup l i) (at level 1, format "l @[ i ]") : ugds_scope.

Lemma zlookup_Some_lt {A} (l : list A) i x :
  zlookup l i = Some x -> 0 <= i < Z.of_nat (length l).
Proof.
  unfold zlookup. case_decide; [|done]. intros Hl. apply lookup_lt_Some in Hl. lia.
Qed.

Lemma zlookup_is_Some {A} (l : list A) i :
  0 <= i < Z.of_nat (length l) -> exists x, zlookup l i = Some x.
Proof.
  intros. unfold zlookup. rewrite decide_True by lia.
  apply lookup_lt_is_Some. lia.
Qed.

Lemma zlookup_nat {A} (l : list A) (n : nat) : zlookup l (Z.of_nat n) = l !! n.
Proof. unfold zlookup. rewrite decide_True by lia. by rewrite Nat2Z.id. Qed.

(** ** Total-correctness reasoning on sequential code

    [wp m Q s]: from [s] the code [m] runs to the end, without undefined behaviour, in a state
    and with a result that satisfy [Q]. *)
Definition wp {S A} (m : M S A) (Q : A -> S -> Prop) (s : S) : Prop :=
  match m s with Some (a, s') => Q a s' | None => False end.

Lemma wp_ret {S A} (a : A) (Q : A -> S -> Prop) s : Q a s -> wp (mret a) Q s.
Proof. done. Qed.

Lemma wp_bind {S A B} (m : M S A) (k : A -> M S B) (Q : B -> S -> Prop) s :
  wp m (fun a => wp (k a) Q) s -> wp (m ≫= k) Q s.
Proof. unfold wp, mbind, M_bind. by destruct (m s) as [[a s']|]. Qed.

Lemma wp_mono {S A} (m : M S A) (P Q : A -> S -> Prop) s :
  wp m P s -> (forall a s', P a s' -> Q a s') -> wp m Q s.
Proof. unfold wp. destruct (m s) as [[a s']|]; [|done]. auto. Qed.

Lemma wp_gets {S A} (f : S -> A) (Q : A -> S -> Prop) s : Q (f s) s -> wp (gets f) Q s.
Proof. done. Qed.

Lemma wp_modify {S} (f : S -> S) (Q : unit -> S -> Prop) s : Q tt (f s) -> wp (modify f) Q s.
Proof. done. Qed.

Lemma wp_of_option {S A} (o : option A) a (Q : A -> S -> Prop) s :
  o = Some a -> Q a s -> wp (of_option o) Q s.
Proof. by intros ->. Qed.

Lemma filter_all {A} (P : A -> Prop) `{!forall x, Decision (P x)} (l : list A) :
  (forall x, x ∈ l -> P x) -> filter P l = l.
Proof.
  induction l as [|x l IH]; intros Hl; [done|].
  rewrite filter_cons_True by (apply Hl; left). f_equal. apply IH. intros y Hy. apply Hl. by right.
Qed.

(** ** Counting the objects of a heap that satisfy a property *)

Definition count {V} (P : V -> Prop) `{!forall v, Decision (P v)} (m : gmap Z V) : Z :=
  Z.of_nat (size (filter (fun kv : Z * V => P kv.2) m)).

Section count.
Context {V : Type} (P : V -> Prop) `{!forall v, Decision (P v)}.

Lemma count_nonneg m : 0 <= count P m.
Proof. unfold count. lia. Qed.

Lemma count_empty : count P ∅ = 0.
Proof. unfold count. by rewrite map_filter_empty, map_size_empty. Qed.

Lemma count_insert_fresh m k v :
  m !! k = None -> count P (<[k := v]> m) = count P m + (if decide (P v) then 1 else 0).
Proof.
  intros Hk. unfold count. case_decide as Hv.
  - rewrite map_filter_insert_True by done. rewrite map_size_insert_None; [lia|].
    rewrite map_lookup_filter, Hk. done.
  - rewrite map_filter_insert_False by done. rewrite delete_id by done. lia.
Qed.

Lemma count_delete m k v :
  m !! k = Some v -> count P (delete k m) = count P m - (if decide (P v) then 1 else 0).
Proof.
  intros Hk. pose proof (count_insert_fresh (delete k m) k v) as Hc.
  rewrite insert_delete_id in Hc by done. rewrite Hc by apply lookup_delete_eq. lia.
Qed.

Lemma count_update m k v v' :
  m !! k = Some v -> (P v <-> P v') -> count P (<[k := v']> m) = count P m.
Proof.
  intros Hk Hiff. rewrite <- insert_delete_eq.
  rewrite count_insert_fresh by apply lookup_delete_eq. rewrite (count_delete m k v Hk).
  repeat case_decide; tauto || lia.
Qed.

Lemma count_zero m k v : count P m = 0 -> m !! k = Some v -> ~ P v.
Proof.
  intros Hz Hk Hv. pose proof (count_delete m k v Hk) as Hd.
  rewrite decide_True in Hd by done. pose proof (count_nonneg (delete k m)). lia.
Qed.

Lemma count_pos m k v : m !! k = Some v -> P v -> 1 <= count P m.
Proof.
  intros Hk Hv. pose proof (count_delete m k v Hk) as Hd.
  rewrite decide_True in Hd by done. pose proof (count_nonneg (delete k m)). lia.
Qed.

Lemma count_ex m : 0 < count P m -> exists k v, m !! k = Some v /\ P v.
Proof.
  unfold count. intros Hpos. set (f := filter _ m) in *.
  destruct (map_choose f) as (k & v & Hkv).
  { intros E. rewrite E, map_size_empty in Hpos. lia. }
  apply map_lookup_filter_Some in Hkv as [Hk Hv]. eauto.
Qed.
End count.

(** ** Permutations of concatenations

    [perm] proves [l1 ++ ... ++ ln ≡ₚ l'] by looking for each part in turn on the right. *)

Lemma perm_step {A} (a l r R : list A) : R ≡ₚ a ++ r -> l ≡ₚ r -> a ++ l ≡ₚ R.
Proof. intros -> ->. done. Qed.
Lemma perm_last {A} (a : list A) : a ≡ₚ a ++ [].
Proof. by rewrite app_nil_r. Qed.
Lemma perm_skip_app {A} (a b l r : list A) : l ≡ₚ a ++ r -> b ++ l ≡ₚ a ++ b ++ r.
Proof. intros ->. by rewrite !(assoc_L (++)), (Permutation_app_comm a b). Qed.
Lemma perm_skip_cons {A} (a : list A) x l r : l ≡ₚ a ++ r -> x :: l ≡ₚ a ++ x :: r.
Proof. intros ->. by rewrite Permutation_middle. Qed.
Lemma perm_step_cons {A} (x : A) l r R : R ≡ₚ [x] ++ r -> l ≡ₚ r -> x :: l ≡ₚ R.
Proof. intros -> ->. done. Qed.

Ltac perm_find :=
  first [ apply Permutation_refl | apply perm_last | apply perm_skip_app; perm_find
        | apply perm_skip_cons; perm_find ].
Ltac perm :=
  rewrite <- ?app_assoc; cbn [app];
  repeat first [ apply Permutation_refl | eapply perm_step_cons; [perm_find|] | eapply perm_step; [perm_find|] ];
  rewrite ?app_nil_r; try apply Permutation_refl.
