(* ===== verification/CString.v ===== *)
(** * Numbers in C strings

    [strtoull] and [atoi] as the tests and the benchmark use them (base 10), and the decimal
    notation they read back. *)
From stdpp Require Import prelude list strings.
From Stdlib Require Import ZArith Lia Ascii.
From S2P Require Import Prelude.
Local Open Scope Z_scope.
Local Open Scope char_scope.

Definition is_space (c : ascii) : bool :=
  let n := Z.of_nat (nat_of_ascii c) in bool_decide (n = 32 \/ 9 <= n <= 13).
Definition digit (c : ascii) : option Z :=
  let n := Z.of_nat (nat_of_ascii c) in if decide (48 <= n <= 57) then Some (n - 48) else None.

Fixpoint skip_space (s : list ascii) : list ascii :=
  match s with c :: s' => if is_space c then skip_space s' else s | [] => [] end.

(** The digits at the beginning. *)
Fixpoint read_digits (acc : Z) (s : list ascii) : Z :=
  match s with
  | c :: s => match digit c with Some d => read_digits (10 * acc + d) s | None => acc end
  | [] => acc
  end.

(** The sign and the number after the white space. *)
Definition read_number (s : list ascii) : bool * Z :=
  match skip_space s with
  | "-" :: s => (true, read_digits 0 s)
  | "+" :: s => (false, read_digits 0 s)
  | s => (false, read_digits 0 s)
  end.

(** A number that is too large gives the largest one, and a minus sign negates the result. *)
Definition strtoull (s : list ascii) : Z :=
  let '(neg, n) := read_number s in
  if decide (2 ^ 64 <= n) then 2 ^ 64 - 1 else if neg then u64 (- n) else n.

(** A number that is no [int] is undefined. *)
Definition atoi (s : list ascii) : option Z :=
  let '(neg, n) := read_number s in
  let n := if neg then - n else n in
  if decide (- 2 ^ 31 <= n < 2 ^ 31) then Some n else None.

(** ** Decimal notation *)

Definition digit_char (d : Z) : ascii := ascii_of_nat (Z.to_nat (48 + d)).

(** There are at most as many decimal digits as binary ones, which is the fuel. *)
Fixpoint decimal_go (fuel : nat) (n : Z) (acc : list ascii) : list ascii :=
  let acc := digit_char (n mod 10) :: acc in
  match fuel with O => acc | S fuel => if decide (n < 10) then acc else decimal_go fuel (n / 10) acc end.
Definition digits_fuel (n : Z) : nat := Z.to_nat (Z.log2 n + 1).
Definition decimal (n : Z) : list ascii := decimal_go (digits_fuel n) n [].

Lemma digit_char_code d : 0 <= d < 10 -> Z.of_nat (nat_of_ascii (digit_char d)) = 48 + d.
Proof. intros Hd. unfold digit_char. rewrite nat_ascii_embedding by lia. lia. Qed.

Lemma digit_digit_char d : 0 <= d < 10 -> digit (digit_char d) = Some d.
Proof. intros Hd. unfold digit. rewrite digit_char_code by done. rewrite decide_True by lia. f_equal. lia. Qed.

Lemma digit_char_plain d : 0 <= d < 10 ->
  is_space (digit_char d) = false /\ digit_char d <> "-" /\ digit_char d <> "+".
Proof.
  intros Hd. pose proof (digit_char_code d Hd) as Hc. split_and!.
  - unfold is_space. rewrite Hc. apply bool_decide_false. lia.
  - intros E. rewrite E in Hc. change (45 = 48 + d) in Hc. lia.
  - intros E. rewrite E in Hc. change (43 = 48 + d) in Hc. lia.
Qed.

(** Digits are read one after the other. *)
Lemma read_decimal_go fuel n acc a :
  0 <= n < 2 ^ Z.of_nat fuel -> exists k, 0 <= k /\
    read_digits a (decimal_go fuel n acc) = read_digits (a * 10 ^ k + n) acc.
Proof.
  revert n acc. induction fuel as [|fuel IH]; intros n acc Hn; cbn [decimal_go].
  - exists 1. split; [lia|]. assert (n = 0) as -> by (change (2 ^ Z.of_nat 0) with 1 in Hn; lia). change (0 mod 10) with 0. cbn [read_digits].
    rewrite digit_digit_char by lia. f_equal. lia.
  - pose proof (Z.mod_pos_bound n 10). case_decide as Hlt.
    + exists 1. split; [lia|]. cbn [read_digits]. rewrite digit_digit_char by lia. rewrite (Z.mod_small n 10) by lia.
      f_equal. lia.
    + destruct (IH (n / 10) (digit_char (n mod 10) :: acc)) as (k & Hk & ->).
      { split; [apply Z.div_pos; lia|]. rewrite Nat2Z.inj_succ, Z.pow_succ_r in Hn by lia. apply Z.div_lt_upper_bound; lia. }
      exists (k + 1). split; [lia|]. cbn [read_digits]. rewrite digit_digit_char by lia. f_equal.
      rewrite Z.pow_add_r by lia. pose proof (Z.div_mod n 10). lia.
Qed.

Lemma decimal_go_head fuel n acc : 0 <= n -> exists d s, 0 <= d < 10 /\ decimal_go fuel n acc = digit_char d :: s.
Proof.
  revert n acc. induction fuel as [|fuel IH]; intros n acc Hn; cbn [decimal_go]; pose proof (Z.mod_pos_bound n 10 ltac:(lia)); [eauto|].
  case_decide; [eauto|]. apply IH, Z.div_pos; lia.
Qed.

Lemma digits_fuel_enough n : 0 <= n -> n < 2 ^ Z.of_nat (digits_fuel n).
Proof.
  intros Hn. unfold digits_fuel. pose proof (Z.log2_nonneg n). rewrite Z2Nat.id by lia.
  destruct (decide (n = 0)) as [->|]; [done|]. by apply Z.log2_spec; lia.
Qed.

(** What is read of a number and whatever follows it. *)
Lemma read_decimal n s :
  0 <= n -> (match s with c :: _ => digit c = None | [] => True end) -> read_number (decimal n ++ s) = (false, n).
Proof.
  intros Hn Hs.
  assert (decimal n ++ s = decimal_go (digits_fuel n) n s) as Happ.
  { unfold decimal. generalize (digits_fuel n) as fuel. intros fuel.
    assert (forall m acc, decimal_go fuel m acc ++ s = decimal_go fuel m (acc ++ s)) as Hgo; [|apply (Hgo n [])].
    induction fuel as [|fuel IH]; intros m acc; cbn [decimal_go]; [done|]. case_decide; [done|]. by rewrite IH. }
  rewrite Happ. unfold read_number.
  destruct (read_decimal_go (digits_fuel n) n s 0) as (k & Hk & Hread);
    [split; [done|]; by apply digits_fuel_enough|].
  assert (read_digits 0 (decimal_go (digits_fuel n) n s) = n) as Hr.
  { rewrite Hread. destruct s as [|c s]; cbn [read_digits]; [lia|]. rewrite Hs. lia. }
  clear Hread Happ. destruct (decimal_go_head (digits_fuel n) n s Hn) as (d & s' & Hd & Hg). rewrite Hg in *.
  destruct (digit_char_plain d Hd) as (Hsp & Hm & Hp). cbn [skip_space]. rewrite Hsp. clear Hsp Hg.
  revert Hm Hp Hr. generalize (digit_char d). intros c Hm Hp Hr.
  destruct c as [[] [] [] [] [] [] [] []]; done || (by rewrite Hr).
Qed.

(** Numbers are read back. *)
Lemma strtoull_decimal n : fits 64 n -> strtoull (decimal n) = n.
Proof.
  intros Hn. unfold strtoull. rewrite <- (app_nil_r (decimal n)), read_decimal by (done || apply Hn).
  rewrite decide_False; [done|]. unfold fits in Hn. lia.
Qed.

Lemma atoi_decimal n : 0 <= n < 2 ^ 31 -> atoi (decimal n) = Some n.
Proof.
  intros Hn. unfold atoi. rewrite <- (app_nil_r (decimal n)), read_decimal by (done || lia). by rewrite decide_True by lia.
Qed.
