(* ===== verification/BenchUtils.v ===== *)
(** * The helpers of the benchmark (src/test/perf/bench_utils.h)

    Reading sizes and options, the duration between two clock readings, and what the report
    computes from the threads' counters.  What is printed of it, and the bandwidth, averages and
    percentiles (floating point), are left out; [getopt_long] is a parameter: its results in
    order. *)
From stdpp Require Import prelude list strings sorting.
From Stdlib Require Import ZArith Lia Ascii.
From S2P Require Import Prelude CString.
Local Open Scope Z_scope.
Local Open Scope char_scope.

Definition KB : Z := Z.shiftl 1 10.
Definition MB : Z := Z.shiftl 1 20.
Definition GB : Z := Z.shiftl 1 30.

(** ** Options *)

Record BenchOpts := mk_opts {
  file_path : option (list ascii);
  bo_length : Z;
  bo_io_size : Z;
  gpu_id : Z;
  num_threads : Z;
  bo_io_depth : Z;
  is_write : bool;
  json : bool;
}.
Definition default_opts : BenchOpts := mk_opts None (1 * GB) (4 * KB) 0 1 1 false false.

(** The unit at the end of a size. *)
Definition unit_of (c : ascii) : option Z :=
  match c with
  | "K" | "k" => Some KB
  | "M" | "m" => Some MB
  | "G" | "g" => Some GB
  | _ => None
  end.

(** [s.back()] of an empty string is undefined. *)
Definition parse_size (str : list ascii) : option Z :=
  unit ← last str;
  Some match unit_of unit with
       | Some mul => u64 (strtoull (removelast str) * mul)
       | None => strtoull str
       end.

(** One iteration of the loop over the options; [inr] goes on, [inl] returns. *)
Definition bench_opt (opt : ascii) (optarg : list ascii) (o : BenchOpts) : option (bool + BenchOpts) :=
  match opt with
  | "f" => Some (inr (mk_opts (Some optarg) (bo_length o) (bo_io_size o) (gpu_id o) (num_threads o) (bo_io_depth o) (is_write o) (json o)))
  | "l" => n ← parse_size optarg; Some (inr (mk_opts (file_path o) n (bo_io_size o) (gpu_id o) (num_threads o) (bo_io_depth o) (is_write o) (json o)))
  | "s" => n ← parse_size optarg; Some (inr (mk_opts (file_path o) (bo_length o) n (gpu_id o) (num_threads o) (bo_io_depth o) (is_write o) (json o)))
  | "d" => n ← atoi optarg; Some (inr (mk_opts (file_path o) (bo_length o) (bo_io_size o) n (num_threads o) (bo_io_depth o) (is_write o) (json o)))
  | "t" => n ← atoi optarg; Some (inr (mk_opts (file_path o) (bo_length o) (bo_io_size o) (gpu_id o) n (bo_io_depth o) (is_write o) (json o)))
  | "i" => n ← atoi optarg; Some (inr (mk_opts (file_path o) (bo_length o) (bo_io_size o) (gpu_id o) (num_threads o) n (is_write o) (json o)))
  | "m" => Some (inr (mk_opts (file_path o) (bo_length o) (bo_io_size o) (gpu_id o) (num_threads o) (bo_io_depth o)
                       (bool_decide (optarg = ["w"; "r"; "i"; "t"; "e"])) (json o)))
  | "j" => Some (inr (mk_opts (file_path o) (bo_length o) (bo_io_size o) (gpu_id o) (num_threads o) (bo_io_depth o) (is_write o) true))
  | _ => Some (inl false)
  end.

(** The result and the options; [got] is what [getopt_long] returns before [-1]. *)
Fixpoint parse_bench_opts (got : list (ascii * list ascii)) (o : BenchOpts) : option (bool * BenchOpts) :=
  match got with
  | [] => Some (bool_decide (is_Some (file_path o)), o)
  | (opt, optarg) :: got =>
      r ← bench_opt opt optarg o;
      match r with inl b => Some (b, o) | inr o => parse_bench_opts got o end
  end.

(** ** Times and totals *)

Record timespec := mk_ts { tv_sec : Z; tv_nsec : Z }.

(** The differences are converted to [unsigned long long]. *)
Definition ts_diff_ns (a b : timespec) : Z :=
  u64 (u64 (u64 (tv_sec b - tv_sec a) * 1000000000) + u64 (tv_nsec b - tv_nsec a)).

(** What the report reads of a thread. *)
Record ThreadData := mk_thread { io_operations : Z; total_io_time : Z; latency_vec : list Z }.

Definition long_long_add (a b : Z) : option Z :=
  if decide (- 2 ^ 63 <= a + b < 2 ^ 63) then Some (a + b) else None.

(** The loop over the threads; the sum of the times is signed and must not overflow. *)
Fixpoint report_totals (threads : list ThreadData) (ops time : Z) (lat : list Z) : option (Z * Z * list Z) :=
  match threads with
  | [] => Some (ops, time, lat)
  | t :: threads =>
      time ← long_long_add time (total_io_time t);
      report_totals threads (u64 (ops + io_operations t)) time (lat ++ latency_vec t)
  end.
Definition report_results (threads : list ThreadData) : option (Z * Z * list Z) :=
  '(ops, time, lat) ← report_totals threads 0 0 [];
  Some (ops, time, merge_sort Z.le lat).

(** ** What they compute *)

Lemma digit_unit c mul : unit_of c = Some mul -> digit c = None.
Proof. intros Hu. destruct c as [[] [] [] [] [] [] [] []]; try discriminate Hu; reflexivity. Qed.

Lemma decimal_last n : 0 <= n -> exists c, last (decimal n) = Some c /\ unit_of c = None.
Proof.
  intros Hn. unfold decimal.
  assert (forall fuel m acc, 0 <= m -> (acc = [] \/ exists c, last acc = Some c /\ unit_of c = None) ->
    exists c, last (decimal_go fuel m acc) = Some c /\ unit_of c = None) as Hgo; [|apply Hgo; [done|by left]].
  assert (forall d acc, 0 <= d < 10 -> acc = [] \/ (exists c, last acc = Some c /\ unit_of c = None) ->
    exists c, last (digit_char d :: acc) = Some c /\ unit_of c = None) as Hcons.
  { intros d acc Hd [->|(c & Hc & Hu)].
    - exists (digit_char d). split; [done|]. destruct (unit_of (digit_char d)) eqn:E; [|done].
      apply digit_unit in E. by rewrite digit_digit_char in E.
    - exists c. by rewrite last_cons, Hc. }
  induction fuel as [|fuel IH]; intros m acc Hm Hacc; cbn [decimal_go]; pose proof (Z.mod_pos_bound m 10 ltac:(lia));
    [by apply Hcons|]. case_decide; [by apply Hcons|]. apply IH; [apply Z.div_pos; lia|]. right. by apply Hcons.
Qed.

(** A size that was written in decimal, with or without a unit, is read as that many bytes,
    modulo 2^64. *)
Theorem parse_size_decimal n unit mul :
  fits 64 n -> unit_of unit = Some mul ->
  parse_size (decimal n) = Some n /\ parse_size (decimal n ++ [unit]) = Some (u64 (n * mul)).
Proof.
  intros Hn Hu. unfold parse_size. split.
  - destruct (decimal_last n) as (c & -> & Hc); [apply Hn|]. simpl. rewrite Hc. by rewrite strtoull_decimal.
  - rewrite last_snoc. simpl. rewrite Hu, removelast_last. by rewrite strtoull_decimal.
Qed.

(** The empty string is not checked for, a size of 2^34 GiB wraps to 0, and a negative size is a
    huge one. *)
Theorem parse_size_edges :
  parse_size [] = None /\ parse_size (decimal (2 ^ 34) ++ ["G"]) = Some 0 /\
  parse_size ("-" :: decimal 1 ++ ["K"]) = Some (2 ^ 64 - 1024) /\ parse_size ["K"] = Some 0.
Proof. split_and!; vm_compute; reflexivity. Qed.

(** When the options are accepted there is a file. *)
Theorem bench_opts_file got o o' : parse_bench_opts got o = Some (true, o') -> is_Some (file_path o').
Proof.
  revert o. induction got as [|[opt arg] got IH]; intros o; cbn [parse_bench_opts].
  - intros [= Hb <-]. by apply bool_decide_eq_true in Hb.
  - destruct (bench_opt opt arg o) as [[b|o1]|] eqn:E; simpl; [|apply IH|done]. intros [= -> <-].
    destruct opt as [[] [] [] [] [] [] [] []]; simpl in E; try discriminate E;
      destruct (parse_size arg), (atoi arg); discriminate E.
Qed.

(** The time between two readings of a monotonic clock is exact below 2^64 ns (584 years). *)
Theorem ts_diff_exact a b :
  0 <= tv_nsec a < 10 ^ 9 -> 0 <= tv_nsec b < 10 ^ 9 ->
  let d := (tv_sec b - tv_sec a) * 10 ^ 9 + (tv_nsec b - tv_nsec a) in
  0 <= d < 2 ^ 64 -> ts_diff_ns a b = d.
Proof.
  intros Ha Hb d Hd. unfold ts_diff_ns, wrap in *. subst d.
  rewrite Z.mul_mod_idemp_l, Z.add_mod_idemp_l, Z.add_mod_idemp_r by lia. apply Z.mod_small. lia.
Qed.

(** The latencies of all threads, in order. *)
Theorem report_latencies threads ops time lat :
  report_results threads = Some (ops, time, lat) ->
  Sorted Z.le lat /\ lat ≡ₚ threads ≫= latency_vec /\
  ops = u64 (foldr (fun t => Z.add (io_operations t)) 0 threads) /\
  time = foldr (fun t => Z.add (total_io_time t)) 0 threads.
Proof.
  assert (forall ops0 time0 lat0 r, report_totals threads ops0 time0 lat0 = Some r ->
    r.2 = lat0 ++ (threads ≫= latency_vec) /\
    r.1.1 mod 2 ^ 64 = (ops0 + foldr (fun t => Z.add (io_operations t)) 0 threads) mod 2 ^ 64 /\
    (threads = [] \/ 0 <= r.1.1 < 2 ^ 64) /\ (threads = [] -> r.1.1 = ops0) /\
    r.1.2 = time0 + foldr (fun t => Z.add (total_io_time t)) 0 threads) as Hgo.
  { induction threads as [|t threads IH]; intros ops0 time0 lat0 r; cbn [report_totals foldr].
    - intros [= <-]. simpl. rewrite app_nil_r. split_and!; [done|f_equal; lia|by left|done|lia].
    - unfold long_long_add. case_decide; [|done]. simpl. intros Hr. apply IH in Hr as (-> & Hm & Hb & He & ->).
      rewrite <- app_assoc. split_and!; [done| | |done|lia].
      + rewrite Hm. unfold wrap. rewrite Z.add_mod_idemp_l by lia. f_equal. lia.
      + right. destruct threads as [|t' ts]; [rewrite He by done; by apply wrap_range|]. by destruct Hb. }
  unfold report_results. destruct (report_totals threads 0 0 []) as [[[ops1 time1] lat1]|] eqn:E; simpl; [|done].
  intros [= <- <- <-]. apply Hgo in E. simpl in E. destruct E as (-> & Hm & Hb & He & ->). split_and!.
  - apply Sorted_merge_sort. intros x y. lia.
  - apply merge_sort_Permutation.
  - unfold wrap. rewrite Z.add_0_l in Hm. rewrite <- Hm. destruct Hb as [->|Hb]; [by rewrite He|]. by rewrite Z.mod_small.
  - lia.
Qed.
