(* ===== verification/NvmTypes.v ===== *)
(** * Data types of libnvm (include/libnvm/nvm_types.h)

    One record per C struct, with the fields in the source's order.  A pointer
    is the [Z] value of its address, [NULL] being 0. *)
From S2P Require Import Prelude.
From stdpp Require Import prelude list.
From Stdlib Require Import ZArith Lia.
Local Open Scope Z_scope.

Definition NULL : Z := 0.

(** ** Controller handle *)

Record nvm_ctrl_t := mk_ctrl {
  ctrl_page_size : Z;   (* size_t   *)
  ctrl_dstrd : Z;       (* uint8_t  *)
  ctrl_timeout : Z;     (* uint64_t, milliseconds *)
  ctrl_max_qs : Z;      (* uint32_t *)
  ctrl_mm_size : Z;     (* size_t   *)
  ctrl_mm_ptr : Z;      (* volatile void* *)
}.

(** ** DMA mapping descriptor *)

Record nvm_dma_t := mk_dma {
  dma_vaddr : Z;        (* void*  *)
  dma_local : bool;     (* int8_t *)
  dma_contiguous : bool;(* int8_t *)
  dma_page_size : Z;    (* size_t *)
  dma_n_ioaddrs : Z;    (* size_t *)
  dma_ioaddrs : list Z; (* uint64_t[] *)
}.

(** ** Queue descriptor

    The members that no code of the library reads or writes ([tail_copy],
    [head_copy], [tickets], [head_mark], [tail_mark], [cid], [pos_locks],
    [clean_cid], [qs_minus_1], [qs_log2] and the padding) are left out. *)

Record nvm_queue_t := mk_queue {
  q_head_lock : Z;      (* std::atomic<uint32_t> *)
  q_tail_lock : Z;
  q_head : Z;
  q_tail : Z;
  q_in_ticket : Z;
  q_cid_ticket : Z;
  q_no : Z;             (* uint16_t *)
  q_es : Z;             (* uint16_t *)
  q_qs : Z;             (* uint32_t *)
  q_phase : Z;          (* int8_t   *)
  q_local : bool;       (* int8_t   *)
  q_last : Z;           (* uint32_t *)
  q_db : Z;             (* volatile uint32_t* *)
  q_vaddr : Z;          (* volatile void* *)
  q_ioaddr : Z;         (* uint64_t *)
}.

Definition q_set_ptrs (q : nvm_queue_t) (head tail phase last : Z) : nvm_queue_t :=
  mk_queue (q_head_lock q) (q_tail_lock q) head tail (q_in_ticket q) (q_cid_ticket q)
    (q_no q) (q_es q) (q_qs q) phase (q_local q) last (q_db q) (q_vaddr q) (q_ioaddr q).

Definition q_set_db (q : nvm_queue_t) (db : Z) : nvm_queue_t :=
  mk_queue (q_head_lock q) (q_tail_lock q) (q_head q) (q_tail q) (q_in_ticket q) (q_cid_ticket q)
    (q_no q) (q_es q) (q_qs q) (q_phase q) (q_local q) (q_last q) db (q_vaddr q) (q_ioaddr q).

(** ** PRP list descriptor *)

Record nvm_prp_list_t := mk_prp_list {
  prp_vaddr : Z;        (* volatile void* *)
  prp_local : Z;        (* int16_t *)
  prp_page_size : Z;    (* size_t *)
  prp_ioaddr : Z;       (* uint64_t *)
}.

(** ** Queue entries: four and sixteen double words *)

Record nvm_cpl_t := mk_cpl { cpl_dword : list Z }.
Record nvm_cmd_t := mk_cmd { cmd_dword : list Z }.

(** [sizeof] of the two entry types; the attributes align them to the same values. *)
Definition sizeof_cpl : Z := 16.
Definition sizeof_cmd : Z := 64.

Definition cpl_ok (c : nvm_cpl_t) : Prop :=
  length (cpl_dword c) = 4%nat /\ Forall (fits 32) (cpl_dword c).
Definition cmd_ok (c : nvm_cmd_t) : Prop :=
  length (cmd_dword c) = 16%nat /\ Forall (fits 32) (cmd_dword c).

(** [memset(&x, 0, sizeof(x))] *)
Definition cmd_zero : nvm_cmd_t := mk_cmd (replicate 16 0).
Definition cpl_zero : nvm_cpl_t := mk_cpl (replicate 4 0).

(** [x->dword[i]] and [x->dword[i] = v] for a constant [i] inside the array. *)
Definition cpl_get (c : nvm_cpl_t) (i : nat) : Z := nth i (cpl_dword c) 0.
Definition cmd_get (c : nvm_cmd_t) (i : nat) : Z := nth i (cmd_dword c) 0.
Definition cmd_set (c : nvm_cmd_t) (i : nat) (v : Z) : nvm_cmd_t :=
  mk_cmd (<[i := v]> (cmd_dword c)).

(** ** Identify results *)

Record nvm_ctrl_info := mk_ctrl_info {
  ci_nvme_version : Z;
  ci_page_size : Z;
  ci_db_stride : Z;
  ci_timeout : Z;
  ci_contiguous : Z;
  ci_max_entries : Z;   (* uint16_t *)
  ci_pci_vendor : list Z;
  ci_serial_no : list Z;
  ci_model_no : list Z;
  ci_firmware : list Z;
  ci_max_data_size : Z;
  ci_max_data_pages : Z;
  ci_cq_entry_size : Z;
  ci_sq_entry_size : Z;
  ci_max_out_cmds : Z;
  ci_max_n_ns : Z;
}.

Record nvm_ns_info := mk_ns_info {
  ni_ns_id : Z;
  ni_size : Z;
  ni_capacity : Z;
  ni_utilization : Z;
  ni_lba_data_size : Z;
  ni_metadata_size : Z;
}.

(** ** Lemmas *)

(** A DMA descriptor whose array is as long as its count says. *)
Definition dma_ok (d : nvm_dma_t) : Prop :=
  dma_n_ioaddrs d = Z.of_nat (length (dma_ioaddrs d)) /\ dma_n_ioaddrs d < 2 ^ 64 /\
  Forall (fits 64) (dma_ioaddrs d).

Lemma cmd_get_set c i j v :
  (i < length (cmd_dword c))%nat ->
  cmd_get (cmd_set c i v) j = if decide (i = j) then v else cmd_get c j.
Proof.
  intros Hi. unfold cmd_get, cmd_set. simpl. rewrite !nth_lookup.
  case_decide; subst; [by rewrite list_lookup_insert_eq|by rewrite list_lookup_insert_ne].
Qed.

Lemma cmd_set_length c i v :
  length (cmd_dword (cmd_set c i v)) = length (cmd_dword c).
Proof. apply length_insert. Qed.

Lemma cmd_set_ok c i v : cmd_ok c -> fits 32 v -> cmd_ok (cmd_set c i v).
Proof.
  intros [Hl Hf] Hv. split; [by rewrite cmd_set_length|].
  unfold cmd_set. simpl. by apply Forall_insert.
Qed.

Lemma cmd_get_fits c i : cmd_ok c -> fits 32 (cmd_get c i).
Proof.
  intros [_ Hf]. unfold cmd_get. rewrite nth_lookup.
  destruct (cmd_dword c !! i) eqn:E; simpl; [|unfold fits; lia].
  by eapply Forall_lookup_1 in E.
Qed.

Lemma cpl_get_fits c i : cpl_ok c -> fits 32 (cpl_get c i).
Proof.
  intros [_ Hf]. unfold cpl_get. rewrite nth_lookup.
  destruct (cpl_dword c !! i) eqn:E; simpl; [|unfold fits; lia].
  by eapply Forall_lookup_1 in E.
Qed.

Lemma cmd_zero_ok : cmd_ok cmd_zero.
Proof. split; [done|]. apply Forall_replicate. unfold fits. lia. Qed.

#[export] Hint Resolve cmd_set_ok cmd_get_fits cpl_get_fits cmd_zero_ok : word.
