(* ===== verification/NvmUtil.v ===== *)
(** * Utility macros and controller registers

    include/libnvm/nvm_util.h, src/libnvm/internal/lib_util.h and
    src/libnvm/internal/regs.h: bit fields, page arithmetic, entry fields,
    register fields and doorbell addresses. *)
From S2P Require Import Prelude NvmTypes.
From stdpp Require Import prelude list numbers.
From Stdlib Require Import ZArith Lia.
Local Open Scope Z_scope.

(** ** Bit fields *)

Definition _NVM_MASK (num_bits : Z) : Z := u64 (u64 (Z.shiftl 1 num_bits) - 1).

Definition _NVM_MASK_PART (hi lo : Z) : Z := u64 (_NVM_MASK (hi + 1) - _NVM_MASK lo).

Definition _RB (v hi lo : Z) : Z := Z.shiftr (Z.land v (_NVM_MASK_PART hi lo)) lo.

(** [w] is the width of the C type of [v]: the shift happens in that type. *)
Definition _WB (w v hi lo : Z) : Z :=
  Z.land (wrap w (Z.shiftl v lo)) (_NVM_MASK_PART hi lo).

(** ** Block, page and address arithmetic (all in [uint64_t]) *)

Definition NVM_PAGE_TO_BLOCK (page_size block_size pageno : Z) : Z :=
  u64 (page_size * pageno) / block_size.
Definition NVM_BLOCK_TO_PAGE (page_size block_size blockno : Z) : Z :=
  u64 (block_size * blockno) / page_size.
Definition NVM_PAGE_MASK (page_size : Z) : Z := u64 (Z.lnot (page_size - 1)).
Definition NVM_ADDR_MASK (addr page_size : Z) : Z := Z.land addr (NVM_PAGE_MASK page_size).
Definition NVM_PAGE_ALIGN (size page_size : Z) : Z :=
  Z.land (u64 (u64 (size + page_size) - 1)) (NVM_PAGE_MASK page_size).
Definition NVM_ADDR_OFFSET (addr page_size pageno : Z) : Z :=
  u64 (addr + u64 (page_size * pageno)).
Definition NVM_PTR_OFFSET (ptr page_size pageno : Z) : Z :=
  u64 (ptr + u64 (page_size * pageno)).
Definition NVM_CTRL_ALIGN (ctrl : nvm_ctrl_t) (size : Z) : Z :=
  NVM_PAGE_ALIGN size (ctrl_page_size ctrl).
Definition NVM_CTRL_PAGES (ctrl : nvm_ctrl_t) (size : Z) : Z :=
  NVM_CTRL_ALIGN ctrl size / ctrl_page_size ctrl.
Definition NVM_DMA_ALIGN (dma : nvm_dma_t) (size : Z) : Z :=
  NVM_PAGE_ALIGN size (dma_page_size dma).
Definition NVM_DMA_OFFSET (dma : nvm_dma_t) (pageno : Z) : Z :=
  NVM_PTR_OFFSET (dma_vaddr dma) (dma_page_size dma) pageno.
Definition NVM_SQ_PAGES (ctrl : nvm_ctrl_t) (qs : Z) : Z :=
  u64 (u16 (qs - 1) * sizeof_cmd) / ctrl_page_size ctrl + 1.
Definition NVM_CQ_PAGES (ctrl : nvm_ctrl_t) (qs : Z) : Z :=
  u64 (u16 (qs - 1) * sizeof_cpl) / ctrl_page_size ctrl + 1.
Definition NVM_SQ_SIZE (ctrl : nvm_ctrl_t) (num_pages : Z) : Z :=
  ctrl_page_size ctrl / sizeof_cmd.
Definition NVM_CQ_SIZE (ctrl : nvm_ctrl_t) (num_pages : Z) : Z :=
  ctrl_page_size ctrl / sizeof_cpl.

(** ** Fields of queue entries

    [_REG(p, offs, bits)] is a little-endian load at a byte offset. *)

Definition entry_bytes (dwords : list Z) : list Z :=
  mjoin (Z_to_little_endian 4 8 <$> dwords).
Definition _REG (bytes : list Z) (offs bits : Z) : Z :=
  little_endian_to_Z 8 (take (Z.to_nat (bits / 8)) (drop (Z.to_nat offs) bytes)).

Definition NVM_CMD_CID (c : nvm_cmd_t) : Z := _REG (entry_bytes (cmd_dword c)) 2 16.
Definition NVM_CMD_NSID (c : nvm_cmd_t) : Z := _REG (entry_bytes (cmd_dword c)) 1 32.
Definition NVM_CPL_CID (c : nvm_cpl_t) : Z := _REG (entry_bytes (cpl_dword c)) 12 16.
Definition NVM_CPL_SQHD (c : nvm_cpl_t) : Z := _REG (entry_bytes (cpl_dword c)) 8 16.
Definition NVM_CPL_SQID (c : nvm_cpl_t) : Z := _REG (entry_bytes (cpl_dword c)) 10 16.
Definition NVM_CPL_SF (c : nvm_cpl_t) : Z := _REG (entry_bytes (cpl_dword c)) 14 16.
Definition NVM_CPL_STATUS (c : nvm_cpl_t) : Z := NVM_CPL_SF c.

(** [*NVM_CMD_CID(&c) = v]: the store into the upper half of the first double word. *)
Definition NVM_CMD_CID_store (c : nvm_cmd_t) (v : Z) : nvm_cmd_t :=
  cmd_set c 0 (Z.lor (Z.shiftl (u16 v) 16) (Z.land (cmd_get c 0) (2 ^ 16 - 1))).

Definition NVM_DEFAULT_CID (sq : nvm_queue_t) : Z :=
  u16 (u32 (q_tail sq + (if decide (q_phase sq = 0) then 1 else 0) * q_qs sq)).

(** ** lib_util.h *)

Definition _MIN (a b : Z) : Z := if decide (a <= b) then a else b.
Definition _MAX (a b : Z) : Z := if decide (a > b) then a else b.

(** [while (n > 0) { ++count; n >>= 1; } return count - 1;]  32 turns empty a 32-bit word. *)
Fixpoint b2log_loop (fuel : nat) (count n : Z) : Z :=
  match fuel with
  | O => count
  | S fuel => if decide (n > 0) then b2log_loop fuel (u32 (count + 1)) (Z.shiftr n 1) else count
  end.
Definition _nvm_b2log (n : Z) : Z := u32 (b2log_loop 33 0 (u32 n) - 1).

Definition _nvm_delay_remain (remaining_nanoseconds : Z) : Z :=
  if decide (remaining_nanoseconds = 0) then 0
  else u64 (remaining_nanoseconds - _MIN 1000000 remaining_nanoseconds).

(** [page_size] is what [sysconf(_SC_PAGESIZE)] returned. *)
Definition _nvm_host_page_size (page_size : Z) : Z :=
  if decide (page_size < 0) then 0 else page_size.

(** ** regs.h: register offsets *)

Definition CAP_offs : Z := 0x00.
Definition VER_offs : Z := 0x08.
Definition CC_offs : Z := 0x14.
Definition CSTS_offs : Z := 0x1c.
Definition AQA_offs : Z := 0x24.
Definition ASQ_offs : Z := 0x28.
Definition ACQ_offs : Z := 0x30.

(** ** regs.h: fields *)

Definition CAP_MPSMAX (cap : Z) : Z := _RB cap 55 52.
Definition CAP_MPSMIN (cap : Z) : Z := _RB cap 51 48.
Definition CAP_DSTRD (cap : Z) : Z := _RB cap 35 32.
Definition CAP_TO (cap : Z) : Z := _RB cap 31 24.
Definition CAP_CQR (cap : Z) : Z := _RB cap 16 16.
Definition CAP_MQES (cap : Z) : Z := _RB cap 15 0.
Definition CSTS_RDY (csts : Z) : Z := _RB csts 0 0.
Definition CC_IOCQES (v : Z) : Z := _WB 32 v 23 20.
Definition CC_IOSQES (v : Z) : Z := _WB 32 v 19 16.
Definition CC_MPS (v : Z) : Z := _WB 32 v 10 7.
Definition CC_CSS (v : Z) : Z := _WB 32 0 3 1.
Definition CC_EN (v : Z) : Z := _WB 32 v 0 0.
Definition AQA_ACQS (v : Z) : Z := _WB 32 v 27 16.
Definition AQA_ASQS (v : Z) : Z := _WB 32 v 11 0.

(** nvm_ctrl.h: the size of BAR0 that [nvm_ctrl_init] maps. *)
Definition NVM_CTRL_MEM_MINSIZE : Z := 0x2000.

Definition SQ_DBL (p y dstrd : Z) : Z := p + 0x1000 + (2 * y) * Z.shiftl 4 dstrd.
Definition CQ_DBL (p y dstrd : Z) : Z := p + 0x1000 + (2 * y + 1) * Z.shiftl 4 dstrd.

(** ** Bit-field lemmas *)

Lemma nvm_mask_val n : 0 <= n <= 63 -> _NVM_MASK n = 2 ^ n - 1.
Proof.
  intros. unfold _NVM_MASK. rewrite Z.shiftl_mul_pow2, Z.mul_1_l by lia.
  assert (2 ^ n <= 2 ^ 63) by (apply Z.pow_le_mono_r; lia).
  word_lia.
Qed.

Lemma nvm_mask_part_val hi lo :
  0 <= lo <= hi -> hi <= 62 -> _NVM_MASK_PART hi lo = Z.shiftl (Z.ones (hi + 1 - lo)) lo.
Proof.
  intros. unfold _NVM_MASK_PART. rewrite !nvm_mask_val by lia.
  rewrite Z.shiftl_mul_pow2, Z.ones_equiv by lia.
  replace (hi + 1) with (hi + 1 - lo + lo) at 1 by lia.
  rewrite Z.pow_add_r by lia.
  assert (2 ^ (hi + 1 - lo) * 2 ^ lo <= 2 ^ 63).
  { rewrite <- Z.pow_add_r by lia. apply Z.pow_le_mono_r; lia. }
  assert (0 < 2 ^ (hi + 1 - lo)) by lia. assert (0 < 2 ^ lo) by lia.
  rewrite wrap_small by (unfold fits; nia). nia.
Qed.

(** [_RB] extracts the bits [lo..hi]. *)
Lemma rb_spec v hi lo :
  0 <= lo <= hi -> hi <= 62 -> _RB v hi lo = (v / 2 ^ lo) mod 2 ^ (hi + 1 - lo).
Proof.
  intros. unfold _RB. rewrite nvm_mask_part_val by lia.
  rewrite <- Z.land_ones, <- Z.shiftr_div_pow2 by lia.
  apply Z.bits_inj'. intros i Hi.
  rewrite Z.shiftr_spec, !Z.land_spec, Z.shiftl_spec, Z.shiftr_spec by lia.
  do 2 f_equal. lia.
Qed.

Lemma rb_nonneg v hi lo : 0 <= lo <= hi -> hi <= 62 -> 0 <= _RB v hi lo.
Proof. intros. rewrite rb_spec by lia. apply Z.mod_pos_bound. lia. Qed.

(** [_WB] places the low bits of a value at [lo..hi]. *)
Lemma wb_spec w v hi lo :
  0 <= lo <= hi -> hi <= 62 -> hi < w ->
  _WB w v hi lo = v mod 2 ^ (hi + 1 - lo) * 2 ^ lo.
Proof.
  intros. unfold _WB, wrap. rewrite nvm_mask_part_val by lia.
  rewrite <- Z.shiftl_mul_pow2, <- (Z.land_ones v) by lia.
  apply Z.bits_inj'. intros i Hi.
  rewrite Z.land_spec, Z.testbit_mod_pow2 by lia.
  destruct (decide (i < lo)).
  { rewrite !(Z.shiftl_spec_low _ lo i) by lia. by rewrite !andb_false_r. }
  rewrite !Z.shiftl_spec, Z.land_spec by lia.
  destruct (decide (i <= hi)).
  - rewrite (proj2 (Z.ltb_lt i w)) by lia. done.
  - rewrite (Z.ones_spec_high _ (i - lo)) by lia. by rewrite !andb_false_r.
Qed.

Lemma le_bytes_val z :
  Z_to_little_endian 4 8 z =
    [z mod 2 ^ 8; (z / 2 ^ 8) mod 2 ^ 8; (z / 2 ^ 16) mod 2 ^ 8; (z / 2 ^ 24) mod 2 ^ 8].
Proof.
  unfold Z_to_little_endian. cbn -[Z.land Z.ones Z.shiftr Z.pow].
  rewrite !Z.shiftr_shiftr by lia. rewrite !Z.land_ones by lia.
  by rewrite !Z.shiftr_div_pow2 by lia.
Qed.

Lemma le16_val a b :
  0 <= a < 2 ^ 8 -> 0 <= b < 2 ^ 8 -> little_endian_to_Z 8 [a; b] = a + b * 2 ^ 8.
Proof.
  intros. simpl. rewrite Z.shiftl_0_l, Z.lor_0_r, Z.lor_comm.
  rewrite lor_shiftl_add by lia. lia.
Qed.

Lemma le16_lo z : little_endian_to_Z 8 [z mod 2 ^ 8; (z / 2 ^ 8) mod 2 ^ 8] = z mod 2 ^ 16.
Proof.
  rewrite le16_val by (apply Z.mod_pos_bound; lia).
  change (2 ^ 8) with 256. change (2 ^ 16) with 65536. Z.div_mod_to_equations. lia.
Qed.

Lemma le16_hi z :
  fits 32 z ->
  little_endian_to_Z 8 [(z / 2 ^ 16) mod 2 ^ 8; (z / 2 ^ 24) mod 2 ^ 8] = z / 2 ^ 16.
Proof.
  intros Hz. rewrite le16_val by (apply Z.mod_pos_bound; lia).
  unfold fits in Hz. change (2 ^ 32) with 4294967296 in Hz.
  change (2 ^ 8) with 256. change (2 ^ 16) with 65536. change (2 ^ 24) with 16777216.
  Z.div_mod_to_equations. lia.
Qed.

Lemma entry_bytes_cons z l : entry_bytes (z :: l) = Z_to_little_endian 4 8 z ++ entry_bytes l.
Proof. done. Qed.

(** The field macros of nvm_util.h read the NVMe fields of an entry. *)
Ltac entry_field :=
  unfold _REG; rewrite ?entry_bytes_cons, ?le_bytes_val;
  cbn [app take drop Z.to_nat Z.div Pos.to_nat Pos.iter_op Nat.add cpl_get cmd_get];
  cbn -[Z.pow Z.div Z.modulo little_endian_to_Z].

Lemma cpl_dwords c : cpl_ok c -> exists d0 d1 d2 d3, cpl_dword c = [d0; d1; d2; d3].
Proof.
  intros [Hl _]. destruct (cpl_dword c) as [|d0 [|d1 [|d2 [|d3 [|]]]]]; try done. eauto.
Qed.

Lemma nvm_cpl_status_val c : cpl_ok c -> NVM_CPL_STATUS c = cpl_get c 3 / 2 ^ 16.
Proof.
  intros Hc. pose proof (cpl_get_fits c 3 Hc) as Hf. revert Hf.
  destruct (cpl_dwords c Hc) as (d0&d1&d2&d3&E).
  unfold NVM_CPL_STATUS, NVM_CPL_SF, cpl_get. rewrite E. simpl nth. intros Hf.
  entry_field. by apply le16_hi.
Qed.

Lemma nvm_cpl_cid_val c : cpl_ok c -> NVM_CPL_CID c = cpl_get c 3 mod 2 ^ 16.
Proof.
  intros Hc. destruct (cpl_dwords c Hc) as (d0&d1&d2&d3&E).
  unfold NVM_CPL_CID, cpl_get. rewrite E. simpl nth. entry_field. apply le16_lo.
Qed.

Lemma nvm_cmd_cid_val c : cmd_ok c -> NVM_CMD_CID c = cmd_get c 0 / 2 ^ 16.
Proof.
  intros Hc. pose proof (cmd_get_fits c 0 Hc) as Hf. revert Hf. destruct Hc as [Hl _].
  unfold NVM_CMD_CID, cmd_get. destruct (cmd_dword c) as [|d0 l]; [done|]. simpl nth.
  intros Hf. entry_field. by apply le16_hi.
Qed.

Lemma cmd_cid_store_val c v :
  cmd_ok c -> cmd_get (NVM_CMD_CID_store c v) 0 = u16 v * 2 ^ 16 + cmd_get c 0 mod 2 ^ 16.
Proof.
  intros [Hl _]. unfold NVM_CMD_CID_store.
  rewrite cmd_get_set by lia. rewrite decide_True by done.
  rewrite land_mask, lor_shiftl_add by (try apply Z.mod_pos_bound; lia). done.
Qed.

Lemma cmd_cid_store_ok c v : cmd_ok c -> cmd_ok (NVM_CMD_CID_store c v).
Proof.
  intros Hc. apply cmd_set_ok; [done|].
  rewrite land_mask, lor_shiftl_add by (try apply Z.mod_pos_bound; lia).
  pose proof (wrap_range 16 v). pose proof (Z.mod_pos_bound (cmd_get c 0) (2 ^ 16)).
  unfold fits. lia.
Qed.

Lemma cmd_cid_store_get c v :
  cmd_ok c -> NVM_CMD_CID (NVM_CMD_CID_store c v) = u16 v.
Proof.
  intros Hc. rewrite nvm_cmd_cid_val by by apply cmd_cid_store_ok.
  rewrite cmd_cid_store_val by done.
  rewrite Z.div_add_l by lia. rewrite (Z.div_small (_ mod _)); [lia|].
  apply Z.mod_pos_bound. lia.
Qed.

Lemma cmd_cid_store_other c v i :
  cmd_ok c -> i <> 0%nat -> cmd_get (NVM_CMD_CID_store c v) i = cmd_get c i.
Proof.
  intros [Hl _] Hi. unfold NVM_CMD_CID_store. rewrite cmd_get_set by lia.
  by rewrite decide_False by done.
Qed.

(** ** Page arithmetic *)

Lemma page_mask_val a k :
  0 <= k <= 64 -> fits 64 a -> Z.land a (NVM_PAGE_MASK (2 ^ k)) = a - a mod 2 ^ k.
Proof. intros. by apply land_page_mask. Qed.

Lemma page_align_val size ps :
  is_pow2 ps -> 0 <= size -> size + ps <= 2 ^ 64 ->
  NVM_PAGE_ALIGN size ps = cdiv size ps * ps.
Proof.
  intros (k & Hk & ->) Hs Hle.
  assert (0 < 2 ^ k) by lia.
  assert (k <= 64).
  { destruct (decide (k <= 64)); [done|].
    assert (2 ^ 64 < 2 ^ k) by (apply Z.pow_lt_mono_r; lia). lia. }
  unfold NVM_PAGE_ALIGN.
  assert (u64 (u64 (size + 2 ^ k) - 1) = size + 2 ^ k - 1) as ->.
  { destruct (decide (size + 2 ^ k = 2 ^ 64)) as [->|]; [done|]. word_lia. }
  rewrite page_mask_val by (unfold fits; lia).
  unfold cdiv. pose proof (Z.div_mod (size + 2 ^ k - 1) (2 ^ k)). lia.
Qed.

(** [NVM_PAGE_ALIGN] rounds up to a multiple of the page size, and [NVM_CTRL_PAGES] counts
    the controller pages that hold [size] bytes, unless [size] is within one page of 2^64. *)
Lemma ctrl_pages_val c size :
  is_pow2 (ctrl_page_size c) -> 0 <= size -> size + ctrl_page_size c <= 2 ^ 64 ->
  NVM_CTRL_PAGES c size = cdiv size (ctrl_page_size c).
Proof.
  intros Hp ? ?. unfold NVM_CTRL_PAGES, NVM_CTRL_ALIGN.
  rewrite page_align_val by done. apply Z.div_mul. apply is_pow2_pos in Hp. lia.
Qed.

(** The pages [NVM_SQ_PAGES] and [NVM_CQ_PAGES] count are exactly those that [qs] entries
    of [es] bytes occupy. *)
Lemma queue_pages_val ps es qs :
  0 < es -> (es | ps) -> 0 < ps -> 2 <= qs <= 0x10000 -> es <= 2 ^ 16 ->
  u64 (u16 (qs - 1) * es) / ps + 1 = cdiv (qs * es) ps.
Proof.
  intros Hes [c ->] Hps Hqs Hle. assert (0 < c) by nia.
  rewrite (wrap_small 16) by (unfold fits; lia).
  rewrite wrap_small by (unfold fits; nia).
  unfold cdiv. rewrite Z.div_mul_cancel_r by lia.
  replace (qs * es + c * es - 1) with ((qs + c - 1) * es + (es - 1)) by lia.
  rewrite (Z.mul_comm c es), <- Z.div_div by lia.
  rewrite Z.div_add_l, (Z.div_small (es - 1) es) by lia.
  replace (qs + c - 1 + 0) with (qs - 1 + 1 * c) by lia.
  rewrite Z.div_add by lia. done.
Qed.

Lemma b2log_loop_val fuel count n :
  0 <= n < 2 ^ Z.of_nat fuel -> 0 <= count -> count + Z.of_nat fuel < 2 ^ 32 ->
  b2log_loop fuel count n = if decide (n = 0) then count else count + Z.log2 n + 1.
Proof.
  revert count n. induction fuel as [|fuel IH]; intros count n Hn Hc Hf.
  { simpl in *. by rewrite decide_True by lia. }
  cbn [b2log_loop]. rewrite Nat2Z.inj_succ, Z.pow_succ_r in Hn by lia.
  destruct (decide (n > 0)); [|by rewrite decide_True by lia].
  rewrite (decide_False (P := n = 0)) by lia.
  rewrite wrap_small by (unfold fits; lia).
  rewrite Z.shiftr_div_pow2 by lia. change (2 ^ 1) with 2.
  rewrite IH; [|Z.div_mod_to_equations; lia|lia|lia].
  case_decide.
  - assert (n = 1) as -> by (Z.div_mod_to_equations; lia). simpl. lia.
  - assert (Z.log2 n = Z.succ (Z.log2 (n / 2))) as ->; [|lia].
    change (n / 2) with (n / 2 ^ 1). rewrite <- Z.shiftr_div_pow2 by lia.
    rewrite Z.log2_shiftr by lia.
    assert (1 <= Z.log2 n); [|lia].
    change 1 with (Z.log2 2). apply Z.log2_le_mono. Z.div_mod_to_equations. lia.
Qed.

Lemma b2log_val n : 0 < n < 2 ^ 32 -> _nvm_b2log n = Z.log2 n.
Proof.
  intros. unfold _nvm_b2log. rewrite (wrap_small 32 n) by (unfold fits; lia).
  rewrite b2log_loop_val by lia.
  rewrite decide_False by lia.
  assert (Z.log2 n < 32) by (apply Z.log2_lt_pow2; lia).
  pose proof (Z.log2_nonneg n). word_lia.
Qed.

(** One millisecond at a time, the remaining time reaches zero. *)
Lemma delay_remain_lt r : 0 < r < 2 ^ 64 -> 0 <= _nvm_delay_remain r < r.
Proof.
  intros. unfold _nvm_delay_remain, _MIN. rewrite decide_False by lia.
  case_decide; word_lia.
Qed.

(** ** Doorbells *)

Definition dbl_addr (p : Z) (cq : bool) (y dstrd : Z) : Z :=
  if cq then CQ_DBL p y dstrd else SQ_DBL p y dstrd.

Lemma dbl_addr_val p cq y dstrd :
  0 <= dstrd -> dbl_addr p cq y dstrd = p + 0x1000 + (2 * y + Z.b2z cq) * (4 * 2 ^ dstrd).
Proof.
  intros. destruct cq; unfold dbl_addr, CQ_DBL, SQ_DBL; rewrite Z.shiftl_mul_pow2 by done;
    simpl Z.b2z; lia.
Qed.

(** with the sixteen I/O queue pairs and the admin pair of the library, every doorbell lies
    in the 8 KiB of BAR0 that [nvm_ctrl_init] maps exactly when the doorbell stride CAP.DSTRD is
    at most 4 (64 bytes); the library never checks the stride. *)
Theorem doorbells_mapped p dstrd :
  0 <= dstrd <= 15 ->
  (forall cq y, 0 <= y <= 16 ->
     p + 0x1000 <= dbl_addr p cq y dstrd /\ dbl_addr p cq y dstrd + 4 <= p + NVM_CTRL_MEM_MINSIZE)
  <-> dstrd <= 4.
Proof.
  intros Hd. unfold NVM_CTRL_MEM_MINSIZE. split.
  - intros H. destruct (decide (dstrd <= 4)); [done|].
    destruct (H true 16) as [_ H']; [lia|]. rewrite dbl_addr_val in H' by lia.
    assert (2 ^ 5 <= 2 ^ dstrd) by (apply Z.pow_le_mono_r; lia). simpl Z.b2z in H'. lia.
  - intros Hle cq y Hy. rewrite dbl_addr_val by lia.
    assert (2 ^ 0 <= 2 ^ dstrd <= 2 ^ 4) by (split; apply Z.pow_le_mono_r; lia).
    destruct cq; simpl Z.b2z; nia.
Qed.

(** two queues never share a doorbell register, whatever the stride. *)
Theorem doorbells_distinct p dstrd cq1 y1 cq2 y2 :
  0 <= dstrd -> dbl_addr p cq1 y1 dstrd = dbl_addr p cq2 y2 dstrd -> cq1 = cq2 /\ y1 = y2.
Proof.
  intros Hd. rewrite !dbl_addr_val by done. intros Heq.
  assert (0 < 2 ^ dstrd) by lia.
  assert (2 * y1 + Z.b2z cq1 = 2 * y2 + Z.b2z cq2) by nia.
  destruct cq1, cq2; simpl Z.b2z in *; split; done || lia.
Qed.

(** [_nvm_delay_remain] takes one millisecond, or what is left. *)
Lemma delay_remain_turns nsecs :
  0 < nsecs < 2 ^ 64 -> 0 <= _nvm_delay_remain nsecs < 2 ^ 64 /\
  cdiv nsecs 1000000 = cdiv (_nvm_delay_remain nsecs) 1000000 + 1.
Proof.
  intros H. pose proof (delay_remain_lt nsecs H). split; [lia|].
  unfold _nvm_delay_remain, _MIN. rewrite decide_False by lia.
  destruct (decide (1000000 <= nsecs)).
  - rewrite wrap_small by (unfold fits; lia).
    replace nsecs with (1 * 1000000 + (nsecs - 1000000)) at 1 by lia.
    rewrite cdiv_add by lia. lia.
  - rewrite wrap_small by (unfold fits; lia). rewrite Z.sub_diag.
    unfold cdiv. Z.div_mod_to_equations. lia.
Qed.
