(* ===== verification/NvmError.v ===== *)
(** * Status codes and their messages

    include/libnvm/nvm_error.h and src/libnvm/error.cpp: a library status is 0, a
    positive errno, or the negated status code type and status code of a completion. *)
From S2P Require Import Prelude NvmTypes NvmUtil.
From stdpp Require Import prelude list strings.
From Stdlib Require Import ZArith Lia.
Local Open Scope Z_scope.

(** ** nvm_error.h *)

Definition NVM_ERR_SCT (cpl : nvm_cpl_t) : Z := u8 (_RB (NVM_CPL_STATUS cpl) 11 9).
Definition NVM_ERR_SC (cpl : nvm_cpl_t) : Z := u8 (_RB (NVM_CPL_STATUS cpl) 8 1).
Definition NVM_ERR_DNR (cpl : nvm_cpl_t) : bool :=
  bool_decide (_RB (NVM_CPL_STATUS cpl) 15 15 <> 0).
Definition NVM_ERR_MORE (cpl : nvm_cpl_t) : bool :=
  bool_decide (_RB (NVM_CPL_STATUS cpl) 14 14 <> 0).

(** [cpl] is a pointer in the source: [None] is [NULL]. *)
Definition NVM_ERR_STATUS (cpl : option nvm_cpl_t) : Z :=
  match cpl with
  | Some c => - Z.lor (Z.shiftl (NVM_ERR_SCT c) 8) (NVM_ERR_SC c)
  | None => 0
  end.
Definition NVM_ERR_OK (cpl : nvm_cpl_t) : bool :=
  bool_decide (NVM_ERR_SCT cpl = 0) && bool_decide (NVM_ERR_SC cpl = 0).
Definition NVM_ERR_PACK (cpl : option nvm_cpl_t) (err : Z) : Z :=
  if decide (err <> 0) then err else NVM_ERR_STATUS cpl.
Definition NVM_ERR_UNPACK_ERRNO (status : Z) : Z := if decide (status > 0) then status else 0.
Definition NVM_ERR_UNPACK_SCT (status : Z) : Z :=
  if decide (status < 0) then Z.land (Z.shiftr (- status) 8) 0xff else 0.
Definition NVM_ERR_UNPACK_SC (status : Z) : Z :=
  if decide (status < 0) then Z.land (- status) 0xff else 0.
Definition nvm_ok (status : Z) : bool := bool_decide (status = 0).

(** ** error.cpp: message tables *)

Definition generic_status : list string :=
  [ "Success";
    "Invalid command opcode";
    "Invalid field in command";
    "Command ID conflict";
    "Data transfer error";
    "Commands aborted due to power loss notification";
    "Internal error";
    "Command abort requested";
    "Command aborted due to SQ deletion";
    "Command aborted due to failed fused command";
    "Command aborted due to missing fused command";
    "Invalid namespace or format";
    "Command sequence error";
    "Invalid SGL segment descriptor";
    "Invalid number of SQL descriptors";
    "Data SGL length invalid";
    "Metadata SGL length invalid";
    "SGL descriptor type invalid";
    "Invalid use of controller memory buffer";
    "PRP offset invalid";
    "Atomic write unit exceeded";
    "Operation denied";
    "SGL offset invalid";
    "Unknown/reserved";
    "Host identifier inconsistent format";
    "Keep alive timer expired";
    "Keep alive timer invalid";
    "Command aborted due to preempt and abort";
    "Sanitize failed";
    "Sanitize in progress";
    "SGL data block granularity invalid";
    "Command not supported for queue in CMB" ]%string.

Definition generic_status_nvm_commands : list string :=
  [ "LBA out of range";
    "Capacity exceeded";
    "Namespace not ready";
    "Reservation conflict";
    "Format in progress" ]%string.

Definition command_specific_status : list string :=
  [ "Completion queue invalid";
    "Invalid queue identifier";
    "Invalid queue size";
    "Abort command limit exceeded";
    "Unknown/reserved";
    "Asynchronous event request limit exceeded";
    "Invalid firmware slot";
    "Invalid firmware image";
    "Invalid interrupt vector";
    "Invalid log page";
    "Invalid format";
    "Firmware activation requires conventional reset";
    "Invalid queue deletion";
    "Feature identifier not saveable";
    "Feature not changeable";
    "Feature not namespace specific";
    "Firmware activation requires NVM subsystem reset";
    "Firmware activation requires reset";
    "Firmware activation requires maximum time violation";
    "Firmware activation prohibited";
    "Overlapping range";
    "Namespace insufficient capacity";
    "Namespace identifier unavailable";
    "Unknown/reserved";
    "Namespace already attached";
    "Namespace is private";
    "Namespace not attached";
    "Thin provisioning not supported";
    "Controller list invalid";
    "Device self-test in progress";
    "Boot partition write prohibited";
    "Invalid controller identifier";
    "Invalid secondary controller state";
    "Invalid number of controller resources";
    "Invalid resource identifier" ]%string.

Definition command_specific_status_nvm_commands : list string :=
  [ "Conflicting attributes";
    "Invalid protection information";
    "Attempted write to read only range" ]%string.

Definition media_and_data_integrity_nvm_commands : list string :=
  [ "Write fault";
    "Unrecovered read error";
    "End-to-end guard check error";
    "End-to-end application tag check error";
    "End-to-end reference tag check error";
    "Compare failure";
    "Access denied";
    "Deallocated or unwritten logical block" ]%string.

(** [table[i]] in C: [None] is a read outside the table. *)
Definition lookup_string (status_code_type status_code : Z) : option string :=
  if decide (status_code_type = 0) then
    if decide (status_code < 0x20) then zlookup generic_status status_code
    else if decide (0x80 <= status_code /\ status_code <= 0x84)
    then zlookup generic_status_nvm_commands (status_code - 0x80)
    else Some "Unknown generic error"%string
  else if decide (status_code_type = 1) then
    if decide (status_code < 0x23) then zlookup command_specific_status status_code
    else if decide (0x80 <= status_code /\ status_code <= 0x82)
    then zlookup command_specific_status_nvm_commands (status_code - 0x80)
    else Some "Unknown command specific error"%string
  else if decide (status_code_type = 2) then
    if decide (0x80 <= status_code /\ status_code <= 0x87)
    then zlookup media_and_data_integrity_nvm_commands (status_code - 0x80)
    else Some "Unknown media or data integrity error"%string
  else Some "Unknown status code type"%string.

(** [strerror] is the C library's; the status words are truncated to [uint8_t]. *)
Definition nvm_strerror (strerror : Z -> string) (status : Z) : option string :=
  let err := NVM_ERR_UNPACK_ERRNO status in
  let sct := u8 (NVM_ERR_UNPACK_SCT status) in
  let sc := u8 (NVM_ERR_UNPACK_SC status) in
  if decide (sct <> 0 \/ sc <> 0) then lookup_string sct sc
  else Some (strerror err).

(** ** Lemmas *)

Lemma err_sct_range c : cpl_ok c -> 0 <= NVM_ERR_SCT c < 8.
Proof.
  intros Hc. unfold NVM_ERR_SCT. rewrite rb_spec by lia.
  pose proof (Z.mod_pos_bound (NVM_CPL_STATUS c / 2 ^ 9) (2 ^ 3)).
  change (11 + 1 - 9) with 3. word_lia.
Qed.

Lemma err_sc_range c : 0 <= NVM_ERR_SC c < 256.
Proof. unfold NVM_ERR_SC. apply (wrap_range 8). lia. Qed.

Lemma err_status_val c :
  cpl_ok c -> NVM_ERR_STATUS (Some c) = - (NVM_ERR_SCT c * 256 + NVM_ERR_SC c).
Proof.
  intros Hc. pose proof (err_sc_range c). simpl. rewrite lor_shiftl_add by lia. lia.
Qed.

(** The status do_io tests, [(dword[3] >> 17) & 0x7FF], is the same status word. *)
Lemma err_status_dword c :
  cpl_ok c -> NVM_ERR_SCT c * 256 + NVM_ERR_SC c = (cpl_get c 3 / 2 ^ 17) mod 2 ^ 11.
Proof.
  intros Hc. unfold NVM_ERR_SCT, NVM_ERR_SC. rewrite !rb_spec by lia.
  rewrite nvm_cpl_status_val by done. generalize (cpl_get c 3). intros d.
  change (11 + 1 - 9) with 3. change (8 + 1 - 1) with 8.
  pose proof (Z.mod_pos_bound (d / 2 ^ 16 / 2 ^ 9) (2 ^ 3)).
  pose proof (Z.mod_pos_bound (d / 2 ^ 16 / 2 ^ 1) (2 ^ 8)).
  rewrite !wrap_small by (unfold fits; lia).
  rewrite !Z.div_div by lia.
  change (2 ^ 16 * 2 ^ 9) with (2 ^ 17 * 2 ^ 8). change (2 ^ 16 * 2 ^ 1) with (2 ^ 17).
  rewrite <- Z.div_div by lia. generalize (d / 2 ^ 17). intros e.
  change (2 ^ 3) with 8. change (2 ^ 8) with 256. change (2 ^ 11) with 2048.
  Z.div_mod_to_equations. lia.
Qed.

(** The packed status tells the three outcomes apart: it is 0 exactly when there is no errno
    and the completion reports success; unpacking gives back the errno, or the status code type
    and status code of the completion. *)
Theorem err_pack_roundtrip c err :
  cpl_ok c -> 0 <= err ->
  (NVM_ERR_PACK (Some c) err = 0 <-> err = 0 /\ NVM_ERR_OK c = true) /\
  NVM_ERR_UNPACK_ERRNO (NVM_ERR_PACK (Some c) err) = err /\
  (err = 0 ->
     NVM_ERR_UNPACK_SCT (NVM_ERR_PACK (Some c) err) = NVM_ERR_SCT c /\
     NVM_ERR_UNPACK_SC (NVM_ERR_PACK (Some c) err) = NVM_ERR_SC c).
Proof.
  intros Hc He. pose proof (err_sct_range c Hc). pose proof (err_sc_range c).
  unfold NVM_ERR_PACK, NVM_ERR_OK.
  rewrite andb_true_iff, !bool_decide_eq_true.
  case_decide.
  { unfold NVM_ERR_UNPACK_ERRNO. rewrite decide_True by lia. repeat split; lia. }
  rewrite err_status_val by done.
  unfold NVM_ERR_UNPACK_ERRNO, NVM_ERR_UNPACK_SCT, NVM_ERR_UNPACK_SC.
  rewrite decide_False by lia.
  split; [lia|]. split; [lia|]. intros _.
  case_decide; [|lia].
  rewrite Z.opp_involutive. change 0xff with (2 ^ 8 - 1).
  rewrite !land_mask, Z.shiftr_div_pow2 by lia. change (2 ^ 8) with 256.
  Z.div_mod_to_equations. lia.
Qed.

(** every status has a message: the lookups stay inside the message tables for each of the
    2^16 pairs of status code type and status code. *)
Theorem strerror_total strerror status : is_Some (nvm_strerror strerror status).
Proof.
  unfold nvm_strerror, lookup_string.
  set (sct := u8 _). set (sc := u8 _).
  assert (0 <= sc < 256) by (apply (wrap_range 8); lia).
  repeat case_decide; try done; apply zlookup_is_Some; simpl; lia.
Qed.
