(* ===== verification/NvmQueue.v ===== *)
(** * Submission and completion queues

    include/libnvm/nvm_queue.h and src/libnvm/queue.cpp.  Queue memory that the
    controller also accesses is a function from addresses to entries; a doorbell
    write is returned as [Some value]. *)
From S2P Require Import Prelude NvmTypes NvmUtil.
From stdpp Require Import prelude functions list.
From Stdlib Require Import ZArith Lia.
Local Open Scope Z_scope.

(** [!phase] on an [int8_t]. *)
Definition not_phase (p : Z) : Z := if decide (p = 0) then 1 else 0.

(** ** queue.cpp *)

Definition nvm_queue_clear (queue : nvm_queue_t) (ctrl : nvm_ctrl_t) (cq : bool)
    (no qs : Z) (local : bool) (vaddr ioaddr : Z) : Z * nvm_queue_t :=
  if decide (qs < 2 \/ qs > 0x10000 \/ qs > ctrl_max_qs ctrl) then (EINVAL, queue)
  else
    (0, {| q_head_lock := 0; q_tail_lock := 0; q_head := 0; q_tail := 0;
           q_in_ticket := 0; q_cid_ticket := 0;
           q_no := no; q_es := (if cq then sizeof_cpl else sizeof_cmd); q_qs := qs;
           q_phase := 1; q_local := local; q_last := 0;
           q_db := (if cq then CQ_DBL (ctrl_mm_ptr ctrl) no (ctrl_dstrd ctrl)
                    else SQ_DBL (ctrl_mm_ptr ctrl) no (ctrl_dstrd ctrl));
           q_vaddr := vaddr; q_ioaddr := ioaddr |}).

Definition nvm_queue_reset (queue : nvm_queue_t) : nvm_queue_t :=
  q_set_ptrs queue 0 0 1 0.

(** ** nvm_queue.h: submission queue *)

Definition nvm_sq_enqueue (sq : nvm_queue_t) : option Z * nvm_queue_t :=
  if decide (u16 (u32 (q_tail sq - q_head sq)) mod q_qs sq = u32 (q_qs sq - 1))
  then (None, sq)
  else
    let cmd := q_vaddr sq + u32 (q_es sq * q_tail sq) in
    let tail := u32 (q_tail sq + 1) in
    (Some cmd,
     if decide (tail = q_qs sq)
     then q_set_ptrs sq (q_head sq) 0 (not_phase (q_phase sq)) (q_last sq)
     else q_set_ptrs sq (q_head sq) tail (q_phase sq) (q_last sq)).

Definition nvm_sq_submit (sq : nvm_queue_t) : option Z * nvm_queue_t :=
  if decide (q_last sq <> q_tail sq /\ q_db sq <> NULL)
  then (Some (q_tail sq), q_set_ptrs sq (q_head sq) (q_tail sq) (q_phase sq) (q_tail sq))
  else (None, sq).

Definition nvm_sq_update (sq : nvm_queue_t) : nvm_queue_t :=
  if decide (q_db sq <> NULL) then
    let head := u32 (q_head sq + 1) in
    q_set_ptrs sq (if decide (head = q_qs sq) then 0 else head)
      (q_tail sq) (q_phase sq) (q_last sq)
  else sq.

(** ** nvm_queue.h: completion queue *)

Definition nvm_cq_poll (load : Z -> nvm_cpl_t) (cq : nvm_queue_t) : option nvm_cpl_t :=
  let cpl := load (q_vaddr cq + u32 (q_es cq * q_head cq)) in
  if decide (bool_decide (_RB (NVM_CPL_STATUS cpl) 0 0 = 0) <> bool_decide (q_phase cq = 0))
  then None
  else Some cpl.

Definition nvm_cq_dequeue (load : Z -> nvm_cpl_t) (cq : nvm_queue_t)
    : option nvm_cpl_t * nvm_queue_t :=
  match nvm_cq_poll load cq with
  | None => (None, cq)
  | Some cpl =>
      let head := u32 (q_head cq + 1) in
      (Some cpl,
       if decide (head = q_qs cq)
       then q_set_ptrs cq 0 (q_tail cq) (not_phase (q_phase cq)) (q_last cq)
       else q_set_ptrs cq head (q_tail cq) (q_phase cq) (q_last cq))
  end.

Definition nvm_cq_update (cq : nvm_queue_t) : option Z * nvm_queue_t :=
  if decide (q_last cq <> q_head cq /\ q_db cq <> NULL)
  then (Some (q_head cq), q_set_ptrs cq (q_head cq) (q_head cq) (q_phase cq) (q_head cq))
  else (None, cq).

(** [nvm_cq_dequeue_block] polls, sleeping a millisecond between two polls.  [E] is the
    environment, [mem e] the queue memory it shows and [tick] what it does meanwhile. *)
Section dequeue_block.
Context {E : Type} (mem : E -> Z -> nvm_cpl_t) (tick : E -> E).

Definition dequeue_block_turn (st : Z * nvm_queue_t * E)
    : (Z * nvm_queue_t * E) + (option nvm_cpl_t * nvm_queue_t * E) :=
  let '(nsecs, cq, e) := st in
  if decide (nsecs > 0) then
    let nsecs' := _nvm_delay_remain nsecs in
    let e' := tick e in
    match nvm_cq_dequeue (mem e') cq with
    | (Some cpl, cq') => inr (Some cpl, cq', e')
    | (None, cq') => inl (nsecs', cq', e')
    end
  else inr (None, cq, e).

(** The loop runs at most once per started millisecond, plus the turn that finds 0. *)
Definition nvm_cq_dequeue_block (cq : nvm_queue_t) (timeout : Z) (e : E)
    : option (option nvm_cpl_t * nvm_queue_t * E) :=
  let nsecs := u64 (timeout * 1000000) in
  match nvm_cq_dequeue (mem e) cq with
  | (Some cpl, cq') => Some (Some cpl, cq', e)
  | (None, cq') =>
      match iter_until (Z.to_pos (nsecs / 1000000 + 2)) dequeue_block_turn (nsecs, cq', e) with
      | inr r => Some r
      | inl _ => None
      end
  end.
End dequeue_block.

(** ** Well-formed descriptors *)

Record queue_wf (q : nvm_queue_t) : Prop := {
  wf_qs : 2 <= q_qs q <= 0x10000;
  wf_head : 0 <= q_head q < q_qs q;
  wf_tail : 0 <= q_tail q < q_qs q;
  wf_last : 0 <= q_last q < q_qs q;
  wf_phase : q_phase q = 0 \/ q_phase q = 1;
  wf_es : q_es q = sizeof_cpl \/ q_es q = sizeof_cmd;
}.

Lemma queue_clear_wf q ctrl cq no qs local vaddr ioaddr q' :
  nvm_queue_clear q ctrl cq no qs local vaddr ioaddr = (0, q') -> queue_wf q'.
Proof.
  unfold nvm_queue_clear. case_decide; intros; simplify_eq.
  constructor; simpl; try lia. destruct cq; auto.
Qed.

(** Advancing an index around the ring. *)
Definition ring_next (qs i : Z) : Z := (i + 1) mod qs.

Lemma ring_next_wrap qs i :
  2 <= qs <= 0x10000 -> 0 <= i < qs ->
  (if decide (u32 (i + 1) = qs) then 0 else u32 (i + 1)) = ring_next qs i.
Proof.
  intros. unfold ring_next. rewrite wrap_small by (unfold fits; lia).
  case_decide; [subst; by rewrite Z.mod_same by lia|by rewrite Z.mod_small by lia].
Qed.

Lemma ring_next_range qs i : 0 < qs -> 0 <= ring_next qs i < qs.
Proof. intros. apply Z.mod_pos_bound. lia. Qed.

Lemma ring_next_ne qs t : 2 <= qs -> 0 <= t < qs -> ring_next qs t <> t.
Proof.
  intros Hqs Ht. unfold ring_next. destruct (decide (t + 1 = qs)) as [Heq|].
  - rewrite Heq, Z.mod_same by lia. lia.
  - rewrite Z.mod_small by lia. lia.
Qed.

(** The number of commands between head and tail. *)
Definition sq_count (q : nvm_queue_t) : Z := (q_tail q - q_head q) mod q_qs q.

Lemma sq_count_range q : queue_wf q -> 0 <= sq_count q < q_qs q.
Proof. intros []. apply Z.mod_pos_bound. lia. Qed.

(** With a ring size that divides 2^16 the 16-bit subtraction of the source is the
    number of commands in the ring. *)
Lemma sq_full_test q :
  queue_wf q -> (q_qs q | 2 ^ 16) ->
  u16 (u32 (q_tail q - q_head q)) mod q_qs q = sq_count q.
Proof.
  intros [] Hdiv. unfold sq_count. rewrite wrap_wrap by lia. unfold wrap.
  by apply Z.mod_mod_divide.
Qed.

(** ** The submission queue refines a bounded FIFO *)

Module SqFifo.

(** The address of slot [i]. *)
Definition slot (q : nvm_queue_t) (i : Z) : Z := q_vaddr q + q_es q * i.

(** [pending] is what the ring holds from head to tail. *)
Definition sq_rep (q : nvm_queue_t) (mem : Z -> nvm_cmd_t) (pending : list nvm_cmd_t) : Prop :=
  queue_wf q /\ Z.of_nat (length pending) = sq_count q /\
  forall i c, pending !! i = Some c -> mem (slot q ((q_head q + Z.of_nat i) mod q_qs q)) = c.

(** What the callers do: take a slot and build the command in it. *)
Definition sq_push (q : nvm_queue_t) (mem : Z -> nvm_cmd_t) (c : nvm_cmd_t)
    : option (nvm_queue_t * (Z -> nvm_cmd_t)) :=
  match nvm_sq_enqueue q with
  | (Some a, q') => Some (q', <[a := c]> mem)
  | (None, _) => None
  end.

Lemma slot_inj q i j : queue_wf q -> slot q i = slot q j -> i = j.
Proof. intros [_ _ _ _ _ Hes] Heq. unfold slot, sizeof_cpl, sizeof_cmd in *. nia. Qed.

Lemma slot_addr q i :
  queue_wf q -> 0 <= i < q_qs q -> q_vaddr q + u32 (q_es q * i) = slot q i.
Proof.
  intros [? _ _ _ _ Hes] Hi. unfold slot, sizeof_cpl, sizeof_cmd in *.
  rewrite wrap_small by (unfold fits; nia). done.
Qed.

(** The successful branch of [nvm_sq_enqueue]. *)
Lemma sq_enqueue_Some q a q' :
  queue_wf q -> nvm_sq_enqueue q = (Some a, q') ->
  a = slot q (q_tail q) /\ queue_wf q' /\
  q_tail q' = ring_next (q_qs q) (q_tail q) /\ q_head q' = q_head q /\ q_qs q' = q_qs q /\
  q_vaddr q' = q_vaddr q /\ q_es q' = q_es q /\ q_db q' = q_db q /\ q_last q' = q_last q /\
  q_no q' = q_no q /\
  q_phase q' = (if decide (q_tail q + 1 = q_qs q) then not_phase (q_phase q) else q_phase q).
Proof.
  intros Hwf. pose proof Hwf as [? ? Ht ? Hp ?]. unfold nvm_sq_enqueue.
  rewrite slot_addr by done.
  destruct (decide (_ mod _ = _)) as [|Hnf]; [intros [=]|clear Hnf].
  pose proof (ring_next_wrap (q_qs q) (q_tail q) ltac:(lia) ltac:(lia)) as Hr.
  pose proof (ring_next_range (q_qs q) (q_tail q)).
  rewrite wrap_small in * by (unfold fits; lia).
  destruct (decide (q_tail q + 1 = q_qs q)); intros [= <- <-]; simpl;
    (split; [done|split; [|by rewrite <- Hr]]); constructor; simpl; done || lia || idtac.
  unfold not_phase. case_decide; auto.
Qed.

Lemma sq_enqueue_None q :
  queue_wf q -> (q_qs q | 2 ^ 16) ->
  (fst (nvm_sq_enqueue q) = None <-> sq_count q = q_qs q - 1).
Proof.
  intros Hwf Hd. pose proof (sq_full_test q Hwf Hd) as Ht. destruct Hwf.
  unfold nvm_sq_enqueue. rewrite Ht, wrap_small by (unfold fits; lia).
  case_decide; simpl; split; done || lia.
Qed.

Lemma sq_count_next q q' :
  queue_wf q -> q_qs q' = q_qs q -> q_head q' = q_head q ->
  q_tail q' = ring_next (q_qs q) (q_tail q) -> sq_count q <> q_qs q - 1 ->
  sq_count q' = sq_count q + 1.
Proof.
  intros Hwf Hq Hh Ht Hne. pose proof (sq_count_range q Hwf). destruct Hwf.
  unfold sq_count in *. rewrite Hq, Hh, Ht. unfold ring_next.
  rewrite Zminus_mod_idemp_l.
  replace (q_tail q + 1 - q_head q) with (q_tail q - q_head q + 1) by lia.
  rewrite <- Zplus_mod_idemp_l. apply Z.mod_small. lia.
Qed.

(** The tail slot follows the pending commands. *)
Lemma tail_slot q : queue_wf q -> (q_head q + sq_count q) mod q_qs q = q_tail q.
Proof.
  intros []. unfold sq_count. rewrite Zplus_mod_idemp_r.
  replace (q_head q + (q_tail q - q_head q)) with (q_tail q) by lia.
  by apply Z.mod_small.
Qed.

Lemma ring_offset_inj qs h i j :
  0 <= i < qs -> 0 <= j < qs -> (h + i) mod qs = (h + j) mod qs -> i = j.
Proof.
  intros Hi Hj Heq.
  assert ((i - j) mod qs = 0) as Hm.
  { replace (i - j) with ((h + i) - (h + j)) by lia.
    rewrite Zminus_mod, Heq, Z.sub_diag. apply Zmod_0_l. }
  apply Z.mod_divide in Hm as [k Hk]; [|lia].
  destruct (Z.lt_trichotomy k 0) as [|[->|]]; nia.
Qed.


Lemma sq_update_Some q :
  queue_wf q -> q_db q <> NULL -> 0 < sq_count q ->
  queue_wf (nvm_sq_update q) /\ sq_count (nvm_sq_update q) = sq_count q - 1 /\
  nvm_sq_update q =
    q_set_ptrs q (ring_next (q_qs q) (q_head q)) (q_tail q) (q_phase q) (q_last q).
Proof.
  intros Hwf Hdb Hc. pose proof Hwf as []. pose proof (sq_count_range q Hwf).
  unfold nvm_sq_update. rewrite decide_True by done. rewrite ring_next_wrap by done.
  pose proof (ring_next_range (q_qs q) (q_head q)).
  split; [constructor; simpl; done || lia|]. split; [|done].
  unfold sq_count in *. simpl. unfold ring_next. rewrite Zminus_mod_idemp_r.
  replace (q_tail q - (q_head q + 1)) with (q_tail q - q_head q - 1) by lia.
  rewrite Zminus_mod. rewrite (Z.mod_small 1), Z.mod_small by lia. done.
Qed.

(** a completion consumes the oldest command: [nvm_sq_update] pops the FIFO. *)
Theorem sq_update_refines q mem c pending :
  sq_rep q mem (c :: pending) -> q_db q <> NULL -> sq_rep (nvm_sq_update q) mem pending.
Proof.
  intros (Hwf & Hlen & Hmem) Hdb. simpl in Hlen.
  destruct (sq_update_Some q Hwf Hdb) as (Hwf' & Hc & Hq); [lia|].
  split; [done|]. split; [lia|].
  intros i d Hi. rewrite <- (Hmem (S i) d Hi), Hq. unfold slot, ring_next. simpl.
  rewrite Zplus_mod_idemp_l. do 4 f_equal. lia.
Qed.

End SqFifo.

(** ** Queue sizes that do not divide 2^16 *)

(** When the tail has wrapped behind the head and the ring is full, [nvm_sq_enqueue] notices
    it exactly when the queue size divides 2^16.  [nvm_queue_clear] accepts every size from 2 to
    65536, so a queue of, say, 48 entries hands out the slot of a command in flight. *)
Theorem sq_full_detected_iff q :
  queue_wf q -> q_tail q < q_head q -> sq_count q = q_qs q - 1 ->
  fst (nvm_sq_enqueue q) = None <-> (q_qs q | 2 ^ 16).
Proof.
  intros Hwf Hlt Hfull. split; [|intros Hd; by apply SqFifo.sq_enqueue_None].
  destruct Hwf. unfold sq_count in Hfull.
  rewrite <- (Z.mod_add _ 1) in Hfull by lia. rewrite Z.mod_small in Hfull by lia.
  unfold nvm_sq_enqueue. rewrite wrap_wrap by lia.
  assert (q_tail q - q_head q = -1) as -> by lia.
  change (u16 (-1)) with (2 ^ 16 - 1). rewrite (wrap_small 32) by (unfold fits; lia).
  destruct (decide (_ mod _ = _)) as [Hm|]; [intros _|done].
  apply Z.mod_divide; [lia|].
  replace (2 ^ 16) with (2 ^ 16 - 1 + 1) by lia. rewrite <- Zplus_mod_idemp_l, Hm.
  replace (q_qs q - 1 + 1) with (q_qs q) by lia. by apply Z.mod_same; lia.
Qed.

(** ** Command identifiers *)

Module SqCid.

(** The queue with the identifiers of the commands in flight, oldest first; a command gets
    [NVM_DEFAULT_CID] right after its slot was taken, as in [execute_command] and [do_io]. *)
Inductive sq_step : nvm_queue_t * list Z -> nvm_queue_t * list Z -> Prop :=
  | step_enqueue q cids a q' :
      nvm_sq_enqueue q = (Some a, q') -> sq_step (q, cids) (q', cids ++ [NVM_DEFAULT_CID q'])
  | step_submit q cids :
      sq_step (q, cids) (snd (nvm_sq_submit q), cids)
  | step_update q c cids :
      q_db q <> NULL -> sq_step (q, c :: cids) (nvm_sq_update q, cids).

Definition cids_inv (s : nvm_queue_t * list Z) : Prop :=
  let '(q, cids) := s in
  queue_wf q /\ (q_qs q | 2 ^ 16) /\ Z.of_nat (length cids) = sq_count q /\
  forall i c, cids !! i = Some c -> c mod q_qs q = (q_head q + Z.of_nat i + 1) mod q_qs q.

Lemma default_cid_mod q :
  queue_wf q -> (q_qs q | 2 ^ 16) -> NVM_DEFAULT_CID q mod q_qs q = q_tail q.
Proof.
  intros [] Hd. unfold NVM_DEFAULT_CID. rewrite wrap_wrap by lia. unfold wrap.
  rewrite Z.mod_mod_divide by done. rewrite Z.mod_add by lia. by apply Z.mod_small.
Qed.

Lemma sq_submit_ptrs q :
  queue_wf q ->
  queue_wf (snd (nvm_sq_submit q)) /\ q_head (snd (nvm_sq_submit q)) = q_head q /\
  q_tail (snd (nvm_sq_submit q)) = q_tail q /\ q_qs (snd (nvm_sq_submit q)) = q_qs q.
Proof.
  intros Hwf. pose proof Hwf as []. unfold nvm_sq_submit.
  case_decide; simpl; repeat split; simpl; done || lia.
Qed.

Lemma cids_inv_step s s' : sq_step s s' -> cids_inv s -> cids_inv s'.
Proof.
  destruct 1 as [q cids a q' E|q cids|q c cids Hdb]; intros (Hwf & Hd & Hlen & Hc).
  - destruct (SqFifo.sq_enqueue_Some q a q' Hwf E) as (_ & Hwf' & Ht & Hh & Hq & _).
    assert (sq_count q <> q_qs q - 1) as Hne.
    { intros Hfull. apply SqFifo.sq_enqueue_None in Hfull; [|done..]. by rewrite E in Hfull. }
    pose proof (SqFifo.sq_count_next q q' Hwf Hq Hh Ht Hne) as Hcnt.
    split; [done|]. rewrite Hq. split; [done|]. split.
    { rewrite length_app, Hcnt. simpl. lia. }
    intros i d Hi. rewrite Hh.
    destruct (decide (i < length cids)%nat).
    + rewrite lookup_app_l in Hi by done. by apply Hc.
    + assert (i = length cids) as ->.
      { apply lookup_lt_Some in Hi. rewrite length_app in Hi. simpl in Hi. lia. }
      rewrite lookup_app_r, Nat.sub_diag in Hi by lia. simplify_eq/=.
      rewrite <- Hq at 1. rewrite default_cid_mod by (done || by rewrite Hq).
      rewrite Ht, Hlen. unfold ring_next.
      rewrite <- (Zplus_mod_idemp_l (q_head q + sq_count q)).
      by rewrite SqFifo.tail_slot.
  - destruct (sq_submit_ptrs q Hwf) as (Hwf' & Hh & Ht & Hq).
    split; [done|]. unfold sq_count. rewrite Hh, Ht, Hq. done.
  - simpl in Hlen. destruct (SqFifo.sq_update_Some q Hwf Hdb) as (Hwf' & Hcnt & Hq); [lia|].
    split; [done|]. split; [by rewrite Hq|]. split; [lia|].
    intros i d Hi. rewrite Hq. simpl. rewrite (Hc (S i) d Hi). unfold ring_next.
    rewrite <- (Z.add_assoc (_ mod _)), Zplus_mod_idemp_l. f_equal. lia.
Qed.

(** From an initialised queue whose size divides 2^16, whatever sequence of enqueues,
    submits and completions follows, the commands in flight carry pairwise distinct
    identifiers, one for each entry between head and tail. *)
Theorem cids_unique q0 ctrl no qs local vaddr ioaddr q1 q cids :
  nvm_queue_clear q0 ctrl false no qs local vaddr ioaddr = (0, q1) -> (qs | 2 ^ 16) ->
  rtc sq_step (q1, []) (q, cids) ->
  NoDup cids /\ Z.of_nat (length cids) = sq_count q.
Proof.
  intros Hclear Hd Hrtc.
  assert (cids_inv (q1, [])) as Hinv.
  { pose proof (queue_clear_wf _ _ _ _ _ _ _ _ _ Hclear).
    unfold nvm_queue_clear in Hclear. case_decide; simplify_eq. simpl. done. }
  assert (cids_inv (q, cids)) as (Hwf & _ & Hlen & Hc).
  { revert Hinv. induction Hrtc; eauto using cids_inv_step. }
  split; [|done]. apply NoDup_alt. intros i j c Hi Hj.
  pose proof (lookup_lt_Some _ _ _ Hi). pose proof (lookup_lt_Some _ _ _ Hj).
  pose proof (sq_count_range q Hwf).
  apply Nat2Z.inj. apply (SqFifo.ring_offset_inj (q_qs q) (q_head q + 1)); [lia..|].
  apply Hc in Hi, Hj.
  replace (q_head q + 1 + Z.of_nat i) with (q_head q + Z.of_nat i + 1) by lia.
  replace (q_head q + 1 + Z.of_nat j) with (q_head q + Z.of_nat j + 1) by lia. congruence.
Qed.

End SqCid.

(** ** The completion queue and its phase tag *)

Module CqFifo.
Import SqFifo.

Definition cpl_phase (c : nvm_cpl_t) : bool :=
  negb (bool_decide (_RB (NVM_CPL_STATUS c) 0 0 = 0)).
Definition queue_phase (q : nvm_queue_t) : bool := negb (bool_decide (q_phase q = 0)).

(** The tag of a new entry [i] slots after the head. *)
Definition new_phase (q : nvm_queue_t) (i : Z) : bool :=
  if decide (q_head q + i < q_qs q) then queue_phase q else negb (queue_phase q).

Definition slot_at (q : nvm_queue_t) (i : Z) : Z := slot q ((q_head q + i) mod q_qs q).

(** [posted] are the completions in memory that the host has not dequeued: they carry the tag
    of a new entry, every other slot the opposite one. *)
Definition cq_rep (q : nvm_queue_t) (load : Z -> nvm_cpl_t) (posted : list nvm_cpl_t) : Prop :=
  queue_wf q /\ Z.of_nat (length posted) < q_qs q /\
  (forall i c, posted !! i = Some c ->
     load (slot_at q (Z.of_nat i)) = c /\ cpl_phase c = new_phase q (Z.of_nat i)) /\
  (forall i, Z.of_nat (length posted) <= i < q_qs q ->
     cpl_phase (load (slot_at q i)) = negb (new_phase q i)).

Lemma cq_poll_val load q :
  queue_wf q ->
  nvm_cq_poll load q =
    if decide (cpl_phase (load (slot_at q 0)) = queue_phase q)
    then Some (load (slot_at q 0)) else None.
Proof.
  intros Hwf. pose proof Hwf as [? ? _ _ _ _]. unfold nvm_cq_poll.
  rewrite slot_addr by done. unfold slot_at, cpl_phase, queue_phase.
  rewrite Z.add_0_r, Z.mod_small by done.
  by destruct (bool_decide (_RB _ _ _ = 0)), (bool_decide (q_phase q = 0)).
Qed.

(** Dequeuing moves the head by one and keeps the tag discipline. *)
Lemma cq_dequeue_Some load q c q' :
  queue_wf q -> nvm_cq_dequeue load q = (Some c, q') ->
  queue_wf q' /\ q_head q' = ring_next (q_qs q) (q_head q) /\ q_qs q' = q_qs q /\
  q_vaddr q' = q_vaddr q /\ q_es q' = q_es q /\ q_db q' = q_db q /\ q_last q' = q_last q /\
  q_no q' = q_no q /\
  queue_phase q' =
    (if decide (q_head q + 1 = q_qs q) then negb (queue_phase q) else queue_phase q).
Proof.
  intros Hwf. pose proof Hwf as []. unfold nvm_cq_dequeue.
  destruct (nvm_cq_poll load q); [|intros [=]].
  pose proof (ring_next_wrap (q_qs q) (q_head q) ltac:(lia) ltac:(lia)) as Hr.
  pose proof (ring_next_range (q_qs q) (q_head q)).
  rewrite wrap_small in * by (unfold fits; lia).
  destruct (decide (q_head q + 1 = q_qs q)); intros [= <- <-]; simpl; rewrite <- Hr in *;
    (split; [constructor; simpl; done || lia || idtac|]).
  - unfold not_phase. case_decide; auto.
  - repeat split. unfold queue_phase, not_phase. simpl.
    destruct wf_phase0 as [-> | ->]; done.
  - by repeat split.
Qed.

Lemma slot_at_next q q' i :
  q_head q' = ring_next (q_qs q) (q_head q) -> q_qs q' = q_qs q ->
  q_vaddr q' = q_vaddr q -> q_es q' = q_es q ->
  slot_at q' i = slot_at q (i + 1).
Proof.
  intros Hh Hq Hv He. unfold slot_at, slot, ring_next in *. rewrite Hh, Hq, Hv, He.
  rewrite Zplus_mod_idemp_l. do 3 f_equal. lia.
Qed.

Lemma new_phase_next q q' i :
  queue_wf q -> 0 <= i < q_qs q ->
  q_head q' = ring_next (q_qs q) (q_head q) -> q_qs q' = q_qs q ->
  queue_phase q' =
    (if decide (q_head q + 1 = q_qs q) then negb (queue_phase q) else queue_phase q) ->
  new_phase q' i = if decide (i + 1 < q_qs q) then new_phase q (i + 1) else negb (queue_phase q).
Proof.
  intros [] Hi Hh Hq Hp. unfold new_phase. rewrite Hq, Hp, Hh. unfold ring_next.
  destruct (decide (q_head q + 1 = q_qs q)) as [E|].
  - rewrite E, Z.mod_same by lia. repeat case_decide; try done; lia.
  - rewrite Z.mod_small by lia. repeat case_decide; try done; lia.
Qed.

Lemma new_phase_0 q : queue_wf q -> new_phase q 0 = queue_phase q.
Proof. intros []. unfold new_phase. by rewrite decide_True by lia. Qed.

Lemma cq_rep_nil q load : cq_rep q load [] -> nvm_cq_dequeue load q = (None, q).
Proof.
  intros (Hwf & _ & _ & Hold). unfold nvm_cq_dequeue. rewrite cq_poll_val by done.
  rewrite decide_False; [done|].
  specialize (Hold 0). rewrite new_phase_0 in Hold by done. destruct Hwf.
  rewrite Hold by (simpl; lia). by destruct (queue_phase q).
Qed.

Lemma cq_rep_cons q load c posted :
  cq_rep q load (c :: posted) ->
  exists q', nvm_cq_dequeue load q = (Some c, q') /\ cq_rep q' load posted /\
    q_last q' = q_last q /\ q_db q' = q_db q /\ q_qs q' = q_qs q /\
    q_head q' = ring_next (q_qs q) (q_head q) /\ q_no q' = q_no q /\
    (forall i, slot_at q' i = slot_at q (i + 1)) /\
    (forall i, 0 <= i < q_qs q -> new_phase q' i =
        if decide (i + 1 < q_qs q) then new_phase q (i + 1) else negb (queue_phase q)).
Proof.
  intros (Hwf & Hlen & Hnew & Hold). pose proof Hwf as [Hqs ? _ _ _ _]. simpl in Hlen.
  destruct (Hnew 0%nat c eq_refl) as [Hl Hp]. change (Z.of_nat 0) with 0 in Hl, Hp.
  destruct (nvm_cq_dequeue load q) as [r q'] eqn:E.
  assert (r = Some c) as ->.
  { unfold nvm_cq_dequeue in E. rewrite cq_poll_val, Hl in E by done.
    rewrite Hp, new_phase_0, decide_True in E by done. by simplify_eq. }
  destruct (cq_dequeue_Some load q c q' Hwf E) as (Hwf' & Hh & Hq & Hv & He & Hd & Hla & Hno & Hph).
  assert (forall i, slot_at q' i = slot_at q (i + 1)) as Hs by (intros; by apply slot_at_next).
  assert (forall i, 0 <= i < q_qs q -> new_phase q' i =
    if decide (i + 1 < q_qs q) then new_phase q (i + 1) else negb (queue_phase q)) as Hn
    by (intros; by apply new_phase_next).
  exists q'. split; [done|]. split; [|done].
  split; [done|]. split; [rewrite Hq; lia|]. split.
  - intros i d Hi. pose proof (lookup_lt_Some _ _ _ Hi).
    rewrite Hs, Hn by lia. rewrite decide_True by lia.
    specialize (Hnew (S i) d Hi). by replace (Z.of_nat i + 1) with (Z.of_nat (S i)) by lia.
  - intros i Hi. rewrite Hq in Hi. rewrite Hs, Hn by lia.
    destruct (decide (i + 1 < q_qs q)).
    + apply Hold. simpl. lia.
    + assert (i + 1 = q_qs q) as -> by lia.
      assert (slot_at q (q_qs q) = slot_at q 0) as ->.
      { unfold slot_at. f_equal. rewrite <- (Z.mod_add (q_head q + 0) 1 (q_qs q)) by lia.
        f_equal. lia. }
      by rewrite Hl, Hp, new_phase_0, negb_involutive.
Qed.

(** What the controller does when it posts: write the next slot with the tag of a new entry. *)
Lemma cq_rep_post q load posted c :
  cq_rep q load posted -> Z.of_nat (length posted) + 1 < q_qs q ->
  cpl_phase c = new_phase q (Z.of_nat (length posted)) ->
  cq_rep q (<[slot_at q (Z.of_nat (length posted)) := c]> load) (posted ++ [c]).
Proof.
  intros (Hwf & Hlen & Hnew & Hold) Hroom Hc.
  assert (forall i, 0 <= i < q_qs q -> i <> Z.of_nat (length posted) ->
    (<[slot_at q (Z.of_nat (length posted)) := c]> load) (slot_at q i) = load (slot_at q i)) as Hne.
  { intros i Hi Hi'. apply fn_lookup_insert_ne. intros Heq. apply slot_inj in Heq; [|done].
    apply ring_offset_inj in Heq; lia. }
  split; [done|]. rewrite length_app. simpl. split; [lia|]. split.
  - intros i d Hi. pose proof (lookup_lt_Some _ _ _ Hi) as Hlt. rewrite length_app in Hlt.
    simpl in Hlt. destruct (decide (i = length posted)) as [->|].
    + rewrite lookup_app_r, Nat.sub_diag in Hi by lia. simplify_eq/=.
      split; [apply fn_lookup_insert|done].
    + rewrite lookup_app_l in Hi by lia. rewrite Hne by lia. by apply Hnew.
  - intros i Hi. rewrite Hne by lia. apply Hold. lia.
Qed.

(** The host with the controller of the NVM Express specification: the controller posts at its
    tail with its phase tag, which it inverts on every pass, and leaves one slot free with
    respect to the head it was last told by the doorbell. *)
Record cq_sys := mk_sys {
  s_q : nvm_queue_t;
  s_load : Z -> nvm_cpl_t;
  s_tail : Z;               (* controller: next slot *)
  s_tag : bool;             (* controller: phase tag of the current pass *)
  s_head : Z;               (* controller: head doorbell *)
  s_posted : list nvm_cpl_t;   (* everything posted so far *)
  s_taken : list nvm_cpl_t;    (* everything dequeued so far *)
}.

Inductive cq_step : cq_sys -> cq_sys -> Prop :=
  | ctrl_post q load t tag h posted taken c :
      ring_next (q_qs q) t <> h -> cpl_phase c = tag ->
      cq_step (mk_sys q load t tag h posted taken)
        (mk_sys q (<[slot q t := c]> load) (ring_next (q_qs q) t)
           (if decide (t + 1 = q_qs q) then negb tag else tag) h (posted ++ [c]) taken)
  | host_dequeue q load t tag h posted taken r q' :
      nvm_cq_dequeue load q = (r, q') ->
      cq_step (mk_sys q load t tag h posted taken)
        (mk_sys q' load t tag h posted (taken ++ option_list r))
  | host_update q load t tag h posted taken r q' :
      nvm_cq_update q = (r, q') ->
      cq_step (mk_sys q load t tag h posted taken)
        (mk_sys q' load t tag (default h r) posted taken).

Definition cq_sys_inv (s : cq_sys) : Prop :=
  exists pending,
    s_posted s = s_taken s ++ pending /\ cq_rep (s_q s) (s_load s) pending /\
    s_tail s = (q_head (s_q s) + Z.of_nat (length pending)) mod q_qs (s_q s) /\
    s_tag s = new_phase (s_q s) (Z.of_nat (length pending)) /\
    s_head s = q_last (s_q s) /\
    Z.of_nat (length pending) + (q_head (s_q s) - q_last (s_q s)) mod q_qs (s_q s)
      < q_qs (s_q s).

Lemma new_phase_succ q i t :
  queue_wf q -> 0 <= i -> i + 1 < q_qs q -> t = (q_head q + i) mod q_qs q ->
  (if decide (t + 1 = q_qs q) then negb (new_phase q i) else new_phase q i) =
  new_phase q (i + 1).
Proof.
  intros [] Hi Hlt ->. unfold new_phase.
  destruct (decide (q_head q + i < q_qs q)).
  - rewrite Z.mod_small by lia. repeat case_decide; done || lia.
  - rewrite <- (Z.mod_add _ (-1)) by lia. rewrite Z.mod_small by lia.
    repeat case_decide; done || lia.
Qed.

(** The controller's own full test leaves a slot free. *)
Lemma ctrl_room qs head last len t :
  0 < qs -> 0 <= last < qs -> 0 <= len -> t = (head + len) mod qs ->
  len + (head - last) mod qs < qs -> ring_next qs t <> last ->
  len + 1 + (head - last) mod qs < qs.
Proof.
  intros Hqs Hl Hlen -> Hlt Hne. destruct (decide (len + 1 + (head - last) mod qs < qs)); [done|].
  destruct Hne. unfold ring_next. rewrite Zplus_mod_idemp_l.
  pose proof (Z.div_mod (head - last) qs ltac:(lia)).
  replace (head + len + 1) with (last + ((head - last) / qs + 1) * qs) by lia.
  rewrite Z.mod_add by lia. by apply Z.mod_small.
Qed.

Lemma cq_update_inv q load t tag h posted taken r q' :
  nvm_cq_update q = (r, q') -> cq_sys_inv (mk_sys q load t tag h posted taken) ->
  cq_sys_inv (mk_sys q' load t tag (default h r) posted taken).
Proof.
  unfold nvm_cq_update. destruct (decide _); intros [= <- <-]; [|done].
  intros (pending & Hp & (Hwf & Hrep) & Ht & Htag & Hh & Hroom).
  pose proof Hwf as []. exists pending. simpl in *.
  split; [done|]. split; [split; [constructor; simpl; done || lia|done]|].
  rewrite Z.sub_diag, Zmod_0_l. destruct Hrep. repeat split; done || lia.
Qed.

Lemma cq_dequeue_inv q load t tag h posted taken r q' :
  nvm_cq_dequeue load q = (r, q') -> cq_sys_inv (mk_sys q load t tag h posted taken) ->
  cq_sys_inv (mk_sys q' load t tag h posted (taken ++ option_list r)).
Proof.
  intros E (pending & Hp & Hrep & Ht & Htag & Hh & Hroom). simpl in *.
  destruct pending as [|c pending].
  { rewrite (cq_rep_nil q load Hrep) in E. simplify_eq. exists []. simpl.
    by rewrite !app_nil_r in *. }
  pose proof (proj1 Hrep) as [].
  destruct (cq_rep_cons q load c pending Hrep)
    as (q'' & E' & Hrep' & Hl & Hd & Hq & Hhd & _ & _ & Hn).
  rewrite E in E'. simplify_eq. exists pending. simpl in *. rewrite Hq, Hl, Hhd.
  unfold ring_next. pose proof (Z.mod_pos_bound (q_head q - q_last q) (q_qs q)).
  split; [by rewrite <- app_assoc|]. split; [done|]. split; [|split; [|split; [done|]]].
  - rewrite Zplus_mod_idemp_l. f_equal. lia.
  - rewrite Hn by lia. rewrite decide_True by lia. f_equal. lia.
  - rewrite Zminus_mod_idemp_l.
    replace (q_head q + 1 - q_last q) with (q_head q - q_last q + 1) by lia.
    rewrite <- Zplus_mod_idemp_l, (Z.mod_small (_ + 1)) by lia. lia.
Qed.

Lemma cq_post_inv q load t tag h posted taken c :
  ring_next (q_qs q) t <> h -> cpl_phase c = tag ->
  cq_sys_inv (mk_sys q load t tag h posted taken) ->
  cq_sys_inv (mk_sys q (<[slot q t := c]> load) (ring_next (q_qs q) t)
    (if decide (t + 1 = q_qs q) then negb tag else tag) h (posted ++ [c]) taken).
Proof.
  intros Hne Hc (pending & Hp & Hrep & Ht & Htag & Hh & Hroom). simpl in *.
  pose proof (proj1 Hrep) as Hwf. pose proof Hwf as []. subst h.
  pose proof (Z.mod_pos_bound (q_head q - q_last q) (q_qs q)).
  pose proof (ctrl_room (q_qs q) (q_head q) (q_last q) (Z.of_nat (length pending)) t
    ltac:(lia) ltac:(lia) ltac:(lia) Ht Hroom Hne) as Hroom'.
  exists (pending ++ [c]). simpl. rewrite length_app. simpl.
  rewrite Nat2Z.inj_add. change (Z.of_nat 1) with 1.
  split; [by rewrite Hp, app_assoc|]. split; [|split; [|split; [|split; [done|lia]]]].
  - rewrite Ht. apply cq_rep_post; [done|lia|by rewrite Hc, Htag].
  - rewrite Ht. unfold ring_next. rewrite Zplus_mod_idemp_l. f_equal. lia.
  - rewrite Htag. apply new_phase_succ; done || lia.
Qed.

Lemma cq_sys_inv_step s s' : cq_step s s' -> cq_sys_inv s -> cq_sys_inv s'.
Proof.
  destruct 1; [by apply cq_post_inv|by apply cq_dequeue_inv|by apply cq_update_inv].
Qed.

(** A queue right after [nvm_queue_clear] over memory whose phase tags are clear. *)
Definition cq_sys_init (q : nvm_queue_t) (load : Z -> nvm_cpl_t) : cq_sys :=
  mk_sys q load 0 true 0 [] [].

Lemma cq_sys_init_inv q0 ctrl no qs local vaddr ioaddr q load :
  nvm_queue_clear q0 ctrl true no qs local vaddr ioaddr = (0, q) ->
  (forall i, 0 <= i < qs -> cpl_phase (load (slot q i)) = false) ->
  cq_sys_inv (cq_sys_init q load).
Proof.
  intros Hclear Hmem. pose proof (queue_clear_wf _ _ _ _ _ _ _ _ _ Hclear) as Hwf.
  unfold nvm_queue_clear in Hclear. case_decide; simplify_eq. pose proof Hwf as [].
  simpl in *. exists []. simpl. rewrite Zmod_0_l.
  split; [done|]. split; [|split; [done|split; [|split; [done|rewrite Z.mod_small; lia]]]].
  - split; [done|]. split; [simpl; lia|]. split; [done|]. intros i Hi.
    unfold slot_at, new_phase in *. simpl in *.
    rewrite Z.mod_small, Hmem, decide_True by lia. done.
  - unfold new_phase. by rewrite decide_True by (simpl; lia).
Qed.

(** C24: a completion queue with its controller is a lossless FIFO: after any interleaving of
    the controller's posts and the host's [nvm_cq_dequeue] and [nvm_cq_update], the completions
    taken are a prefix, in order and without loss or duplicate, of the ones posted, and the next
    [nvm_cq_dequeue] returns the first one not taken, or none when all are taken. *)
Theorem cq_fifo q0 ctrl no qs local vaddr ioaddr q load s :
  nvm_queue_clear q0 ctrl true no qs local vaddr ioaddr = (0, q) ->
  (forall i, 0 <= i < qs -> cpl_phase (load (slot q i)) = false) ->
  rtc cq_step (cq_sys_init q load) s ->
  exists pending, s_posted s = s_taken s ++ pending /\
    fst (nvm_cq_dequeue (s_load s) (s_q s)) = head pending.
Proof.
  intros Hclear Hmem Hrtc.
  assert (cq_sys_inv s) as (pending & Hp & Hrep & _).
  { pose proof (cq_sys_init_inv _ _ _ _ _ _ _ _ _ Hclear Hmem) as Hinv. revert Hinv.
    induction Hrtc; eauto using cq_sys_inv_step. }
  exists pending. split; [done|]. destruct pending as [|c pending].
  - by rewrite (cq_rep_nil _ _ Hrep).
  - destruct (cq_rep_cons _ _ _ _ Hrep) as (q' & -> & _). done.
Qed.

End CqFifo.

(** ** Waiting for a completion *)

Section dequeue_block_spec.
Context {E : Type} (mem : E -> Z -> nvm_cpl_t) (tick : E -> E).

Definition polls_none (cq : nvm_queue_t) (e : E) (n : nat) : Prop :=
  forall k, (k < n)%nat -> nvm_cq_poll (mem (Nat.iter k tick e)) cq = None.

(** What waiting from [e] for at most [turns] milliseconds may return. *)
Definition block_result (cq : nvm_queue_t) (turns : Z) (e : E)
    (r : option nvm_cpl_t * nvm_queue_t * E) : Prop :=
  exists n : nat, Z.of_nat n <= turns /\ snd r = Nat.iter n tick e /\ polls_none cq e n /\
    fst r = nvm_cq_dequeue (mem (Nat.iter n tick e)) cq /\
    (fst (fst r) = None -> Z.of_nat n = turns).

Lemma cq_dequeue_none load cq q' :
  nvm_cq_dequeue load cq = (None, q') -> q' = cq /\ nvm_cq_poll load cq = None.
Proof. unfold nvm_cq_dequeue. destruct (nvm_cq_poll load cq); intros [=]. done. Qed.

Lemma iter_tick n e : Nat.iter n tick (tick e) = Nat.iter (S n) tick e.
Proof. rewrite Nat.iter_succ_r. done. Qed.

Lemma block_result_next cq turns e r :
  nvm_cq_poll (mem e) cq = None -> block_result cq turns (tick e) r ->
  block_result cq (turns + 1) e r.
Proof.
  intros Hnone (n & Hn & He & Hp & Hr & Hz). rewrite iter_tick in He, Hr.
  exists (S n). split; [lia|]. split; [done|]. split.
  - intros [|k] Hk; [done|]. rewrite <- iter_tick. apply Hp. lia.
  - split; [done|]. intros H. specialize (Hz H). lia.
Qed.

Lemma dequeue_block_loop fuel nsecs cq e :
  0 <= nsecs < 2 ^ 64 -> cdiv nsecs 1000000 < Z.of_nat fuel ->
  nvm_cq_dequeue (mem e) cq = (None, cq) ->
  exists r, iter_fuel fuel (dequeue_block_turn mem tick) (nsecs, cq, e) = inr r /\
    block_result cq (cdiv nsecs 1000000) e r.
Proof.
  revert nsecs e. induction fuel as [|fuel IH]; intros nsecs e Hns Hf Hnone.
  { pose proof (cdiv_spec nsecs 1000000). lia. }
  cbn [iter_fuel]; unfold dequeue_block_turn at 1. destruct (decide (nsecs > 0)).
  2:{ assert (nsecs = 0) as -> by lia. eexists. split; [done|].
      exists 0%nat. simpl. repeat split; done || (intros k ?; lia). }
  destruct (delay_remain_turns nsecs ltac:(lia)) as [Hr Hc].
  destruct (cq_dequeue_none _ _ _ Hnone) as [_ Hp].
  destruct (nvm_cq_dequeue (mem (tick e)) cq) as [[c|] q'] eqn:Ed.
  - eexists. split; [done|]. exists 1%nat. simpl. pose proof (cdiv_pos nsecs 1000000).
    repeat split; try done || lia. intros k ?. assert (k = 0%nat) as -> by lia. done.
  - destruct (cq_dequeue_none _ _ _ Ed) as [-> _].
    destruct (IH (_nvm_delay_remain nsecs) (tick e)) as (r & Er & Hres); [lia..|done|].
    exists r. split; [done|]. rewrite Hc. by apply block_result_next.
Qed.

Lemma dequeue_block_returns cq timeout e :
  exists r, nvm_cq_dequeue_block mem tick cq timeout e = Some r /\
    block_result cq (cdiv (u64 (timeout * 1000000)) 1000000) e r.
Proof.
  unfold nvm_cq_dequeue_block. set (ns := u64 (timeout * 1000000)).
  pose proof (wrap_range 64 (timeout * 1000000)) as Hns. fold ns in Hns.
  pose proof (cdiv_spec ns 1000000).
  destruct (nvm_cq_dequeue (mem e) cq) as [[c|] q'] eqn:Ed.
  - eexists. split; [done|]. exists 0%nat. simpl. rewrite Ed.
    repeat split; try done || lia. intros k ?. lia.
  - destruct (cq_dequeue_none _ _ _ Ed) as [-> _]. rewrite iter_until_fuel.
    destruct (dequeue_block_loop (Pos.to_nat (Z.to_pos (ns / 1000000 + 2))) ns cq e)
      as (r & -> & Hr); [lia| |done|by exists r].
    unfold cdiv. Z.div_mod_to_equations. lia.
Qed.

(** [nvm_cq_dequeue_block] always returns: it polls at once and then after each
    millisecond, at most as many as the (64-bit) timeout holds; it returns the completion of the
    first poll that finds one, and none only after the last of these polls. *)
Theorem cq_dequeue_block_total cq timeout e :
  exists r, nvm_cq_dequeue_block mem tick cq timeout e = Some r /\
    block_result cq (cdiv (u64 (timeout * 1000000)) 1000000) e r.
Proof. apply dequeue_block_returns. Qed.
End dequeue_block_spec.
