(* ===== verification/NvmCmd.v ===== *)
(** * NVMe commands and PRP lists (include/libnvm/nvm_cmd.h)

    The command builders write double words of a submission queue entry; the PRP list builders
    write 64-bit entries into host memory, a function from byte addresses to entries.  Against
    them stands the controller's reading of a command, as the NVM Express specification
    defines it. *)
From S2P Require Import Prelude NvmTypes NvmUtil.
From stdpp Require Import prelude functions list.
From Stdlib Require Import ZArith Lia.
Local Open Scope Z_scope.
Local Open Scope ugds_scope.

(** ** Opcodes *)

Definition NVM_CMD_NS_ALL : Z := 0xffffffff.
Definition NVM_CMD_OPCODE (gen fun_ data : Z) : Z :=
  Z.lor (Z.lor (_WB 32 gen 7 7) (_WB 32 fun_ 6 2)) (_WB 32 data 1 0).

Inductive nvm_io_command_set :=
  NVM_IO_FLUSH | NVM_IO_WRITE | NVM_IO_READ | NVM_IO_WRITE_ZEROES.

Definition io_opcode (c : nvm_io_command_set) : Z :=
  match c with
  | NVM_IO_FLUSH => NVM_CMD_OPCODE 0 0 0
  | NVM_IO_WRITE => NVM_CMD_OPCODE 0 0 1
  | NVM_IO_READ => NVM_CMD_OPCODE 0 0 2
  | NVM_IO_WRITE_ZEROES => NVM_CMD_OPCODE 0 2 0
  end.

Inductive nvm_admin_command_set :=
  NVM_ADMIN_DELETE_SQ | NVM_ADMIN_CREATE_SQ | NVM_ADMIN_GET_LOG_PAGE | NVM_ADMIN_DELETE_CQ
  | NVM_ADMIN_CREATE_CQ | NVM_ADMIN_IDENTIFY | NVM_ADMIN_ABORT | NVM_ADMIN_SET_FEATURES
  | NVM_ADMIN_GET_FEATURES.

Definition admin_opcode (c : nvm_admin_command_set) : Z :=
  match c with
  | NVM_ADMIN_DELETE_SQ => NVM_CMD_OPCODE 0 0 0
  | NVM_ADMIN_CREATE_SQ => NVM_CMD_OPCODE 0 0 1
  | NVM_ADMIN_GET_LOG_PAGE => NVM_CMD_OPCODE 0 0 2
  | NVM_ADMIN_DELETE_CQ => NVM_CMD_OPCODE 0 1 0
  | NVM_ADMIN_CREATE_CQ => NVM_CMD_OPCODE 0 1 1
  | NVM_ADMIN_IDENTIFY => NVM_CMD_OPCODE 0 1 2
  | NVM_ADMIN_ABORT => NVM_CMD_OPCODE 0 2 0
  | NVM_ADMIN_SET_FEATURES => NVM_CMD_OPCODE 0 2 1
  | NVM_ADMIN_GET_FEATURES => NVM_CMD_OPCODE 0 2 2
  end.

(** ** Command builders *)

Definition nvm_cmd_header (cmd : nvm_cmd_t) (cid opcode ns_id : Z) : nvm_cmd_t :=
  let cmd := cmd_set cmd 0 (Z.lor (Z.lor (Z.lor (Z.shiftl cid 16) (Z.shiftl 0 14)) (Z.shiftl 0 8))
                              (Z.land opcode 0x7f)) in
  cmd_set cmd 1 ns_id.

Definition nvm_cmd_data_ptr (cmd : nvm_cmd_t) (prp1 prp2 : Z) : nvm_cmd_t :=
  let cmd := cmd_set cmd 0 (Z.land (cmd_get cmd 0)
                              (u32 (Z.lnot (Z.lor (Z.shiftl 3 14) (Z.shiftl 3 8))))) in
  let cmd := cmd_set cmd 6 (u32 prp1) in
  let cmd := cmd_set cmd 7 (u32 (Z.shiftr prp1 32)) in
  let cmd := cmd_set cmd 8 (u32 prp2) in
  cmd_set cmd 9 (u32 (Z.shiftr prp2 32)).

Definition nvm_cmd_rw_blks (cmd : nvm_cmd_t) (start_lba n_blks : Z) : nvm_cmd_t :=
  let cmd := cmd_set cmd 10 (u32 start_lba) in
  let cmd := cmd_set cmd 11 (u32 (Z.shiftr start_lba 32)) in
  cmd_set cmd 12 (Z.lor (Z.land (cmd_get cmd 12) 0xffff0000) (Z.land (n_blks - 1) 0xffff)).

(** ** PRP lists

    [ioaddrs] is the array the pointer argument points into, from that element on; reading past
    its end is undefined ([None]). *)

Fixpoint prp_list_loop (n : nat) (i_prp entries : Z) (ioaddrs : list Z) (mem : Z -> Z)
    : option (Z -> Z) :=
  match n with
  | O => Some mem
  | S n =>
      match ioaddrs @[i_prp] with
      | None => None
      | Some a => prp_list_loop n (i_prp + 1) entries ioaddrs (<[entries + 8 * i_prp := a]> mem)
      end
  end.

Definition nvm_prp_list (l : nvm_prp_list_t) (n_pages : Z) (ioaddrs : list Z) (mem : Z -> Z)
    : option (Z * (Z -> Z)) :=
  let n_prps := prp_page_size l / 8 in
  if decide (n_pages = 0) then Some (0, mem)
  else
    let n_prps := if decide (n_pages > n_prps) then u64 (n_prps - 1) else n_pages in
    match prp_list_loop (Z.to_nat n_prps) 0 (prp_vaddr l) ioaddrs mem with
    | None => None
    | Some mem => Some (n_prps, mem)
    end.

(** The loop of [nvm_prp_list_chain]; [prev] is [lists[i_list - 1]], [rest] the lists from
    [i_list] up to [n_lists]. *)
Fixpoint prp_chain_loop (prev : nvm_prp_list_t) (rest : list nvm_prp_list_t)
    (list_prps n_prps n_pages : Z) (ioaddrs : list Z) (mem : Z -> Z) : option (Z * (Z -> Z)) :=
  match rest with
  | [] => Some (n_prps, mem)
  | l :: rest =>
      if decide (n_prps < n_pages) then
        let mem := <[prp_vaddr prev + 8 * list_prps := prp_ioaddr l]> mem in
        match nvm_prp_list l (n_pages - n_prps) (drop (Z.to_nat n_prps) ioaddrs) mem with
        | None => None
        | Some (list_prps, mem) =>
            prp_chain_loop l rest list_prps (n_prps + list_prps) n_pages ioaddrs mem
        end
      else Some (n_prps, mem)
  end.

(** [lists] is the array of [n_lists] descriptors, empty when the pointer is [NULL]. *)
Definition nvm_prp_list_chain (lists : list nvm_prp_list_t) (n_pages : Z) (ioaddrs : list Z)
    (mem : Z -> Z) : option (Z * (Z -> Z)) :=
  match lists with
  | [] => Some (0, mem)
  | l :: rest =>
      match nvm_prp_list l n_pages ioaddrs mem with
      | None => None
      | Some (list_prps, mem) => prp_chain_loop l rest list_prps list_prps n_pages ioaddrs mem
      end
  end.

Definition nvm_cmd_data (cmd : nvm_cmd_t) (lists : list nvm_prp_list_t) (n_pages : Z)
    (ioaddrs : list Z) (mem : Z -> Z) : option (Z * nvm_cmd_t * (Z -> Z)) :=
  if decide (n_pages = 0) then Some (0, cmd, mem)
  else
    match ioaddrs @[0] with
    | None => None
    | Some dptr0 =>
        match lists with
        | l0 :: _ =>
            if decide (n_pages > 2) then
              match nvm_prp_list_chain lists (n_pages - 1) (drop 1 ioaddrs) mem with
              | None => None
              | Some (n, mem) =>
                  Some (1 + n, nvm_cmd_data_ptr cmd dptr0 (prp_ioaddr l0), mem)
              end
            else if decide (n_pages >= 2) then
              match ioaddrs @[1] with
              | None => None
              | Some dptr1 => Some (2, nvm_cmd_data_ptr cmd dptr0 dptr1, mem)
              end
            else Some (1, nvm_cmd_data_ptr cmd dptr0 0, mem)
        | [] =>
            if decide (n_pages >= 2) then
              match ioaddrs @[1] with
              | None => None
              | Some dptr1 => Some (2, nvm_cmd_data_ptr cmd dptr0 dptr1, mem)
              end
            else Some (1, nvm_cmd_data_ptr cmd dptr0 0, mem)
        end
    end.

Definition NVM_PRP_LIST_INIT (vaddr : Z) (local : bool) (page_size ioaddr : Z) : nvm_prp_list_t :=
  mk_prp_list vaddr (Z.b2z local) page_size ioaddr.
Definition NVM_PRP_LIST (dma : nvm_dma_t) (offset : Z) : option nvm_prp_list_t :=
  match (dma_ioaddrs dma) @[offset] with
  | None => None
  | Some ioaddr =>
      Some (NVM_PRP_LIST_INIT (NVM_DMA_OFFSET dma offset) (dma_local dma) (dma_page_size dma) ioaddr)
  end.

(** ** The controller's view of a read or write command *)

Definition cmd_opcode (c : nvm_cmd_t) : Z := cmd_get c 0 mod 2 ^ 8.
Definition cmd_fuse (c : nvm_cmd_t) : Z := (cmd_get c 0 / 2 ^ 8) mod 2 ^ 2.
Definition cmd_psdt (c : nvm_cmd_t) : Z := (cmd_get c 0 / 2 ^ 14) mod 2 ^ 2.
Definition cmd_nsid (c : nvm_cmd_t) : Z := cmd_get c 1.
Definition cmd_prp1 (c : nvm_cmd_t) : Z := cmd_get c 6 + cmd_get c 7 * 2 ^ 32.
Definition cmd_prp2 (c : nvm_cmd_t) : Z := cmd_get c 8 + cmd_get c 9 * 2 ^ 32.
Definition cmd_slba (c : nvm_cmd_t) : Z := cmd_get c 10 + cmd_get c 11 * 2 ^ 32.
Definition cmd_nlb (c : nvm_cmd_t) : Z := cmd_get c 12 mod 2 ^ 16 + 1.

(** Walking a PRP list at bus address [a] for [n] pages: a list page holds [k] entries; when
    more than [k] pages remain the last entry points to the next list page.  [n] turns suffice
    because every list page but the last yields at least one entry. *)
Fixpoint prp_walk (fuel : nat) (rd : Z -> Z) (k : nat) (a : Z) (n : nat) : list Z :=
  match fuel with
  | O => []
  | S fuel =>
      let entry := fun i : nat => rd (a + 8 * Z.of_nat i) in
      if decide (n <= k)%nat then entry <$> seq 0 n
      else (entry <$> seq 0 (k - 1)) ++ prp_walk fuel rd k (entry (k - 1)%nat) (n - (k - 1))
  end.

(** The pages of a transfer of [n] pages whose first page starts at a page boundary. *)
Definition cmd_pages (rd : Z -> Z) (k : nat) (c : nvm_cmd_t) (n : nat) : list Z :=
  match n with
  | O => []
  | 1%nat => [cmd_prp1 c]
  | 2%nat => [cmd_prp1 c; cmd_prp2 c]
  | S n => cmd_prp1 c :: prp_walk n rd k (cmd_prp2 c) n
  end.

(** ** The builders produce the command they are asked for *)

Lemma split_join_64 a : fits 64 a -> u32 a + u32 (Z.shiftr a 32) * 2 ^ 32 = a.
Proof.
  intros Ha. rewrite Z.shiftr_div_pow2 by lia. unfold fits in Ha.
  assert (0 <= a / 2 ^ 32 < 2 ^ 32).
  { split; [apply Z.div_pos; lia|]. apply Z.div_lt_upper_bound; lia. }
  rewrite (wrap_small 32 (a / 2 ^ 32)) by done. unfold wrap.
  pose proof (Z.div_mod a (2 ^ 32)). lia.
Qed.

(** [cmd_get] of a chain of stores. *)
Ltac cmd_fields :=
  repeat (rewrite cmd_get_set by (rewrite ?cmd_set_length; simpl; lia); simpl decide);
  repeat match goal with
  | |- context [decide (?a = ?b :> nat)] =>
      first [rewrite (decide_True (P := a = b)) by done
            |rewrite (decide_False (P := a = b)) by done]
  end.

Lemma header_dword0 c cid opcode ns :
  cmd_ok c -> fits 7 opcode ->
  cmd_get (nvm_cmd_header c cid opcode ns) 0 = cid * 2 ^ 16 + opcode.
Proof.
  intros [Hl _] Ho. unfold nvm_cmd_header.
  rewrite !cmd_get_set by (rewrite ?cmd_set_length; lia). simpl decide. simpl.
  change 127 with (2 ^ 7 - 1). rewrite land_mask by lia. unfold fits in Ho.
  rewrite (Z.mod_small opcode), !Z.lor_0_r by lia.
  change (Z.shiftl cid 16) with (Z.shiftl cid 16).
  rewrite lor_shiftl_add by lia. done.
Qed.

(** Clearing PSDT and FUSE changes nothing in a freshly built header. *)
Lemma clear_psdt_fuse cid opcode :
  fits 16 cid -> fits 7 opcode ->
  Z.land (cid * 2 ^ 16 + opcode) (u32 (Z.lnot (Z.lor (Z.shiftl 3 14) (Z.shiftl 3 8)))) =
  cid * 2 ^ 16 + opcode.
Proof.
  intros Hc Ho. unfold fits in *. change (Z.lor _ _) with (Z.shiftl 195 8).
  rewrite <- (lor_shiftl_add cid opcode 16) by lia.
  apply Z.bits_inj'. intros i Hi. rewrite Z.land_spec. unfold wrap.
  rewrite Z.testbit_mod_pow2, Z.lnot_spec by lia.
  destruct (decide (i < 8)).
  { rewrite (proj2 (Z.ltb_lt i 32)), (Z.shiftl_spec_low 195) by lia. apply andb_true_r. }
  rewrite Z.lor_spec, (testbit_small opcode 7) by lia. rewrite orb_false_r.
  destruct (decide (i < 16)).
  { rewrite (Z.shiftl_spec_low cid) by lia. done. }
  rewrite (Z.shiftl_spec 195), (testbit_small 195 8) by lia.
  destruct (Z.ltb_spec i 32); [apply andb_true_r|].
  rewrite Z.shiftl_spec, (testbit_small cid 16) by lia. done.
Qed.

(** The fields of the read or write command that [do_io] builds. *)
Record rw_fields (c : nvm_cmd_t) (cid opcode ns prp1 prp2 slba nlb : Z) : Prop := {
  rw_ok : cmd_ok c;
  rw_cid : NVM_CMD_CID c = cid;
  rw_opcode : cmd_opcode c = opcode;
  rw_fuse : cmd_fuse c = 0;
  rw_psdt : cmd_psdt c = 0;
  rw_nsid : cmd_nsid c = ns;
  rw_prp1 : cmd_prp1 c = prp1;
  rw_prp2 : cmd_prp2 c = prp2;
  rw_slba : cmd_slba c = slba;
  rw_nlb : cmd_nlb c = nlb;
}.

Lemma header_ok c cid opcode ns :
  cmd_ok c -> fits 16 cid -> fits 7 opcode -> fits 32 ns ->
  cmd_ok (nvm_cmd_header c cid opcode ns).
Proof.
  intros Hc Hcid Ho Hns. unfold nvm_cmd_header. apply cmd_set_ok; [|done].
  apply cmd_set_ok; [done|]. unfold fits in *. change 0x7f with (2 ^ 7 - 1).
  rewrite land_mask by lia. simpl (Z.shiftl 0 _). rewrite !Z.lor_0_r.
  rewrite (Z.mod_small opcode), lor_shiftl_add by lia. lia.
Qed.

Lemma data_ptr_ok c prp1 prp2 : cmd_ok c -> cmd_ok (nvm_cmd_data_ptr c prp1 prp2).
Proof.
  intros Hc. unfold nvm_cmd_data_ptr.
  repeat apply cmd_set_ok; try apply wrap_fits; try apply land_fits; auto with word || lia.
Qed.

Lemma rw_blks_ok c lba n : cmd_ok c -> cmd_ok (nvm_cmd_rw_blks c lba n).
Proof.
  intros Hc. unfold nvm_cmd_rw_blks.
  apply cmd_set_ok; [repeat apply cmd_set_ok; try apply wrap_fits; done || lia|].
  apply lor_fits; [lia|apply land_fits; [lia|]|].
  - apply cmd_get_fits. repeat apply cmd_set_ok; try apply wrap_fits; done || lia.
  - change 0xffff with (2 ^ 16 - 1). rewrite land_mask by lia.
    pose proof (Z.mod_pos_bound (n - 1) (2 ^ 16)). unfold fits. lia.
Qed.

Lemma data_ptr_get c prp1 prp2 i :
  cmd_ok c -> i <> 0%nat -> i <> 6%nat -> i <> 7%nat -> i <> 8%nat -> i <> 9%nat ->
  cmd_get (nvm_cmd_data_ptr c prp1 prp2) i = cmd_get c i.
Proof.
  intros [Hl _] H0 H6 H7 H8 H9. unfold nvm_cmd_data_ptr.
  rewrite !cmd_get_set by (rewrite ?cmd_set_length; lia).
  by rewrite !decide_False by congruence.
Qed.

Lemma rw_blks_get c lba n i :
  cmd_ok c -> i <> 10%nat -> i <> 11%nat -> i <> 12%nat ->
  cmd_get (nvm_cmd_rw_blks c lba n) i = cmd_get c i.
Proof.
  intros [Hl _] H0 H6 H7. unfold nvm_cmd_rw_blks.
  rewrite !cmd_get_set by (rewrite ?cmd_set_length; lia).
  by rewrite !decide_False by congruence.
Qed.

Lemma data_ptr_prps c prp1 prp2 :
  cmd_ok c -> fits 64 prp1 -> fits 64 prp2 ->
  cmd_prp1 (nvm_cmd_data_ptr c prp1 prp2) = prp1 /\
  cmd_prp2 (nvm_cmd_data_ptr c prp1 prp2) = prp2.
Proof.
  intros [Hl _] H1 H2. unfold cmd_prp1, cmd_prp2, nvm_cmd_data_ptr.
  rewrite !cmd_get_set by (rewrite ?cmd_set_length; lia). simpl decide. simpl.
  by rewrite !split_join_64.
Qed.

Lemma rw_blks_range c lba n :
  cmd_ok c -> fits 64 lba -> 1 <= n <= 0x10000 ->
  cmd_slba (nvm_cmd_rw_blks c lba (u16 n)) = lba /\ cmd_nlb (nvm_cmd_rw_blks c lba (u16 n)) = n.
Proof.
  intros [Hl _] Hlba Hn. unfold cmd_slba, cmd_nlb, nvm_cmd_rw_blks.
  rewrite !cmd_get_set by (rewrite ?cmd_set_length; lia). simpl decide. simpl.
  rewrite split_join_64 by done. split; [done|].
  change 4294901760 with (Z.shiftl 0xffff 16). change 65535 with (2 ^ 16 - 1) at 2.
  rewrite land_mask by lia.
  rewrite <- Z.land_ones, Z.land_lor_distr_l by lia. rewrite !Z.land_ones by lia.
  rewrite Z.mod_mod by lia.
  assert (Z.land (cmd_get c 12) (Z.shiftl 65535 16) mod 2 ^ 16 = 0) as ->.
  { apply Z.bits_inj'. intros i Hi. rewrite Z.testbit_mod_pow2, Z.land_spec, Z.bits_0 by lia.
    destruct (Z.ltb_spec i 16); [|done]. rewrite Z.shiftl_spec_low by lia.
    by rewrite andb_false_r. }
  rewrite Z.lor_0_l. destruct (decide (n = 0x10000)) as [->|]; [done|].
  rewrite wrap_small by (unfold fits; lia). rewrite Z.mod_small by lia. lia.
Qed.

Lemma rw_command_dword0 cid opcode ns prp1 prp2 lba n :
  fits 16 cid -> fits 7 opcode ->
  cmd_get (nvm_cmd_rw_blks
    (nvm_cmd_data_ptr (nvm_cmd_header cmd_zero cid opcode ns) prp1 prp2) lba n) 0 =
  cid * 2 ^ 16 + opcode.
Proof.
  intros Hc Ho. unfold nvm_cmd_rw_blks, nvm_cmd_data_ptr.
  rewrite !cmd_get_set by (rewrite ?cmd_set_length; simpl; lia). simpl decide. simpl.
  rewrite header_dword0 by auto with word. by apply clear_psdt_fuse.
Qed.

Lemma rw_command cid opcode ns prp1 prp2 lba n :
  fits 16 cid -> fits 7 opcode -> fits 32 ns -> fits 64 prp1 -> fits 64 prp2 -> fits 64 lba ->
  1 <= n <= 0x10000 ->
  rw_fields (nvm_cmd_rw_blks (nvm_cmd_data_ptr (nvm_cmd_header cmd_zero cid opcode ns) prp1 prp2)
    lba (u16 n)) cid opcode ns prp1 prp2 lba n.
Proof.
  intros Hc Ho Hns H1 H2 Hlba Hn.
  pose proof (header_ok cmd_zero cid opcode ns cmd_zero_ok Hc Ho Hns) as Hok1.
  pose proof (data_ptr_ok _ prp1 prp2 Hok1) as Hok2.
  pose proof (rw_blks_ok _ lba (u16 n) Hok2) as Hok3.
  pose proof (rw_command_dword0 cid opcode ns prp1 prp2 lba (u16 n) Hc Ho) as Hd0.
  destruct (data_ptr_prps _ prp1 prp2 Hok1 H1 H2) as [Hp1 Hp2].
  destruct (rw_blks_range _ lba n Hok2 Hlba Hn) as [Hs Hb].
  assert (opcode mod 2 ^ 8 = opcode) as Ho8 by (apply Z.mod_small; unfold fits in Ho; lia).
  constructor; try done.
  - rewrite nvm_cmd_cid_val, Hd0 by done. rewrite Z.div_add_l by lia.
    rewrite Z.div_small by (unfold fits in Ho; lia). lia.
  - unfold cmd_opcode. rewrite Hd0. replace (2 ^ 16) with (2 ^ 8 * 2 ^ 8) by done.
    rewrite Z.mul_assoc, Z.add_comm, Z.mod_add by lia. done.
  - unfold cmd_fuse. rewrite Hd0. replace (2 ^ 16) with (2 ^ 8 * 2 ^ 8) by done.
    rewrite Z.mul_assoc, Z.div_add_l, Z.div_small by (unfold fits in Ho; lia).
    rewrite Z.add_0_r. replace (2 ^ 8) with (2 ^ 6 * 2 ^ 2) by done.
    rewrite Z.mul_assoc. by apply Z.mod_mul.
  - unfold cmd_psdt. rewrite Hd0. replace (2 ^ 16) with (2 ^ 2 * 2 ^ 14) by done.
    rewrite Z.mul_assoc, Z.div_add_l, Z.div_small by (unfold fits in Ho; lia).
    rewrite Z.add_0_r. by apply Z.mod_mul.
Qed.

(** ** PRP lists: the controller reads back the pages *)

Section prp_lists.
Context (k : nat) (Hk : (2 <= k)%nat) (Hk64 : Z.of_nat k < 2 ^ 64).

(** The addresses of the entries of a list page. *)
Definition in_list (l : nvm_prp_list_t) (a : Z) : Prop :=
  exists j : nat, (j < k)%nat /\ a = prp_vaddr l + 8 * Z.of_nat j.

(** List pages of [k] entries that do not overlap. *)
Definition lists_ok (lists : list nvm_prp_list_t) : Prop :=
  Forall (fun l => prp_page_size l = 8 * Z.of_nat k) lists /\
  forall i j l l' a, lists !! i = Some l -> lists !! j = Some l' ->
    in_list l a -> in_list l' a -> i = j.

(** The list page [l] followed by the pages [rest] holds [pages]. *)
Fixpoint chain_holds (mem : Z -> Z) (l : nvm_prp_list_t) (rest : list nvm_prp_list_t)
    (pages : list Z) : Prop :=
  if decide (length pages <= k)%nat then
    forall j a, pages !! j = Some a -> mem (prp_vaddr l + 8 * Z.of_nat j) = a
  else
    match rest with
    | [] => False
    | l' :: rest' =>
        (forall j a, (j < k - 1)%nat -> pages !! j = Some a ->
           mem (prp_vaddr l + 8 * Z.of_nat j) = a) /\
        mem (prp_vaddr l + 8 * Z.of_nat (k - 1)) = prp_ioaddr l' /\
        chain_holds mem l' rest' (drop (k - 1) pages)
    end.

Lemma prp_list_loop_spec n i entries ioaddrs mem :
  (i + n <= length ioaddrs)%nat ->
  exists mem', prp_list_loop n (Z.of_nat i) entries ioaddrs mem = Some mem' /\
    (forall j a, (i <= j < i + n)%nat -> ioaddrs !! j = Some a ->
       mem' (entries + 8 * Z.of_nat j) = a) /\
    (forall a, (forall j, (i <= j < i + n)%nat -> a <> entries + 8 * Z.of_nat j) -> mem' a = mem a).
Proof.
  revert i mem. induction n as [|n IH]; intros i mem Hlen; simpl.
  { exists mem. split; [done|]. split; [intros; lia|done]. }
  destruct (lookup_lt_is_Some_2 ioaddrs i) as [a Ha]; [lia|].
  rewrite zlookup_nat, Ha. replace (Z.of_nat i + 1) with (Z.of_nat (S i)) by lia.
  destruct (IH (S i) (<[entries + 8 * Z.of_nat i := a]> mem)) as (mem' & -> & Hin & Hout); [lia|].
  exists mem'. split; [done|]. split.
  - intros j b Hj Hb. destruct (decide (j = i)) as [->|]; [|apply Hin; [lia|done]].
    simplify_eq. rewrite Hout by (intros; lia). apply fn_lookup_insert.
  - intros b Hb. rewrite Hout by (intros j Hj; apply Hb; lia).
    apply fn_lookup_insert_ne. intros Heq. apply (Hb i); [lia|done].
Qed.

Lemma prp_list_spec l n pages mem :
  prp_page_size l = 8 * Z.of_nat k -> (0 < n <= length pages)%nat ->
  let m := if decide (n <= k)%nat then n else (k - 1)%nat in
  exists mem', nvm_prp_list l (Z.of_nat n) pages mem = Some (Z.of_nat m, mem') /\
    (forall j a, (j < m)%nat -> pages !! j = Some a -> mem' (prp_vaddr l + 8 * Z.of_nat j) = a) /\
    (forall a, ~ in_list l a -> mem' a = mem a) /\
    ((k < n)%nat -> forall a, (forall j, (j < k - 1)%nat -> a <> prp_vaddr l + 8 * Z.of_nat j) ->
       mem' a = mem a).
Proof.
  intros Hps Hn m. unfold nvm_prp_list. rewrite decide_False by lia.
  rewrite Hps, (Z.mul_comm 8), Z.div_mul by lia.
  assert ((if decide (Z.of_nat n > Z.of_nat k) then u64 (Z.of_nat k - 1) else Z.of_nat n)
    = Z.of_nat m) as ->.
  { subst m. repeat case_decide; try lia. rewrite wrap_small by (unfold fits; lia). lia. }
  rewrite Nat2Z.id. assert (m <= k)%nat by (subst m; case_decide; lia).
  destruct (prp_list_loop_spec m 0 (prp_vaddr l) pages mem) as (mem' & E & Hin & Hout).
  { subst m. case_decide; lia. }
  change (Z.of_nat 0) with 0 in E. rewrite E. exists mem'. split; [done|].
  split; [intros j a Hj; apply Hin; lia|]. split.
  - intros a Ha. apply Hout. intros j Hj ->. apply Ha. exists j. split; [lia|done].
  - intros Hkn a Ha. apply Hout. intros j Hj. apply Ha. subst m. rewrite decide_False in Hj; lia.
Qed.

Lemma in_list_intro l (j : nat) : (j < k)%nat -> in_list l (prp_vaddr l + 8 * Z.of_nat j).
Proof. intros. by exists j. Qed.

Lemma lists_ok_tail l lists : lists_ok (l :: lists) -> lists_ok lists.
Proof.
  intros [Hf Hd]. split; [by inversion Hf|].
  intros i j l1 l2 a Hi Hj H1 H2. specialize (Hd (S i) (S j) l1 l2 a Hi Hj H1 H2). lia.
Qed.

Lemma lists_ok_disjoint l lists a l' :
  lists_ok (l :: lists) -> in_list l a -> l' ∈ lists -> ~ in_list l' a.
Proof.
  intros [_ Hd] Ha Hl' Ha'. apply list_elem_of_lookup in Hl' as [i Hi].
  by specialize (Hd 0%nat (S i) l l' a eq_refl Hi Ha Ha').
Qed.

(** Changing memory outside the list pages does not change the chain. *)
Lemma chain_holds_ext mem mem' l rest pages :
  (forall l' a, l' ∈ l :: rest -> in_list l' a -> mem' a = mem a) ->
  chain_holds mem l rest pages -> chain_holds mem' l rest pages.
Proof.
  revert l pages. induction rest as [|l' rest IH]; intros l pages Hext; simpl;
    destruct (decide (length pages <= k)%nat); try done.
  - intros Hm j a Hj. pose proof (lookup_lt_Some _ _ _ Hj).
    rewrite (Hext l) by (by left || apply in_list_intro; lia). by apply Hm.
  - intros Hm j a Hj. pose proof (lookup_lt_Some _ _ _ Hj).
    rewrite (Hext l) by (by left || apply in_list_intro; lia). by apply Hm.
  - intros (Hm & Hp & Hc). split.
    + intros j a Hlt Hj. rewrite (Hext l) by (by left || apply in_list_intro; lia). by apply Hm.
    + rewrite (Hext l) by (by left || apply in_list_intro; lia). split; [done|].
      apply IH; [|done]. intros l1 a Hl1. apply Hext. by right.
Qed.

(** A chain in host memory is what the controller's walk reads. *)
Lemma prp_walk_chain fuel rd mem l rest pages :
  (forall l' (j : nat), l' ∈ l :: rest -> (j < k)%nat ->
     rd (prp_ioaddr l' + 8 * Z.of_nat j) = mem (prp_vaddr l' + 8 * Z.of_nat j)) ->
  (length pages <= fuel)%nat -> (0 < fuel)%nat -> chain_holds mem l rest pages ->
  prp_walk fuel rd k (prp_ioaddr l) (length pages) = pages.
Proof.
  revert l rest pages. induction fuel as [|fuel IH]; intros l rest pages Hrd Hf Hf0 Hc; [lia|].
  cbn [prp_walk]. unfold chain_holds in Hc.
  destruct (decide (length pages <= k)%nat) as [Hle|Hgt].
  - apply list_eq. intros j. rewrite list_lookup_fmap.
    destruct (pages !! j) as [a|] eqn:Ej.
    + pose proof (lookup_lt_Some _ _ _ Ej). rewrite lookup_seq_lt by lia. simpl.
      rewrite Hrd by (by left || lia). f_equal.
      destruct rest; cbn in Hc; rewrite decide_True in Hc by done; by apply Hc.
    + apply lookup_ge_None in Ej. by rewrite lookup_seq_ge by lia.
  - destruct rest as [|l' rest]; [cbn in Hc; by rewrite decide_False in Hc|].
    cbn in Hc. rewrite decide_False in Hc by done. destruct Hc as (Hm & Hp & Hc).
    rewrite Hrd by (by left || lia). rewrite Hp.
    replace (length pages - (k - 1))%nat with (length (drop (k - 1) pages))
      by (rewrite length_drop; lia).
    rewrite (IH l' rest); [|intros; apply Hrd; [by right|done]|rewrite length_drop; lia|lia|done].
    rewrite <- (take_drop (k - 1) pages) at 2. f_equal.
    apply list_eq. intros j. rewrite list_lookup_fmap.
    destruct (decide (j < k - 1)%nat).
    + rewrite lookup_seq_lt, lookup_take_lt by lia. simpl.
      destruct (lookup_lt_is_Some_2 pages j) as [a Ha]; [lia|].
      rewrite Hrd by (by left || lia). rewrite (Hm j a) by done. done.
    + rewrite lookup_seq_ge, lookup_take_ge by lia. done.
Qed.

(** Whether [m] pages fit in [n] chained list pages. *)
Definition chain_fits (n m : nat) : Prop := (0 < n)%nat /\ (m <= (n - 1) * (k - 1) + k)%nat.

Lemma chain_fits_succ n m :
  chain_fits (S n) m -> (k < m)%nat -> chain_fits n (m - (k - 1)).
Proof. unfold chain_fits. intros [_ Hm] Hk'. destruct n as [|n]; simpl in *; lia. Qed.

(** What filling [l] and the lists after it with [pages] gives. *)
Definition chain_post (l : nvm_prp_list_t) (rest : list nvm_prp_list_t) (pages : list Z)
    (mem mem' : Z -> Z) : Prop :=
  chain_holds mem' l rest pages /\
  forall a, Forall (fun l' => ~ in_list l' a) (l :: rest) -> mem' a = mem a.

Lemma chain_post_one l rest pages mem mem1 :
  (length pages <= k)%nat ->
  (forall j a, (j < length pages)%nat -> pages !! j = Some a ->
     mem1 (prp_vaddr l + 8 * Z.of_nat j) = a) ->
  (forall a, ~ in_list l a -> mem1 a = mem a) ->
  chain_post l rest pages mem mem1.
Proof.
  intros Hle Hin Hout. split.
  - destruct rest; cbn; rewrite decide_True by done; intros j a Hj; apply Hin; try done;
      by eapply lookup_lt_Some.
  - intros a Hl. inversion Hl. by apply Hout.
Qed.

Lemma chain_post_cons l l' rest pages mem mem1 mem' :
  (k < length pages)%nat -> lists_ok (l :: l' :: rest) ->
  (forall j a, (j < k - 1)%nat -> pages !! j = Some a ->
     mem1 (prp_vaddr l + 8 * Z.of_nat j) = a) ->
  (forall a, ~ in_list l a -> mem1 a = mem a) ->
  chain_post l' rest (drop (k - 1) pages)
    (<[prp_vaddr l + 8 * Z.of_nat (k - 1) := prp_ioaddr l']> mem1) mem' ->
  chain_post l (l' :: rest) pages mem mem'.
Proof.
  intros Hgt Hok Hin Hout (Hc & Hsame).
  assert (forall a, in_list l a -> Forall (fun l => ~ in_list l a) (l' :: rest)) as Hdis.
  { intros a Ha. apply Forall_forall. intros l1 Hl1. by eapply lists_ok_disjoint. }
  split.
  - cbn. rewrite decide_False by lia. split; [|split; [|done]].
    + intros j a Hj Ha. rewrite Hsame by (apply Hdis, in_list_intro; lia).
      rewrite fn_lookup_insert_ne by lia. by apply Hin.
    + rewrite Hsame by (apply Hdis, in_list_intro; lia). apply fn_lookup_insert.
  - intros a Hl. inversion Hl as [|? ? Hal Harest]; subst.
    rewrite Hsame by done. rewrite fn_lookup_insert_ne by (intros <-; apply Hal, in_list_intro; lia).
    by apply Hout.
Qed.

(** Filling [l] and, when it overflows, the lists after it. *)
Lemma prp_chain_spec l rest pages mem (n0 : nat) ioaddrs :
  lists_ok (l :: rest) -> chain_fits (S (length rest)) (length pages) -> (0 < length pages)%nat ->
  drop n0 ioaddrs = pages -> (n0 + length pages = length ioaddrs)%nat ->
  exists mem',
    match nvm_prp_list l (Z.of_nat (length pages)) pages mem with
    | None => None
    | Some (list_prps, mem) =>
        prp_chain_loop l rest list_prps (Z.of_nat n0 + list_prps) (Z.of_nat (length ioaddrs))
          ioaddrs mem
    end = Some (Z.of_nat (length ioaddrs), mem') /\ chain_post l rest pages mem mem'.
Proof.
  revert l pages mem n0. induction rest as [|l' rest IH];
    intros l pages mem n0 Hok Hfit Hpos Hdrop Hlen;
    pose proof (Forall_inv (proj1 Hok)) as Hps; simpl in Hps;
    (destruct (prp_list_spec l (length pages) pages mem)
      as (mem1 & -> & Hin & Hout & _); [done|lia|]).
  - destruct Hfit as [_ Hfit]. simpl in Hfit. rewrite decide_True in * by lia. simpl.
    exists mem1. split; [do 2 f_equal; lia|]. by apply chain_post_one.
  - destruct (decide (length pages <= k)%nat) as [Hle|Hgt].
    { cbn [prp_chain_loop]. rewrite decide_False by lia. exists mem1.
      split; [do 2 f_equal; lia|]. by apply chain_post_one. }
    cbn [prp_chain_loop]. rewrite decide_True by lia.
    destruct (IH l' (drop (k - 1) pages)
      (<[prp_vaddr l + 8 * Z.of_nat (k - 1) := prp_ioaddr l']> mem1)
      (n0 + (k - 1))%nat) as (mem' & E & Hpost).
    + by eapply lists_ok_tail.
    + rewrite length_drop. apply chain_fits_succ; [done|lia].
    + rewrite length_drop. lia.
    + rewrite <- Hdrop, drop_drop. done.
    + rewrite length_drop. lia.
    + exists mem'. split; [|by eapply chain_post_cons; try done; lia].
      rewrite <- E, length_drop, <- Hdrop, drop_drop.
      replace (Z.to_nat (Z.of_nat n0 + Z.of_nat (k - 1))) with (n0 + (k - 1))%nat by lia.
      replace (Z.of_nat (length ioaddrs) - (Z.of_nat n0 + Z.of_nat (k - 1)))
        with (Z.of_nat (length (drop n0 ioaddrs) - (k - 1))) by (rewrite Hdrop; lia).
      by rewrite Nat2Z.inj_add.
Qed.

(** What the controller sees of the list pages through their bus addresses. *)
Definition rd_lists (rd mem : Z -> Z) (lists : list nvm_prp_list_t) : Prop :=
  forall l (j : nat), l ∈ lists -> (j < k)%nat ->
    rd (prp_ioaddr l + 8 * Z.of_nat j) = mem (prp_vaddr l + 8 * Z.of_nat j).

(** C31: [nvm_cmd_data] describes exactly the pages it is given.  For [n] pages that the
    [lists] can hold (one or two pages need none) it returns [n], and the pages the controller
    resolves from the command, following the chain of lists in memory, are the [n] pages, in
    order. *)
Theorem cmd_data_pages cmd lists pages mem :
  cmd_ok cmd -> Forall (fits 64) pages -> (0 < length pages)%nat ->
  Forall (fun l => fits 64 (prp_ioaddr l)) lists -> lists_ok lists ->
  (length pages <= 2)%nat \/ chain_fits (length lists) (length pages - 1) ->
  exists cmd' mem',
    nvm_cmd_data cmd lists (Z.of_nat (length pages)) pages mem =
      Some (Z.of_nat (length pages), cmd', mem') /\
    forall rd, rd_lists rd mem' lists -> cmd_pages rd k cmd' (length pages) = pages.
Proof.
  intros Hc Hfit Hpos Hlf Hok Hcap. unfold nvm_cmd_data. rewrite decide_False by lia.
  destruct pages as [|p0 pages]; [simpl in Hpos; lia|]. change (_ @[0]) with (Some p0).
  inversion Hfit as [|? ? Hp0 Hps]; subst. cbv beta iota.
  destruct pages as [|p1 [|p2 pages]].
  - destruct (data_ptr_prps cmd p0 0 Hc Hp0) as [H1 _]; [unfold fits; lia|].
    destruct lists; simpl; repeat (rewrite decide_False by lia); (do 2 eexists; split; [done|]);
      intros; by rewrite H1.
  - inversion Hps; subst. destruct (data_ptr_prps cmd p0 p1 Hc) as [Hr1 Hr2]; [done..|].
    destruct lists; simpl; do 2 eexists; (split; [done|]); intros; by rewrite Hr1, Hr2.
  - destruct Hcap as [Hcap|Hcap]; [simpl in Hcap; lia|].
    destruct lists as [|l0 rest]; [destruct Hcap; simpl in *; lia|].
    rewrite decide_True by (simpl; lia). inversion Hlf; subst.
    change (drop 1 (p0 :: p1 :: p2 :: pages)) with (p1 :: p2 :: pages).
    set (ps := p1 :: p2 :: pages) in *.
    replace (Z.of_nat (length (p0 :: ps)) - 1) with (Z.of_nat (length ps)) by (simpl; lia).
    replace (length (p0 :: ps) - 1)%nat with (length ps) in Hcap by (simpl; lia).
    destruct (prp_chain_spec l0 rest ps mem 0 ps) as (mem' & E & Hchain & _);
      [done..|simpl; lia|done|done|].
    unfold nvm_prp_list_chain. change (Z.of_nat 0) with 0 in E.
    destruct (data_ptr_prps cmd p0 (prp_ioaddr l0) Hc) as [Hr1 Hr2]; [done..|].
    destruct (nvm_prp_list l0 _ ps mem) as [[n m]|]; [|done]. rewrite Z.add_0_l in E. rewrite E.
    do 2 eexists. split; [do 3 f_equal; simpl; lia|]. intros rd Hrd.
    unfold cmd_pages. simpl length. rewrite Hr1, Hr2. f_equal.
    by apply (prp_walk_chain _ rd mem' l0 rest ps); [|simpl; lia..|].
Qed.
End prp_lists.
