(* ===== verification/NvmCases.v ===== *)
(** * Concrete queues, commands and registers

    The theorems on libnvm's registers, queues, commands and errors applied to concrete values. *)
From S2P Require Import Prelude NvmTypes NvmUtil NvmError NvmQueue NvmCmd.
From stdpp Require Import prelude list relations.
From Stdlib Require Import ZArith Lia.
Local Open Scope Z_scope.

Lemma doorbells_mapped_witness :
  0 <= 2 <= 15 /\
  forall cq y, 0 <= y <= 16 ->
    4096 + 0x1000 <= dbl_addr 4096 cq y 2 /\ dbl_addr 4096 cq y 2 + 4 <= 4096 + NVM_CTRL_MEM_MINSIZE.
Proof. split; [lia|]. apply (doorbells_mapped 4096 2); lia. Defined.

Lemma doorbells_distinct_witness : 0 <= 2 /\ true = true /\ 3 = 3.
Proof. split; [lia|]. apply (doorbells_distinct 4096 2 true 3 true 3); [lia|reflexivity]. Defined.

(** Invalid namespace or format (generic status 0x0b), phase tag set. *)
Definition demo_cpl : nvm_cpl_t := mk_cpl [0; 0; 0x10001; 0x170005].

Lemma err_pack_roundtrip_witness :
  cpl_ok demo_cpl /\ 0 <= 0 /\ NVM_ERR_UNPACK_SC (NVM_ERR_PACK (Some demo_cpl) 0) = 0x0b.
Proof.
  assert (cpl_ok demo_cpl) as Hok by (split; [done|repeat constructor; unfold fits; lia]).
  split; [exact Hok|]. split; [lia|].
  exact (proj2 (proj2 (proj2 (err_pack_roundtrip demo_cpl 0 Hok ltac:(lia))) eq_refl)).
Defined.

(** A submission queue of [qs] entries with its head and tail. *)
Definition demo_sq (qs head tail : Z) : nvm_queue_t :=
  mk_queue 0 0 head tail 0 0 1 sizeof_cmd qs 1 true 0 0x1008 0x200000 0x900000.

Definition cmd_n (n : Z) : nvm_cmd_t := mk_cmd (n :: replicate 15 0).
Definition demo_mem : Z -> nvm_cmd_t := <[0x200000 + 64 * 3 := cmd_n 7]> (fun _ => cmd_zero).

Lemma demo_sq_wf qs head tail :
  2 <= qs <= 0x10000 -> 0 < qs -> 0 <= head < qs -> 0 <= tail < qs -> queue_wf (demo_sq qs head tail).
Proof. intros. constructor; simpl; auto; lia. Qed.

Lemma demo_sq_rep : SqFifo.sq_rep (demo_sq 4 3 0) demo_mem [cmd_n 7].
Proof.
  split; [apply demo_sq_wf; lia|]. split; [reflexivity|].
  intros [|i] c Hc; simpl in Hc; [|done]. injection Hc as <-. reflexivity.
Qed.


Lemma sq_update_refines_witness : SqFifo.sq_rep (nvm_sq_update (demo_sq 4 3 0)) demo_mem [].
Proof. apply (SqFifo.sq_update_refines (demo_sq 4 3 0) demo_mem (cmd_n 7) [] demo_sq_rep). done. Defined.

(** A queue of 48 entries, full: 47 commands from entry 40 round to entry 38. *)
Lemma sq_full_detected_iff_witness :
  sq_count (demo_sq 48 40 39) = 47 /\
  (fst (nvm_sq_enqueue (demo_sq 48 40 39)) = None <-> (48 | 2 ^ 16)).
Proof.
  split; [reflexivity|].
  apply (sq_full_detected_iff (demo_sq 48 40 39)); [apply demo_sq_wf; lia|simpl; lia|reflexivity].
Defined.

Definition demo_ctrl : nvm_ctrl_t := mk_ctrl 4096 0 5000 64 0x2000 0x1000000.

Lemma cids_unique_witness :
  exists q (cids : list Z), length cids = 2%nat /\ NoDup cids /\ Z.of_nat (length cids) = sq_count q.
Proof.
  eexists _, _. split; [|eapply (SqCid.cids_unique (demo_sq 2 0 0) demo_ctrl 1 4 true 0x200000 0x900000);
    [reflexivity|exists 16384; reflexivity|]].
  2:{ eapply rtc_l; [eapply SqCid.step_enqueue; reflexivity|].
      eapply rtc_l; [eapply SqCid.step_enqueue; reflexivity|].
      eapply rtc_l; [eapply SqCid.step_submit|]. apply rtc_refl. }
  reflexivity.
Defined.

(** A completion queue of four entries: one completion posted, taken and acknowledged. *)
Definition demo_cq : nvm_queue_t :=
  snd (nvm_queue_clear (demo_sq 2 0 0) demo_ctrl true 1 4 true 0x300000 0xa00000).
Definition clear_mem : Z -> nvm_cpl_t := fun _ => cpl_zero.

Lemma cq_fifo_witness :
  exists s pending, length (CqFifo.s_taken s) = 1%nat /\ CqFifo.s_posted s = CqFifo.s_taken s ++ pending /\
    fst (nvm_cq_dequeue (CqFifo.s_load s) (CqFifo.s_q s)) = head pending.
Proof.
  eassert (rtc CqFifo.cq_step (CqFifo.cq_sys_init demo_cq clear_mem) _) as Hrun.
  { eapply rtc_l; [eapply (CqFifo.ctrl_post _ _ _ _ _ _ _ demo_cpl); [done|reflexivity]|].
    eapply rtc_l; [eapply CqFifo.host_dequeue; reflexivity|].
    eapply rtc_l; [eapply CqFifo.host_update; reflexivity|]. apply rtc_refl. }
  destruct (CqFifo.cq_fifo (demo_sq 2 0 0) demo_ctrl 1 4 true 0x300000 0xa00000 demo_cq clear_mem _
    eq_refl ltac:(intros; reflexivity) Hrun) as (pending & Hp & Hn).
  eexists _, pending. split; [|split; [exact Hp|exact Hn]]. reflexivity.
Defined.

(** Two PRP list pages of four entries each for a transfer of six pages. *)
Definition demo_lists : list nvm_prp_list_t :=
  [mk_prp_list 0x1000 1 32 0x81000; mk_prp_list 0x2000 1 32 0x82000].
Definition demo_pages : list Z := [0x10000; 0x20000; 0x30000; 0x40000; 0x50000; 0x60000].

Lemma demo_lists_ok : lists_ok 4 demo_lists.
Proof.
  split; [repeat constructor|].
  intros [|[|i]] [|[|j]] l l' a Hl Hl' (x & Hx & Ha) (y & Hy & Ha'); simpl in *; try done;
    injection Hl as <-; injection Hl' as <-; simpl in *; lia.
Qed.

Lemma cmd_data_pages_witness :
  exists cmd' mem',
    nvm_cmd_data cmd_zero demo_lists 6 demo_pages (fun _ => 0) = Some (6, cmd', mem') /\
    forall rd, rd_lists 4 rd mem' demo_lists -> cmd_pages rd 4 cmd' 6 = demo_pages.
Proof.
  apply (cmd_data_pages 4 ltac:(lia) ltac:(lia) cmd_zero demo_lists demo_pages (fun _ => 0)).
  - apply cmd_zero_ok.
  - repeat constructor; unfold fits; lia.
  - simpl. lia.
  - repeat constructor; unfold fits; simpl; lia.
  - apply demo_lists_ok.
  - right. split; simpl; lia.
Defined.
