(* ===== verification/NvmDevice.v ===== *)
(** * The controller, as the host sees it

    The interface between the queues in host memory and the NVMe controller.  The theorems on the
    admin queue and on the I/O path hold for every instance. *)
From S2P Require Import Prelude NvmTypes.
From stdpp Require Import prelude.
From Stdlib Require Import ZArith.
Local Open Scope Z_scope.

(** The controller: the completion queue memory it shows, what it does while the host spins,
    and its reaction to the two doorbells (register address, value and, for a submission
    doorbell, the host memory at that moment). *)
Class Device (E : Type) := {
  dev_cpl : E -> Z -> nvm_cpl_t;
  dev_tick : E -> E;
  dev_sq_doorbell : Z -> Z -> (Z -> nvm_cmd_t) -> (Z -> Z) -> E -> E;
  dev_cq_doorbell : Z -> Z -> E -> E;
}.
