(* ===== verification/Admin.v ===== *)
(** * Admin functions (src/libnvm/admin.cpp)

    The command builders and the functions over them.  [nvm_raw_rpc] and the buffer the controller
    writes to are the class [AdminRpc]; what the functions do with the answer is modelled here. *)
From S2P Require Import Prelude NvmTypes NvmUtil NvmError NvmQueue NvmCmd.
From stdpp Require Import prelude list.
From Stdlib Require Import ZArith Lia.
Local Open Scope Z_scope.
Local Open Scope ugds_scope.

(** ** Command builders *)

Definition admin_cq_create (cmd : nvm_cmd_t) (cq : nvm_queue_t) (ioaddr : Z) (need_prp : bool) : nvm_cmd_t :=
  let cmd := nvm_cmd_header cmd 0 (admin_opcode NVM_ADMIN_CREATE_CQ) 0 in
  let cmd := nvm_cmd_data_ptr cmd ioaddr 0 in
  let cmd := cmd_set cmd 10 (Z.lor (u32 (Z.shiftl (u32 (q_qs cq - 1)) 16)) (q_no cq)) in
  cmd_set cmd 11 (if need_prp then 0 else 1).

Definition admin_cq_delete (cmd : nvm_cmd_t) (cq : nvm_queue_t) : nvm_cmd_t :=
  let cmd := nvm_cmd_header cmd 0 (admin_opcode NVM_ADMIN_DELETE_CQ) 0 in
  cmd_set cmd 10 (Z.land (q_no cq) 0xffff).

Definition admin_sq_create (cmd : nvm_cmd_t) (sq cq : nvm_queue_t) (ioaddr : Z) (need_prp : bool) : nvm_cmd_t :=
  let cmd := nvm_cmd_header cmd 0 (admin_opcode NVM_ADMIN_CREATE_SQ) 0 in
  let cmd := nvm_cmd_data_ptr cmd ioaddr 0 in
  let cmd := cmd_set cmd 10 (Z.lor (u32 (Z.shiftl (u32 (q_qs sq - 1)) 16)) (q_no sq)) in
  cmd_set cmd 11 (Z.lor (u32 (Z.shiftl (q_no cq) 16)) (if need_prp then 0 else 1)).

Definition admin_sq_delete (cmd : nvm_cmd_t) (sq : nvm_queue_t) : nvm_cmd_t :=
  let cmd := nvm_cmd_header cmd 0 (admin_opcode NVM_ADMIN_DELETE_SQ) 0 in
  cmd_set cmd 10 (Z.land (q_no sq) 0xffff).

Definition admin_current_num_queues (cmd : nvm_cmd_t) (set : bool) (n_cqs n_sqs : Z) : nvm_cmd_t :=
  let op := if set then NVM_ADMIN_SET_FEATURES else NVM_ADMIN_GET_FEATURES in
  let cmd := nvm_cmd_header cmd 0 (admin_opcode op) 0 in
  let cmd := nvm_cmd_data_ptr cmd 0 0 in
  let cmd := cmd_set cmd 10 (Z.lor (Z.shiftl 0 8) 0x07) in
  cmd_set cmd 11 (if set then u32 (Z.lor (Z.shiftl (n_cqs - 1) 16) (n_sqs - 1)) else 0).

Definition admin_identify_ctrl (cmd : nvm_cmd_t) (ioaddr : Z) : nvm_cmd_t :=
  let cmd := nvm_cmd_header cmd 0 (admin_opcode NVM_ADMIN_IDENTIFY) 0 in
  let cmd := nvm_cmd_data_ptr cmd ioaddr 0 in
  let cmd := cmd_set cmd 10 (Z.lor (Z.shiftl 0 16) 0x01) in
  cmd_set cmd 11 0.

Definition admin_identify_ns (cmd : nvm_cmd_t) (ns_id ioaddr : Z) : nvm_cmd_t :=
  let cmd := nvm_cmd_header cmd 0 (admin_opcode NVM_ADMIN_IDENTIFY) ns_id in
  let cmd := nvm_cmd_data_ptr cmd ioaddr 0 in
  let cmd := cmd_set cmd 10 (Z.lor (Z.shiftl 0 16) 0x00) in
  cmd_set cmd 11 0.

Definition admin_get_log_page (cmd : nvm_cmd_t) (ns_id ioaddr log_id log_offset : Z) : nvm_cmd_t :=
  let cmd := nvm_cmd_header cmd 0 (admin_opcode NVM_ADMIN_GET_LOG_PAGE) ns_id in
  let cmd := nvm_cmd_data_ptr cmd ioaddr 0 in
  let cmd := cmd_set cmd 10 (Z.lor (Z.shiftl 1024 16) log_id) in
  let cmd := cmd_set cmd 11 0 in
  let cmd := cmd_set cmd 12 (u32 log_offset) in
  cmd_set cmd 13 (u32 (Z.shiftr log_offset 32)).

(** ** The functions *)

(** [nvm_raw_rpc] on the reference (the packed status and the completion), clearing 4 KiB of host
    memory, and a byte of host memory. *)
Class AdminRpc (S : Type) := {
  raw_rpc : nvm_cmd_t -> nvm_cpl_t -> M S (Z * nvm_cpl_t);
  clear_page : Z -> M S unit;
  host_byte : S -> Z -> Z;
}.

Section admin.
Context {S : Type} `{AdminRpc S}.

(** An [n]-byte little-endian load at [addr]. *)
Definition load_le (s : S) (addr n : Z) : Z := little_endian_to_Z 8 (host_byte s <$> seqZ addr n).
Definition load_bytes (s : S) (addr n : Z) : list Z := host_byte s <$> seqZ addr n.

Definition zero_ctrl_info : nvm_ctrl_info :=
  mk_ctrl_info 0 0 0 0 0 0 (replicate 4 0) (replicate 20 0) (replicate 40 0) (replicate 8 0) 0 0 0 0 0 0.

(** The status and what [*info] holds ([None]: untouched).  [ver] and [cap] are the registers; a
    shift by 64 or more is undefined. *)
Definition nvm_admin_ctrl_info (ctrl : nvm_ctrl_t) (ver cap : Z) (info ptr ioaddr : Z)
    : M S (Z * option nvm_ctrl_info) :=
  if decide (info = NULL \/ ptr = NULL \/ ioaddr = 0) then mret (NVM_ERR_PACK None EINVAL, None)
  else
    clear_page ptr;;
    let i := mk_ctrl_info ver (ctrl_page_size ctrl) (Z.shiftl 1 (ctrl_dstrd ctrl)) (CAP_TO cap * 500)
               (if decide (CAP_CQR cap = 0) then 0 else 1) (u16 (CAP_MQES cap + 1))
               (replicate 4 0) (replicate 20 0) (replicate 40 0) (replicate 8 0) 0 0 0 0 0 0 in
    r ← raw_rpc (admin_identify_ctrl cmd_zero ioaddr) cpl_zero;
    if nvm_ok (fst r) then
      s ← get;
      let mdts := host_byte s (ptr + 77) in
      if decide (mdts >= 64) then undefined
      else if decide (ctrl_page_size ctrl = 0) then undefined
      else
        let max_data_size := u64 (2 ^ mdts * 2 ^ (12 + CAP_MPSMIN cap)) in
        mret (NVM_ERR_PACK None 0,
          Some (mk_ctrl_info (ci_nvme_version i) (ci_page_size i) (ci_db_stride i) (ci_timeout i)
            (ci_contiguous i) (ci_max_entries i)
            (load_bytes s ptr 4) (load_bytes s (ptr + 4) 20) (load_bytes s (ptr + 24) 40)
            (load_bytes s (ptr + 64) 8)
            max_data_size (max_data_size / ctrl_page_size ctrl)
            (Z.shiftl 1 (_RB (host_byte s (ptr + 513)) 3 0))
            (Z.shiftl 1 (_RB (host_byte s (ptr + 512)) 3 0))
            (load_le s (ptr + 514) 2) (load_le s (ptr + 516) 4)))
    else mret (fst r, Some i).

(** [1 << n] as an [int] converted to [size_t]; 32 and more are undefined. *)
Definition int_shift (n : Z) : option Z := if decide (n >= 32) then None else Some (u64 (s32 (2 ^ n))).

Definition nvm_admin_ns_info (info ns_id ptr ioaddr : Z) : M S (Z * option nvm_ns_info) :=
  if decide (info = NULL \/ ptr = NULL \/ ioaddr = 0) then mret (NVM_ERR_PACK None EINVAL, None)
  else
    clear_page ptr;;
    r ← raw_rpc (admin_identify_ns cmd_zero ns_id ioaddr) cpl_zero;
    if nvm_ok (fst r) then
      s ← get;
      let format_idx := _RB (host_byte s (ptr + 26)) 3 0 in
      let lba_format := load_le s (ptr + 128 + 4 * format_idx) 4 in
      lba_data_size ← of_option (int_shift (_RB lba_format 23 16));
      mret (NVM_ERR_PACK None 0,
        Some (mk_ns_info ns_id (load_le s ptr 8) (load_le s (ptr + 8) 8) (load_le s (ptr + 16) 8)
          lba_data_size (_RB lba_format 15 0)))
    else mret (fst r, Some (mk_ns_info ns_id 0 0 0 0 0)).

Definition nvm_admin_get_log_page (ns_id ptr ioaddr log_id log_offset : Z) : M S Z :=
  clear_page ptr;;
  r ← raw_rpc (admin_get_log_page cmd_zero ns_id ioaddr log_id log_offset) cpl_zero;
  if nvm_ok (fst r) then mret (NVM_ERR_PACK None 0) else mret (fst r).

(** The checks shared by the two functions that create a queue: the queue size, or an error. *)
Definition queue_size (ctrl : nvm_ctrl_t) (dma : nvm_dma_t) (n_pages_of_qs : Z -> Z) (offset qs es : Z)
    : Z + Z :=
  let qs := if decide (qs = 0) then _MIN (dma_page_size dma / es) (ctrl_max_qs ctrl) else qs in
  if decide (qs < 2 \/ qs > 0x10000 \/ qs > ctrl_max_qs ctrl) then inl EINVAL
  else
    let n_pages := n_pages_of_qs qs in
    if decide (dma_vaddr dma = NULL) then inl EINVAL
    else if decide (n_pages = 0 \/ n_pages > dma_n_ioaddrs dma \/ offset > dma_n_ioaddrs dma \/
                    u64 (offset + n_pages) > dma_n_ioaddrs dma) then inl EINVAL
    else inr qs.

(** The status and what [*cq] becomes ([None]: untouched).  [ctrl] is [None] when the reference is
    null; [queue] is the uninitialised local variable. *)
Definition nvm_admin_cq_create (ctrl : option nvm_ctrl_t) (queue : nvm_queue_t) (id : Z) (dma : nvm_dma_t)
    (offset qs : Z) (need_prp : bool) : M S (Z * option nvm_queue_t) :=
  if decide (id = 0) then mret (NVM_ERR_PACK None EINVAL, None)
  else match ctrl with
  | None => mret (NVM_ERR_PACK None ENOTTY, None)
  | Some ctrl =>
      match queue_size ctrl dma (NVM_CQ_PAGES ctrl) offset qs sizeof_cpl with
      | inl err => mret (NVM_ERR_PACK None err, None)
      | inr qs =>
          ioaddr ← of_option ((dma_ioaddrs dma) @[offset]);
          let '(err, queue) := nvm_queue_clear queue ctrl true id qs (dma_local dma)
                                 (NVM_DMA_OFFSET dma offset) ioaddr in
          if decide (err <> 0) then mret (NVM_ERR_PACK None err, None)
          else
            r ← raw_rpc (admin_cq_create cmd_zero queue ioaddr need_prp) cpl_zero;
            if nvm_ok (fst r) then mret (NVM_ERR_PACK None 0, Some queue) else mret (fst r, None)
      end
  end.

Definition nvm_admin_cq_delete (cq : nvm_queue_t) : M S (Z * nvm_queue_t) :=
  if decide (q_db cq = NULL) then mret (NVM_ERR_PACK None EINVAL, cq)
  else
    r ← raw_rpc (admin_cq_delete cmd_zero cq) cpl_zero;
    if nvm_ok (fst r) then mret (NVM_ERR_PACK None 0, q_set_db cq NULL) else mret (fst r, cq).

Definition nvm_admin_sq_create (ctrl : option nvm_ctrl_t) (queue cq : nvm_queue_t) (id : Z) (dma : nvm_dma_t)
    (offset qs : Z) (need_prp : bool) : M S (Z * option nvm_queue_t) :=
  if decide (id = 0) then mret (NVM_ERR_PACK None EINVAL, None)
  else match ctrl with
  | None => mret (NVM_ERR_PACK None ENOTTY, None)
  | Some ctrl =>
      match queue_size ctrl dma (NVM_SQ_PAGES ctrl) offset qs sizeof_cmd with
      | inl err => mret (NVM_ERR_PACK None err, None)
      | inr qs =>
          ioaddr ← of_option ((dma_ioaddrs dma) @[offset]);
          let '(err, queue) := nvm_queue_clear queue ctrl false id qs (dma_local dma)
                                 (NVM_DMA_OFFSET dma offset) ioaddr in
          if decide (err <> 0) then mret (NVM_ERR_PACK None err, None)
          else
            r ← raw_rpc (admin_sq_create cmd_zero queue cq ioaddr need_prp) cpl_zero;
            if nvm_ok (fst r) then mret (NVM_ERR_PACK None 0, Some queue) else mret (fst r, None)
      end
  end.

(** [cq] is [None] for a null pointer. *)
Definition nvm_admin_sq_delete (sq : nvm_queue_t) (cq : option nvm_queue_t) : M S (Z * nvm_queue_t) :=
  match cq with
  | None => mret (NVM_ERR_PACK None EINVAL, sq)
  | Some cq =>
      if decide (q_db cq = NULL) then mret (NVM_ERR_PACK None EINVAL, sq)
      else if decide (q_db sq = NULL) then mret (NVM_ERR_PACK None EINVAL, sq)
      else
        r ← raw_rpc (admin_sq_delete cmd_zero sq) cpl_zero;
        if nvm_ok (fst r) then mret (NVM_ERR_PACK None 0, q_set_db sq NULL) else mret (fst r, sq)
  end.

(** [*n_sqs] and [*n_cqs] from the completion. *)
Definition num_queues (cpl : nvm_cpl_t) : Z * Z :=
  let n_sqs := u16 (Z.shiftr (cpl_get cpl 0) 16 + 1) in
  let n_cqs := u16 (Z.land (cpl_get cpl 0) 0xffff + 1) in
  (n_cqs, n_sqs).

(** The status and what [n_cqs] and [n_sqs] point to ([None]: untouched). *)
Definition nvm_admin_get_num_queues : M S (Z * option (Z * Z)) :=
  r ← raw_rpc (admin_current_num_queues cmd_zero false 0 0) cpl_zero;
  if nvm_ok (fst r) then mret (NVM_ERR_PACK None 0, Some (num_queues (snd r))) else mret (fst r, None).

Definition nvm_admin_request_num_queues (n_cqs n_sqs : Z) : M S (Z * (Z * Z)) :=
  if decide (n_cqs = 0 \/ n_sqs = 0) then mret (NVM_ERR_PACK None EINVAL, (n_cqs, n_sqs))
  else
    r ← raw_rpc (admin_current_num_queues cmd_zero true n_cqs n_sqs) cpl_zero;
    if decide (fst r <> 0) then mret (fst r, (n_cqs, n_sqs))
    else mret (NVM_ERR_PACK None 0, num_queues (snd r)).

Definition nvm_admin_set_num_queues (n_cqs n_sqs : Z) : M S Z :=
  r ← nvm_admin_request_num_queues n_cqs n_sqs; mret (fst r).
End admin.
