(* ===== verification/AdminSpec.v ===== *)
(** * The admin functions ask for what they should

    The commands of Admin as the controller reads them, and what the functions return. *)
From S2P Require Import Prelude NvmTypes NvmUtil NvmError NvmQueue NvmCmd Admin.
From stdpp Require Import prelude list.
From Stdlib Require Import ZArith Lia.
Local Open Scope Z_scope.
Local Open Scope ugds_scope.

(** ** Fields of the queue management commands (dwords 10 and 11) *)

Definition cmd_qid (c : nvm_cmd_t) : Z := cmd_get c 10 mod 2 ^ 16.
Definition cmd_qsize (c : nvm_cmd_t) : Z := cmd_get c 10 / 2 ^ 16 + 1.
Definition cmd_pc (c : nvm_cmd_t) : Z := cmd_get c 11 mod 2.
Definition cmd_cqid (c : nvm_cmd_t) : Z := cmd_get c 11 / 2 ^ 16.

Lemma pack_halves hi lo :
  0 <= hi < 2 ^ 16 -> 0 <= lo < 2 ^ 16 -> Z.lor (u32 (Z.shiftl hi 16)) lo = hi * 2 ^ 16 + lo.
Proof.
  intros Hhi Hlo. rewrite wrap_small by (unfold fits; rewrite Z.shiftl_mul_pow2; lia).
  by rewrite lor_shiftl_add by lia.
Qed.

Lemma halves hi lo :
  0 <= hi < 2 ^ 16 -> 0 <= lo < 2 ^ 16 ->
  (hi * 2 ^ 16 + lo) mod 2 ^ 16 = lo /\ (hi * 2 ^ 16 + lo) / 2 ^ 16 = hi.
Proof.
  intros Hhi Hlo. split.
  - rewrite Z.add_comm, Z.mod_add by lia. by apply Z.mod_small.
  - rewrite Z.div_add_l, (Z.div_small lo) by lia. lia.
Qed.

(** A command that creates queue [q] at bus address [ioaddr]. *)
Record creates (c : nvm_cmd_t) (op : nvm_admin_command_set) (q : nvm_queue_t) (ioaddr : Z) (need_prp : bool)
    : Prop := {
  cr_opcode : cmd_opcode c = admin_opcode op;
  cr_nsid : cmd_nsid c = 0;
  cr_qid : cmd_qid c = q_no q;
  cr_qsize : cmd_qsize c = q_qs q;
  cr_prp1 : cmd_prp1 c = ioaddr;
  cr_pc : cmd_pc c = if need_prp then 0 else 1;
}.

Lemma dword10_queue q :
  2 <= q_qs q <= 0x10000 -> 0 <= q_no q < 2 ^ 16 ->
  Z.lor (u32 (Z.shiftl (u32 (q_qs q - 1)) 16)) (q_no q) = (q_qs q - 1) * 2 ^ 16 + q_no q.
Proof. intros Hqs Hno. rewrite (wrap_small 32 (q_qs q - 1)) by (unfold fits; lia). by apply pack_halves; [lia|]. Qed.

Lemma admin_cq_create_fields q ioaddr need_prp :
  2 <= q_qs q <= 0x10000 -> 0 <= q_no q < 2 ^ 16 -> fits 64 ioaddr ->
  creates (admin_cq_create cmd_zero q ioaddr need_prp) NVM_ADMIN_CREATE_CQ q ioaddr need_prp.
Proof.
  intros Hqs Hno Hio. pose proof (halves (q_qs q - 1) (q_no q) ltac:(lia) Hno) as [H1 H2].
  unfold admin_cq_create. rewrite dword10_queue by done.
  constructor; unfold cmd_qid, cmd_qsize, cmd_pc, cmd_prp1; cbn -[Z.mul Z.pow Z.add Z.modulo Z.div Z.sub wrap Z.shiftr];
    try done; [lia|by apply split_join_64|by destruct need_prp].
Qed.

Lemma admin_sq_create_fields q cq ioaddr need_prp :
  2 <= q_qs q <= 0x10000 -> 0 <= q_no q < 2 ^ 16 -> 0 <= q_no cq < 2 ^ 16 -> fits 64 ioaddr ->
  creates (admin_sq_create cmd_zero q cq ioaddr need_prp) NVM_ADMIN_CREATE_SQ q ioaddr need_prp /\
  cmd_cqid (admin_sq_create cmd_zero q cq ioaddr need_prp) = q_no cq.
Proof.
  intros Hqs Hno Hcq Hio. pose proof (halves (q_qs q - 1) (q_no q) ltac:(lia) Hno) as [H1 H2].
  set (pc := if need_prp then 0 else 1). assert (0 <= pc < 2) as Hpc by (unfold pc; destruct need_prp; lia).
  pose proof (halves (q_no cq) pc Hcq ltac:(lia)) as [H3 H4].
  assert ((q_no cq * 2 ^ 16 + pc) mod 2 = pc) as H5.
  { replace (q_no cq * 2 ^ 16) with (q_no cq * 2 ^ 15 * 2) by lia.
    rewrite Z.add_comm, Z.mod_add by lia. by apply Z.mod_small. }
  unfold admin_sq_create. rewrite dword10_queue, pack_halves by (done || fold pc; lia). fold pc.
  split; [|exact H4].
  constructor; unfold cmd_qid, cmd_qsize, cmd_pc, cmd_prp1; cbn -[Z.mul Z.pow Z.add Z.modulo Z.div Z.sub wrap Z.shiftr];
    try done; [lia|by apply split_join_64].
Qed.

(** ** Creating queues *)

Section create.
Context {S : Type} `{AdminRpc S}.

(** Queue memory: page-aligned, of a handle that is mapped and does not end past the address space. *)
Record mem_ok (ctrl : nvm_ctrl_t) (dma : nvm_dma_t) : Prop := {
  mo_ps : dma_page_size dma = ctrl_page_size ctrl;
  mo_div : (sizeof_cmd | ctrl_page_size ctrl);
  mo_pos : 0 < ctrl_page_size ctrl;
  mo_len : dma_n_ioaddrs dma = Z.of_nat (length (dma_ioaddrs dma));
  mo_fits : Forall (fits 64) (dma_ioaddrs dma);
  mo_vaddr : 0 <= dma_vaddr dma;
  mo_top : dma_vaddr dma + dma_n_ioaddrs dma * dma_page_size dma < 2 ^ 64;
}.

(** The queue [q] of [es]-byte entries is new and lies in the pages of [dma] from [offset] on. *)
Record new_queue (q : nvm_queue_t) (dma : nvm_dma_t) (offset id es ioaddr : Z) : Prop := {
  nq_wf : queue_wf q;
  nq_no : q_no q = id;
  nq_es : q_es q = es;
  nq_empty : q_head q = 0 /\ q_tail q = 0 /\ q_phase q = 1;
  nq_ioaddr : q_ioaddr q = ioaddr /\ (dma_ioaddrs dma) @[offset] = Some ioaddr;
  nq_vaddr : q_vaddr q = dma_vaddr dma + offset * dma_page_size dma;
  nq_inside : q_vaddr q + q_qs q * es <= dma_vaddr dma + dma_n_ioaddrs dma * dma_page_size dma;
}.

(** The checks pass exactly when the entries asked for fit. *)
Lemma queue_size_ok ctrl dma pages offset qs es n :
  mem_ok ctrl dma -> 0 <= offset < 2 ^ 64 -> 0 < es ->
  (forall qs, 2 <= qs <= 0x10000 -> pages qs = cdiv (qs * es) (ctrl_page_size ctrl)) ->
  queue_size ctrl dma pages offset qs es = inr n ->
  2 <= n <= 0x10000 /\ n <= ctrl_max_qs ctrl /\ 0 <= offset < dma_n_ioaddrs dma /\
  offset * dma_page_size dma + n * es <= dma_n_ioaddrs dma * dma_page_size dma.
Proof.
  intros [] Hoff Hes Hpages. unfold queue_size. set (k := if decide (qs = 0) then _ else _).
  destruct (decide (k < 2 \/ _)) as [|Hk]; [done|]. destruct (decide (dma_vaddr dma = NULL)); [done|].
  destruct (decide (pages k = 0 \/ _)) as [|Hp]; [done|]. intros [= <-].
  assert (2 <= k <= 0x10000) as Hk2 by lia. rewrite Hpages in Hp by done.
  pose proof (cdiv_spec (k * es) (ctrl_page_size ctrl) ltac:(lia)).
  pose proof (cdiv_pos (k * es) (ctrl_page_size ctrl) ltac:(lia) ltac:(nia)).
  assert (64 <= ctrl_page_size ctrl) by (apply Z.divide_pos_le; [lia|exact mo_div0]).
  assert (dma_n_ioaddrs dma < 2 ^ 58) by nia.
  rewrite wrap_small in Hp by (unfold fits; lia). rewrite mo_ps0.
  split; [done|]. split; [lia|]. split; [lia|]. nia.
Qed.

Lemma queue_size_err ctrl dma pages offset qs es err :
  queue_size ctrl dma pages offset qs es = inl err -> err = EINVAL.
Proof. unfold queue_size. repeat case_decide; congruence. Qed.

Lemma queue_size_asked ctrl dma pages offset qs es n :
  queue_size ctrl dma pages offset qs es = inr n -> qs <> 0 -> n = qs.
Proof. unfold queue_size. repeat case_decide; congruence. Qed.

(** Clearing the descriptor of a queue that passed the checks. *)
Lemma queue_clear_new ctrl dma pages queue (cq : bool) id offset qs n :
  let es := if cq then sizeof_cpl else sizeof_cmd in
  mem_ok ctrl dma -> 0 <= offset < 2 ^ 64 ->
  (forall qs, 2 <= qs <= 0x10000 -> pages qs = cdiv (qs * es) (ctrl_page_size ctrl)) ->
  queue_size ctrl dma pages offset qs es = inr n ->
  exists ioaddr q, (dma_ioaddrs dma) @[offset] = Some ioaddr /\ fits 64 ioaddr /\ q_qs q = n /\
    nvm_queue_clear queue ctrl cq id n (dma_local dma) (NVM_DMA_OFFSET dma offset) ioaddr = (0, q) /\
    new_queue q dma offset id es ioaddr.
Proof.
  intros es Hm Hoff Hpages Hq.
  destruct (queue_size_ok ctrl dma pages offset qs es n Hm Hoff ltac:(unfold es, sizeof_cpl, sizeof_cmd; destruct cq; lia) Hpages Hq)
    as (Hn & Hmax & Ho & Hin). destruct Hm.
  destruct (zlookup_is_Some (dma_ioaddrs dma) offset) as [ioaddr Hio]; [lia|].
  assert (fits 64 ioaddr) as Hf.
  { unfold zlookup in Hio. rewrite decide_True in Hio by lia. by eapply Forall_lookup_1 in Hio. }
  assert (NVM_DMA_OFFSET dma offset = dma_vaddr dma + offset * dma_page_size dma) as Hva.
  { unfold NVM_DMA_OFFSET, NVM_PTR_OFFSET. rewrite (wrap_small 64 (dma_page_size dma * offset)) by (unfold fits; nia).
    rewrite wrap_small by (unfold fits; nia). lia. }
  eexists ioaddr, _. split; [done|]. split; [done|]. unfold nvm_queue_clear.
  rewrite decide_False by lia. split; [|split; [reflexivity|]]; [done|].
  constructor; simpl; try done; [|rewrite Hva; lia].
  constructor; simpl; try lia. destruct cq; auto.
Qed.

Lemma mem_ok_cq_pages ctrl dma qs :
  mem_ok ctrl dma -> 2 <= qs <= 0x10000 ->
  NVM_CQ_PAGES ctrl qs = cdiv (qs * sizeof_cpl) (ctrl_page_size ctrl).
Proof.
  intros [] Hq. apply queue_pages_val; [done| |lia|lia|done].
  etransitivity; [|exact mo_div0]. by exists 4.
Qed.

Lemma mem_ok_sq_pages ctrl dma qs :
  mem_ok ctrl dma -> 2 <= qs <= 0x10000 ->
  NVM_SQ_PAGES ctrl qs = cdiv (qs * sizeof_cmd) (ctrl_page_size ctrl).
Proof. intros [] Hq. by apply queue_pages_val; [| |lia|lia|]. Qed.

(** C36: creating a completion queue.  A size, offset or handle that does not fit is refused with
    [EINVAL] before any command is sent.  Otherwise exactly one command is sent: it creates queue
    [id] with the right size at the bus address of page [offset], and on success the descriptor is
    a new, empty queue whose entries all lie inside the handle's memory; on failure the descriptor
    is untouched. *)
Theorem cq_create_spec ctrl queue id dma offset qs need_prp (s : S) :
  mem_ok ctrl dma -> 0 < id < 2 ^ 16 -> 0 <= offset < 2 ^ 64 ->
  nvm_admin_cq_create (Some ctrl) queue id dma offset qs need_prp s = Some ((EINVAL, None), s) \/
  exists q cmd ioaddr, new_queue q dma offset id sizeof_cpl ioaddr /\
    creates cmd NVM_ADMIN_CREATE_CQ q ioaddr need_prp /\ (qs <> 0 -> q_qs q = qs) /\
    nvm_admin_cq_create (Some ctrl) queue id dma offset qs need_prp s =
      (r ← raw_rpc cmd cpl_zero;
       if nvm_ok (fst r) then mret (0, Some q) else mret (fst r, None)) s.
Proof.
  intros Hm Hid Hoff. unfold nvm_admin_cq_create. rewrite decide_False by lia.
  destruct (queue_size ctrl dma _ offset qs sizeof_cpl) as [err|n] eqn:Eq.
  { left. by rewrite (queue_size_err _ _ _ _ _ _ _ Eq). }
  right. destruct (queue_clear_new ctrl dma (NVM_CQ_PAGES ctrl) queue true id offset qs n Hm Hoff)
    as (ioaddr & q & Hio & Hf & Hn & Hclear & Hnew); [intros; by eapply mem_ok_cq_pages|done|].
  exists q, (admin_cq_create cmd_zero q ioaddr need_prp), ioaddr. split; [done|].
  pose proof Hnew as [[] Hno _ _ _ _ _].
  split; [apply admin_cq_create_fields; [done|lia|done]|].
  split; [intros; rewrite Hn; by eapply queue_size_asked|].
  rewrite Hio. unfold of_option, mbind at 1, M_bind at 1. cbn. rewrite Hclear. done.
Qed.

(** Creating a submission queue, likewise; the command names the completion queue it is paired
    with. *)
Theorem sq_create_spec ctrl queue cq id dma offset qs need_prp (s : S) :
  mem_ok ctrl dma -> 0 < id < 2 ^ 16 -> 0 <= q_no cq < 2 ^ 16 -> 0 <= offset < 2 ^ 64 ->
  nvm_admin_sq_create (Some ctrl) queue cq id dma offset qs need_prp s = Some ((EINVAL, None), s) \/
  exists q cmd ioaddr, new_queue q dma offset id sizeof_cmd ioaddr /\
    creates cmd NVM_ADMIN_CREATE_SQ q ioaddr need_prp /\ cmd_cqid cmd = q_no cq /\
    (qs <> 0 -> q_qs q = qs) /\
    nvm_admin_sq_create (Some ctrl) queue cq id dma offset qs need_prp s =
      (r ← raw_rpc cmd cpl_zero;
       if nvm_ok (fst r) then mret (0, Some q) else mret (fst r, None)) s.
Proof.
  intros Hm Hid Hcq Hoff. unfold nvm_admin_sq_create. rewrite decide_False by lia.
  destruct (queue_size ctrl dma _ offset qs sizeof_cmd) as [err|n] eqn:Eq.
  { left. by rewrite (queue_size_err _ _ _ _ _ _ _ Eq). }
  right. destruct (queue_clear_new ctrl dma (NVM_SQ_PAGES ctrl) queue false id offset qs n Hm Hoff)
    as (ioaddr & q & Hio & Hf & Hn & Hclear & Hnew); [intros; by eapply mem_ok_sq_pages|done|].
  exists q, (admin_sq_create cmd_zero q cq ioaddr need_prp), ioaddr. split; [done|].
  pose proof Hnew as [[] Hno _ _ _ _ _].
  destruct (admin_sq_create_fields q cq ioaddr need_prp) as [Hcr Hc]; [done|lia|done|done|].
  split; [done|]. split; [done|]. split; [intros; rewrite Hn; by eapply queue_size_asked|].
  rewrite Hio. unfold of_option, mbind at 1, M_bind at 1. cbn. rewrite Hclear. done.
Qed.
End create.

(** ** The number of queues *)

Section num_queues.
Context {S : Type} `{AdminRpc S}.

(** A controller that grants what Set Features (Number of Queues) asks for answers with the
    numbers granted in dword 0, in the layout of the request: completion queues in the upper half,
    submission queues in the lower half, both less one. *)
Definition grants_all : Prop :=
  forall cmd cpl (s : S), cmd_opcode cmd = admin_opcode NVM_ADMIN_SET_FEATURES ->
    exists cpl', raw_rpc cmd cpl s = Some ((0, cpl'), s) /\ cpl_get cpl' 0 = cmd_get cmd 11.

(** [nvm_admin_request_num_queues] reads the two halves the wrong way round: from a controller
    that grants the request, the caller gets the number of submission queues as the number of
    completion queues and the reverse. *)
Theorem num_queues_swapped n_cqs n_sqs (s : S) :
  grants_all -> 0 < n_cqs < 2 ^ 16 -> 0 < n_sqs < 2 ^ 16 ->
  nvm_admin_request_num_queues n_cqs n_sqs s = Some ((0, (n_sqs, n_cqs)), s).
Proof.
  intros Hg Hc Hs. unfold nvm_admin_request_num_queues. rewrite decide_False by lia.
  destruct (Hg (admin_current_num_queues cmd_zero true n_cqs n_sqs) cpl_zero s) as (cpl' & E & Hd); [done|].
  unfold mbind, M_bind. rewrite E. cbn [fst snd]. rewrite decide_False by tauto.
  unfold mret, M_ret. do 4 f_equal. unfold num_queues. rewrite Hd.
  assert (cmd_get (admin_current_num_queues cmd_zero true n_cqs n_sqs) 11 =
    (n_cqs - 1) * 2 ^ 16 + (n_sqs - 1)) as ->.
  { unfold admin_current_num_queues. cbn -[Z.lor Z.shiftl wrap Z.sub Z.mul Z.pow Z.add].
    rewrite lor_shiftl_add by lia. apply wrap_small. unfold fits. lia. }
  change 0xffff with (2 ^ 16 - 1). rewrite land_mask, Z.shiftr_div_pow2 by lia.
  destruct (halves (n_cqs - 1) (n_sqs - 1)) as [-> ->]; [lia..|].
  f_equal; rewrite wrap_small by (unfold fits; lia); lia.
Qed.
End num_queues.

(** ** Get Log Page *)

(** The bytes the controller transfers: NUMD, less one, counts double words. *)
Definition log_bytes (c : nvm_cmd_t) : Z :=
  4 * ((cmd_get c 11 mod 2 ^ 16) * 2 ^ 16 + cmd_get c 10 / 2 ^ 16 + 1).

(** [nvm_admin_get_log_page] clears and provides a page of 4096 bytes but asks for 4100: NUMD
    counts from 0, and there is no second page (PRP2 is 0) for the last double word. *)
Theorem log_page_overruns ns_id ioaddr log_id log_offset :
  0 <= log_id < 2 ^ 8 ->
  let c := admin_get_log_page cmd_zero ns_id ioaddr log_id log_offset in
  log_bytes c = 4100 /\ cmd_prp2 c = 0.
Proof.
  intros Hid c. assert (cmd_get c 10 = 1024 * 2 ^ 16 + log_id) as H10.
  { subst c. unfold admin_get_log_page. cbn -[Z.lor Z.shiftl]. by rewrite lor_shiftl_add by lia. }
  split; [|reflexivity]. unfold log_bytes. rewrite H10. change (cmd_get c 11) with 0.
  rewrite Z.div_add_l, (Z.div_small log_id) by lia. done.
Qed.

(** ** Identify *)

Section identify.
Context {S : Type} `{AdminRpc S}.

(** The Identify Namespace data at [ptr]: the LBA format in use, and its LBADS field. *)
Definition ns_lbaf (s : S) (ptr : Z) : Z := load_le s (ptr + 128 + 4 * (host_byte s (ptr + 26) mod 16)) 4.
Definition ns_lbads (s : S) (ptr : Z) : Z := (ns_lbaf s ptr / 2 ^ 16) mod 2 ^ 8.

(** The Identify Controller data at [ptr], and the fields of CAP. *)
Definition ctrl_mdts (s : S) (ptr : Z) : Z := host_byte s (ptr + 77).
Definition cap_mpsmin (cap : Z) : Z := (cap / 2 ^ 48) mod 2 ^ 4.
Definition cap_mqes (cap : Z) : Z := cap mod 2 ^ 16.

(** [nvm_admin_ns_info] sends one Identify Namespace command for the namespace and on success
    reports the sizes of the data structure and the block size and metadata size of the format in
    use (for every block size below 2 GiB). *)
Theorem ns_info_spec info ns_id ptr ioaddr (s s1 s2 : S) cpl :
  info <> NULL -> ptr <> NULL -> fits 64 ioaddr -> ioaddr <> 0 -> clear_page ptr s = Some (tt, s1) ->
  raw_rpc (admin_identify_ns cmd_zero ns_id ioaddr) cpl_zero s1 = Some ((0, cpl), s2) ->
  ns_lbads s2 ptr < 31 ->
  (let c := admin_identify_ns cmd_zero ns_id ioaddr in
   cmd_opcode c = admin_opcode NVM_ADMIN_IDENTIFY /\ cmd_nsid c = ns_id /\ cmd_get c 10 = 0 /\
   cmd_prp1 c = ioaddr) /\
  nvm_admin_ns_info info ns_id ptr ioaddr s =
    Some ((0, Some (mk_ns_info ns_id (load_le s2 ptr 8) (load_le s2 (ptr + 8) 8) (load_le s2 (ptr + 16) 8)
                      (2 ^ ns_lbads s2 ptr) (ns_lbaf s2 ptr mod 2 ^ 16))), s2).
Proof.
  intros Hi Hp Hf Hio Hcl Hrpc Hlb. unfold ns_lbads in *. set (lbaf := ns_lbaf s2 ptr) in *.
  set (lbads := (lbaf / 2 ^ 16) mod 2 ^ 8) in *. split.
  { split; [done|]. split; [done|]. split; [done|]. by apply split_join_64. }
  unfold nvm_admin_ns_info. rewrite decide_False by tauto. unfold mbind, M_bind. rewrite Hcl, Hrpc.
  cbn [fst snd]. change (nvm_ok 0) with true. unfold get.
  rewrite (rb_spec _ 3 0) by lia. rewrite Z.div_1_r. change (2 ^ (3 + 1 - 0)) with 16. fold (ns_lbaf s2 ptr). fold lbaf.
  rewrite !rb_spec by lia. change (2 ^ (23 + 1 - 16)) with (2 ^ 8). fold lbads.
  unfold int_shift. assert (0 <= lbads) by (apply Z.mod_pos_bound; lia).
  assert (0 < 2 ^ lbads < 2 ^ 31).
  { split; [apply Z.pow_pos_nonneg; lia|]. apply Z.pow_lt_mono_r; lia. }
  assert (u64 (s32 (2 ^ lbads)) = 2 ^ lbads) as Hs.
  { unfold s32. rewrite (Z.mod_small (2 ^ lbads + 2 ^ 31)) by lia.
    rewrite wrap_small by (unfold fits; lia). lia. }
  rewrite decide_False by lia. unfold of_option. rewrite Hs, Z.div_1_r. done.
Qed.

(** [nvm_admin_ctrl_info] on success reports the largest transfer as 2^MDTS minimum pages (so
    MDTS 0, no limit, becomes one page), and CAP.MQES + 1 as the largest queue except that the
    largest value, 65536 entries, is reported as 0. *)
Theorem ctrl_info_spec ctrl ver cap info ptr ioaddr (s s1 s2 : S) cpl :
  info <> NULL -> ptr <> NULL -> ioaddr <> 0 -> 0 < ctrl_page_size ctrl ->
  clear_page ptr s = Some (tt, s1) ->
  raw_rpc (admin_identify_ctrl cmd_zero ioaddr) cpl_zero s1 = Some ((0, cpl), s2) ->
  0 <= ctrl_mdts s2 ptr -> ctrl_mdts s2 ptr + 12 + cap_mpsmin cap < 64 ->
  exists i, nvm_admin_ctrl_info ctrl ver cap info ptr ioaddr s = Some ((0, Some i), s2) /\
    ci_max_data_size i = 2 ^ (ctrl_mdts s2 ptr + 12 + cap_mpsmin cap) /\
    ci_max_data_pages i = ci_max_data_size i / ctrl_page_size ctrl /\
    ci_max_entries i = if decide (cap_mqes cap = 0xffff) then 0 else cap_mqes cap + 1.
Proof.
  intros Hi Hp Hio Hps Hcl Hrpc Hm Hle. set (mdts := ctrl_mdts s2 ptr) in *.
  set (mpsmin := cap_mpsmin cap) in *. set (mqes := cap_mqes cap) in *.
  assert (0 <= mpsmin) by (apply Z.mod_pos_bound; lia).
  assert (0 <= mqes < 2 ^ 16) by (apply Z.mod_pos_bound; lia).
  assert (u64 (2 ^ mdts * 2 ^ (12 + mpsmin)) = 2 ^ (mdts + 12 + mpsmin)) as Hsize.
  { rewrite <- Z.pow_add_r by lia. replace (mdts + (12 + mpsmin)) with (mdts + 12 + mpsmin) by lia.
    apply wrap_small. unfold fits. split; [apply Z.pow_nonneg; lia|]. apply Z.pow_lt_mono_r; lia. }
  unfold nvm_admin_ctrl_info. rewrite decide_False by tauto. unfold mbind, M_bind. rewrite Hcl, Hrpc.
  cbn [fst snd]. change (nvm_ok 0) with true. unfold get. fold (ctrl_mdts s2 ptr). fold mdts.
  rewrite (decide_False (P := mdts >= 64)), (decide_False (P := ctrl_page_size ctrl = 0)) by lia.
  eexists. split; [reflexivity|]. cbn [ci_max_data_size ci_max_data_pages ci_max_entries].
  assert (CAP_MPSMIN cap = mpsmin) as -> by (by unfold CAP_MPSMIN; rewrite rb_spec by lia).
  rewrite Hsize. split; [done|]. split; [done|].
  assert (CAP_MQES cap = mqes) as ->.
  { unfold CAP_MQES. rewrite rb_spec by lia. by rewrite Z.div_1_r. }
  case_decide as Hq; [by rewrite Hq|]. apply wrap_small. unfold fits. lia.
Qed.
End identify.
