(* ===== verification/UgdsTypes.v ===== *)
(** * Types of the uGDS library (include/ugds.h and src/ugds_internal.h)

    Error codes with their strings, handle descriptors, the queue pair, the state behind a
    handle and the driver's global state. *)
From S2P Require Import Prelude NvmTypes.
From stdpp Require Import prelude gmap strings.
From Stdlib Require Import ZArith Lia.
Local Open Scope Z_scope.

(** ** ugds.h: error codes *)

Definition UGDS_BASE_ERR : Z := 5000.

Inductive uGDSOpError :=
  | UGDS_SUCCESS
  | UGDS_DRIVER_NOT_INITIALIZED | UGDS_DRIVER_INVALID_PROPS | UGDS_DRIVER_UNSUPPORTED_LIMIT
  | UGDS_DRIVER_VERSION_MISMATCH | UGDS_DRIVER_VERSION_READ_ERROR | UGDS_DRIVER_CLOSING
  | UGDS_PLATFORM_NOT_SUPPORTED | UGDS_IO_NOT_SUPPORTED | UGDS_DEVICE_NOT_SUPPORTED
  | UGDS_NVFS_DRIVER_ERROR | UGDS_CUDA_DRIVER_ERROR | UGDS_CUDA_POINTER_INVALID
  | UGDS_CUDA_MEMORY_TYPE_INVALID | UGDS_CUDA_POINTER_RANGE_ERROR | UGDS_CUDA_CONTEXT_MISMATCH
  | UGDS_INVALID_MAPPING_SIZE | UGDS_INVALID_MAPPING_RANGE | UGDS_INVALID_FILE_TYPE
  | UGDS_INVALID_FILE_OPEN_FLAG | UGDS_DIO_NOT_SET | UGDS_INVALID_VALUE
  | UGDS_MEMORY_ALREADY_REGISTERED | UGDS_MEMORY_NOT_REGISTERED | UGDS_PERMISSION_DENIED
  | UGDS_DRIVER_ALREADY_OPEN | UGDS_HANDLE_NOT_REGISTERED | UGDS_HANDLE_ALREADY_REGISTERED
  | UGDS_DEVICE_NOT_FOUND | UGDS_INTERNAL_ERROR | UGDS_GETNEWFD_FAILED | UGDS_NVFS_SETUP_ERROR
  | UGDS_IO_DISABLED | UGDS_GPU_MEMORY_PINNING_FAILED.

#[export] Instance uGDSOpError_eq_dec : EqDecision uGDSOpError.
Proof. solve_decision. Defined.

(** The value of the enumerator. *)
Definition op_error_val (e : uGDSOpError) : Z :=
  match e with
  | UGDS_SUCCESS => 0
  | UGDS_DRIVER_NOT_INITIALIZED => UGDS_BASE_ERR + 1
  | UGDS_DRIVER_INVALID_PROPS => UGDS_BASE_ERR + 2
  | UGDS_DRIVER_UNSUPPORTED_LIMIT => UGDS_BASE_ERR + 3
  | UGDS_DRIVER_VERSION_MISMATCH => UGDS_BASE_ERR + 4
  | UGDS_DRIVER_VERSION_READ_ERROR => UGDS_BASE_ERR + 5
  | UGDS_DRIVER_CLOSING => UGDS_BASE_ERR + 6
  | UGDS_PLATFORM_NOT_SUPPORTED => UGDS_BASE_ERR + 7
  | UGDS_IO_NOT_SUPPORTED => UGDS_BASE_ERR + 8
  | UGDS_DEVICE_NOT_SUPPORTED => UGDS_BASE_ERR + 9
  | UGDS_NVFS_DRIVER_ERROR => UGDS_BASE_ERR + 10
  | UGDS_CUDA_DRIVER_ERROR => UGDS_BASE_ERR + 11
  | UGDS_CUDA_POINTER_INVALID => UGDS_BASE_ERR + 12
  | UGDS_CUDA_MEMORY_TYPE_INVALID => UGDS_BASE_ERR + 13
  | UGDS_CUDA_POINTER_RANGE_ERROR => UGDS_BASE_ERR + 14
  | UGDS_CUDA_CONTEXT_MISMATCH => UGDS_BASE_ERR + 15
  | UGDS_INVALID_MAPPING_SIZE => UGDS_BASE_ERR + 16
  | UGDS_INVALID_MAPPING_RANGE => UGDS_BASE_ERR + 17
  | UGDS_INVALID_FILE_TYPE => UGDS_BASE_ERR + 18
  | UGDS_INVALID_FILE_OPEN_FLAG => UGDS_BASE_ERR + 19
  | UGDS_DIO_NOT_SET => UGDS_BASE_ERR + 20
  | UGDS_INVALID_VALUE => UGDS_BASE_ERR + 22
  | UGDS_MEMORY_ALREADY_REGISTERED => UGDS_BASE_ERR + 23
  | UGDS_MEMORY_NOT_REGISTERED => UGDS_BASE_ERR + 24
  | UGDS_PERMISSION_DENIED => UGDS_BASE_ERR + 25
  | UGDS_DRIVER_ALREADY_OPEN => UGDS_BASE_ERR + 26
  | UGDS_HANDLE_NOT_REGISTERED => UGDS_BASE_ERR + 27
  | UGDS_HANDLE_ALREADY_REGISTERED => UGDS_BASE_ERR + 28
  | UGDS_DEVICE_NOT_FOUND => UGDS_BASE_ERR + 29
  | UGDS_INTERNAL_ERROR => UGDS_BASE_ERR + 30
  | UGDS_GETNEWFD_FAILED => UGDS_BASE_ERR + 31
  | UGDS_NVFS_SETUP_ERROR => UGDS_BASE_ERR + 33
  | UGDS_IO_DISABLED => UGDS_BASE_ERR + 34
  | UGDS_GPU_MEMORY_PINNING_FAILED => UGDS_BASE_ERR + 36
  end.

Definition uGDS_status_error (status : uGDSOpError) : string :=
  match status with
  | UGDS_SUCCESS => "success"
  | UGDS_DRIVER_NOT_INITIALIZED => "driver not initialized"
  | UGDS_DRIVER_INVALID_PROPS => "invalid property"
  | UGDS_DRIVER_UNSUPPORTED_LIMIT => "property range error"
  | UGDS_DRIVER_VERSION_MISMATCH => "driver version mismatch"
  | UGDS_DRIVER_CLOSING => "driver closing"
  | UGDS_IO_NOT_SUPPORTED => "IO not supported"
  | UGDS_INVALID_FILE_TYPE => "unsupported file type"
  | UGDS_INVALID_VALUE => "invalid arguments"
  | UGDS_MEMORY_ALREADY_REGISTERED => "memory already registered"
  | UGDS_MEMORY_NOT_REGISTERED => "memory not registered"
  | UGDS_INTERNAL_ERROR => "internal error"
  | UGDS_GPU_MEMORY_PINNING_FAILED => "GPU memory pinning failed"
  | _ => "unknown uGDS error"
  end%string.

Record uGDSError_t := mk_uGDSError { err : uGDSOpError; cu_err : Z }.

Definition IS_UGDS_ERR (e : Z) : bool := bool_decide (Z.abs e > UGDS_BASE_ERR).

Inductive uGDSHandleType :=
  UGDS_HANDLE_TYPE_OPAQUE_FD | UGDS_HANDLE_TYPE_OPAQUE_WIN32 | UGDS_HANDLE_TYPE_USERSPACE_FS.

#[export] Instance uGDSHandleType_eq_dec : EqDecision uGDSHandleType.
Proof. solve_decision. Defined.

Record uGDSDescr_t := mk_descr { descr_type : uGDSHandleType; descr_fd : Z }.

(** ** ugds_internal.h *)

Definition UGDS_DEFAULT_NUM_QPS : Z := 16.
Definition UGDS_DEFAULT_QUEUE_DEPTH : Z := 64.

(** The structs are parametric in what a [nvm_ctrl_t*] ([C]) and a [nvm_dma_t*] ([D]) are: the
    lifetime functions see addresses, the I/O path what they point to.  [None] is [nullptr]; the
    locks are implicit, every operation under a lock being one step; UgdsThreads.v has those that
    [do_io] takes. *)
Record IOQueuePair {D : Type} := mk_qp {
  qp_sq : nvm_queue_t;
  qp_cq : nvm_queue_t;
  qp_sq_dma : option D;
  qp_cq_dma : option D;
  qp_prp_dma : option D;
  qp_sq_buf : Z;
  qp_cq_buf : Z;
  qp_prp_buf : Z;
}.
Arguments IOQueuePair : clear implicits.
Arguments mk_qp {D}.

Record HandleState {C D : Type} := mk_hs {
  hs_fd : Z;
  hs_ctrl : C;
  hs_aq_ref : Z;
  hs_aq_dma : option D;
  hs_aq_buf : Z;
  hs_ctrl_info : nvm_ctrl_info;
  hs_ns_info : nvm_ns_info;
  hs_ns_id : Z;
  hs_block_size : Z;
  hs_max_transfer_size : Z;
  hs_max_transfer_pages : Z;
  hs_num_qps : Z;
  hs_qps : list (IOQueuePair D);
  hs_rr_counter : Z;
}.
Arguments HandleState : clear implicits.
Arguments mk_hs {C D}.

Definition hs_set_qps {C D} (hs : HandleState C D) (qps : list (IOQueuePair D)) (rr : Z) : HandleState C D :=
  mk_hs (hs_fd hs) (hs_ctrl hs) (hs_aq_ref hs) (hs_aq_dma hs) (hs_aq_buf hs) (hs_ctrl_info hs)
    (hs_ns_info hs) (hs_ns_id hs) (hs_block_size hs) (hs_max_transfer_size hs)
    (hs_max_transfer_pages hs) (hs_num_qps hs) qps rr.

Record DriverState {C D : Type} := mk_driver {
  drv_initialized : bool;
  drv_default_ctrl : option C;
  drv_buf_registry : gmap Z D;
}.
Arguments DriverState : clear implicits.
Arguments mk_driver {C D}.

Definition make_error (e : uGDSOpError) : uGDSError_t := {| err := e; cu_err := 0 |}.
Definition UGDS_OK : uGDSError_t := make_error UGDS_SUCCESS.

(** Every error code but success is recognised by [IS_UGDS_ERR], and no two codes collide. *)
Lemma op_error_val_inj e1 e2 : op_error_val e1 = op_error_val e2 -> e1 = e2.
Proof. destruct e1, e2; intros H; done || discriminate H. Qed.

Lemma is_ugds_err_val e : IS_UGDS_ERR (op_error_val e) = negb (bool_decide (e = UGDS_SUCCESS)).
Proof. by destruct e. Qed.
