(* ===== verification/UgdsIo.v ===== *)
(** * The I/O path (src/ugds_io.cpp)

    [do_io] and its two entry points.  The controller is the class [Device], the mapping of GPU
    memory the class [DmaOps]; both are arbitrary in the theorems.  The trace records, at each
    submission doorbell, what the controller can fetch: queue memory and PRP list memory. *)
From S2P Require Import Prelude NvmTypes NvmUtil NvmQueue NvmCmd NvmDevice UgdsTypes.
From stdpp Require Import prelude gmap functions list.
From Stdlib Require Import ZArith Lia.
Local Open Scope Z_scope.
Local Open Scope ugds_scope.

(** [nvm_dma_map_device] returns a status and a pointer, with the descriptor it points to;
    [nvm_dma_unmap] releases a mapping. *)
Class DmaOps (W : Type) := {
  dma_map_device : nvm_ctrl_t -> Z -> Z -> M W (Z * option (Z * nvm_dma_t));
  dma_unmap : Z -> M W unit;
}.

(** A submission doorbell write with the memory the controller may fetch from. *)
Record io_event := mk_event {
  ev_db : Z;
  ev_tail : Z;
  ev_sqmem : Z -> nvm_cmd_t;
  ev_prp : Z -> Z;
}.

Section do_io.
Context {E : Type} `{Device E} {W : Type} `{DmaOps W}.

(** One queue pair while its lock is held. *)
Record io_st := mk_io {
  io_sq : nvm_queue_t;
  io_cq : nvm_queue_t;
  io_sqmem : Z -> nvm_cmd_t;
  io_prp : Z -> Z;
  io_dev : E;
  io_trace : list io_event;
}.

(** ** Waiting for a completion

    The statement expression that spins on [nvm_cq_dequeue]; [_spins] exceeds [_max] after
    [_max + 1] turns. *)
Definition poll_turn (_max : Z) (s : Z * io_st) : (Z * io_st) + (option nvm_cpl_t * io_st) :=
  let '(_spins, st) := s in
  match nvm_cq_dequeue (dev_cpl (io_dev st)) (io_cq st) with
  | (Some _cpl, cq) =>
      inr (Some _cpl, mk_io (io_sq st) cq (io_sqmem st) (io_prp st) (io_dev st) (io_trace st))
  | (None, cq) =>
      let _spins := u64 (_spins + 1) in
      let st := mk_io (io_sq st) cq (io_sqmem st) (io_prp st) (io_dev st) (io_trace st) in
      if decide (_spins > _max) then inr (None, st)
      else inl (_spins, mk_io (io_sq st) cq (io_sqmem st) (io_prp st)
                          (dev_tick (io_dev st)) (io_trace st))
  end.

Definition busy_poll (timeout : Z) : M io_st (option nvm_cpl_t) := fun st =>
  let _max := u64 (timeout * 1000000) in
  match iter_until (Z.to_pos (_max + 1)) (poll_turn _max) (0, st) with
  | inr r => Some r
  | inl _ => None
  end.

(** [(cpl->dword[3] >> 17) & 0x7FF] *)
Definition cpl_status (cpl : nvm_cpl_t) : Z := Z.land (Z.shiftr (cpl_get cpl 3) 17) 0x7ff.

(** [nvm_sq_update(&qp.sq); fence; nvm_cq_update(&qp.cq);] *)
Definition consume : M io_st unit := fun st =>
  let sq := nvm_sq_update (io_sq st) in
  match nvm_cq_update (io_cq st) with
  | (Some head, cq) =>
      Some (tt, mk_io sq cq (io_sqmem st) (io_prp st)
                  (dev_cq_doorbell (q_db cq) head (io_dev st)) (io_trace st))
  | (None, cq) => Some (tt, mk_io sq cq (io_sqmem st) (io_prp st) (io_dev st) (io_trace st))
  end.

(** ** Taking a submission slot

    [while ((cmd = nvm_sq_enqueue(&qp.sq)) == nullptr) { drain ... }]; the result is the slot, or
    [None] when the code sets [-EIO] and leaves.  One drained completion frees a slot; the bound
    is the number of slots. *)
Definition slot_turn (timeout : Z) (st : io_st) : io_st + option (option Z * io_st) :=
  match nvm_sq_enqueue (io_sq st) with
  | (Some cmd, sq) =>
      inr (Some (Some cmd, mk_io sq (io_cq st) (io_sqmem st) (io_prp st) (io_dev st) (io_trace st)))
  | (None, _) =>
      match busy_poll timeout st with
      | None => inr None
      | Some (None, st) => inr (Some (None, st))
      | Some (Some drain, st) =>
          match consume st with
          | None => inr None
          | Some (_, st) =>
              if decide (cpl_status drain <> 0) then inr (Some (None, st)) else inl st
          end
      end
  end.

Definition take_slot (timeout : Z) : M io_st (option Z) := fun st =>
  match iter_until (Z.to_pos (q_qs (io_sq st))) (slot_turn timeout) st with
  | inr r => r
  | inl _ => None
  end.

(** ** Building the command *)

(** [for (i = 1; i < n_pages; ++i) prp_list[i - 1] = buf_dma->ioaddrs[current_page + i];]  The list
    has room for [cap] entries; a store past it is undefined. *)
Fixpoint prp_fill (n : nat) (i : Z) (base cap : Z) (ioaddrs : list Z) (current_page : Z)
    (mem : Z -> Z) : option (Z -> Z) :=
  match n with
  | O => Some mem
  | S n =>
      match ioaddrs @[current_page + i] with
      | None => None
      | Some a =>
          if decide (i - 1 < cap) then
            prp_fill n (i + 1) base cap ioaddrs current_page (<[base + 8 * (i - 1) := a]> mem)
          else None
      end
  end.

(** The data pointer of a command for [n_pages] pages from [current_page] on. *)
Definition data_pointer (qp_prp : option nvm_dma_t) (ioaddrs : list Z) (current_page n_pages : Z)
    (cmd : nvm_cmd_t) (prp : Z -> Z) : option (nvm_cmd_t * (Z -> Z)) :=
  if decide (n_pages = 1) then
    match ioaddrs @[current_page] with
    | Some p1 => Some (nvm_cmd_data_ptr cmd p1 0, prp)
    | None => None
    end
  else if decide (n_pages = 2) then
    match ioaddrs @[current_page], ioaddrs @[current_page + 1] with
    | Some p1, Some p2 => Some (nvm_cmd_data_ptr cmd p1 p2, prp)
    | _, _ => None
    end
  else
    match qp_prp with
    | None => None
    | Some prp_dma =>
        match prp_fill (Z.to_nat (n_pages - 1)) 1 (dma_vaddr prp_dma)
                (dma_n_ioaddrs prp_dma * dma_page_size prp_dma / 8) ioaddrs current_page prp with
        | None => None
        | Some prp =>
            match ioaddrs @[current_page], (dma_ioaddrs prp_dma) @[0] with
            | Some p1, Some p2 => Some (nvm_cmd_data_ptr cmd p1 p2, prp)
            | _, _ => None
            end
        end
    end.

(** Clearing the slot and building the command in it. *)
Definition build_chunk (hs : HandleState nvm_ctrl_t nvm_dma_t) (qp_prp : option nvm_dma_t) (ioaddrs : list Z)
    (opcode cmd_addr current_page n_pages current_lba n_blocks : Z) : M io_st unit := fun st =>
  let cid := NVM_DEFAULT_CID (io_sq st) in
  let cmd := nvm_cmd_header cmd_zero cid opcode (hs_ns_id hs) in
  match data_pointer qp_prp ioaddrs current_page n_pages cmd (io_prp st) with
  | None => None
  | Some (cmd, prp) =>
      let cmd := nvm_cmd_rw_blks cmd current_lba (u16 n_blocks) in
      Some (tt, mk_io (io_sq st) (io_cq st) (<[cmd_addr := cmd]> (io_sqmem st)) prp (io_dev st) (io_trace st))
  end.

(** [nvm_sq_submit(&qp.sq)]. *)
Definition ring_doorbell : M io_st unit := fun st =>
  match nvm_sq_submit (io_sq st) with
  | (Some tail, sq) =>
      Some (tt, mk_io sq (io_cq st) (io_sqmem st) (io_prp st)
                  (dev_sq_doorbell (q_db sq) tail (io_sqmem st) (io_prp st) (io_dev st))
                  (io_trace st ++ [mk_event (q_db sq) tail (io_sqmem st) (io_prp st)]))
  | (None, sq) => Some (tt, mk_io sq (io_cq st) (io_sqmem st) (io_prp st) (io_dev st) (io_trace st))
  end.

Definition submit_chunk (hs : HandleState nvm_ctrl_t nvm_dma_t) (qp_prp : option nvm_dma_t) (ioaddrs : list Z)
    (opcode cmd_addr current_page n_pages current_lba n_blocks : Z) : M io_st unit :=
  build_chunk hs qp_prp ioaddrs opcode cmd_addr current_page n_pages current_lba n_blocks;; ring_doorbell.

(** ** The transfer loop *)

Definition prp_max (page_size : Z) : Z := u64 ((page_size / 8 + 1) * page_size).

Definition max_xfer {C D} (hs : HandleState C D) (page_size : Z) : Z :=
  let m := hs_max_transfer_size hs in
  let m := if decide (m = 0) then 128 * 1024 else m in
  let m := if decide (m < page_size) then page_size else m in
  if decide (m > prp_max page_size) then prp_max page_size else m.

Record io_loop := mk_loop {
  lp_done : Z;      (* bytes_done *)
  lp_lba : Z;       (* current_lba *)
  lp_page : Z;      (* current_page *)
  lp_st : io_st;
}.

(** One turn of [while (bytes_done < size)]; [inr] leaves the loop with [result]. *)
Definition io_turn (hs : HandleState nvm_ctrl_t nvm_dma_t) (qp_prp : option nvm_dma_t) (ioaddrs : list Z)
    (opcode size xfer : Z) (s : io_loop) : io_loop + option (Z * io_st) :=
  let page_size := ctrl_page_size (hs_ctrl hs) in
  let bs := hs_block_size hs in
  if decide (lp_done s < size) then
    let remaining := u64 (size - lp_done s) in
    let chunk_size := Z.min remaining xfer in
    let chunk_size := u64 (chunk_size / bs * bs) in
    if decide (chunk_size = 0) then inr (Some (- EINVAL, lp_st s))
    else
      let n_blocks := chunk_size / bs in
      let n_pages := u64 (u64 (chunk_size + page_size) - 1) / page_size in
      let n_pages := if decide (n_pages = 0) then 1 else n_pages in
      match take_slot (ctrl_timeout (hs_ctrl hs)) (lp_st s) with
      | None => inr None
      | Some (None, st) => inr (Some (- EIO, st))
      | Some (Some cmd, st) =>
          match submit_chunk hs qp_prp ioaddrs opcode cmd (lp_page s) n_pages (lp_lba s)
                  n_blocks st with
          | None => inr None
          | Some (_, st) =>
              match busy_poll (ctrl_timeout (hs_ctrl hs)) st with
              | None => inr None
              | Some (None, st) => inr (Some (- EIO, st))
              | Some (Some cpl, st) =>
                  match consume st with
                  | None => inr None
                  | Some (_, st) =>
                      if decide (cpl_status cpl <> 0) then inr (Some (- EIO, st))
                      else inl (mk_loop (u64 (lp_done s + chunk_size)) (u64 (lp_lba s + n_blocks))
                                  (u64 (lp_page s + n_pages)) st)
                  end
              end
          end
      end
  else inr (Some (s64 (lp_done s), lp_st s)).

(** Every turn moves at least one block, so [size / block_size] turns and the last test are
    enough. *)
Definition io_run (hs : HandleState nvm_ctrl_t nvm_dma_t) (qp_prp : option nvm_dma_t) (ioaddrs : list Z)
    (opcode size start_lba buf_page_start : Z) : M io_st Z := fun st =>
  let xfer := max_xfer hs (ctrl_page_size (hs_ctrl hs)) in
  match iter_until (Z.to_pos (size / hs_block_size hs + 1))
          (io_turn hs qp_prp ioaddrs opcode size xfer) (mk_loop 0 start_lba buf_page_start st) with
  | inr r => r
  | inl _ => None
  end.

(** ** do_io *)

(** The object a handle points to, the driver's registry, memory, controller and mappings. *)
Record io_world := mk_world {
  w_hs : HandleState nvm_ctrl_t nvm_dma_t;
  w_registry : gmap Z nvm_dma_t;
  w_sqmem : Z -> nvm_cmd_t;
  w_prp : Z -> Z;
  w_dev : E;
  w_trace : list io_event;
  w_dma : W;
}.

Definition w_set_dma (w : io_world) (d : W) : io_world :=
  mk_world (w_hs w) (w_registry w) (w_sqmem w) (w_prp w) (w_dev w) (w_trace w) d.

(** The tests that precede any effect. *)
Definition bad_args (fh bufPtr_base size file_offset bufPtr_offset : Z) (hs : HandleState nvm_ctrl_t nvm_dma_t) : bool :=
  bool_decide (fh = NULL \/ bufPtr_base = NULL \/ size = 0)
  || bool_decide (file_offset < 0 \/ bufPtr_offset < 0)
  || bool_decide (hs_block_size hs = 0)
  || bool_decide (file_offset mod hs_block_size hs <> 0 \/ size mod hs_block_size hs <> 0)
  || bool_decide (ctrl_page_size (hs_ctrl hs) = 0).

(** The part under the lock of the queue pair, on the pair the round robin selects. *)
Definition with_qp (ioaddrs : list Z) (opcode size start_lba buf_page_start : Z) : M io_world Z :=
  fun w =>
  let hs := w_hs w in
  let rr := hs_rr_counter hs in
  if decide (hs_num_qps hs = 0) then None
  else
    let qp_idx := u16 (rr mod hs_num_qps hs) in
    match (hs_qps hs) @[qp_idx] with
    | None => None
    | Some qp =>
        match io_run hs (qp_prp_dma qp) ioaddrs opcode size start_lba buf_page_start
                (mk_io (qp_sq qp) (qp_cq qp) (w_sqmem w) (w_prp w) (w_dev w) (w_trace w)) with
        | None => None
        | Some (result, st) =>
            let qp := mk_qp (io_sq st) (io_cq st) (qp_sq_dma qp) (qp_cq_dma qp) (qp_prp_dma qp)
                        (qp_sq_buf qp) (qp_cq_buf qp) (qp_prp_buf qp) in
            Some (result, mk_world
              (hs_set_qps hs (<[Z.to_nat qp_idx := qp]> (hs_qps hs)) (u32 (rr + 1)))
              (w_registry w) (io_sqmem st) (io_prp st) (io_dev st) (io_trace st) (w_dma w))
        end
    end.

Definition do_io (fh bufPtr_base size file_offset bufPtr_offset opcode : Z) : M io_world Z :=
  fun w =>
  let hs := w_hs w in
  if bad_args fh bufPtr_base size file_offset bufPtr_offset hs then Some (- EINVAL, w)
  else
    let page_size := ctrl_page_size (hs_ctrl hs) in
    let start_lba := file_offset / hs_block_size hs in
    match w_registry w !! bufPtr_base with
    | Some buf_dma =>
        if decide (bufPtr_offset mod page_size <> 0) then Some (- EINVAL, w)
        else
          let buf_page_start := bufPtr_offset / page_size in
          let total_pages_needed :=
            u64 (buf_page_start + u64 (u64 (size + page_size) - 1) / page_size) in
          if decide (total_pages_needed > dma_n_ioaddrs buf_dma) then Some (- EINVAL, w)
          else with_qp (dma_ioaddrs buf_dma) opcode size start_lba buf_page_start w
    | None =>
        match dma_map_device (hs_ctrl hs) (u64 (bufPtr_base + bufPtr_offset)) size (w_dma w) with
        | None => None
        | Some ((rc, Some (ptr, buf_dma)), d) =>
            if decide (rc <> 0) then Some (- EIO, w_set_dma w d)
            else
              match with_qp (dma_ioaddrs buf_dma) opcode size start_lba 0 (w_set_dma w d) with
              | None => None
              | Some (result, w) =>
                  match dma_unmap ptr (w_dma w) with
                  | None => None
                  | Some (_, d) => Some (result, w_set_dma w d)
                  end
              end
        | Some ((_, None), d) => Some (- EIO, w_set_dma w d)
        end
    end.

Definition uGDSRead (fh bufPtr_base size file_offset bufPtr_offset : Z) : M io_world Z :=
  do_io fh bufPtr_base size file_offset bufPtr_offset (io_opcode NVM_IO_READ).

Definition uGDSWrite (fh bufPtr_base size file_offset bufPtr_offset : Z) : M io_world Z :=
  do_io fh bufPtr_base size file_offset bufPtr_offset (io_opcode NVM_IO_WRITE).
End do_io.
Arguments io_st E : clear implicits.
Arguments io_loop E : clear implicits.
Arguments io_world E W : clear implicits.
