(* ===== verification/UgdsIoSpec.v ===== *)
(** * What a read or write transfers

    The theorems on the I/O path: whatever the controller does, [do_io] returns, touches no
    memory it should not, and the commands it has rung a doorbell for move exactly the bytes of
    the request, in order, between the blocks and the buffer pages. *)
From S2P Require Import Prelude NvmTypes NvmUtil NvmQueue NvmCmd UgdsTypes NvmDevice UgdsIo.
From stdpp Require Import prelude gmap functions list.
From Stdlib Require Import ZArith Lia.
Local Open Scope Z_scope.
Local Open Scope ugds_scope.

(** ** Transfers as lists of byte moves

    A move pairs a byte address of the namespace with a bus address. *)
Definition xfer_bytes (ps disk : Z) (pages : list Z) (n : Z) : list (Z * Z) :=
  (fun x => (disk + x, nth (Z.to_nat (x / ps)) pages 0 + x mod ps)) <$> seqZ 0 n.

(** The command behind a doorbell is the entry before the new tail. *)
Definition event_cmd (sq : nvm_queue_t) (ev : io_event) : nvm_cmd_t :=
  ev_sqmem ev (SqFifo.slot sq ((ev_tail ev - 1) mod q_qs sq)).

(** The controller reads the PRP list page through its bus address. *)
Definition event_rd (prp_dma : option nvm_dma_t) (ev : io_event) (a : Z) : Z :=
  match prp_dma with
  | Some d => ev_prp ev (dma_vaddr d + (a - default 0 ((dma_ioaddrs d) @[0])))
  | None => 0
  end.

(** What the controller transfers for that command. *)
Definition event_bytes (ps bs : Z) (sq : nvm_queue_t) (prp_dma : option nvm_dma_t) (ev : io_event)
    : list (Z * Z) :=
  let c := event_cmd sq ev in
  let n := cmd_nlb c * bs in
  xfer_bytes ps (cmd_slba c * bs)
    (cmd_pages (event_rd prp_dma ev) (Z.to_nat (ps / 8)) c (Z.to_nat (cdiv n ps))) n.

(** The other fields of the command. *)
Definition event_ok (sq : nvm_queue_t) (opcode ns_id : Z) (ev : io_event) : Prop :=
  let c := event_cmd sq ev in
  ev_db ev = q_db sq /\ cmd_ok c /\ cmd_opcode c = opcode /\ cmd_nsid c = ns_id /\
  cmd_fuse c = 0 /\ cmd_psdt c = 0.

Lemma length_xfer_bytes ps disk pages n : length (xfer_bytes ps disk pages n) = Z.to_nat n.
Proof. unfold xfer_bytes. by rewrite length_fmap, length_seqZ. Qed.

Lemma lookup_xfer_bytes ps disk pages n (i : nat) :
  Z.of_nat i < n ->
  xfer_bytes ps disk pages n !! i =
    Some (disk + Z.of_nat i,
          nth (Z.to_nat (Z.of_nat i / ps)) pages 0 + Z.of_nat i mod ps).
Proof.
  intros Hi. unfold xfer_bytes. rewrite list_lookup_fmap, lookup_seqZ_lt by lia. done.
Qed.

(** A transfer splits at a page boundary. *)
Lemma xfer_bytes_app ps disk pages a b :
  0 < ps -> 0 <= a -> 0 <= b -> (ps | a) ->
  xfer_bytes ps disk pages (a + b) =
    xfer_bytes ps disk pages a ++ xfer_bytes ps (disk + a) (drop (Z.to_nat (a / ps)) pages) b.
Proof.
  intros Hps Ha Hb [c ->]. assert (0 <= c) by nia. rewrite Z.div_mul by lia.
  apply list_eq. intros i. destruct (decide (Z.of_nat i < c * ps + b)).
  2:{ rewrite !lookup_ge_None_2; [done| |];
        rewrite ?length_app, !length_xfer_bytes; lia. }
  rewrite lookup_xfer_bytes by done. destruct (decide (Z.of_nat i < c * ps)).
  - rewrite lookup_app_l by (rewrite length_xfer_bytes; lia). by rewrite lookup_xfer_bytes.
  - rewrite lookup_app_r by (rewrite length_xfer_bytes; lia). rewrite length_xfer_bytes.
    rewrite lookup_xfer_bytes by lia. f_equal.
    replace (Z.of_nat i) with (Z.of_nat (i - Z.to_nat (c * ps)) + c * ps) at 1 2 3 by lia.
    rewrite Z.div_add, Z.mod_add by lia. f_equal; [lia|f_equal].
    rewrite !nth_lookup, lookup_drop. do 2 f_equal.
    rewrite Z2Nat.inj_add; [lia|apply Z.div_pos; lia|lia].
Qed.

Lemma xfer_bytes_take ps disk pages n (m : nat) :
  0 < ps -> n <= Z.of_nat m * ps ->
  xfer_bytes ps disk (take m pages) n = xfer_bytes ps disk pages n.
Proof.
  intros Hps Hm. unfold xfer_bytes. apply list_fmap_ext. intros i x Hx.
  apply lookup_seqZ in Hx as [-> Hi]. f_equal. f_equal. rewrite !nth_lookup.
  rewrite lookup_take_lt; [done|].
  assert (0 <= (0 + Z.of_nat i) / ps < Z.of_nat m); [|lia].
  split; [apply Z.div_pos; lia|apply Z.div_lt_upper_bound; lia].
Qed.

(** ** The pieces of a turn *)

Section pieces.
Context {E : Type} `{Device E}.

(** Everything of the state but the completion queue and the controller. *)
Definition io_frame (st st' : io_st E) : Prop :=
  io_sq st' = io_sq st /\ io_sqmem st' = io_sqmem st /\ io_prp st' = io_prp st /\
  io_trace st' = io_trace st.

(** The poll terminates because its bound, a multiple of 2^6 modulo 2^64, is not 2^64 - 1. *)
Lemma spins_bound timeout : 0 <= u64 (timeout * 1000000) < 2 ^ 64 - 1.
Proof.
  pose proof (wrap_range 64 (timeout * 1000000)).
  assert (u64 (timeout * 1000000) mod 2 = 0); [|unfold wrap in *; Z.div_mod_to_equations; lia].
  unfold wrap. rewrite Z.mod_mod_divide by (exists (2 ^ 63); done).
  replace (timeout * 1000000) with (timeout * 500000 * 2) by lia. by apply Z.mod_mul.
Qed.

Lemma busy_poll_total timeout (st : io_st E) :
  exists r st', busy_poll timeout st = Some (r, st') /\ io_frame st st'.
Proof.
  unfold busy_poll. set (mx := u64 (timeout * 1000000)).
  pose proof (spins_bound timeout) as Hmx. fold mx in Hmx. rewrite iter_until_fuel.
  destruct (iter_fuel_total (poll_turn mx) (fun s : Z * io_st E => 0 <= s.1 <= mx)
    (fun s => Z.to_nat (mx - s.1)) (Pos.to_nat (Z.to_pos (mx + 1))) (0, st))
    as [[r st'] Er]; [simpl; lia|simpl; lia| |].
  { intros [sp s] s' Hs. unfold poll_turn. simpl in Hs.
    destruct (nvm_cq_dequeue _ _) as [[c|] cq]; [done|].
    rewrite wrap_small by (unfold fits; lia).
    destruct (decide _); [done|]. intros [= <-]. simpl. lia. }
  exists r, st'. rewrite Er. split; [done|].
  pose proof (iter_fuel_inv (poll_turn mx) (fun s : Z * io_st E => io_frame st s.2)
    (fun r => io_frame st r.2) (Pos.to_nat (Z.to_pos (mx + 1))) (0, st)) as Hinv.
  rewrite Er in Hinv. apply Hinv; [done|]. intros [sp s] Hs. unfold poll_turn.
  destruct (nvm_cq_dequeue _ _) as [[c|] cq]; [done|]. by destruct (decide _).
Qed.

Lemma consume_total (st : io_st E) :
  exists st', consume st = Some (tt, st') /\ io_sq st' = nvm_sq_update (io_sq st) /\
    io_sqmem st' = io_sqmem st /\ io_prp st' = io_prp st /\ io_trace st' = io_trace st.
Proof. unfold consume. destruct (nvm_cq_update _) as [[h|] cq]; by eexists. Qed.

(** A submission queue between two turns: everything taken has been submitted. *)
Record sq_ready (q : nvm_queue_t) : Prop := {
  sr_wf : queue_wf q;
  sr_div : (q_qs q | 2 ^ 16);
  sr_db : q_db q <> NULL;
  sr_last : q_last q = q_tail q;
}.

(** The members that no queue operation changes. *)
Definition sq_static (q q' : nvm_queue_t) : Prop :=
  q_qs q' = q_qs q /\ q_vaddr q' = q_vaddr q /\ q_es q' = q_es q /\ q_db q' = q_db q.

#[export] Instance sq_static_preorder : PreOrder sq_static.
Proof. split; unfold sq_static; [done|]. intros q1 q2 q3. intuition congruence. Qed.

Lemma sq_static_slot q q' i : sq_static q q' -> SqFifo.slot q' i = SqFifo.slot q i.
Proof. intros (_ & Hv & He & _). unfold SqFifo.slot. by rewrite Hv, He. Qed.

Lemma sq_update_ready q : sq_ready q -> sq_ready (nvm_sq_update q) /\ sq_static q (nvm_sq_update q).
Proof.
  intros [Hwf Hd Hdb Hl]. pose proof Hwf as []. unfold nvm_sq_update.
  rewrite decide_True by done. rewrite ring_next_wrap by done.
  pose proof (ring_next_range (q_qs q) (q_head q)).
  split; [|done]. constructor; simpl; try done. constructor; simpl; done || lia.
Qed.

(** A slot taken but not yet submitted. *)
Definition sq_taken (q q' : nvm_queue_t) (a : Z) : Prop :=
  a = SqFifo.slot q (q_tail q) /\ queue_wf q' /\ sq_static q q' /\
  q_tail q' = ring_next (q_qs q) (q_tail q) /\ q_last q' = q_tail q /\ q_head q' = q_head q.

Lemma sq_enqueue_taken q a q' :
  sq_ready q -> nvm_sq_enqueue q = (Some a, q') -> sq_taken q q' a.
Proof.
  intros [Hwf _ _ Hl] Eq. destruct (SqFifo.sq_enqueue_Some q a q' Hwf Eq)
    as (Ha & Hwf' & Ht & Hh & Hq & Hv & He & Hdb & Hla & _).
  rewrite Hl in Hla. done.
Qed.

(** One drained completion makes room. *)
Lemma sq_update_room q :
  sq_ready q -> fst (nvm_sq_enqueue q) = None ->
  exists a q', nvm_sq_enqueue (nvm_sq_update q) = (Some a, q').
Proof.
  intros Hr Hfull. pose proof (sq_update_ready q Hr) as [Hr' Hst]. destruct Hr as [Hwf Hd Hdb _].
  pose proof Hwf as [].
  apply SqFifo.sq_enqueue_None in Hfull; [|done..].
  destruct (SqFifo.sq_update_Some q Hwf Hdb) as (Hwf' & Hc & _); [lia|].
  destruct (nvm_sq_enqueue (nvm_sq_update q)) as [[a|] q'] eqn:Eq; [by eexists _, _|].
  pose proof (SqFifo.sq_enqueue_None (nvm_sq_update q) Hwf' (sr_div _ Hr')) as [Hn _].
  rewrite Eq in Hn. specialize (Hn eq_refl). destruct Hst as (Hq & _). lia.
Qed.

(** [take_slot] returns, and gives the slot at the tail. *)
Definition take_post (st : io_st E) (r : option Z) (st' : io_st E) : Prop :=
  io_sqmem st' = io_sqmem st /\ io_prp st' = io_prp st /\ io_trace st' = io_trace st /\
  match r with
  | Some a => exists q, sq_ready q /\ sq_static (io_sq st) q /\ sq_taken q (io_sq st') a
  | None => sq_ready (io_sq st') /\ sq_static (io_sq st) (io_sq st')
  end.

Lemma slot_turn_enqueue timeout (st : io_st E) a q' :
  sq_ready (io_sq st) -> nvm_sq_enqueue (io_sq st) = (Some a, q') ->
  exists st', slot_turn timeout st = inr (Some (Some a, st')) /\ take_post st (Some a) st'.
Proof.
  intros Hr Eq. unfold slot_turn. rewrite Eq. eexists. split; [done|].
  repeat split. exists (io_sq st). split; [done|]. split; [done|]. by apply sq_enqueue_taken.
Qed.

Lemma take_post_trans (st1 st2 st3 : io_st E) r :
  io_sqmem st2 = io_sqmem st1 -> io_prp st2 = io_prp st1 -> io_trace st2 = io_trace st1 ->
  sq_static (io_sq st1) (io_sq st2) -> take_post st2 r st3 -> take_post st1 r st3.
Proof.
  intros H1 H2 H3 Hs (H4 & H5 & H6 & Hr). repeat (split; [congruence|]).
  destruct r as [a|].
  - destruct Hr as (q & Hq & Hsq & Ht). exists q. split; [done|]. split; [by etrans|done].
  - destruct Hr. split; [done|by etrans].
Qed.

Lemma take_slot_total timeout (st : io_st E) :
  sq_ready (io_sq st) -> exists r st', take_slot timeout st = Some (r, st') /\ take_post st r st'.
Proof.
  intros Hr. unfold take_slot. rewrite iter_until_fuel.
  pose proof (sr_wf _ Hr) as [].
  destruct (Pos.to_nat (Z.to_pos (q_qs (io_sq st)))) as [|[|n]] eqn:En; [lia..|].
  destruct (nvm_sq_enqueue (io_sq st)) as [[a|] q'] eqn:Eq.
  { destruct (slot_turn_enqueue timeout st a q' Hr Eq) as (st' & Et & Hp).
    cbn [iter_fuel]. rewrite Et. by eexists _, _. }
  cbn [iter_fuel]. unfold slot_turn at 1. rewrite Eq.
  destruct (busy_poll_total timeout st) as ([drain|] & st1 & Ep & Hsq & Hm & Hp & Ht); rewrite Ep.
  2:{ eexists _, _. split; [done|]. split; [done|]. rewrite Hsq. done. }
  destruct (consume_total st1) as (st2 & Ec & Hsq2 & Hm2 & Hp2 & Ht2). rewrite Ec.
  destruct (sq_update_ready (io_sq st) Hr) as [Hr2 Hs2]. rewrite <- Hsq, <- Hsq2 in Hr2, Hs2.
  rewrite Hsq in Hs2.
  destruct (decide (cpl_status drain <> 0)).
  { eexists _, _. split; [done|]. eapply (take_post_trans _ st2); [congruence..|done|].
    split; [done|]. done. }
  destruct (sq_update_room (io_sq st)) as (a & q2 & Eq2); [done|by rewrite Eq|].
  rewrite <- Hsq, <- Hsq2 in Eq2.
  destruct (slot_turn_enqueue timeout st2 a q2 Hr2 Eq2) as (st3 & Et & Hpost). rewrite Et.
  eexists _, _. split; [done|]. eapply (take_post_trans _ st2); [congruence..|done|done].
Qed.
End pieces.

(** ** The data pointer *)

(** The PRP list page of a queue pair: one mapped page of the controller's page size. *)
Definition prp_page_ok (ps : Z) (o : option nvm_dma_t) : Prop :=
  exists d io0 rest, o = Some d /\ dma_ioaddrs d = io0 :: rest /\ fits 64 io0 /\
    dma_page_size d = ps /\ 1 <= dma_n_ioaddrs d.

(** Its addresses. *)
Definition in_prp_page (ps : Z) (o : option nvm_dma_t) (a : Z) : Prop :=
  match o with Some d => dma_vaddr d <= a < dma_vaddr d + ps | None => False end.

Lemma prp_fill_spec n (i : nat) base cap ioaddrs (cur : nat) mem :
  (1 <= i)%nat -> Z.of_nat i - 1 + Z.of_nat n <= cap -> (cur + i + n <= length ioaddrs)%nat ->
  exists mem', prp_fill n (Z.of_nat i) base cap ioaddrs (Z.of_nat cur) mem = Some mem' /\
    (forall j : nat, (i <= j < i + n)%nat ->
       ioaddrs !! (cur + j)%nat = Some (mem' (base + 8 * (Z.of_nat j - 1)))) /\
    (forall a, (forall j : nat, (i <= j < i + n)%nat -> a <> base + 8 * (Z.of_nat j - 1)) -> mem' a = mem a).
Proof.
  revert i mem. induction n as [|n IH]; intros i mem Hi Hcap Hlen; simpl.
  { exists mem. split; [done|]. split; [intros; lia|done]. }
  destruct (lookup_lt_is_Some_2 ioaddrs (cur + i)) as [a Ha]; [lia|].
  rewrite <- Nat2Z.inj_add, zlookup_nat, Ha. rewrite decide_True by lia.
  replace (Z.of_nat i + 1) with (Z.of_nat (S i)) by lia.
  destruct (IH (S i) (<[base + 8 * (Z.of_nat i - 1) := a]> mem)) as (mem' & -> & Hin & Hout);
    [lia..|].
  exists mem'. split; [done|]. split.
  - intros j Hj. destruct (decide (j = i)) as [->|]; [|apply Hin; lia].
    rewrite Hout by (intros; lia). by rewrite fn_lookup_insert.
  - intros b Hb. rewrite Hout by (intros; apply Hb; lia).
    apply fn_lookup_insert_ne. intros Heq. apply (Hb i); [lia|done].
Qed.

(** The pages the controller resolves are the [n] buffer pages from [cur] on. *)
Lemma data_pointer_spec ps prp_dma ioaddrs (cur n : nat) cmd prp :
  prp_page_ok ps prp_dma -> Forall (fits 64) ioaddrs ->
  (1 <= n)%nat -> Z.of_nat n <= ps / 8 + 1 -> 0 < ps -> (cur + n <= length ioaddrs)%nat ->
  exists p1 p2 prp',
    data_pointer prp_dma ioaddrs (Z.of_nat cur) (Z.of_nat n) cmd prp =
      Some (nvm_cmd_data_ptr cmd p1 p2, prp') /\
    fits 64 p1 /\ fits 64 p2 /\
    (forall a, ~ in_prp_page ps prp_dma a -> prp' a = prp a) /\
    forall c db tail sqmem mem, (forall a, in_prp_page ps prp_dma a -> mem a = prp' a) ->
      cmd_prp1 c = p1 -> cmd_prp2 c = p2 ->
      cmd_pages (event_rd prp_dma (mk_event db tail sqmem mem)) (Z.to_nat (ps / 8)) c n =
        take n (drop cur ioaddrs).
Proof.
  intros (d & io0 & rest & -> & Hio & Hio0 & Hps & Hn1) Hf Hn Hcap Hps0 Hlen.
  assert (forall i a, ioaddrs !! i = Some a -> fits 64 a) as Hfit
    by (intros i a Hi; by eapply Forall_lookup_1 in Hi).
  destruct (lookup_lt_is_Some_2 ioaddrs cur) as [p1 Hp1]; [lia|].
  pose proof (drop_S ioaddrs p1 cur Hp1) as Hdrop. unfold data_pointer.
  destruct n as [|[|[|n]]]; [lia| | |].
  - rewrite decide_True by lia. rewrite zlookup_nat, Hp1.
    exists p1, 0, prp. split; [done|]. split; [by eapply Hfit|]. split; [unfold fits; lia|]. split; [done|].
    intros c db tail sqmem mem _ Hc1 _. simpl. rewrite Hc1, Hdrop. done.
  - rewrite decide_False, decide_True by lia.
    destruct (lookup_lt_is_Some_2 ioaddrs (S cur)) as [p2 Hp2]; [lia|].
    replace (Z.of_nat cur + 1) with (Z.of_nat (S cur)) by lia. rewrite !zlookup_nat, Hp1, Hp2.
    exists p1, p2, prp. split; [done|]. split; [by eapply Hfit|]. split; [by eapply Hfit|]. split; [done|].
    intros c db tail sqmem mem _ Hc1 Hc2. simpl.
    by rewrite Hc1, Hc2, Hdrop, (drop_S ioaddrs p2 (S cur) Hp2).
  - set (m := S (S (S n))) in *. rewrite !decide_False by (subst m; lia).
    replace (Z.to_nat (Z.of_nat m - 1)) with (m - 1)%nat by lia.
    assert (ps / 8 <= dma_n_ioaddrs d * dma_page_size d / 8).
    { rewrite Hps. apply Z.div_le_mono; [lia|nia]. }
    destruct (prp_fill_spec (m - 1) 1 (dma_vaddr d) (dma_n_ioaddrs d * dma_page_size d / 8)
      ioaddrs cur prp) as (prp' & E & Hin & Hout); [lia..|].
    change (Z.of_nat 1) with 1 in E. rewrite E, zlookup_nat, Hp1, Hio.
    exists p1, io0, prp'. split; [done|]. split; [by eapply Hfit|]. split; [done|]. split.
    { intros a Ha. apply Hout. intros j Hj ->. apply Ha. simpl.
      pose proof (Z.mul_div_le ps 8 ltac:(lia)). lia. }
    intros c db tail sqmem mem Hmem Hc1 Hc2. unfold cmd_pages. subst m. cbv beta iota.
    rewrite Hc1, Hc2, Hdrop. cbn [take]. f_equal. cbn [prp_walk]. rewrite decide_True by lia.
    apply list_eq. intros i. rewrite list_lookup_fmap.
    destruct (decide (i < S (S n))%nat).
    + rewrite lookup_seq_lt, lookup_take_lt by lia. rewrite lookup_drop. simpl.
      replace (S (cur + i)) with (cur + S i)%nat by lia. rewrite (Hin (S i)) by lia.
      rewrite Hio. simpl. f_equal. rewrite <- Hmem by (simpl; pose proof (Z.mul_div_le ps 8); lia). f_equal. lia.
    + rewrite lookup_seq_ge, lookup_take_ge by lia. done.
Qed.

(** ** Submitting a chunk *)

Section chunk.
Context {E : Type} `{Device E}.

Lemma ring_next_prev qs t : 2 <= qs -> 0 <= t < qs -> (ring_next qs t - 1) mod qs = t.
Proof.
  intros Hqs Ht. unfold ring_next. rewrite Zminus_mod_idemp_l.
  replace (t + 1 - 1) with t by lia. by apply Z.mod_small.
Qed.

Lemma sq_submit_taken q q' a :
  sq_ready q -> sq_taken q q' a ->
  exists q'', nvm_sq_submit q' = (Some (ring_next (q_qs q) (q_tail q)), q'') /\
    sq_ready q'' /\ sq_static q q'' /\
    q_tail q'' = ring_next (q_qs q) (q_tail q) /\ q_head q'' = q_head q.
Proof.
  intros [Hwf Hd Hdb Hl] (-> & Hwf' & (Hq & Hv & He & Hdb') & Ht & Hla & Hh).
  pose proof Hwf as []. pose proof Hwf' as []. unfold nvm_sq_submit. rewrite decide_True.
  2:{ rewrite Hla, Ht, Hdb'. split; [|done]. apply not_eq_sym, ring_next_ne; lia. }
  eexists. split; [by rewrite <- Ht|]. split; [|done].
  constructor; simpl; try done; [by rewrite Hq|by rewrite Hdb'].
Qed.

(** What a submission changes: the doorbell of the entry [q] had at its tail is rung. *)
Record rang (q : nvm_queue_t) (st : io_st E) (ev : io_event) (st' : io_st E) : Prop := {
  rg_trace : io_trace st' = io_trace st ++ [ev];
  rg_cq : io_cq st' = io_cq st;
  rg_dev : io_dev st' = dev_sq_doorbell (ev_db ev) (ev_tail ev) (ev_sqmem ev) (ev_prp ev) (io_dev st);
  rg_ev_tail : ev_tail ev = ring_next (q_qs q) (q_tail q);
  rg_tail : q_tail (io_sq st') = ring_next (q_qs q) (q_tail q);
  rg_head : q_head (io_sq st') = q_head q;
}.

(** The doorbell write for the entry [q] has at its tail. *)
Definition next_event (q : nvm_queue_t) (sqmem : Z -> nvm_cmd_t) (prp : Z -> Z) : io_event :=
  mk_event (q_db q) (ring_next (q_qs q) (q_tail q)) sqmem prp.

Lemma build_chunk_spec hs ps sq0 q prp_dma ioaddrs opcode a (cur n : nat) lba nb (st : io_st E) :
  sq_ready q -> sq_static sq0 q -> sq_taken q (io_sq st) a ->
  prp_page_ok ps prp_dma -> Forall (fits 64) ioaddrs -> fits 7 opcode -> fits 32 (hs_ns_id hs) ->
  0 < ps -> 0 < hs_block_size hs -> fits 64 lba -> 1 <= nb <= 0x10000 ->
  (1 <= n)%nat -> Z.of_nat n = cdiv (nb * hs_block_size hs) ps -> Z.of_nat n <= ps / 8 + 1 ->
  (cur + n <= length ioaddrs)%nat ->
  exists sqmem prp,
    build_chunk hs prp_dma ioaddrs opcode a (Z.of_nat cur) (Z.of_nat n) lba nb st =
      Some (tt, mk_io (io_sq st) (io_cq st) sqmem prp (io_dev st) (io_trace st)) /\
    (forall x, x <> a -> sqmem x = io_sqmem st x) /\
    (forall x, ~ in_prp_page ps prp_dma x -> prp x = io_prp st x) /\
    forall sqmem' prp', sqmem' a = sqmem a -> (forall x, in_prp_page ps prp_dma x -> prp' x = prp x) ->
      event_ok sq0 opcode (hs_ns_id hs) (next_event q sqmem' prp') /\
      cmd_slba (event_cmd sq0 (next_event q sqmem' prp')) = lba /\
      cmd_nlb (event_cmd sq0 (next_event q sqmem' prp')) = nb /\
      event_bytes ps (hs_block_size hs) sq0 prp_dma (next_event q sqmem' prp') =
        xfer_bytes ps (lba * hs_block_size hs) (drop cur ioaddrs) (nb * hs_block_size hs).
Proof.
  intros Hr Hs0 (-> & _) Hprp Hf Hop Hns Hps Hbs Hlba Hnb Hn Hnv Hcap Hlen.
  pose proof (sr_wf _ Hr) as []. pose proof Hs0 as (Hq0 & _ & _ & Hdb0).
  unfold build_chunk. set (cid := NVM_DEFAULT_CID (io_sq st)).
  destruct (data_pointer_spec ps prp_dma ioaddrs cur n
    (nvm_cmd_header cmd_zero cid opcode (hs_ns_id hs)) (io_prp st))
    as (p1 & p2 & prp & -> & Hp1 & Hp2 & Hfr & Hpages); [done..|].
  destruct (rw_command cid opcode (hs_ns_id hs) p1 p2 lba nb) as [Hok _ Hcop Hfu Hpd Hcns Hc1 Hc2 Hcl Hcn];
    [apply wrap_fits; lia|done..|].
  set (cmd := nvm_cmd_rw_blks _ _ _) in *. set (sqmem := <[_ := cmd]> (io_sqmem st)).
  exists sqmem, prp. split; [done|]. split; [intros x Hx; by apply fn_lookup_insert_ne|]. split; [done|].
  intros sqmem' prp' Hsq Hpr.
  assert (event_cmd sq0 (next_event q sqmem' prp') = cmd) as Hev.
  { unfold event_cmd. simpl. rewrite <- Hq0, ring_next_prev by lia.
    rewrite <- (sq_static_slot sq0 q), Hsq by done. apply fn_lookup_insert. }
  split; [unfold event_ok; by rewrite Hev|]. rewrite Hev. split; [done|]. split; [done|].
  unfold event_bytes. rewrite Hev, Hcl, Hcn. rewrite <- Hnv, Nat2Z.id.
  unfold next_event. rewrite Hpages by done. apply xfer_bytes_take; [done|].
  rewrite Hnv. by apply cdiv_spec.
Qed.

Lemma ring_doorbell_spec q a (st : io_st E) :
  sq_ready q -> sq_taken q (io_sq st) a ->
  exists st', ring_doorbell st = Some (tt, st') /\ sq_ready (io_sq st') /\ sq_static q (io_sq st') /\
    rang q st (next_event q (io_sqmem st) (io_prp st)) st' /\
    io_sqmem st' = io_sqmem st /\ io_prp st' = io_prp st.
Proof.
  intros Hr Htk. destruct (sq_submit_taken q (io_sq st) a Hr Htk) as (q'' & Esub & Hr' & Hs' & Ht' & Hh').
  unfold ring_doorbell. rewrite Esub. eexists. split; [done|]. cbn [io_sq]. split; [done|]. split; [done|].
  destruct Hs' as (_ & _ & _ & ->). done.
Qed.
End chunk.

(** ** Chunk sizes *)

(** What [uGDSHandleRegister] establishes of a handle's geometry: powers of two from the
    controller's registers and Identify data; a command never needs more than 65536 blocks. *)
Record geometry_ok (hs : HandleState nvm_ctrl_t nvm_dma_t) : Prop := {
  g_ps : is_pow2 (ctrl_page_size (hs_ctrl hs));
  g_ps_range : 16 <= ctrl_page_size (hs_ctrl hs) <= 2 ^ 31;
  g_bs : is_pow2 (hs_block_size hs);
  g_bs_range : hs_block_size hs < 2 ^ 32;
  g_ns : fits 32 (hs_ns_id hs);
  g_mts : hs_max_transfer_size hs = 0 \/ is_pow2 (hs_max_transfer_size hs);
  g_nlb : max_xfer hs (ctrl_page_size (hs_ctrl hs)) <= 0x10000 * hs_block_size hs;
}.

Lemma max_xfer_val hs :
  geometry_ok hs ->
  let ps := ctrl_page_size (hs_ctrl hs) in
  (ps | max_xfer hs ps) /\ ps <= max_xfer hs ps <= (ps / 8 + 1) * ps /\
  (ps / 8 + 1) * ps < 2 ^ 63.
Proof.
  intros [Hps Hr _ _ _ Hm _]. cbv zeta. set (ps := ctrl_page_size (hs_ctrl hs)) in *. clearbody ps.
  assert (prp_max ps = (ps / 8 + 1) * ps /\ (ps / 8 + 1) * ps < 2 ^ 63) as [Hpm Hlt].
  { assert (0 <= ps / 8 <= 2 ^ 28) by (Z.div_mod_to_equations; lia).
    unfold prp_max. rewrite wrap_small by (unfold fits; nia). nia. }
  assert (0 <= ps / 8) by (apply Z.div_pos; lia).
  assert (ps <= (ps / 8 + 1) * ps) by nia.
  unfold max_xfer. rewrite Hpm. set (m := if decide (hs_max_transfer_size hs = 0) then _ else _).
  assert (is_pow2 m) as Hmp.
  { unfold m. case_decide; [by exists 17|]. by destruct Hm. }
  clearbody m.
  destruct (decide (m < ps)).
  - rewrite decide_False by lia. split; [done|]. lia.
  - assert (ps | m) by (apply is_pow2_divide; done || lia).
    destruct (decide (m > (ps / 8 + 1) * ps)); [|split; [done|lia]].
    split; [by exists (ps / 8 + 1)|]. nia.
Qed.

Lemma chunk_val ps bs xfer remaining :
  is_pow2 ps -> is_pow2 bs -> (ps | xfer) -> bs <= xfer -> 0 < remaining -> (bs | remaining) ->
  let chunk := Z.min remaining xfer / bs * bs in
  0 < chunk <= remaining /\ chunk <= xfer /\ (bs | chunk) /\ (chunk < remaining -> (ps | chunk)).
Proof.
  intros Hps Hbs Hx Hbx Hr Hbr chunk. apply is_pow2_pos in Hbs as Hbs0.
  assert (bs <= remaining) by (by apply Z.divide_pos_le).
  assert (0 < Z.min remaining xfer / bs) by (apply Z.div_str_pos; lia).
  pose proof (Z.mul_div_le (Z.min remaining xfer) bs Hbs0).
  split; [unfold chunk; nia|]. split; [unfold chunk; nia|].
  split; [by apply Z.divide_factor_r|]. intros Hlt.
  destruct (decide (remaining <= xfer)).
  { destruct Hbr as [c Hc]. unfold chunk in Hlt. rewrite Z.min_l, Hc, Z.div_mul in Hlt; lia. }
  destruct (decide (bs <= ps)).
  - assert (bs | xfer) as [c Hc] 
      by (apply (Z.divide_trans bs ps xfer); [by apply is_pow2_divide|done]).
    unfold chunk. rewrite Z.min_r by lia. by rewrite Hc, Z.div_mul, <- Hc by lia.
  - etrans; [apply (is_pow2_divide ps bs); done || lia|]. by apply Z.divide_factor_r.
Qed.

Lemma chunk_zero bs xfer remaining :
  0 < bs -> 0 < remaining -> (bs | remaining) -> 0 <= xfer ->
  Z.min remaining xfer / bs * bs = 0 -> xfer < bs.
Proof.
  intros Hbs Hr Hbr Hx Hz. assert (bs <= remaining) by (by apply Z.divide_pos_le).
  assert (Z.min remaining xfer / bs = 0) as Hq by nia.
  apply Z.div_small_iff in Hq; lia.
Qed.

Lemma cdiv_split a b ps : 0 < ps -> (ps | a) -> cdiv (a + b) ps = cdiv a ps + cdiv b ps.
Proof.
  intros Hps [c ->]. rewrite cdiv_add, cdiv_mul by done. done.
Qed.

(** ** The transfer loop *)

Section run.
Context {E : Type} `{Device E}.
Context (hs : HandleState nvm_ctrl_t nvm_dma_t) (prp_dma : option nvm_dma_t) (ioaddrs : list Z) (opcode size : Z)
  (file_offset : Z) (page0 : nat) (sq0 : nvm_queue_t) (tr0 : list io_event).

Abbreviation ps := (ctrl_page_size (hs_ctrl hs)).
Abbreviation bs := (hs_block_size hs).
Abbreviation xfer := (max_xfer hs ps).

(** A request on a queue pair, after the checks of [do_io]. *)
Record request_ok : Prop := {
  rq_geom : geometry_ok hs;
  rq_prp : prp_page_ok ps prp_dma;
  rq_addrs : Forall (fits 64) ioaddrs;
  rq_opcode : fits 7 opcode;
  rq_size : 0 < size < 2 ^ 63;
  rq_size_bs : (bs | size);
  rq_fo : 0 <= file_offset < 2 ^ 63;
  rq_fo_bs : (bs | file_offset);
  rq_pages : Z.of_nat page0 + cdiv size ps <= Z.of_nat (length ioaddrs);
  rq_len : Z.of_nat (length ioaddrs) < 2 ^ 64;
}.

(** The doorbells rung since [tr0] asked for the first [n] bytes of the request. *)
Definition moved (n : Z) (tr : list io_event) : Prop :=
  exists evs, tr = tr0 ++ evs /\ Forall (event_ok sq0 opcode (hs_ns_id hs)) evs /\
    mjoin (event_bytes ps bs sq0 prp_dma <$> evs) =
      xfer_bytes ps file_offset (drop page0 ioaddrs) n.

Record loop_inv (s : io_loop E) : Prop := {
  li_ready : sq_ready (io_sq (lp_st s));
  li_static : sq_static sq0 (io_sq (lp_st s));
  li_done : 0 <= lp_done s <= size;
  li_bs : (bs | lp_done s);
  li_ps : lp_done s < size -> (ps | lp_done s);
  li_lba : lp_lba s = (file_offset + lp_done s) / bs;
  li_page : lp_page s = Z.of_nat page0 + cdiv (lp_done s) ps;
  li_moved : moved (lp_done s) (io_trace (lp_st s));
  li_none : xfer < bs -> lp_done s = 0;
}.

(** How the loop may end. *)
Definition run_post (r : option (Z * io_st E)) : Prop :=
  match r with
  | None => False
  | Some (result, st) =>
      sq_ready (io_sq st) /\ sq_static sq0 (io_sq st) /\
      exists n, 0 <= n <= size /\ moved n (io_trace st) /\
        (result = size /\ n = size \/ result = - EIO \/ result = - EINVAL /\ n = 0 /\ xfer < bs)
  end.

Lemma moved_app n m tr ev :
  0 <= n -> 0 <= m -> 0 < ps -> (ps | n) -> moved n tr -> event_ok sq0 opcode (hs_ns_id hs) ev ->
  event_bytes ps bs sq0 prp_dma ev =
    xfer_bytes ps (file_offset + n) (drop (page0 + Z.to_nat (n / ps)) ioaddrs) m ->
  moved (n + m) (tr ++ [ev]).
Proof.
  intros Hn Hm Hps Hd (evs & -> & Hok & Hb) Hev Heb. exists (evs ++ [ev]).
  split; [by rewrite app_assoc|]. split; [apply Forall_app; by split; [|constructor]|].
  rewrite fmap_app, join_app. simpl. rewrite app_nil_r, Hb, Heb, xfer_bytes_app by done.
  by rewrite drop_drop.
Qed.

(** The end of a turn: waiting for the completion and accounting for it. *)
Lemma finish_turn (st : io_st E) :
  sq_ready (io_sq st) -> sq_static sq0 (io_sq st) ->
  exists r st1, busy_poll (ctrl_timeout (hs_ctrl hs)) st = Some (r, st1) /\
    sq_ready (io_sq st1) /\ sq_static sq0 (io_sq st1) /\ io_trace st1 = io_trace st /\
    exists st2, consume st1 = Some (tt, st2) /\
      sq_ready (io_sq st2) /\ sq_static sq0 (io_sq st2) /\ io_trace st2 = io_trace st.
Proof.
  intros Hr Hs. destruct (busy_poll_total (ctrl_timeout (hs_ctrl hs)) st)
    as (r & st1 & Ep & Hsq & _ & _ & Ht).
  exists r, st1. split; [done|]. rewrite Hsq. split; [done|]. split; [done|]. split; [done|].
  destruct (consume_total st1) as (st2 & Ec & Hsq2 & _ & _ & Ht2). exists st2.
  split; [done|]. destruct (sq_update_ready (io_sq st) Hr) as [Hr2 Hs2].
  rewrite Hsq2, Hsq, Ht2. split; [done|]. split; [by etrans|done].
Qed.

(** The geometry of the turn that starts with [d] bytes done. *)
Lemma turn_geometry d :
  request_ok -> 0 <= d < size -> (bs | d) -> (ps | d) -> bs <= xfer ->
  let chunk := Z.min (size - d) xfer / bs * bs in
  0 < chunk <= size - d /\ chunk <= xfer /\ (bs | chunk) /\ (chunk < size - d -> (ps | chunk)) /\
  1 <= chunk / bs <= 0x10000 /\ chunk / bs * bs = chunk /\
  1 <= cdiv chunk ps <= ps / 8 + 1 /\
  cdiv d ps = d / ps /\ Z.of_nat page0 + cdiv d ps + cdiv chunk ps <= Z.of_nat (length ioaddrs) /\
  (file_offset + d) / bs * bs = file_offset + d /\ fits 64 ((file_offset + d) / bs).
Proof.
  intros [Hg _ _ _ Hsz Hsb Hfo Hfb Hpg _] Hd Hbd Hpd Hbx chunk.
  pose proof (max_xfer_val hs Hg) as (Hpx & Hxr & _). cbv zeta in Hpx, Hxr.
  pose proof Hg as [Hps _ Hbs _ _ _ Hnlb].
  apply is_pow2_pos in Hps as Hps0. apply is_pow2_pos in Hbs as Hbs0.
  destruct (chunk_val ps bs xfer (size - d)) as (Hc & Hcx & Hbc & Hpc); try done || lia.
  { by apply Z.divide_sub_r. }
  fold chunk in Hc, Hcx, Hbc, Hpc. clearbody chunk.
  assert (bs | file_offset + d) as [b Hb] by (by apply Z.divide_add_r).
  destruct Hbc as [c Hc']. rewrite Hc', Z.div_mul, Hb, Z.div_mul by lia.
  rewrite <- Hc'. split; [done|]. split; [done|]. split; [by exists c|]. split; [done|].
  split; [nia|]. split; [done|]. split; [split; [apply cdiv_pos|apply cdiv_le]; lia|].
  split; [destruct Hpd as [q ->]; by rewrite cdiv_mul, Z.div_mul by lia|].
  split; [|split; [done|unfold fits; nia]].
  rewrite <- Z.add_assoc, <- cdiv_split by done.
  pose proof (cdiv_mono (d + chunk) size ps). lia.
Qed.

Lemma run_post_eio (st : io_st E) n :
  sq_ready (io_sq st) -> sq_static sq0 (io_sq st) -> 0 <= n <= size -> moved n (io_trace st) ->
  run_post (Some (- EIO, st)).
Proof. intros. split; [done|]. split; [done|]. exists n. auto. Qed.

(** The words of a turn do not wrap. *)
Lemma turn_words d :
  request_ok -> 0 <= d < size ->
  u64 (size - d) = size - d /\
  u64 (Z.min (size - d) xfer / bs * bs) = Z.min (size - d) xfer / bs * bs /\
  (forall c, 0 <= c <= xfer -> u64 (u64 (c + ps) - 1) / ps = cdiv c ps).
Proof.
  intros [Hg _ _ _ Hsz _ _ _ _ _] Hd. pose proof (max_xfer_val hs Hg) as (_ & Hxr & Hlt).
  cbv zeta in Hxr, Hlt. pose proof Hg as [_ Hpr Hbs _ _ _ _]. apply is_pow2_pos in Hbs.
  assert (0 <= Z.min (size - d) xfer) by lia.
  pose proof (Z.mul_div_le (Z.min (size - d) xfer) bs Hbs).
  pose proof (Z.div_pos (Z.min (size - d) xfer) bs).
  split; [apply wrap_small; unfold fits; lia|]. split; [apply wrap_small; unfold fits; nia|].
  intros c Hc. rewrite (wrap_small _ (c + ps)) by (unfold fits; lia).
  rewrite wrap_small by (unfold fits; lia). done.
Qed.

(** The bytes of the turn that starts with [d] bytes done, and what its command has to say. *)
Definition chunk_of (d : Z) : Z := Z.min (size - d) xfer / bs * bs.

Definition chunk_event (d : Z) (ev : io_event) : Prop :=
  event_ok sq0 opcode (hs_ns_id hs) ev /\
  cmd_slba (event_cmd sq0 ev) * bs = file_offset + d /\ cmd_nlb (event_cmd sq0 ev) * bs = chunk_of d /\
  event_bytes ps bs sq0 prp_dma ev =
    xfer_bytes ps (file_offset + d) (drop (page0 + Z.to_nat (d / ps)) ioaddrs) (chunk_of d).

(** The command of the turn is in the entry at the tail of [q] and in the PRP list page. *)
Definition chunk_loaded (d : Z) (q : nvm_queue_t) (sqmem : Z -> nvm_cmd_t) (prp : Z -> Z) : Prop :=
  forall sqmem' prp', sqmem' (SqFifo.slot q (q_tail q)) = sqmem (SqFifo.slot q (q_tail q)) ->
    (forall x, in_prp_page ps prp_dma x -> prp' x = prp x) -> chunk_event d (next_event q sqmem' prp').

(** Building the command of a turn. *)
Lemma turn_build d a (st : io_st E) q :
  request_ok -> 0 <= d < size -> (bs | d) -> (ps | d) -> bs <= xfer ->
  sq_ready q -> sq_static sq0 q -> sq_taken q (io_sq st) a ->
  exists sqmem prp, build_chunk hs prp_dma ioaddrs opcode a (Z.of_nat page0 + cdiv d ps)
      (cdiv (chunk_of d) ps) ((file_offset + d) / bs) (chunk_of d / bs) st =
        Some (tt, mk_io (io_sq st) (io_cq st) sqmem prp (io_dev st) (io_trace st)) /\
    (forall x, x <> a -> sqmem x = io_sqmem st x) /\
    (forall x, ~ in_prp_page ps prp_dma x -> prp x = io_prp st x) /\
    chunk_loaded d q sqmem prp.
Proof.
  intros Hrq Hd Hbd Hpd Hbx Hr Hs Ht.
  destruct (turn_geometry d Hrq Hd Hbd Hpd Hbx)
    as (Hc & Hcx & _ & _ & Hnb & Hcb & Hnp & Hdp & Hpages & Hfb & Hlba).
  fold (chunk_of d) in Hc, Hcx, Hnb, Hcb, Hnp, Hpages. destruct Hrq as [Hg Hprp Hf Hop _ _ _ _ _ _].
  destruct Hg as [Hps _ Hbs _ Hns _ _]. apply is_pow2_pos in Hps, Hbs.
  assert (0 <= d / ps) by (apply Z.div_pos; lia).
  set (cur := (page0 + Z.to_nat (d / ps))%nat). set (n := Z.to_nat (cdiv (chunk_of d) ps)).
  replace (Z.of_nat page0 + cdiv d ps) with (Z.of_nat cur) by lia.
  replace (cdiv (chunk_of d) ps) with (Z.of_nat n) in * by lia.
  destruct (build_chunk_spec hs ps sq0 q prp_dma ioaddrs opcode a cur n
    ((file_offset + d) / bs) (chunk_of d / bs) st) as (sqmem & prp & Es & Hm & Hp & Hld);
    try done || lia.
  { rewrite Hcb. lia. }
  exists sqmem, prp. split_and!; try done. intros sqmem' prp' Hsq Hpr. pose proof Ht as (Ha & _). rewrite <- Ha in Hsq.
  destruct (Hld sqmem' prp' Hsq Hpr) as (Hok & Hsl & Hnl & Hb).
  unfold chunk_event. rewrite Hsl, Hnl, Hb, Hfb, Hcb. done.
Qed.

(** Ringing the doorbell for it. *)
Lemma turn_rang d tr ev :
  request_ok -> 0 <= d < size -> (bs | d) -> (ps | d) -> bs <= xfer ->
  moved d tr -> chunk_event d ev -> moved (d + chunk_of d) (tr ++ [ev]).
Proof.
  intros Hrq Hd Hbd Hpd Hbx Hm (Hok & _ & _ & Hb).
  destruct (turn_geometry d Hrq Hd Hbd Hpd Hbx) as (Hc & _). fold (chunk_of d) in Hc.
  destruct Hrq as [[Hps _ _ _ _ _ _] _ _ _ _ _ _ _ _ _]. apply is_pow2_pos in Hps.
  by apply moved_app; try done || lia.
Qed.

(** The submission of a turn. *)
Lemma turn_submit d a (st : io_st E) q :
  request_ok -> 0 <= d < size -> (bs | d) -> (ps | d) -> bs <= xfer ->
  sq_ready q -> sq_static sq0 q -> sq_taken q (io_sq st) a -> moved d (io_trace st) ->
  exists st' ev, submit_chunk hs prp_dma ioaddrs opcode a (Z.of_nat page0 + cdiv d ps)
      (cdiv (chunk_of d) ps) ((file_offset + d) / bs) (chunk_of d / bs) st = Some (tt, st') /\
    sq_ready (io_sq st') /\ sq_static sq0 (io_sq st') /\ moved (d + chunk_of d) (io_trace st') /\
    rang q st ev st' /\ chunk_event d ev.
Proof.
  intros Hrq Hd Hbd Hpd Hbx Hr Hs Ht Hm.
  destruct (turn_build d a st q) as (sqmem & prp & Eb & _ & _ & Hld); [done..|].
  pose proof (Hld sqmem prp eq_refl ltac:(done)) as Hev.
  set (st1 := mk_io _ _ sqmem prp _ _) in Eb.
  destruct (ring_doorbell_spec q a st1) as (st' & Er & Hr' & Hs' & Hrg & _ & _); [done..|].
  exists st', (next_event q sqmem prp). unfold submit_chunk, mbind, M_bind. rewrite Eb, Er.
  split_and!; try done; [by etrans| |by destruct Hrg].
  rewrite (rg_trace _ _ _ _ Hrg). by apply turn_rang.
Qed.

(** The state after a turn. *)
Lemma turn_next d (st : io_st E) :
  request_ok -> 0 <= d < size -> (bs | d) -> (ps | d) -> bs <= xfer ->
  let chunk := Z.min (size - d) xfer / bs * bs in
  sq_ready (io_sq st) -> sq_static sq0 (io_sq st) -> moved (d + chunk) (io_trace st) ->
  let s' := mk_loop (u64 (d + chunk)) (u64 ((file_offset + d) / bs + chunk / bs))
              (u64 (Z.of_nat page0 + cdiv d ps + cdiv chunk ps)) st in
  loop_inv s' /\ d + bs <= lp_done s'.
Proof.
  intros Hrq Hd Hbd Hpd Hbx chunk Hr Hs Hm. cbv zeta.
  destruct (turn_geometry d Hrq Hd Hbd Hpd Hbx)
    as (Hc & Hcx & Hbc & Hpc & Hnb & Hcb & Hnp & Hdp & Hpages & Hfb & Hlba).
  fold chunk in Hc, Hcx, Hbc, Hpc, Hnb, Hcb, Hnp, Hpages.
  destruct Hrq as [[Hps _ Hbs _ _ _ _] _ _ _ Hsz _ Hfo _ _ Hlen].
  apply is_pow2_pos in Hps, Hbs. assert (0 <= cdiv d ps) by (rewrite Hdp; apply Z.div_pos; lia).
  assert (chunk / bs <= chunk) by (apply Z.div_le_upper_bound; nia).
  assert (0 <= (file_offset + d) / bs <= file_offset + d).
  { split; [apply Z.div_pos; lia|]. apply Z.div_le_upper_bound; nia. }
  rewrite (wrap_small _ (d + chunk)) by (unfold fits; lia).
  rewrite (wrap_small _ ((file_offset + d) / bs + chunk / bs)) by (unfold fits; lia).
  rewrite (wrap_small _ (Z.of_nat page0 + cdiv d ps + cdiv chunk ps)) by (unfold fits; lia).
  split; [|simpl; nia]. constructor; simpl; try done || lia.
  - by apply Z.divide_add_r.
  - intros Hlt. apply Z.divide_add_r; [done|]. apply Hpc. lia.
  - destruct Hbc as [c ->]. rewrite Z.div_mul, Z.add_assoc, Z.div_add by lia. done.
  - rewrite cdiv_split by done. lia.
Qed.

(** The turn that finds no whole block in a transfer. *)
Lemma turn_zero s :
  request_ok -> loop_inv s -> lp_done s < size ->
  let chunk := Z.min (size - lp_done s) xfer / bs * bs in
  if decide (chunk = 0) then run_post (Some (- EINVAL, lp_st s)) else bs <= xfer.
Proof.
  intros Hrq [Hr Hs Hd Hbd _ _ _ Hm Hn0] Hlt chunk.
  pose proof Hrq as [Hg _ _ _ Hsz Hsb _ _ _ _]. pose proof (max_xfer_val hs Hg) as (_ & Hxr & _).
  pose proof Hg as [_ Hpr Hbs _ _ _ _]. apply is_pow2_pos in Hbs.
  destruct (decide (chunk = 0)) as [Hz|Hnz].
  - assert (xfer < bs) as Hxb.
    { apply (chunk_zero bs xfer (size - lp_done s)); try done || lia. by apply Z.divide_sub_r. }
    split; [done|]. split; [done|]. exists 0. rewrite (Hn0 Hxb) in Hm.
    split; [lia|]. split; [done|]. auto.
  - destruct (decide (bs <= xfer)); [done|]. destruct Hnz. unfold chunk.
    rewrite Z.div_small by lia. lia.
Qed.

Lemma io_turn_spec s :
  request_ok -> loop_inv s ->
  match io_turn hs prp_dma ioaddrs opcode size xfer s with
  | inl s' => loop_inv s' /\ lp_done s + bs <= lp_done s'
  | inr r => run_post r
  end.
Proof.
  intros Hrq Hinv. pose proof Hinv as [Hr Hs Hd Hbd Hpd Hl Hp Hm _]. unfold io_turn.
  pose proof Hrq as [_ _ _ _ Hsz _ _ _ _ _].
  destruct (decide (lp_done s < size)) as [Hlt|].
  2:{ assert (lp_done s = size) as Heq by lia. split; [done|]. split; [done|].
      exists size. rewrite Heq in *. split; [lia|]. split; [done|]. left. split; [|done].
      unfold s64. rewrite Z.mod_small by lia. lia. }
  destruct (turn_words (lp_done s) Hrq ltac:(lia)) as (-> & -> & Hw).
  pose proof (turn_zero s Hrq Hinv Hlt) as Hz. cbv zeta in Hz.
  destruct (decide (Z.min (size - lp_done s) xfer / bs * bs = 0)) as [|_]; [done|].
  specialize (Hpd Hlt).
  destruct (turn_geometry (lp_done s) Hrq ltac:(lia) Hbd Hpd Hz)
    as (Hc & Hcx & _ & _ & _ & _ & Hnp & _). rewrite Hw by lia.
  rewrite (decide_False (P := cdiv _ ps = 0)) by lia.
  destruct (take_slot_total (ctrl_timeout (hs_ctrl hs)) (lp_st s) Hr)
    as ([a|] & st1 & -> & _ & _ & Ht1 & Htk).
  2:{ destruct Htk as [Hr1 Hs1]. eapply run_post_eio; [done|by etrans|done|by rewrite Ht1]. }
  destruct Htk as (q & Hrq' & Hsq & Htk). rewrite Hp, Hl.
  destruct (turn_submit (lp_done s) a st1 q Hrq ltac:(lia) Hbd Hpd Hz)
    as (st2 & ev & Esub & Hr2 & Hs2 & Hm2 & _); [done|by etrans|done|by rewrite Ht1|].
  unfold chunk_of in Esub, Hm2. rewrite Esub.
  destruct (finish_turn st2 Hr2 Hs2) as (r & st3 & -> & Hr3 & Hs3 & Ht3 & st4 & Ec & Hr4 & Hs4 & Ht4).
  destruct r as [cpl|]; [|eapply run_post_eio; [done|done| |by rewrite Ht3]; lia].
  rewrite Ec. destruct (decide (cpl_status cpl <> 0)).
  { eapply run_post_eio; [done|done| |by rewrite Ht4]. lia. }
  apply turn_next; try done || lia. by rewrite Ht4.
Qed.

(** The state in which [do_io] enters the loop. *)
Lemma loop_inv_start (st : io_st E) :
  request_ok -> sq_ready sq0 -> io_sq st = sq0 -> io_trace st = tr0 ->
  loop_inv (mk_loop 0 (file_offset / bs) (Z.of_nat page0) st).
Proof.
  intros [[Hps _ _ _ _ _ _] _ _ _ Hsz _ _ _ _ _] Hr Hsq Htr. apply is_pow2_pos in Hps.
  constructor; simpl; rewrite ?Hsq; try done || lia.
  - by apply Z.divide_0_r.
  - intros _. by apply Z.divide_0_r.
  - by rewrite Z.add_0_r.
  - unfold cdiv. rewrite Z.div_small by lia. lia.
  - exists []. by rewrite app_nil_r.
Qed.

(** The whole loop, from the state in which [do_io] enters it. *)
Lemma io_run_spec (st : io_st E) :
  request_ok -> sq_ready sq0 -> io_sq st = sq0 -> io_trace st = tr0 ->
  run_post (io_run hs prp_dma ioaddrs opcode size (file_offset / bs) (Z.of_nat page0) st).
Proof.
  intros Hrq Hr Hsq Htr. unfold io_run. rewrite iter_until_fuel.
  pose proof Hrq as [[Hps _ Hbs _ _ _ _] _ _ _ Hsz [c Hc] _ _ _ _].
  apply is_pow2_pos in Hps, Hbs.
  set (s0 := mk_loop 0 (file_offset / bs) (Z.of_nat page0) st).
  assert (loop_inv s0) as Hinv by (by apply loop_inv_start).
  set (n := Pos.to_nat (Z.to_pos (size / bs + 1))).
  pose proof (iter_fuel_inv (io_turn hs prp_dma ioaddrs opcode size xfer) loop_inv run_post n s0 Hinv)
    as Hres.
  destruct (iter_fuel_total (io_turn hs prp_dma ioaddrs opcode size xfer) loop_inv
    (fun s => Z.to_nat ((size - lp_done s) / bs)) n s0 Hinv) as [r Er].
  - simpl. subst n. rewrite Z.sub_0_r, Hc, Z.div_mul by lia. nia.
  - intros s s' Hs Es. pose proof (io_turn_spec s Hrq Hs) as Ht. rewrite Es in Ht.
    destruct Ht as [Hs' Hle]. split; [done|]. destruct Hs as [_ _ Hd [x Hx] _ _ _ _ _].
    destruct Hs' as [_ _ Hd' [y Hy] _ _ _ _ _]. rewrite Hx, Hy, Hc in *.
    rewrite <- !Z.mul_sub_distr_r, !Z.div_mul by lia. nia.
  - rewrite Er in *. apply Hres. intros s Hs. pose proof (io_turn_spec s Hrq Hs) as Ht.
    destruct (io_turn _ _ _ _ _ _ s) as [s'|r']; [by destruct Ht|done].
Qed.
End run.

(** ** do_io *)

(** What [do_io] relies on of [nvm_dma_map_device] and [nvm_dma_unmap] (nvm_dma.h): a mapping
    covers the bytes asked for, a failed call maps nothing, and a mapping can be released.
    [dma_owns ds w] says that the mappings of the process are those at [ds], [dma_ctrl] which
    controllers it has, and [dma_room] that there is memory for one more mapping. *)
Class DmaLaws (W : Type) `{DmaOps W} := {
  dma_ctrl : nvm_ctrl_t -> Prop;
  dma_owns : list Z -> W -> Prop;
  dma_room : W -> Prop;
  dma_map_law ctrl ptr size ds w :
    dma_ctrl ctrl -> dma_owns ds w -> dma_room w -> 0 < size < 2 ^ 63 ->
    wp (dma_map_device ctrl ptr size) (fun r w' =>
      (fst r <> 0 \/ snd r = None) /\ dma_owns ds w' \/
      exists p d, r = (0, Some (p, d)) /\ dma_owns (p :: ds) w' /\ dma_ok d /\
        cdiv size (ctrl_page_size ctrl) <= dma_n_ioaddrs d) w;
  dma_unmap_law p ds w : dma_owns (p :: ds) w -> wp (dma_unmap p) (fun _ w' => dma_owns ds w') w;
}.

Section do_io_spec.
Context {E : Type} `{Device E} {W : Type} `{DmaOps W}.

Abbreviation page_size w := (ctrl_page_size (hs_ctrl (w_hs w))).
Abbreviation block_size w := (hs_block_size (w_hs w)).

Definition qp_ok (ps : Z) (qp : IOQueuePair nvm_dma_t) : Prop :=
  sq_ready (qp_sq qp) /\ prp_page_ok ps (qp_prp_dma qp).

(** A handle as [uGDSHandleRegister] leaves it and every call keeps it. *)
Record world_ok (w : io_world E W) : Prop := {
  wo_geom : geometry_ok (w_hs w);
  wo_num : 0 < hs_num_qps (w_hs w) < 2 ^ 16;
  wo_len : Z.of_nat (length (hs_qps (w_hs w))) = hs_num_qps (w_hs w);
  wo_qps : Forall (qp_ok (page_size w)) (hs_qps (w_hs w));
  wo_rr : 0 <= hs_rr_counter (w_hs w);
}.

(** The queue pair of this call. *)
Definition cur_qp (w : io_world E W) : option (IOQueuePair nvm_dma_t) :=
  hs_qps (w_hs w) !! Z.to_nat (hs_rr_counter (w_hs w) mod hs_num_qps (w_hs w)).

(** [n] bytes of the request were asked of the controller and the result is [r]. *)
Definition io_post (w : io_world E W) (ioaddrs : list Z) (page0 : Z)
    (opcode size file_offset r : Z) (w' : io_world E W) : Prop :=
  exists qp n, cur_qp w = Some qp /\ 0 <= n <= size /\
    moved (w_hs w) (qp_prp_dma qp) ioaddrs opcode file_offset (Z.to_nat page0) (qp_sq qp)
      (w_trace w) n (w_trace w') /\
    (r = size /\ n = size \/ r = - EIO \/
     r = - EINVAL /\ n = 0 /\ max_xfer (w_hs w) (page_size w) < block_size w).

(** Which members of a handle a transfer changes: the queues and the round robin counter. *)
Definition same_qp {D} (qp qp' : IOQueuePair D) : Prop :=
  exists sq cq, qp' = mk_qp sq cq (qp_sq_dma qp) (qp_cq_dma qp) (qp_prp_dma qp)
                        (qp_sq_buf qp) (qp_cq_buf qp) (qp_prp_buf qp).

Definition same_handle (w w' : io_world E W) : Prop :=
  w_registry w' = w_registry w /\ exists qps rr, w_hs w' = hs_set_qps (w_hs w) qps rr /\
    Forall2 same_qp (hs_qps (w_hs w)) qps.

Lemma same_handle_refl w : same_handle w w.
Proof.
  split; [done|]. exists (hs_qps (w_hs w)), (hs_rr_counter (w_hs w)). split; [by destruct (w_hs w)|].
  induction (hs_qps (w_hs w)) as [|[] qps IH]; constructor; [by eexists _, _|done].
Qed.

(** The queue pair the round robin selects, and the transfer on it. *)
Lemma with_qp_eq (w : io_world E W) ioaddrs opcode size start_lba page0 :
  world_ok w ->
  exists qp, cur_qp w = Some qp /\ qp_ok (page_size w) qp /\
    with_qp ioaddrs opcode size start_lba page0 w =
      match io_run (w_hs w) (qp_prp_dma qp) ioaddrs opcode size start_lba page0
              (mk_io (qp_sq qp) (qp_cq qp) (w_sqmem w) (w_prp w) (w_dev w) (w_trace w)) with
      | None => None
      | Some (result, st) =>
          Some (result, mk_world
            (hs_set_qps (w_hs w)
               (<[Z.to_nat (hs_rr_counter (w_hs w) mod hs_num_qps (w_hs w)) :=
                  mk_qp (io_sq st) (io_cq st) (qp_sq_dma qp) (qp_cq_dma qp) (qp_prp_dma qp)
                    (qp_sq_buf qp) (qp_cq_buf qp) (qp_prp_buf qp)]> (hs_qps (w_hs w)))
               (u32 (hs_rr_counter (w_hs w) + 1)))
            (w_registry w) (io_sqmem st) (io_prp st) (io_dev st) (io_trace st) (w_dma w))
      end.
Proof.
  intros [_ Hnum Hlen Hqps Hrr]. unfold cur_qp, with_qp.
  set (idx := hs_rr_counter (w_hs w) mod hs_num_qps (w_hs w)).
  pose proof (Z.mod_pos_bound (hs_rr_counter (w_hs w)) (hs_num_qps (w_hs w))) as Hidx.
  fold idx in Hidx. destruct (zlookup_is_Some (hs_qps (w_hs w)) idx) as [qp Hqp]; [lia|].
  pose proof Hqp as Hqp'. unfold zlookup in Hqp'. rewrite decide_True in Hqp' by lia.
  exists qp. split; [done|]. split; [by apply (Forall_lookup_1 _ _ _ _ Hqps Hqp')|].
  rewrite decide_False by lia. rewrite (wrap_small 16 idx) by (unfold fits; lia). by rewrite Hqp.
Qed.

Lemma with_qp_spec (w : io_world E W) ioaddrs opcode size file_offset page0 :
  world_ok w -> Forall (fits 64) ioaddrs -> fits 7 opcode -> 0 < size < 2 ^ 63 ->
  (block_size w | size) -> 0 <= file_offset < 2 ^ 63 -> (block_size w | file_offset) ->
  0 <= page0 -> page0 + cdiv size (page_size w) <= Z.of_nat (length ioaddrs) < 2 ^ 64 ->
  exists r w', with_qp ioaddrs opcode size (file_offset / block_size w) page0 w = Some (r, w') /\
    io_post w ioaddrs page0 opcode size file_offset r w' /\ world_ok w' /\ w_dma w' = w_dma w /\
    same_handle w w'.
Proof.
  intros Hw Hf Hop Hsz Hsb Hfo Hfb Hp0 Hpages.
  destruct (with_qp_eq w ioaddrs opcode size (file_offset / block_size w) page0 Hw) as (qp & Hqp & [Hready Hprp] & ->).
  destruct Hw as [Hg Hnum Hlen Hqps Hrr]. set (st := mk_io _ _ _ _ _ _).
  assert (request_ok (w_hs w) (qp_prp_dma qp) ioaddrs opcode size file_offset (Z.to_nat page0))
    as Hrq by (constructor; try done || lia).
  pose proof (io_run_spec (w_hs w) (qp_prp_dma qp) ioaddrs opcode size file_offset
    (Z.to_nat page0) (qp_sq qp) (w_trace w) st Hrq Hready eq_refl eq_refl) as Hpost.
  rewrite Z2Nat.id in Hpost by done. unfold run_post in Hpost.
  destruct (io_run _ _ _ _ _ _ _ st) as [[r st']|]; [|done].
  destruct Hpost as (Hr' & Hs' & n & Hn & Hm & Hres).
  eexists _, _. split; [done|]. split; [by exists qp, n|]. split; [|split; [done|]].
  - constructor; simpl; try done || lia.
    + destruct Hg. by constructor.
    + by rewrite length_insert.
    + by apply Forall_insert.
    + apply wrap_range. lia.
  - split; [done|]. simpl. eexists _, _. split; [done|].
    destruct (same_handle_refl w) as (_ & qps & rr & E' & Hsame).
    assert (qps = hs_qps (w_hs w)) as -> by (by rewrite E').
    rewrite <- (list_insert_id _ _ _ Hqp) at 1. apply Forall2_insert; [done|by eexists _, _].
Qed.

(** The checks of [do_io] on its arguments. *)
Lemma bad_args_false fh buf size fo bo (w : io_world E W) :
  geometry_ok (w_hs w) ->
  bad_args fh buf size fo bo (w_hs w) = false <->
  fh <> NULL /\ buf <> NULL /\ size <> 0 /\ 0 <= fo /\ 0 <= bo /\
  fo mod block_size w = 0 /\ size mod block_size w = 0.
Proof.
  intros [_ Hr Hb _ _ _ _]. apply is_pow2_pos in Hb. unfold bad_args.
  rewrite !orb_false_iff, !bool_decide_eq_false.
  destruct (decide (fo mod block_size w = 0)), (decide (size mod block_size w = 0)); split; try lia.
Qed.

(** A request that passes them goes to a queue pair. *)
Lemma do_io_with_qp (w : io_world E W) fh buf size fo bo opcode d :
  geometry_ok (w_hs w) -> w_registry w !! buf = Some d -> dma_ok d ->
  bad_args fh buf size fo bo (w_hs w) = false -> 0 <= size < 2 ^ 63 -> bo < 2 ^ 63 ->
  bo mod page_size w = 0 -> bo / page_size w + cdiv size (page_size w) <= dma_n_ioaddrs d ->
  do_io fh buf size fo bo opcode w =
    with_qp (dma_ioaddrs d) opcode size (fo / block_size w) (bo / page_size w) w.
Proof.
  intros Hg Hreg (Hlen & Hd64 & Hf) Hargs Hsz Hbo Hbp Hpages. pose proof Hg as [_ Hpr _ _ _ _ _].
  pose proof (proj1 (bad_args_false fh buf size fo bo w Hg) Hargs) as (_ & _ & Hs0 & _ & Hbo0 & _).
  unfold do_io. rewrite Hargs, Hreg. rewrite (decide_False (P := bo mod _ <> 0)) by lia.
  assert (u64 (u64 (size + page_size w) - 1) / page_size w = cdiv size (page_size w)) as ->.
  { rewrite (wrap_small _ (size + _)), wrap_small by (unfold fits; lia). done. }
  assert (0 <= bo / page_size w) by (apply Z.div_pos; lia).
  pose proof (cdiv_pos size (page_size w)).
  rewrite (wrap_small 64 (bo / page_size w + cdiv size (page_size w))) by (unfold fits; lia).
  by rewrite decide_False by lia.
Qed.

Lemma registered_run (w : io_world E W) fh buf size fo bo opcode d :
  world_ok w -> w_registry w !! buf = Some d -> dma_ok d -> fits 7 opcode ->
  bad_args fh buf size fo bo (w_hs w) = false -> 0 <= size < 2 ^ 63 -> fo < 2 ^ 63 -> bo < 2 ^ 63 ->
  bo mod page_size w = 0 -> bo / page_size w + cdiv size (page_size w) <= dma_n_ioaddrs d ->
  exists r w', do_io fh buf size fo bo opcode w = Some (r, w') /\
    io_post w (dma_ioaddrs d) (bo / page_size w) opcode size fo r w' /\ world_ok w' /\
    w_dma w' = w_dma w /\ same_handle w w'.
Proof.
  intros Hw Hreg Hd Hop Hargs Hsz Hfo Hbo Hbp Hpages.
  pose proof Hw as [Hg _ _ _ _]. pose proof Hg as [_ Hpr Hb _ _ _ _]. apply is_pow2_pos in Hb as Hb0.
  pose proof (proj1 (bad_args_false fh buf size fo bo w Hg) Hargs)
    as (Hfh & Hbuf & Hs0 & Hfo0 & Hbo0 & Hfm & Hsm).
  rewrite (do_io_with_qp w fh buf size fo bo opcode d) by done. destruct Hd as (Hlen & Hd64 & Hf).
  assert (0 <= bo / page_size w) by (apply Z.div_pos; lia).
  apply with_qp_spec; try done || lia. all: apply Z.mod_divide; lia.
Qed.

(** C1: a read or write on a registered buffer, with any controller whatsoever: [do_io] returns,
    without undefined behaviour, and the commands it rang the doorbell for move, in order and
    nothing else, the first [n] bytes of the request between the namespace from [file_offset] on
    and the buffer pages from [bufPtr_offset] on; [n] is the whole request when it returns
    [size].  Otherwise it returns [-EIO], or [-EINVAL] when a block is larger than a transfer.
    The handle stays well formed. *)
Theorem do_io_registered (w : io_world E W) fh buf size fo bo opcode d :
  world_ok w -> w_registry w !! buf = Some d -> dma_ok d -> fits 7 opcode ->
  bad_args fh buf size fo bo (w_hs w) = false -> 0 <= size < 2 ^ 63 -> fo < 2 ^ 63 -> bo < 2 ^ 63 ->
  bo mod page_size w = 0 -> bo / page_size w + cdiv size (page_size w) <= dma_n_ioaddrs d ->
  exists r w', do_io fh buf size fo bo opcode w = Some (r, w') /\
    io_post w (dma_ioaddrs d) (bo / page_size w) opcode size fo r w' /\ world_ok w'.
Proof.
  intros Hw Hreg Hd Hop Hargs Hsz Hfo Hbo Hbp Hpages.
  destruct (registered_run w fh buf size fo bo opcode d) as (r & w' & Hrun & Hp & Hw' & _); [done..|].
  by exists r, w'.
Qed.

Lemma too_short_refused (w : io_world E W) fh buf size fo bo opcode d :
  geometry_ok (w_hs w) -> w_registry w !! buf = Some d ->
  0 < size < 2 ^ 63 -> 0 <= bo < 2 ^ 63 -> bo mod page_size w = 0 ->
  dma_n_ioaddrs d < bo / page_size w + cdiv size (page_size w) ->
  do_io fh buf size fo bo opcode w = Some (- EINVAL, w).
Proof.
  intros Hg Hreg Hsz Hbo Hbp Hshort. pose proof Hg as [_ Hpr _ _ _ _ _]. unfold do_io.
  destruct (bad_args _ _ _ _ _ _); [done|]. rewrite Hreg, decide_False by lia.
  assert (u64 (u64 (size + page_size w) - 1) / page_size w = cdiv size (page_size w)) as ->.
  { rewrite (wrap_small _ (size + _)), wrap_small by (unfold fits; lia). done. }
  assert (0 <= bo / page_size w <= bo).
  { split; [apply Z.div_pos; lia|]. apply Z.div_le_upper_bound; nia. }
  assert (1 <= cdiv size (page_size w) <= size).
  { split; [apply cdiv_pos; lia|]. apply cdiv_le; nia. }
  rewrite wrap_small by (unfold fits; lia). rewrite decide_True; [done|]. lia.
Qed.

(** The requests that [do_io] refuses with [-EINVAL] before touching anything: a null handle
    or buffer, no bytes, a negative offset, an offset or size that is not a whole number of
    blocks, a buffer offset inside a page or a registered buffer too short for the request. *)
Theorem do_io_refuses (w : io_world E W) fh buf size fo bo opcode d :
  geometry_ok (w_hs w) -> w_registry w !! buf = Some d -> dma_n_ioaddrs d < 2 ^ 64 ->
  0 <= size < 2 ^ 63 -> bo < 2 ^ 63 ->
  fh = NULL \/ buf = NULL \/ size = 0 \/ fo < 0 \/ bo < 0 \/ fo mod block_size w <> 0 \/
  size mod block_size w <> 0 \/ bo mod page_size w <> 0 \/
  dma_n_ioaddrs d < bo / page_size w + cdiv size (page_size w) ->
  do_io fh buf size fo bo opcode w = Some (- EINVAL, w).
Proof.
  intros Hg Hreg Hd64 Hsz Hbo Hcase.
  destruct (bad_args fh buf size fo bo (w_hs w)) eqn:Hargs; [by unfold do_io; rewrite Hargs|].
  pose proof (proj1 (bad_args_false fh buf size fo bo w Hg) Hargs)
    as (Hfh & Hbuf & Hs0 & Hfo0 & Hbo0 & Hfm & Hsm).
  destruct (decide (bo mod page_size w = 0)) as [Hbp|Hbp].
  - apply too_short_refused with d; try done || lia.
  - unfold do_io. by rewrite Hargs, Hreg, decide_True.
Qed.
End do_io_spec.

Section unregistered.
Context {E : Type} `{Device E} {W : Type} `{DmaLaws W}.

Lemma unregistered_run (w : io_world E W) fh buf size fo bo opcode ds :
  world_ok w -> w_registry w !! buf = None -> fits 7 opcode ->
  bad_args fh buf size fo bo (w_hs w) = false -> 0 <= size < 2 ^ 63 -> fo < 2 ^ 63 ->
  dma_ctrl (hs_ctrl (w_hs w)) -> dma_owns ds (w_dma w) -> dma_room (w_dma w) ->
  exists r w', do_io fh buf size fo bo opcode w = Some (r, w') /\
    dma_owns ds (w_dma w') /\ world_ok w' /\ same_handle w w' /\
    (r = - EIO /\ w_trace w' = w_trace w \/
     exists p d dw, dma_map_device (hs_ctrl (w_hs w)) (u64 (buf + bo)) size (w_dma w) = Some ((0, Some (p, d)), dw) /\
       io_post w (dma_ioaddrs d) 0 opcode size fo r w').
Proof.
  intros Hw Hreg Hop Hargs Hsz Hfo Hctrl Hds Hroom.
  pose proof Hw as [Hg _ _ _ _]. pose proof Hg as [_ Hpr Hb _ _ _ _]. apply is_pow2_pos in Hb as Hb0.
  pose proof (proj1 (bad_args_false fh buf size fo bo w Hg) Hargs)
    as (Hfh & Hbuf & Hs0 & Hfo0 & Hbo0 & Hfm & Hsm).
  unfold do_io. rewrite Hargs, Hreg.
  pose proof (dma_map_law _ (u64 (buf + bo)) size ds _ Hctrl Hds Hroom ltac:(lia)) as Hmap. unfold wp in Hmap.
  destruct (dma_map_device _ _ size (w_dma w)) as [[[rc o] dw]|] eqn:Em; [|done].
  assert (world_ok (w_set_dma w dw)) as Hw1 by (by destruct Hw; constructor).
  destruct Hmap as [[Hf Hds']|(p & d & [= -> ->] & Hds' & (Hlen & Hd64 & Hfit) & Hcov)].
  { destruct o as [[p d]|]; [rewrite decide_True by (by destruct Hf)|];
      (eexists _, _; split; [done|]; split; [done|]; split; [done|]; split; [apply (same_handle_refl w)|by left]). }
  rewrite decide_False by tauto.
  destruct (with_qp_spec (w_set_dma w dw) (dma_ioaddrs d) opcode size fo 0)
    as (r & w' & E' & Hp & Hw' & Hdma & Hsame); try done || (simpl; lia).
  1,2: apply Z.mod_divide; simpl; lia.
  simpl in E'. rewrite E', Hdma. simpl.
  pose proof (dma_unmap_law p ds dw Hds') as Hun. unfold wp in Hun.
  destruct (dma_unmap p dw) as [[[] dw']|]; [|done]. eexists _, _. split; [done|]. split; [done|].
  split; [by destruct Hw'; constructor|]. split; [done|]. right. by exists p, d, dw.
Qed.

(** On a buffer that is not registered, [do_io] maps it for the call: it returns, releases
    the mapping on every path (the mappings of the process are what they were), and either rings
    no doorbell and returns [-EIO] because the mapping failed, or behaves as on a registered
    buffer whose first page holds the byte at [bufPtr_base + bufPtr_offset]. *)
Theorem do_io_unregistered (w : io_world E W) fh buf size fo bo opcode ds :
  world_ok w -> w_registry w !! buf = None -> fits 7 opcode ->
  bad_args fh buf size fo bo (w_hs w) = false -> 0 <= size < 2 ^ 63 -> fo < 2 ^ 63 ->
  dma_ctrl (hs_ctrl (w_hs w)) -> dma_owns ds (w_dma w) -> dma_room (w_dma w) ->
  exists r w', do_io fh buf size fo bo opcode w = Some (r, w') /\
    dma_owns ds (w_dma w') /\ world_ok w' /\
    (r = - EIO /\ w_trace w' = w_trace w \/
     exists p d dw, dma_map_device (hs_ctrl (w_hs w)) (u64 (buf + bo)) size (w_dma w) = Some ((0, Some (p, d)), dw) /\
       io_post w (dma_ioaddrs d) 0 opcode size fo r w').
Proof.
  intros Hw Hreg Hop Hargs Hsz Hfo Hctrl Hds Hroom.
  destruct (unregistered_run w fh buf size fo bo opcode ds) as (r & w' & Hrun & Hds' & Hw' & _ & Hp); [done..|].
  by exists r, w'.
Qed.

(** Every request returns, and keeps the handle and the mappings of the process. *)
Lemma do_io_total (w : io_world E W) fh buf size fo bo opcode ds :
  world_ok w -> (forall d, w_registry w !! buf = Some d -> dma_ok d) -> fits 7 opcode ->
  0 <= size < 2 ^ 63 -> fo < 2 ^ 63 -> bo < 2 ^ 63 ->
  dma_ctrl (hs_ctrl (w_hs w)) -> dma_owns ds (w_dma w) -> dma_room (w_dma w) ->
  exists r w', do_io fh buf size fo bo opcode w = Some (r, w') /\
    dma_owns ds (w_dma w') /\ world_ok w' /\ same_handle w w'.
Proof.
  intros Hw Hd Hop Hsz Hfo Hbo Hctrl Hds Hroom.
  assert (do_io fh buf size fo bo opcode w = Some (- EINVAL, w) -> exists r w',
    do_io fh buf size fo bo opcode w = Some (r, w') /\
    dma_owns ds (w_dma w') /\ world_ok w' /\ same_handle w w') as Hrefused.
  { intros Hrun. exists (- EINVAL), w. split; [done|]. split; [done|]. split; [done|]. apply same_handle_refl. }
  destruct (bad_args fh buf size fo bo (w_hs w)) eqn:Hargs.
  { apply Hrefused. unfold do_io. by rewrite Hargs. }
  destruct (w_registry w !! buf) as [d|] eqn:Hreg.
  2:{ destruct (unregistered_run w fh buf size fo bo opcode ds) as (r & w' & Hrun & Hds' & Hw' & Hs & _);
        [done..|]. by exists r, w'. }
  destruct (decide (bo mod ctrl_page_size (hs_ctrl (w_hs w)) = 0)) as [Hbp|Hbp].
  2:{ apply Hrefused. unfold do_io. rewrite Hargs, Hreg. by rewrite decide_True. }
  destruct (decide (bo / ctrl_page_size (hs_ctrl (w_hs w)) + cdiv size (ctrl_page_size (hs_ctrl (w_hs w)))
    <= dma_n_ioaddrs d)) as [Hfit|Hfit].
  - destruct (registered_run w fh buf size fo bo opcode d) as (r & w' & Hrun & _ & Hw' & Hdma & Hs); [by auto..|].
    exists r, w'. by rewrite Hdma.
  - pose proof (proj1 (bad_args_false fh buf size fo bo w (wo_geom w Hw)) Hargs).
    apply Hrefused, too_short_refused with d; try done || lia. apply Hw.
Qed.
End unregistered.
