(* ===== verification/UgdsIoCases.v ===== *)
(** * Concrete runs of the I/O path

    Two small controllers and a one-pair handle on which [do_io] is executed: instances for the
    theorems of UgdsIoSpec, and two runs in which the code does not do what it should. *)
From S2P Require Import Prelude NvmTypes NvmUtil NvmQueue NvmCmd UgdsTypes NvmDevice UgdsIo UgdsIoSpec.
From stdpp Require Import prelude gmap functions list.
From Stdlib Require Import ZArith Lia.
Local Open Scope Z_scope.

(** A controller with one completion queue: the entries it has posted, oldest first, and the
    number of submission doorbells it has seen. *)
Record sim_dev := mk_sim { sim_posted : list nvm_cpl_t; sim_bells : nat }.

Definition sim_cq_base : Z := 0x20000.
Definition sim_depth : Z := 64.

(** Entry [i] of the ring is the last one posted there, if any. *)
Definition sim_cpl (e : sim_dev) (a : Z) : nvm_cpl_t :=
  let i := (a - sim_cq_base) / sizeof_cpl in
  default cpl_zero (last (filter (fun c => NVM_CPL_SQHD c = i) (sim_posted e))).

(** The next completion, for the command [cid]: the slot in SQHD, the phase of the pass. *)
Definition sim_next (e : sim_dev) (cid : Z) : nvm_cpl_t :=
  let n := Z.of_nat (length (sim_posted e)) in
  let phase := if decide ((n / sim_depth) mod 2 = 0) then 1 else 0 in
  mk_cpl [0; 0; n mod sim_depth; phase * 2 ^ 16 + cid].

Definition sim_bell (late : bool) (tail : Z) (sqmem : Z -> nvm_cmd_t) (e : sim_dev) : sim_dev :=
  let n := sim_bells e in
  let cid := NVM_CMD_CID (sqmem (0x10000 + sizeof_cmd * ((tail - 1) mod sim_depth))) in
  if late then
    (* the completion of a command arrives when the next one is submitted *)
    if decide (n = 0%nat) then mk_sim (sim_posted e) 1
    else mk_sim (sim_posted e ++ [sim_next e (NVM_CMD_CID (sqmem 0x10000))]) (S n)
  else mk_sim (sim_posted e ++ [sim_next e cid]) (S n).

(** A controller that completes every command at once, and one that is late by one command. *)
Definition prompt_dev : Device sim_dev :=
  {| dev_cpl := sim_cpl; dev_tick := id;
     dev_sq_doorbell _ tail sqmem _ := sim_bell false tail sqmem;
     dev_cq_doorbell _ _ := id |}.
Definition late_dev : Device sim_dev :=
  {| dev_cpl := sim_cpl; dev_tick := id;
     dev_sq_doorbell _ tail sqmem _ := sim_bell true tail sqmem;
     dev_cq_doorbell _ _ := id |}.

(** Mapping GPU memory: the state is the list of live mappings; page [i] of a mapping is at
    1 MiB + [i] pages. *)
#[local] Instance sim_dma_ops : DmaOps (list Z) :=
  {| dma_map_device ctrl ptr size ds :=
       let np := cdiv size (ctrl_page_size ctrl) in
       let p := 1 + Z.of_nat (length ds) in
       if decide (0 < np < 2 ^ 16) then
         Some ((0, Some (p, mk_dma ptr false false (ctrl_page_size ctrl) np
                              ((fun i => 0x100000 + i * 4096) <$> seqZ 0 np))), p :: ds)
       else Some ((ENOMEM, None), ds);
     dma_unmap p ds := match ds with
                       | d :: ds => if decide (d = p) then Some (tt, ds) else None
                       | [] => None
                       end |}.

#[local] Instance sim_dma_laws : DmaLaws (list Z).
Proof.
  refine {| dma_ctrl _ := True; dma_owns ds w := w = ds; dma_room _ := True |}; unfold wp; simpl.
  - intros ctrl ptr size ds w _ -> _ Hs. destruct (decide _) as [Hn|Hn]; [right|left; by split; [left|]].
    eexists _, _. split; [done|]. split; [done|]. unfold dma_ok. simpl. rewrite length_fmap, length_seqZ.
    split; [|lia]. split; [lia|]. split; [lia|]. apply Forall_fmap, Forall_forall.
    intros i Hi%elem_of_seqZ. unfold fits. simpl. lia.
  - intros p ds w ->. by rewrite decide_True.
Defined.

(** A handle with one queue pair of 64 entries on 4 KiB pages and 512-byte blocks, a time-out of
    [t] ms, and a registered buffer of [n] pages at 0x500000. *)
Definition sim_ctrl (t : Z) : nvm_ctrl_t := mk_ctrl 4096 0 t 1024 0x2000 0x7f000000.
Definition no_queue : nvm_queue_t := mk_queue 0 0 0 0 0 0 0 0 0 0 false 0 0 0 0.
Definition sim_sq : nvm_queue_t :=
  snd (nvm_queue_clear no_queue (sim_ctrl 0) false 1 sim_depth true 0x10000 0x10000).
Definition sim_cq : nvm_queue_t :=
  snd (nvm_queue_clear no_queue (sim_ctrl 0) true 1 sim_depth true sim_cq_base sim_cq_base).
Definition sim_qp : IOQueuePair nvm_dma_t :=
  mk_qp sim_sq sim_cq None None (Some (mk_dma 0x30000 true true 4096 1 [0x30000])) 0 0 0x30000.
Definition sim_ctrl_info : nvm_ctrl_info :=
  mk_ctrl_info 0x10300 4096 0 5000 1 1024 [] [] [] [] 131072 32 64 64 64 1.
Definition sim_ns_info : nvm_ns_info := mk_ns_info 1 1024 1024 1024 512 0.
Definition sim_hs (t : Z) : HandleState nvm_ctrl_t nvm_dma_t :=
  mk_hs 3 (sim_ctrl t) 1 None 0 sim_ctrl_info sim_ns_info 1 512 131072 32 1 [sim_qp] 0.
Definition sim_buf (n : Z) : nvm_dma_t :=
  mk_dma 0x500000 false true 4096 n ((fun i => 0x800000 + i * 8192) <$> seqZ 0 n).
Definition sim_world (t n : Z) : io_world sim_dev (list Z) :=
  mk_world (sim_hs t) {[ 0x500000 := sim_buf n ]} (fun _ => cmd_zero) (fun _ => 0)
    (mk_sim [] 0) [] [].

Lemma sim_geometry_ok t : geometry_ok (sim_hs t).
Proof.
  constructor; simpl; try lia; try (by exists 12) || (by exists 9); try (right; by exists 17).
  - unfold fits. lia.
  - by vm_compute.
Qed.

Lemma sim_world_ok t n : world_ok (sim_world t n).
Proof.
  constructor; simpl; try lia; [apply sim_geometry_ok|].
  constructor; [|constructor]. split.
  - constructor; try done; [|by exists 1024].
    apply (queue_clear_wf no_queue (sim_ctrl 0) false 1 sim_depth true 0x10000 0x10000). done.
  - by eexists _, _, [].
Qed.

Lemma sim_buf_ok n : 0 <= n < 2 ^ 16 -> dma_ok (sim_buf n).
Proof.
  intros Hn. unfold dma_ok. simpl. rewrite length_fmap, length_seqZ.
  split; [lia|]. split; [lia|]. apply Forall_fmap, Forall_forall.
  intros i Hi%elem_of_seqZ. unfold fits. simpl. lia.
Qed.

(** A read of 200 KiB at byte 4096 of the namespace into a registered buffer. *)
Lemma do_io_registered_witness :
  exists r w', @do_io _ prompt_dev _ _ 1 0x500000 204800 4096 8192 2 (sim_world 500 64) = Some (r, w') /\
    io_post (sim_world 500 64) (dma_ioaddrs (sim_buf 64)) 2 2 204800 4096 r w' /\ world_ok w'.
Proof.
  apply (@do_io_registered _ prompt_dev _ _ (sim_world 500 64) 1 0x500000 204800 4096 8192 2
    (sim_buf 64)); try done.
  - apply sim_world_ok.
  - by apply sim_buf_ok.
Defined.

(** The same request on a buffer of 51 pages. *)
Lemma do_io_refuses_witness :
  @do_io _ prompt_dev _ _ 1 0x500000 204800 4096 8192 2 (sim_world 500 51) =
    Some (- EINVAL, sim_world 500 51).
Proof.
  apply (@do_io_refuses _ prompt_dev _ _ (sim_world 500 51) 1 0x500000 204800 4096 8192 2 (sim_buf 51));
    try done.
  - apply sim_geometry_ok.
  - vm_compute. intuition.
Defined.

(** The same request on a buffer that has to be mapped. *)
Lemma do_io_unregistered_witness :
  exists r w', @do_io _ prompt_dev _ _ 1 0x600000 204800 4096 8192 2 (sim_world 500 64) = Some (r, w') /\
    dma_owns [] (w_dma w') /\ world_ok w' /\
    (r = - EIO /\ w_trace w' = [] \/
     exists p d dw, dma_map_device (sim_ctrl 500) (u64 (0x600000 + 8192)) 204800 [] = Some ((0, Some (p, d)), dw) /\
       io_post (sim_world 500 64) (dma_ioaddrs d) 0 2 204800 4096 r w').
Proof.
  apply (@do_io_unregistered _ prompt_dev _ _ _ (sim_world 500 64) 1 0x600000 204800 4096 8192 2 []);
    try done.
  apply sim_world_ok.
Defined.

(** On the prompt controller the read succeeds with two commands. *)
Example prompt_read :
  match @uGDSRead _ prompt_dev _ _ 1 0x500000 204800 4096 8192 (sim_world 500 64) with
  | Some (r, w) =>
      r = 204800 /\
      (fun ev => let c := event_cmd sim_sq ev in (cmd_slba c, cmd_nlb c, cmd_prp1 c)) <$> w_trace w =
        [(8, 256, 0x804000); (264, 144, 0x844000)]
  | None => False
  end.
Proof. by vm_compute. Qed.

(** The length check of a registered buffer wraps around: a read of 2^64 - 512 bytes into a
    buffer of one page passes [total_pages_needed > n_ioaddrs] (the sum wraps to 0 pages) and the
    first command already reads past the end of the [ioaddrs] array. *)
Theorem do_io_size_wraps :
  @uGDSRead _ prompt_dev _ _ 1 0x500000 (2 ^ 64 - 512) 4096 0 (sim_world 500 1) = None.
Proof. by vm_compute. Qed.

