(* ===== verification/UgdsLive.v ===== *)
(** * Transfers complete

    A controller that answers every command it accepts within the time-out, and the proof that
    [do_io] then moves the whole request: no spin limit, full queue or stale completion makes it
    give up, and afterwards the queues are ready for the next transfer. *)
From S2P Require Import Prelude NvmTypes NvmUtil NvmQueue NvmCmd UgdsTypes NvmDevice UgdsIo UgdsIoSpec UgdsIoCases.
From stdpp Require Import prelude gmap functions list.
From Stdlib Require Import ZArith Lia.
Local Open Scope Z_scope.

(** ** The controller

    What the NVM Express specification has a controller do for a host that has at most one
    command outstanding on each queue pair.  [sv_idle qps e] says that in the state [e] every
    submitted command has been answered and every answer consumed, for the queue pairs [qps];
    [sv_accepts] are the commands it executes without an error.  After the doorbell of such a
    command the next completion entry becomes valid within [sv_delay] turns of the host, reports
    success, and once the host has moved the completion doorbell the controller is idle again. *)
Class Serving (E : Type) `{Device E} := {
  sv_accepts : nvm_cmd_t -> Prop;
  sv_delay : nat;
  sv_idle : list (nvm_queue_t * nvm_queue_t) -> E -> Prop;
  sv_answers qps i sq cq ev e :
    sv_idle qps e -> qps !! i = Some (sq, cq) ->
    ev_db ev = q_db sq -> ev_tail ev = ring_next (q_qs sq) (q_tail sq) -> sv_accepts (event_cmd sq ev) ->
    let later k := Nat.iter k dev_tick (dev_sq_doorbell (ev_db ev) (ev_tail ev) (ev_sqmem ev) (ev_prp ev) e) in
    exists k c cq1, (k <= sv_delay)%nat /\ cpl_status c = 0 /\
      (forall j, (j < k)%nat -> nvm_cq_dequeue (dev_cpl (later j)) cq = (None, cq)) /\
      nvm_cq_dequeue (dev_cpl (later k)) cq = (Some c, cq1) /\
      forall sq' head cq', sq_static sq sq' -> q_tail sq' = ev_tail ev ->
        nvm_cq_update cq1 = (Some head, cq') ->
        sv_idle (<[i := (sq', cq')]> qps) (dev_cq_doorbell (q_db cq') head (later k));
}.

(** The host's side of an idle queue pair: nothing is outstanding and the doorbell says so. *)
Definition pair_idle (p : nvm_queue_t * nvm_queue_t) : Prop :=
  q_head p.1 = q_tail p.1 /\ queue_wf p.2 /\ q_db p.2 <> NULL /\ q_last p.2 = q_head p.2.

Section live.
Context {E : Type} `{Serving E}.

Lemma iter_dev_tick n (e : E) : Nat.iter n dev_tick (dev_tick e) = Nat.iter (S n) dev_tick e.
Proof. induction n as [|n IH]; simpl; [done|]. by rewrite IH. Qed.

(** A completion that arrives in time ends the poll. *)
Lemma poll_arrives mx fuel spins (st : io_st E) k c cq1 :
  (forall j, (j < k)%nat ->
     nvm_cq_dequeue (dev_cpl (Nat.iter j dev_tick (io_dev st))) (io_cq st) = (None, io_cq st)) ->
  nvm_cq_dequeue (dev_cpl (Nat.iter k dev_tick (io_dev st))) (io_cq st) = (Some c, cq1) ->
  0 <= spins -> spins + Z.of_nat k <= mx -> mx < 2 ^ 64 - 1 -> (k < fuel)%nat ->
  iter_fuel fuel (poll_turn mx) (spins, st) =
    inr (Some c, mk_io (io_sq st) cq1 (io_sqmem st) (io_prp st) (Nat.iter k dev_tick (io_dev st)) (io_trace st)).
Proof.
  revert fuel spins st. induction k as [|k IH]; intros [|fuel] spins st Hnone Hsome Hs Hle Hmx Hf; try lia;
    cbn [iter_fuel]; unfold poll_turn at 1.
  - simpl in Hsome. by rewrite Hsome.
  - pose proof (Hnone 0%nat ltac:(lia)) as E0. simpl in E0. rewrite E0. rewrite wrap_small by (unfold fits; lia).
    rewrite decide_False by lia. cbn [io_sq io_cq io_sqmem io_prp io_dev io_trace].
    rewrite IH; cbn [io_sq io_cq io_sqmem io_prp io_dev io_trace]; rewrite ?iter_dev_tick; try done || lia.
    intros j Hj. rewrite iter_dev_tick. apply Hnone. lia.
Qed.

Lemma busy_poll_arrives timeout (st : io_st E) k c cq1 :
  (forall j, (j < k)%nat ->
     nvm_cq_dequeue (dev_cpl (Nat.iter j dev_tick (io_dev st))) (io_cq st) = (None, io_cq st)) ->
  nvm_cq_dequeue (dev_cpl (Nat.iter k dev_tick (io_dev st))) (io_cq st) = (Some c, cq1) ->
  Z.of_nat k <= u64 (timeout * 1000000) ->
  busy_poll timeout st = Some (Some c,
    mk_io (io_sq st) cq1 (io_sqmem st) (io_prp st) (Nat.iter k dev_tick (io_dev st)) (io_trace st)).
Proof.
  intros Hnone Hsome Hk. pose proof (spins_bound timeout). unfold busy_poll. rewrite iter_until_fuel.
  by erewrite poll_arrives by (done || lia).
Qed.

(** A queue with nothing in it gives a slot at once. *)
Lemma take_slot_idle timeout (st : io_st E) :
  sq_ready (io_sq st) -> q_head (io_sq st) = q_tail (io_sq st) ->
  exists a sq, take_slot timeout st =
      Some (Some a, mk_io sq (io_cq st) (io_sqmem st) (io_prp st) (io_dev st) (io_trace st)) /\
    sq_taken (io_sq st) sq a.
Proof.
  intros Hr Hh. pose proof (sr_wf _ Hr) as Hwf. pose proof Hwf as [].
  destruct (nvm_sq_enqueue (io_sq st)) as [[a|] sq] eqn:Eq.
  - exists a, sq. split; [|by apply sq_enqueue_taken]. unfold take_slot. rewrite iter_until_fuel.
    destruct (Pos.to_nat _) as [|n] eqn:En; [lia|]. cbn [iter_fuel]. unfold slot_turn at 1. by rewrite Eq.
  - pose proof (SqFifo.sq_enqueue_None (io_sq st) Hwf (sr_div _ Hr)) as [Hn _]. rewrite Eq in Hn.
    specialize (Hn eq_refl). unfold sq_count in Hn. rewrite Hh, Z.sub_diag, Z.mod_0_l in Hn by lia. lia.
Qed.

(** Moving both queues past the completion of the only command. *)
Lemma consume_idle (st : io_st E) cq :
  queue_wf cq -> q_db cq <> NULL -> q_last cq = q_head cq -> sq_ready (io_sq st) ->
  q_tail (io_sq st) = ring_next (q_qs (io_sq st)) (q_head (io_sq st)) ->
  (exists load c, nvm_cq_dequeue load cq = (Some c, io_cq st)) ->
  exists head cq', nvm_cq_update (io_cq st) = (Some head, cq') /\
    consume st = Some (tt, mk_io (nvm_sq_update (io_sq st)) cq' (io_sqmem st) (io_prp st)
                             (dev_cq_doorbell (q_db cq') head (io_dev st)) (io_trace st)) /\
    pair_idle (nvm_sq_update (io_sq st), cq') /\ q_tail (nvm_sq_update (io_sq st)) = q_tail (io_sq st).
Proof.
  intros Hwf Hdb Hl Hr Ht (load & c & Ed).
  destruct (CqFifo.cq_dequeue_Some load cq c (io_cq st) Hwf Ed) as (Hwf' & Hh & Hq & _ & _ & Hdb' & Hl' & _).
  pose proof Hwf as []. pose proof Hwf' as []. pose proof (ring_next_ne (q_qs cq) (q_head cq)).
  unfold consume, nvm_cq_update. rewrite decide_True by (rewrite Hdb', Hl', Hh, Hl; split; [lia|done]).
  eexists _, _. split; [done|]. split; [done|]. destruct Hr as [[] _ Hsdb _].
  unfold pair_idle, nvm_sq_update. rewrite decide_True by done. simpl.
  rewrite ring_next_wrap by done. rewrite <- Ht, Hdb'. split; [|done].
  split; [done|]. split; [by constructor|]. done.
Qed.

(** ** The transfer loop *)

Section run.
Context (hs : HandleState nvm_ctrl_t nvm_dma_t) (prp_dma : option nvm_dma_t) (ioaddrs : list Z) (opcode size : Z)
  (file_offset : Z) (page0 : nat) (sq0 : nvm_queue_t) (tr0 : list io_event)
  (qps : list (nvm_queue_t * nvm_queue_t)) (i : nat).

Abbreviation ps := (ctrl_page_size (hs_ctrl hs)).
Abbreviation bs := (hs_block_size hs).
Abbreviation xfer := (max_xfer hs ps).

(** The commands a request is made of: those of its operation on its namespace, inside its
    byte range. *)
Definition in_request (c : nvm_cmd_t) : Prop :=
  cmd_ok c /\ cmd_opcode c = opcode /\ cmd_nsid c = hs_ns_id hs /\
  file_offset <= cmd_slba c * bs /\ (cmd_slba c + cmd_nlb c) * bs <= file_offset + size.

Record live_ok : Prop := {
  lo_request : request_ok hs prp_dma ioaddrs opcode size file_offset page0;
  lo_accepts : forall c, in_request c -> sv_accepts c;
  lo_delay : Z.of_nat sv_delay <= u64 (ctrl_timeout (hs_ctrl hs) * 1000000);
  lo_block : bs <= xfer;
  lo_pair : (i < length qps)%nat;
}.

(** Between two turns the controller is idle. *)
Definition at_rest (st : io_st E) : Prop :=
  pair_idle (io_sq st, io_cq st) /\ sv_idle (<[i := (io_sq st, io_cq st)]> qps) (io_dev st).

Definition live_inv (s : io_loop E) : Prop :=
  loop_inv hs prp_dma ioaddrs opcode size file_offset page0 sq0 tr0 s /\ at_rest (lp_st s).

(** The answer to a submitted command. *)
Lemma answered (st st' : io_st E) q ev :
  live_ok -> at_rest st -> q = io_sq st -> sq_ready (io_sq st') -> sq_static q (io_sq st') ->
  rang q st ev st' -> ev_db ev = q_db q -> sv_accepts (event_cmd q ev) ->
  exists c st2 st3, busy_poll (ctrl_timeout (hs_ctrl hs)) st' = Some (Some c, st2) /\
    consume st2 = Some (tt, st3) /\ cpl_status c = 0 /\ at_rest st3.
Proof.
  intros Hlo [(Hh & Hwf & Hdb & Hl) Hidle] -> Hr Hs Hrg Hevdb Hacc. cbn [fst snd] in Hh, Hwf, Hdb, Hl.
  destruct (sv_answers _ i (io_sq st) (io_cq st) ev _ Hidle) as (k & c & cq1 & Hk & Hc & Hnone & Hsome & Hnext);
    [|done|apply Hrg|done|].
  { apply list_lookup_insert_eq, Hlo. }
  rewrite <- (rg_dev _ _ _ _ Hrg), <- (rg_cq _ _ _ _ Hrg) in *.
  pose proof (lo_delay Hlo).
  pose proof (busy_poll_arrives (ctrl_timeout (hs_ctrl hs)) st' k c cq1 Hnone Hsome ltac:(lia)) as Ep.
  set (st2 := mk_io (io_sq st') cq1 _ _ _ _) in Ep.
  destruct (consume_idle st2 (io_cq st')) as (head & cq' & Eu & Ec & Hp & Ht'); try done.
  { simpl. rewrite (rg_tail _ _ _ _ Hrg), (rg_head _ _ _ _ Hrg), Hh. by destruct Hs as (-> & _). }
  { by eexists _, _. }
  eexists c, st2, _. split; [done|]. split; [exact Ec|]. split; [done|]. split; [done|].
  cbn [io_sq io_cq io_dev]. specialize (Hnext (nvm_sq_update (io_sq st')) head cq').
  rewrite list_insert_insert_eq in Hnext. cbn [io_sq st2] in Ht'. apply Hnext; [|by destruct Hrg; congruence|done].
  etrans; [done|]. by apply sq_update_ready.
Qed.

Lemma event_cmd_static q q' ev : sq_static q q' -> event_cmd q' ev = event_cmd q ev.
Proof.
  intros Hs. unfold event_cmd. rewrite (sq_static_slot q q') by done. by destruct Hs as (-> & _).
Qed.

Lemma turn_live s :
  live_ok -> live_inv s -> lp_done s < size ->
  exists s', io_turn hs prp_dma ioaddrs opcode size xfer s = inl s' /\ live_inv s' /\ lp_done s + bs <= lp_done s'.
Proof.
  intros Hlo [Hinv Hrest] Hlt. pose proof (lo_request Hlo) as Hrq. pose proof (lo_block Hlo) as Hbx.
  pose proof Hinv as [Hr Hs Hd Hbd Hpd Hl Hp Hm _]. specialize (Hpd Hlt).
  unfold io_turn. rewrite decide_True by done.
  destruct (turn_words hs prp_dma ioaddrs opcode size file_offset page0 (lp_done s) Hrq ltac:(lia)) as (-> & -> & Hw).
  destruct (turn_geometry hs prp_dma ioaddrs opcode size file_offset page0 (lp_done s) Hrq ltac:(lia) Hbd Hpd Hbx)
    as (Hc & Hcx & _ & _ & _ & _ & Hnp & _).
  rewrite (decide_False (P := _ * _ = 0)) by lia. rewrite Hw by lia.
  rewrite (decide_False (P := cdiv _ ps = 0)) by lia.
  destruct (take_slot_idle (ctrl_timeout (hs_ctrl hs)) (lp_st s) Hr) as (a & sq & -> & Htk); [apply Hrest|].
  rewrite Hp, Hl.
  set (st1 := mk_io sq _ _ _ _ _).
  destruct (turn_submit hs prp_dma ioaddrs opcode size file_offset page0 sq0 tr0 (lp_done s) a st1 (io_sq (lp_st s))
    Hrq ltac:(lia) Hbd Hpd Hbx) as (st2 & ev & Esub & Hr2 & Hs2 & Hm2 & Hrg & (Hev & Hsl & Hnl & _)); [done..|].
  unfold chunk_of in Esub, Hm2, Hnl. rewrite Esub.
  assert (sq_static (io_sq (lp_st s)) (io_sq st2)) as Hst.
  { destruct Hs as (? & ? & ? & ?), Hs2 as (? & ? & ? & ?). unfold sq_static. split_and!; congruence. }
  destruct (answered (lp_st s) st2 (io_sq (lp_st s)) ev Hlo Hrest eq_refl Hr2 Hst) as (c & st3 & st4 & Ep & Ec & Hok & Hrest4).
  { by destruct Hrg. }
  { destruct Hev as (-> & _). by destruct Hs as (_ & _ & _ & ->). }
  { rewrite (event_cmd_static sq0) by done. apply (lo_accepts Hlo). destruct Hev as (_ & ? & ? & ? & _).
    split_and!; try done; lia. }
  destruct (finish_turn hs sq0 st2 Hr2 Hs2) as (r & st3' & Ep' & _ & _ & _ & st4' & Ec' & Hr4 & Hs4 & Ht4).
  simplify_eq. rewrite Ep, Ec. rewrite decide_False by tauto. eexists. split; [done|].
  destruct (turn_next hs prp_dma ioaddrs opcode size file_offset page0 sq0 tr0 (lp_done s) st4 Hrq ltac:(lia) Hbd Hpd Hbx)
    as [Hinv' Hle]; [done|done|by rewrite Ht4|]. done.
Qed.

Lemma run_live (st : io_st E) :
  live_ok -> sq_ready sq0 -> io_sq st = sq0 -> io_trace st = tr0 -> at_rest st ->
  exists st', io_run hs prp_dma ioaddrs opcode size (file_offset / bs) (Z.of_nat page0) st = Some (size, st') /\
    at_rest st'.
Proof.
  intros Hlo Hr Hsq Htr Hrest. pose proof (lo_request Hlo) as Hrq.
  pose proof Hrq as [[_ _ Hbs _ _ _ _] _ _ _ Hsz [c Hc] _ _ _ _]. apply is_pow2_pos in Hbs.
  set (s0 := mk_loop 0 (file_offset / bs) (Z.of_nat page0) st).
  assert (live_inv s0) as Hinv by (split; [by apply loop_inv_start|done]).
  set (Q := fun r : option (Z * io_st E) => exists st', r = Some (size, st') /\ at_rest st').
  assert (forall s, live_inv s -> match io_turn hs prp_dma ioaddrs opcode size xfer s with
                                 | inl s' => live_inv s' /\ lp_done s + bs <= lp_done s'
                                 | inr r => Q r
                                 end) as Hturn.
  { intros s Hs. destruct (decide (lp_done s < size)) as [Hlt|Hge].
    - destruct (turn_live s Hlo Hs Hlt) as (s' & -> & ?). done.
    - unfold io_turn. rewrite decide_False by done. destruct Hs as [Hs Hat]. pose proof (li_done _ _ _ _ _ _ _ _ _ _ Hs).
      exists (lp_st s). split; [|done]. replace (lp_done s) with size by lia.
      unfold s64. rewrite Z.mod_small by lia. do 2 f_equal. lia. }
  unfold io_run. rewrite iter_until_fuel. fold s0.
  set (n := Pos.to_nat (Z.to_pos (size / bs + 1))).
  pose proof (iter_fuel_inv (io_turn hs prp_dma ioaddrs opcode size xfer) live_inv Q n s0 Hinv) as Hres.
  destruct (iter_fuel_total (io_turn hs prp_dma ioaddrs opcode size xfer) live_inv
    (fun s => Z.to_nat ((size - lp_done s) / bs)) n s0 Hinv) as [r Er].
  - simpl. subst n. rewrite Z.sub_0_r, Hc, Z.div_mul by lia. nia.
  - intros s s' Hs Es. specialize (Hturn s Hs). rewrite Es in Hturn. destruct Hturn as [Hs' Hle]. split; [done|].
    destruct Hs as [[_ _ Hd [x Hx] _ _ _ _ _] _], Hs' as [[_ _ Hd' [y Hy] _ _ _ _ _] _]. rewrite Hx, Hy, Hc in *.
    rewrite <- !Z.mul_sub_distr_r, !Z.div_mul by lia. nia.
  - rewrite Er in Hres |- *. apply Hres. intros s Hs. specialize (Hturn s Hs).
    destruct (io_turn _ _ _ _ _ _ s); [by destruct Hturn|done].
Qed.
End run.

(** ** do_io *)

Context {W : Type} `{DmaOps W}.

(** All queue pairs of a handle are idle, on both sides. *)
Definition qp_queues (qp : IOQueuePair nvm_dma_t) : nvm_queue_t * nvm_queue_t := (qp_sq qp, qp_cq qp).
Definition handle_idle (w : io_world E W) : Prop :=
  Forall pair_idle (qp_queues <$> hs_qps (w_hs w)) /\ sv_idle (qp_queues <$> hs_qps (w_hs w)) (w_dev w).

(** C7: with a controller that answers the commands it accepts within the time-out, a read or
    write on a registered buffer completes: [do_io] returns the whole size, having asked for
    exactly the bytes of the request, whatever their number, and leaves the handle well formed
    and idle, so that the next transfer completes as well. *)
Theorem do_io_completes (w : io_world E W) fh buf size fo bo opcode d :
  world_ok w -> handle_idle w -> w_registry w !! buf = Some d -> dma_ok d -> fits 7 opcode ->
  bad_args fh buf size fo bo (w_hs w) = false -> 0 <= size < 2 ^ 63 -> fo < 2 ^ 63 -> bo < 2 ^ 63 ->
  bo mod ctrl_page_size (hs_ctrl (w_hs w)) = 0 ->
  bo / ctrl_page_size (hs_ctrl (w_hs w)) + cdiv size (ctrl_page_size (hs_ctrl (w_hs w))) <= dma_n_ioaddrs d ->
  hs_block_size (w_hs w) <= max_xfer (w_hs w) (ctrl_page_size (hs_ctrl (w_hs w))) ->
  Z.of_nat sv_delay <= u64 (ctrl_timeout (hs_ctrl (w_hs w)) * 1000000) ->
  (forall c, in_request (w_hs w) opcode size fo c -> sv_accepts c) ->
  exists w', do_io fh buf size fo bo opcode w = Some (size, w') /\
    io_post w (dma_ioaddrs d) (bo / ctrl_page_size (hs_ctrl (w_hs w))) opcode size fo size w' /\
    world_ok w' /\ handle_idle w'.
Proof.
  intros Hw [Hpi Hsi] Hreg Hd Hop Hargs Hsz Hfo Hbo Hbp Hpages Hbx Hdel Hacc.
  destruct (registered_run w fh buf size fo bo opcode d) as (r & w' & Hrun & Hpost & Hw' & _); [done..|].
  pose proof Hrun as Hrun'. rewrite (do_io_with_qp w fh buf size fo bo opcode d) in Hrun' by (done || apply Hw).
  destruct (with_qp_eq w (dma_ioaddrs d) opcode size (fo / hs_block_size (w_hs w))
    (bo / ctrl_page_size (hs_ctrl (w_hs w))) Hw) as (qp & Hqp & [Hr Hprp] & Ew). rewrite Ew in Hrun'. clear Ew.
  unfold cur_qp in Hqp. set (i := Z.to_nat (_ mod _)) in Hqp, Hrun'.
  pose proof (wo_geom w Hw) as Hg. pose proof Hg as [_ Hpr Hb _ _ _ _]. apply is_pow2_pos in Hb.
  pose proof (proj1 (bad_args_false fh buf size fo bo w Hg) Hargs) as (_ & _ & Hs0 & Hfo0 & Hbo0 & Hfm & Hsm).
  assert (0 <= bo / ctrl_page_size (hs_ctrl (w_hs w))) by (apply Z.div_pos; lia).
  assert (request_ok (w_hs w) (qp_prp_dma qp) (dma_ioaddrs d) opcode size fo
    (Z.to_nat (bo / ctrl_page_size (hs_ctrl (w_hs w))))) as Hrq.
  { destruct Hd as (Hlen & Hd64 & Hf). constructor; try done || lia; apply Z.mod_divide; lia. }
  assert ((qp_queues <$> hs_qps (w_hs w)) !! i = Some (qp_queues qp)) as Hq by (by rewrite list_lookup_fmap, Hqp).
  destruct (run_live (w_hs w) (qp_prp_dma qp) (dma_ioaddrs d) opcode size fo
    (Z.to_nat (bo / ctrl_page_size (hs_ctrl (w_hs w)))) (qp_sq qp) (w_trace w) (qp_queues <$> hs_qps (w_hs w)) i
    (mk_io (qp_sq qp) (qp_cq qp) (w_sqmem w) (w_prp w) (w_dev w) (w_trace w))) as (st & Er & Hpi' & Hsi'); try done.
  { constructor; try done. by eapply lookup_lt_Some. }
  { split; [by eapply Forall_lookup_1 in Hq|]. cbn [io_sq io_cq io_dev]. by rewrite list_insert_id. }
  rewrite Z2Nat.id in Er by done. rewrite Er in Hrun'. injection Hrun' as <- <-.
  eexists. split; [exact Hrun|]. split; [done|]. split; [done|].
  unfold handle_idle. cbn [w_hs w_dev hs_qps hs_set_qps]. rewrite list_fmap_insert.
  split; [by apply Forall_insert|done].
Qed.
End live.

(** ** A controller that serves

    It posts the completion of a command [lag_turns] turns after the doorbell, at the entry of the
    completion queue that follows the last one the host consumed, and executes the commands that
    stay inside a namespace of 1024 blocks. *)
Record lag_dev := mk_lag {
  lag_mem : Z -> nvm_cpl_t;
  lag_cq : nvm_queue_t;
  lag_wait : option (nat * Z);           (* turns left, and the command *)
}.

Definition lag_turns : nat := 1000.

Definition lag_entry (cq : nvm_queue_t) (cid : Z) : nvm_cpl_t :=
  mk_cpl [0; 0; 0; (if CqFifo.queue_phase cq then 2 ^ 16 else 0) + cid].

Definition lag_tick (e : lag_dev) : lag_dev :=
  match lag_wait e with
  | Some (O, cid) =>
      mk_lag (<[CqFifo.slot_at (lag_cq e) 0 := lag_entry (lag_cq e) cid]> (lag_mem e)) (lag_cq e) None
  | Some (S n, cid) => mk_lag (lag_mem e) (lag_cq e) (Some (n, cid))
  | None => e
  end.

#[local] Instance lag_device : Device lag_dev :=
  {| dev_cpl := lag_mem; dev_tick := lag_tick;
     dev_sq_doorbell _ tail sqmem _ e :=
       mk_lag (lag_mem e) (lag_cq e)
         (Some (lag_turns, u16 (NVM_CMD_CID (sqmem (0x10000 + sizeof_cmd * ((tail - 1) mod sim_depth))))));
     dev_cq_doorbell _ _ e :=
       mk_lag (lag_mem e) (snd (nvm_cq_update (snd (nvm_cq_dequeue (lag_mem e) (lag_cq e))))) (lag_wait e) |}.

Lemma lag_entry_status cq cid : fits 16 cid -> cpl_status (lag_entry cq cid) = 0.
Proof.
  intros Hc. unfold cpl_status, lag_entry, cpl_get. simpl. unfold fits in Hc.
  replace (Z.shiftr _ 17) with 0; [done|]. rewrite Z.shiftr_div_pow2 by lia.
  symmetry. apply Z.div_small. destruct (CqFifo.queue_phase cq); lia.
Qed.

Lemma lag_entry_phase cq cid : fits 16 cid -> CqFifo.cpl_phase (lag_entry cq cid) = CqFifo.queue_phase cq.
Proof.
  intros Hc. unfold fits in Hc. unfold CqFifo.cpl_phase. rewrite nvm_cpl_status_val.
  2:{ split; [done|]. repeat constructor; unfold fits; simpl; destruct (CqFifo.queue_phase cq); lia. }
  unfold lag_entry, cpl_get. simpl nth. destruct (CqFifo.queue_phase cq); simpl.
  - replace ((2 ^ 16 + cid) / 2 ^ 16) with 1; [done|]. apply (Z.div_unique _ _ _ cid); lia.
  - by rewrite Z.div_small by lia.
Qed.

Lemma cq_rep_update q load posted r q' :
  CqFifo.cq_rep q load posted -> nvm_cq_update q = (r, q') -> CqFifo.cq_rep q' load posted.
Proof.
  intros (Hwf & Hrep). unfold nvm_cq_update. case_decide; intros [= <- <-]; [|done].
  split; [|done]. destruct Hwf. by constructor.
Qed.

(** The state [j] turns after the doorbell of the command [cid]. *)
Lemma lag_later e n cid j :
  lag_wait e = Some (n, cid) ->
  Nat.iter j lag_tick e =
    if decide (j <= n)%nat then mk_lag (lag_mem e) (lag_cq e) (Some ((n - j)%nat, cid))
    else mk_lag (<[CqFifo.slot_at (lag_cq e) 0 := lag_entry (lag_cq e) cid]> (lag_mem e)) (lag_cq e) None.
Proof.
  intros Hw. destruct e as [mem cq w]. simpl in *. subst w. induction j as [|j IH]; simpl Nat.iter.
  - rewrite decide_True by lia. by rewrite Nat.sub_0_r.
  - rewrite IH. destruct (decide (j <= n)%nat) as [Hj|Hj].
    + unfold lag_tick; simpl. destruct (n - j)%nat as [|m] eqn:Em.
      * by rewrite decide_False by lia.
      * rewrite decide_True by lia. do 3 f_equal. lia.
    + by rewrite decide_False by lia.
Qed.

#[local] Instance lag_serving : Serving lag_dev.
Proof.
  refine {| sv_accepts c := cmd_slba c + cmd_nlb c <= 1024; sv_delay := S lag_turns;
            sv_idle qps e := lag_wait e = None /\ (exists sq, qps = [(sq, lag_cq e)]) /\
                             CqFifo.cq_rep (lag_cq e) (lag_mem e) [] |}.
  intros qps i sq cq ev e (Hw & (sq1 & ->) & Hrep) Hi _ _ _ later.
  destruct i as [|i]; [|by destruct i]. injection Hi as <- <-.
  set (e1 := dev_sq_doorbell _ _ _ _ _) in later.
  set (cid := u16 (NVM_CMD_CID (ev_sqmem ev (0x10000 + sizeof_cmd * ((ev_tail ev - 1) mod sim_depth))))).
  assert (lag_wait e1 = Some (lag_turns, cid)) as Hw1 by done.
  assert (fits 16 cid) as Hcid by (apply wrap_fits; lia).
  pose proof Hrep as (Hwf & _ & _ & _).
  assert (CqFifo.cq_rep (lag_cq e) (lag_mem (later (S lag_turns))) ([] ++ [lag_entry (lag_cq e) cid])) as Hpost.
  { unfold later. change (@dev_tick _ lag_device) with lag_tick. rewrite (lag_later e1 _ _ _ Hw1).
    rewrite decide_False by lia. apply CqFifo.cq_rep_post; [done|destruct Hwf; simpl; lia|].
    simpl. rewrite lag_entry_phase, CqFifo.new_phase_0; done. }
  destruct (CqFifo.cq_rep_cons _ _ _ _ Hpost) as (cq1 & Ed & Hrep1 & _).
  exists (S lag_turns), (lag_entry (lag_cq e) cid), cq1. split; [lia|]. split; [by apply lag_entry_status|]. split.
  { intros j Hj. unfold later. change (@dev_tick _ lag_device) with lag_tick. rewrite (lag_later e1 _ _ _ Hw1).
    rewrite decide_True by lia. by apply CqFifo.cq_rep_nil. }
  split; [exact Ed|]. intros sq' head cq' _ _ Eu.
  assert (lag_cq (dev_cq_doorbell (q_db cq') head (later (S lag_turns))) = cq') as Ecq.
  { unfold later in Ed |- *. change (@dev_tick _ lag_device) with lag_tick in *. revert Ed.
    rewrite (lag_later e1 _ _ _ Hw1), decide_False by lia. simpl. intros Ed. rewrite Ed. simpl. by rewrite Eu. }
  rewrite Ecq. split; [|split; [by exists sq'|]].
  - unfold later. change (@dev_tick _ lag_device) with lag_tick. rewrite (lag_later e1 _ _ _ Hw1). by rewrite decide_False by lia.
  - change (lag_mem (dev_cq_doorbell (q_db cq') head (later (S lag_turns)))) with (lag_mem (later (S lag_turns))).
    by apply (cq_rep_update cq1 _ _ (Some head)).
Defined.

#[local] Existing Instance sim_dma_ops.

(** The handle and buffer of UgdsIoCases.v with this controller: a read of 200 KiB at byte 4096,
    in two commands, each answered after a thousand turns. *)
Definition lag_world : io_world lag_dev (list Z) :=
  mk_world (sim_hs 500) {[ 0x500000 := sim_buf 64 ]} (fun _ => cmd_zero) (fun _ => 0)
    (mk_lag (fun _ => cpl_zero) sim_cq None) [] [].

Lemma lag_world_idle : handle_idle lag_world.
Proof.
  assert (queue_wf sim_cq) as Hwf
    by (by apply (queue_clear_wf no_queue (sim_ctrl 0) true 1 sim_depth true sim_cq_base sim_cq_base)).
  split; [by repeat constructor; try apply Hwf|].
  split; [done|]. split; [by exists sim_sq|]. split; [done|]. split; [done|]. split; [done|].
  intros i Hi. unfold CqFifo.new_phase. rewrite decide_True by (simpl in *; lia). by vm_compute.
Qed.

Lemma do_io_completes_witness :
  exists w', do_io 1 0x500000 204800 4096 8192 2 lag_world = Some (204800, w') /\
    io_post lag_world (dma_ioaddrs (sim_buf 64)) 2 2 204800 4096 204800 w' /\ world_ok w' /\ handle_idle w'.
Proof.
  apply (do_io_completes lag_world 1 0x500000 204800 4096 8192 2 (sim_buf 64)); try done.
  - destruct (sim_world_ok 500 64). by constructor.
  - apply lag_world_idle.
  - by apply sim_buf_ok.
  - intros c (_ & _ & _ & _ & Hc). simpl in *. lia.
Defined.
