(* ===== verification/UgdsThreads.v ===== *)
(** * Transfers of several threads (src/ugds_io.cpp)

    [do_io] called by several threads on one handle.  The calls share the registry of the driver
    (read under its lock), the round robin counter (an atomic), the queue pairs (each under its
    own lock), the memory the controller reads and the controller.  A step of a thread is what
    lies between two points at which it reads or writes what others can see; steps of different
    threads interleave in any order. *)
From S2P Require Import Prelude NvmTypes NvmUtil NvmQueue NvmCmd UgdsTypes NvmDevice UgdsIo UgdsIoSpec.
From stdpp Require Import prelude gmap functions list.
From Stdlib Require Import ZArith Lia.
Local Open Scope Z_scope.

(** ** The loop under the lock of a queue pair *)

(** [bytes_done], [current_lba] and [current_page]. *)
Record vars := mk_tv { tv_done : Z; tv_lba : Z; tv_page : Z }.

(** Where a thread is, and its other live variables. *)
Inductive cs :=
  | CTop (v : vars)                              (* [while (bytes_done < size)] *)
  | CSlot (v : vars)                             (* [nvm_sq_enqueue] *)
  | CDrain (v : vars) (_spins : Z)               (* polling because the queue is full *)
  | CDrained (v : vars) (drain : nvm_cpl_t)
  | CBuild (v : vars) (cmd : Z)                  (* the command and the PRP list *)
  | CRing (v : vars)                             (* [nvm_sq_submit] *)
  | CWait (v : vars) (_spins : Z)                (* polling for the completion *)
  | CDone (v : vars) (cpl : nvm_cpl_t)
  | CExit (result : Z).                          (* [out:] *)

Section critical.
Context {E : Type} `{Device E}.
Context (hs : HandleState nvm_ctrl_t nvm_dma_t) (qp_prp : option nvm_dma_t) (opcode size : Z).

Definition chunk_limit : Z := max_xfer hs (ctrl_page_size (hs_ctrl hs)).

(** [chunk_size], [n_blocks] and [n_pages] of a turn. *)
Definition chunk_size (v : vars) : Z :=
  u64 (Z.min (u64 (size - tv_done v)) chunk_limit / hs_block_size hs * hs_block_size hs).
Definition n_blocks (v : vars) : Z := chunk_size v / hs_block_size hs.
Definition n_pages (v : vars) : Z :=
  let page_size := ctrl_page_size (hs_ctrl hs) in
  let n := u64 (u64 (chunk_size v + page_size) - 1) / page_size in
  if decide (n = 0) then 1 else n.

Definition poll_max : Z := u64 (ctrl_timeout (hs_ctrl hs) * 1000000).

(** One turn of a busy-poll. *)
Definition poll_step (again : Z -> cs) (got : nvm_cpl_t -> cs) (_spins : Z) (st : io_st E) : cs * io_st E :=
  match poll_turn poll_max (_spins, st) with
  | inl (_spins, st) => (again _spins, st)
  | inr (Some _cpl, st) => (got _cpl, st)
  | inr (None, st) => (CExit (- EIO), st)
  end.

(** A step; [buf] is what the pointer [buf_dma] leads to. *)
Definition cs_step (buf : option nvm_dma_t) (c : cs) (st : io_st E) : option (cs * io_st E) :=
  match c with
  | CTop v =>
      if decide (tv_done v < size) then
        if decide (chunk_size v = 0) then Some (CExit (- EINVAL), st) else Some (CSlot v, st)
      else Some (CExit (s64 (tv_done v)), st)
  | CSlot v =>
      match nvm_sq_enqueue (io_sq st) with
      | (Some cmd, sq) =>
          Some (CBuild v cmd, mk_io sq (io_cq st) (io_sqmem st) (io_prp st) (io_dev st) (io_trace st))
      | (None, _) => Some (CDrain v 0, st)
      end
  | CDrain v _spins => Some (poll_step (CDrain v) (CDrained v) _spins st)
  | CDrained v drain =>
      match consume st with
      | None => None
      | Some (_, st) => Some (if decide (cpl_status drain <> 0) then CExit (- EIO) else CSlot v, st)
      end
  | CBuild v cmd =>
      match buf with
      | None => None
      | Some buf_dma =>
          match build_chunk hs qp_prp (dma_ioaddrs buf_dma) opcode cmd (tv_page v) (n_pages v) (tv_lba v)
                  (n_blocks v) st with
          | None => None
          | Some (_, st) => Some (CRing v, st)
          end
      end
  | CRing v =>
      match ring_doorbell st with None => None | Some (_, st) => Some (CWait v 0, st) end
  | CWait v _spins => Some (poll_step (CWait v) (CDone v) _spins st)
  | CDone v cpl =>
      match consume st with
      | None => None
      | Some (_, st) =>
          Some (if decide (cpl_status cpl <> 0) then CExit (- EIO)
                else CTop (mk_tv (u64 (tv_done v + chunk_size v)) (u64 (tv_lba v + n_blocks v))
                             (u64 (tv_page v + n_pages v))), st)
      end
  | CExit _ => None
  end.
End critical.

(** ** Threads *)

(** The arguments of a call. *)
Record io_request := mk_req {
  req_fh : Z;
  req_buf : Z;
  req_size : Z;
  req_file_offset : Z;
  req_buf_offset : Z;
  req_opcode : Z;
}.

(** Where a thread is in [do_io]. *)
Inductive pc :=
  | PStart                                       (* the checks, and the look-up in the registry *)
  | PCheck (buf_dma : Z)                         (* the checks on a registered buffer *)
  | PMap                                         (* in [nvm_dma_map_device] *)
  | PPick (buf_dma : Z) (on_the_fly : bool) (buf_page_start : Z)       (* [rr_counter.fetch_add(1)] *)
  | PLock (buf_dma : Z) (on_the_fly : bool) (buf_page_start : Z) (qp_idx : nat)
  | PRun (buf_dma : Z) (on_the_fly : bool) (buf_page_start : Z) (qp_idx : nat) (c : cs)
  | PUnmap (buf_dma result : Z)                  (* [nvm_dma_unmap] *)
  | PReturned (result : Z).

(** What the threads share.  [ts_dmas] are the DMA descriptors that are allocated, [ts_locks] the
    owner of the lock of each queue pair that is held; the doorbells and mappings are recorded
    with the thread that caused them. *)
Record shared {E : Type} := mk_shared {
  ts_hs : HandleState nvm_ctrl_t nvm_dma_t;
  ts_registry : gmap Z Z;
  ts_dmas : gmap Z nvm_dma_t;
  ts_sqmem : Z -> nvm_cmd_t;
  ts_prp : Z -> Z;
  ts_dev : E;
  ts_locks : gmap nat nat;
  ts_trace : list (nat * io_event);
  ts_mapped : list (nat * nvm_dma_t);
}.
Arguments shared : clear implicits.
Arguments mk_shared {E}.

Inductive outcome (A : Type) := Next (a : A) | Blocked | Undefined.
Arguments Next {A}.
Arguments Blocked {A}.
Arguments Undefined {A}.

Section threads.
Context {E : Type} `{Device E}.

Definition sh_set_dmas (y : shared E) (reg : gmap Z Z) (dmas : gmap Z nvm_dma_t) (mapped : list (nat * nvm_dma_t))
    : shared E :=
  mk_shared (ts_hs y) reg dmas (ts_sqmem y) (ts_prp y) (ts_dev y) (ts_locks y) (ts_trace y) mapped.
Definition sh_set_locks (y : shared E) (l : gmap nat nat) : shared E :=
  mk_shared (ts_hs y) (ts_registry y) (ts_dmas y) (ts_sqmem y) (ts_prp y) (ts_dev y) l (ts_trace y) (ts_mapped y).
Definition sh_set_hs (y : shared E) (hs : HandleState nvm_ctrl_t nvm_dma_t) : shared E :=
  mk_shared hs (ts_registry y) (ts_dmas y) (ts_sqmem y) (ts_prp y) (ts_dev y) (ts_locks y) (ts_trace y) (ts_mapped y).

(** The state as the owner of a queue pair sees it, and its changes to it. *)
Definition qp_view (y : shared E) (qp : IOQueuePair nvm_dma_t) : io_st E :=
  mk_io (qp_sq qp) (qp_cq qp) (ts_sqmem y) (ts_prp y) (ts_dev y) [].
Definition qp_put (y : shared E) (t i : nat) (qp : IOQueuePair nvm_dma_t) (st : io_st E) : shared E :=
  let qp := mk_qp (io_sq st) (io_cq st) (qp_sq_dma qp) (qp_cq_dma qp) (qp_prp_dma qp)
              (qp_sq_buf qp) (qp_cq_buf qp) (qp_prp_buf qp) in
  mk_shared (hs_set_qps (ts_hs y) (<[i := qp]> (hs_qps (ts_hs y))) (hs_rr_counter (ts_hs y)))
    (ts_registry y) (ts_dmas y) (io_sqmem st) (io_prp st) (io_dev st) (ts_locks y)
    (ts_trace y ++ ((fun ev => (t, ev)) <$> io_trace st)) (ts_mapped y).

(** The first values of the variables of the loop. *)
Definition first_vars (hs : HandleState nvm_ctrl_t nvm_dma_t) (rq : io_request) (buf_page_start : Z) : vars :=
  mk_tv 0 (req_file_offset rq / hs_block_size hs) buf_page_start.

(** One step of the thread [t]. *)
Definition thread_step (t : nat) (rq : io_request) (p : pc) (y : shared E) : outcome (pc * shared E) :=
  let hs := ts_hs y in
  let page_size := ctrl_page_size (hs_ctrl hs) in
  match p with
  | PStart =>
      if bad_args (req_fh rq) (req_buf rq) (req_size rq) (req_file_offset rq) (req_buf_offset rq) hs
      then Next (PReturned (- EINVAL), y)
      else
        match ts_registry y !! req_buf rq with
        | Some buf_dma => Next (PCheck buf_dma, y)
        | None => Next (PMap, y)
        end
  | PCheck buf_dma =>
      if decide (req_buf_offset rq mod page_size <> 0) then Next (PReturned (- EINVAL), y)
      else
        match ts_dmas y !! buf_dma with
        | None => Undefined
        | Some d =>
            let buf_page_start := req_buf_offset rq / page_size in
            let total_pages_needed :=
              u64 (buf_page_start + u64 (u64 (req_size rq + page_size) - 1) / page_size) in
            if decide (total_pages_needed > dma_n_ioaddrs d) then Next (PReturned (- EINVAL), y)
            else Next (PPick buf_dma false buf_page_start, y)
        end
  | PMap => Blocked
  | PPick buf_dma on_the_fly buf_page_start =>
      let rr := hs_rr_counter hs in
      if decide (hs_num_qps hs = 0) then Undefined
      else
        let qp_idx := u16 (rr mod hs_num_qps hs) in
        Next (PLock buf_dma on_the_fly buf_page_start (Z.to_nat qp_idx),
              sh_set_hs y (hs_set_qps hs (hs_qps hs) (u32 (rr + 1))))
  | PLock buf_dma on_the_fly buf_page_start qp_idx =>
      match hs_qps hs !! qp_idx, ts_locks y !! qp_idx with
      | None, _ => Undefined
      | Some _, Some _ => Blocked
      | Some _, None =>
          Next (PRun buf_dma on_the_fly buf_page_start qp_idx (CTop (first_vars hs rq buf_page_start)),
                sh_set_locks y (<[qp_idx := t]> (ts_locks y)))
      end
  | PRun buf_dma on_the_fly _ qp_idx (CExit result) =>
      if decide (ts_locks y !! qp_idx = Some t) then
        Next (if (on_the_fly : bool) then PUnmap buf_dma result else PReturned result,
              sh_set_locks y (delete qp_idx (ts_locks y)))
      else Undefined
  | PRun buf_dma on_the_fly buf_page_start qp_idx c =>
      match hs_qps hs !! qp_idx with
      | None => Undefined
      | Some qp =>
          match cs_step hs (qp_prp_dma qp) (req_opcode rq) (req_size rq) (ts_dmas y !! buf_dma) c (qp_view y qp) with
          | None => Undefined
          | Some (c, st) => Next (PRun buf_dma on_the_fly buf_page_start qp_idx c, qp_put y t qp_idx qp st)
          end
      end
  | PUnmap buf_dma result =>
      match ts_dmas y !! buf_dma with
      | None => Undefined
      | Some _ => Next (PReturned result, sh_set_dmas y (ts_registry y) (delete buf_dma (ts_dmas y)) (ts_mapped y))
      end
  | PReturned _ => Blocked
  end.
End threads.

(** ** The process *)

Record thread := mk_thread { th_rq : io_request; th_pc : pc }.
Record tsys {E : Type} := mk_tsys { ts_sh : shared E; ts_threads : list thread }.
Arguments tsys : clear implicits.
Arguments mk_tsys {E}.

(** What happens next: a step of a thread, [nvm_dma_map_device] returning to a thread (with the
    descriptor, if it succeeds), or [uGDSBufDeregister] by someone else. *)
Inductive label :=
  | Run (t : nat)
  | Mapped (t : nat) (r : option (Z * nvm_dma_t))
  | Deregister (buf : Z).

(** The descriptor a thread is using, and whether it owns it. *)
Definition uses (p : pc) : option (Z * bool) :=
  match p with
  | PCheck a => Some (a, false)
  | PPick a fly _ | PLock a fly _ _ | PRun a fly _ _ _ => Some (a, fly)
  | PUnmap a _ => Some (a, true)
  | PStart | PMap | PReturned _ => None
  end.

Section system.
Context {E : Type} `{Device E}.

(** [nvm_dma_map_device] has returned to a thread. *)
Definition map_returns (t : nat) (r : option (Z * nvm_dma_t)) (s : shared E) : pc * shared E :=
  match r with
  | None => (PReturned (- EIO), s)
  | Some (a, d) => (PPick a true 0, sh_set_dmas s (ts_registry s) (<[a := d]> (ts_dmas s)) (ts_mapped s ++ [(t, d)]))
  end.

(** [uGDSBufDeregister], all under the driver's lock. *)
Definition deregister (buf : Z) (s : shared E) : outcome (shared E) :=
  match ts_registry s !! buf with
  | None => Next s                                   (* UGDS_MEMORY_NOT_REGISTERED *)
  | Some a =>
      match ts_dmas s !! a with
      | None => Undefined
      | Some _ => Next (sh_set_dmas s (delete buf (ts_registry s)) (delete a (ts_dmas s)) (ts_mapped s))
      end
  end.

Definition sys_step (l : label) (y : tsys E) : outcome (tsys E) :=
  let s := ts_sh y in
  let ths := ts_threads y in
  match l with
  | Run t =>
      match ths !! t with
      | None => Blocked
      | Some th =>
          match thread_step t (th_rq th) (th_pc th) s with
          | Next (p, s) => Next (mk_tsys s (<[t := mk_thread (th_rq th) p]> ths))
          | Blocked => Blocked
          | Undefined => Undefined
          end
      end
  | Mapped t r =>
      match ths !! t with
      | Some (mk_thread rq PMap) =>
          let '(p, s) := map_returns t r s in Next (mk_tsys s (<[t := mk_thread rq p]> ths))
      | _ => Blocked
      end
  | Deregister buf =>
      match deregister buf s with
      | Next s => Next (mk_tsys s ths)
      | Blocked => Blocked
      | Undefined => Undefined
      end
  end.

(** What is asked of the environment: a new mapping has its own descriptor and covers the
    buffer, and nobody deregisters a buffer while a transfer uses it. *)
Definition label_ok (l : label) (y : tsys E) : Prop :=
  match l with
  | Run _ | Mapped _ None => True
  | Mapped t (Some (a, d)) =>
      ts_dmas (ts_sh y) !! a = None /\ dma_ok d /\
      forall th, ts_threads y !! t = Some th ->
        cdiv (req_size (th_rq th)) (ctrl_page_size (hs_ctrl (ts_hs (ts_sh y)))) <= dma_n_ioaddrs d
  | Deregister buf =>
      forall t th a fly, ts_threads y !! t = Some th -> uses (th_pc th) = Some (a, fly) ->
        ts_registry (ts_sh y) !! buf <> Some a
  end.

Inductive treach (y0 : tsys E) : tsys E -> Prop :=
  | treach_start : treach y0 y0
  | treach_step l y y' : treach y0 y -> label_ok l y -> sys_step l y = Next y' -> treach y0 y'.
End system.
