(* ===== verification/UgdsThreadsInv.v ===== *)
(** * The loop of a transfer, step by step

    The invariant of the loop under the lock of a queue pair: no step is undefined, a step writes
    only the entries and the PRP list page of its own queue pair, and what others write elsewhere
    does not matter to it.  A rank that every step lowers bounds the number of steps. *)
From S2P Require Import Prelude NvmTypes NvmUtil NvmQueue NvmCmd UgdsTypes NvmDevice UgdsIo UgdsIoSpec UgdsThreads.
From stdpp Require Import prelude gmap functions list.
From Stdlib Require Import ZArith Lia.
Local Open Scope Z_scope.

(** The entries of a submission queue. *)
Definition in_queue (q : nvm_queue_t) (x : Z) : Prop := exists i, 0 <= i < q_qs q /\ x = SqFifo.slot q i.

(** A step does not depend on the queues and the round robin counter of the handle. *)
Section constant.
Context {E : Type} `{Device E}.
Context (hs : HandleState nvm_ctrl_t nvm_dma_t) (qps : list (IOQueuePair nvm_dma_t)) (rr : Z).
Abbreviation hs' := (hs_set_qps hs qps rr).

Lemma chunk_size_set size v : chunk_size hs' size v = chunk_size hs size v.
Proof. unfold chunk_size. reflexivity. Qed.

Lemma n_blocks_set size v : n_blocks hs' size v = n_blocks hs size v.
Proof. unfold n_blocks. by rewrite chunk_size_set. Qed.

Lemma n_pages_set size v : n_pages hs' size v = n_pages hs size v.
Proof. unfold n_pages. by rewrite chunk_size_set. Qed.

Lemma poll_step_set again got n (st : io_st E) : poll_step hs' again got n st = poll_step hs again got n st.
Proof. unfold poll_step. change (poll_max hs') with (poll_max hs). reflexivity. Qed.

Lemma build_chunk_set prp io op a cp np lba nb (st : io_st E) :
  build_chunk hs' prp io op a cp np lba nb st = build_chunk hs prp io op a cp np lba nb st.
Proof. unfold build_chunk. change (hs_ns_id hs') with (hs_ns_id hs). reflexivity. Qed.

Lemma cs_step_set prp op size buf c (st : io_st E) :
  cs_step hs' prp op size buf c st = cs_step hs prp op size buf c st.
Proof.
  destruct c as [v|v|v n|v c|v a|v|v n|v c|r], buf; cbn [cs_step];
    rewrite ?chunk_size_set, ?n_blocks_set, ?n_pages_set, ?poll_step_set, ?build_chunk_set; reflexivity.
Qed.
End constant.

(** A step appends to the trace and does not read it. *)
Definition add_trace {E} (tr : list io_event) (st : io_st E) : io_st E :=
  mk_io (io_sq st) (io_cq st) (io_sqmem st) (io_prp st) (io_dev st) (tr ++ io_trace st).

Section trace.
Context {E : Type} `{Device E}.

Lemma consume_trace tr (st : io_st E) :
  consume (add_trace tr st) = (fun r => (r.1, add_trace tr r.2)) <$> consume st.
Proof. unfold consume. simpl. by destruct (nvm_cq_update (io_cq st)) as [[h|] cq]. Qed.

Lemma poll_trace hs again got n tr (st : io_st E) :
  poll_step hs again got n (add_trace tr st) =
    ((poll_step hs again got n st).1, add_trace tr (poll_step hs again got n st).2).
Proof.
  unfold poll_step, poll_turn. simpl. destruct (nvm_cq_dequeue _ _) as [[c|] cq]; [done|]. by case_decide.
Qed.

Lemma ring_trace tr (st : io_st E) :
  ring_doorbell (add_trace tr st) = (fun r => (r.1, add_trace tr r.2)) <$> ring_doorbell st.
Proof.
  unfold ring_doorbell. simpl. destruct (nvm_sq_submit _) as [[t|] q]; simpl; [|done].
  unfold add_trace. simpl. by rewrite app_assoc.
Qed.

Lemma build_trace hs prp io op a cp np lba nb tr (st : io_st E) :
  build_chunk hs prp io op a cp np lba nb (add_trace tr st) =
    (fun r => (r.1, add_trace tr r.2)) <$> build_chunk hs prp io op a cp np lba nb st.
Proof. unfold build_chunk. simpl. by destruct (data_pointer _ _ _ _ _ _) as [[cmd p]|]. Qed.

Lemma cs_step_trace hs prp op size buf c tr (st : io_st E) :
  cs_step hs prp op size buf c (add_trace tr st) =
    (fun r => (r.1, add_trace tr r.2)) <$> cs_step hs prp op size buf c st.
Proof.
  destruct c as [v|v|v n|v c|v a|v|v n|v c|r]; cbn [cs_step].
  - by repeat case_decide.
  - by destruct (nvm_sq_enqueue _) as [[a|] q].
  - rewrite poll_trace. by destruct (poll_step _ _ _ _ st).
  - rewrite consume_trace. by destruct (consume st) as [[u st']|].
  - destruct buf as [d|]; [|done]. rewrite build_trace. by destruct (build_chunk _ _ _ _ _ _ _ _ _ st) as [[u st']|].
  - rewrite ring_trace. by destruct (ring_doorbell st) as [[u st']|].
  - rewrite poll_trace. by destruct (poll_step _ _ _ _ st).
  - rewrite consume_trace. by destruct (consume st) as [[u st']|].
  - done.
Qed.
End trace.

Section critical.
Context {E : Type} `{Device E}.
Context (hs : HandleState nvm_ctrl_t nvm_dma_t) (prp_dma : option nvm_dma_t) (buf : nvm_dma_t) (opcode size : Z)
  (file_offset : Z) (page0 : nat) (sq0 : nvm_queue_t).

Abbreviation ps := (ctrl_page_size (hs_ctrl hs)).
Abbreviation bs := (hs_block_size hs).
Abbreviation xfer := (max_xfer hs ps).
Abbreviation request := (request_ok hs prp_dma (dma_ioaddrs buf) opcode size file_offset page0).
Abbreviation moved := (moved hs prp_dma (dma_ioaddrs buf) opcode file_offset page0 sq0 []).
Abbreviation chunk_of := (chunk_of hs size).
Abbreviation step := (cs_step hs prp_dma opcode size (Some buf)).

(** ** The invariant *)

(** The trace of the state is what this transfer has rung. *)
Definition at_loop (v : vars) (st : io_st E) : Prop :=
  loop_inv hs prp_dma (dma_ioaddrs buf) opcode size file_offset page0 sq0 []
    (mk_loop (tv_done v) (tv_lba v) (tv_page v) st).

Definition in_turn (v : vars) (st : io_st E) : Prop := at_loop v st /\ tv_done v < size /\ bs <= xfer.

Definition with_sq (st : io_st E) (q : nvm_queue_t) : io_st E :=
  mk_io q (io_cq st) (io_sqmem st) (io_prp st) (io_dev st) (io_trace st).

(** After the doorbell. *)
Definition submitted (v : vars) (st : io_st E) : Prop :=
  (exists st0, in_turn v st0) /\ sq_ready (io_sq st) /\ sq_static sq0 (io_sq st) /\
  moved (tv_done v + chunk_of (tv_done v)) (io_trace st).

Definition full (sq : nvm_queue_t) : bool := bool_decide (fst (nvm_sq_enqueue sq) = None).

Definition cs_ok (c : cs) (st : io_st E) : Prop :=
  match c with
  | CTop v => at_loop v st
  | CSlot v => in_turn v st
  | CDrain v n => in_turn v st /\ full (io_sq st) = true /\ 0 <= n <= poll_max hs
  | CDrained v _ => in_turn v st /\ full (io_sq st) = true
  | CBuild v a => exists q, sq_taken q (io_sq st) a /\ in_turn v (with_sq st q)
  | CRing v => exists q a, sq_taken q (io_sq st) a /\ in_turn v (with_sq st q) /\
      chunk_loaded hs prp_dma (dma_ioaddrs buf) opcode size file_offset page0 sq0 (tv_done v) q (io_sqmem st) (io_prp st)
  | CWait v n => submitted v st /\ 0 <= n <= poll_max hs
  | CDone v _ => submitted v st
  | CExit r => run_post hs prp_dma (dma_ioaddrs buf) opcode size file_offset page0 sq0 [] (Some (r, st))
  end.

(** The invariant only depends on the submission queue, the transfer's own doorbells and the
    memory of its queue pair. *)
Lemma at_loop_same v (st st' : io_st E) :
  io_sq st' = io_sq st -> io_trace st' = io_trace st -> at_loop v st -> at_loop v st'.
Proof. intros Hq Ht []. constructor; simpl in *; by rewrite ?Hq, ?Ht. Qed.

Lemma in_turn_same v (st st' : io_st E) :
  io_sq st' = io_sq st -> io_trace st' = io_trace st -> in_turn v st -> in_turn v st'.
Proof. intros Hq Ht [Hl ?]. split; [by apply (at_loop_same v st)|done]. Qed.

Lemma tail_in_queue q : sq_ready q -> sq_static sq0 q -> in_queue sq0 (SqFifo.slot q (q_tail q)).
Proof.
  intros [[] _ _ _] Hs. exists (q_tail q). rewrite (sq_static_slot sq0 q) by done.
  destruct Hs as (<- & _). done.
Qed.

Lemma cs_ok_same c (st st' : io_st E) :
  cs_ok c st -> io_sq st' = io_sq st -> io_trace st' = io_trace st ->
  (forall x, in_queue sq0 x -> io_sqmem st' x = io_sqmem st x) ->
  (forall x, in_prp_page ps prp_dma x -> io_prp st' x = io_prp st x) -> cs_ok c st'.
Proof.
  intros Hc Hq Ht Hm Hp. destruct c as [v|v|v n|v c|v a|v|v n|v c|r]; simpl in *; rewrite ?Hq, ?Ht.
  - by apply (at_loop_same v st).
  - by apply (in_turn_same v st).
  - destruct Hc. split; [by apply (in_turn_same v st)|done].
  - destruct Hc. split; [by apply (in_turn_same v st)|done].
  - destruct Hc as (q & Htk & Hin). exists q. split; [done|]. by apply (in_turn_same v (with_sq st q)).
  - destruct Hc as (q & a & Htk & Hin & Hld). exists q, a. split; [done|].
    split; [by apply (in_turn_same v (with_sq st q))|]. intros sqmem' prp' Hs' Hp'. apply Hld.
    + rewrite Hs'. destruct Hin as [[Hr Hst _ _ _ _ _ _ _] _]. by apply Hm, tail_in_queue.
    + intros x Hx. rewrite Hp' by done. by apply Hp.
  - destruct Hc as [(? & ? & ? & ?) ?]. split; [|done]. split; [done|]. by rewrite Hq, Ht.
  - destruct Hc as (? & ? & ? & ?). split; [done|]. by rewrite Hq, Ht.
  - destruct Hc as (? & ? & ?). split; [|split]; by rewrite ?Hq, ?Ht.
Qed.

Lemma cs_ok_static c (st : io_st E) : cs_ok c st -> sq_static sq0 (io_sq st).
Proof.
  assert (forall v st, in_turn v st -> sq_static sq0 (io_sq st)) as Hin by (by intros v st1 [[] _]).
  assert (forall v q a, sq_taken q (io_sq st) a -> in_turn v (with_sq st q) -> sq_static sq0 (io_sq st)) as Htk.
  { intros v q a (_ & _ & Hs & _) Hi. etrans; [exact (Hin v _ Hi)|done]. }
  destruct c as [v|v|v n|v c|v a|v|v n|v c|r]; simpl.
  - by intros [].
  - apply Hin.
  - intros [? _]. by eapply Hin.
  - intros [? _]. by eapply Hin.
  - intros (q & ? & ?). by eapply Htk.
  - intros (q & a & ? & ? & _). by eapply Htk.
  - by intros [(_ & _ & ? & _) _].
  - by intros (_ & _ & ? & _).
  - by intros (_ & ? & _).
Qed.

(** ** The rank *)

Definition blocks (v : vars) : Z := (size - tv_done v) / bs.
Definition per_poll : Z := poll_max hs + 2.
Definition per_turn : Z := 2 * per_poll + 10.

Definition rank (c : cs) (sq : nvm_queue_t) : Z :=
  let before v := (blocks v - 1) * per_turn in
  match c with
  | CTop v => blocks v * per_turn + 1
  | CSlot v => before v + (if full sq then 2 * per_poll + 8 else per_poll + 6)
  | CDrain v n => before v + per_poll + 7 + (per_poll - n)
  | CDrained v _ => before v + per_poll + 7
  | CBuild v _ => before v + per_poll + 5
  | CRing v => before v + per_poll + 4
  | CWait v n => before v + 3 + (per_poll - n)
  | CDone v _ => before v + 3
  | CExit _ => 0
  end.

Lemma poll_max_range : 0 <= poll_max hs < 2 ^ 64 - 1.
Proof. apply spins_bound. Qed.

Lemma blocks_nonneg v (st : io_st E) : request -> at_loop v st -> 0 <= blocks v.
Proof.
  intros [[_ _ Hb _ _ _ _] _ _ _ _ _ _ _ _ _] [_ _ Hd _ _ _ _ _ _]. simpl in Hd. apply is_pow2_pos in Hb.
  apply Z.div_pos; lia.
Qed.

Lemma blocks_pos v (st : io_st E) : request -> in_turn v st -> 1 <= blocks v.
Proof.
  intros [[_ _ Hb _ _ _ _] _ _ _ _ Hs _ _ _ _] [[_ _ Hd Hbd _ _ _ _ _] [Hlt _]]. simpl in Hd, Hbd. apply is_pow2_pos in Hb.
  assert (bs | size - tv_done v) as [c Hc] by (by apply Z.divide_sub_r).
  unfold blocks. rewrite Hc, Z.div_mul by lia. nia.
Qed.

Lemma blocks_less v v' : request -> tv_done v + bs <= tv_done v' -> blocks v' <= blocks v - 1.
Proof.
  intros [[_ _ Hb _ _ _ _] _ _ _ _ _ _ _ _ _] Hle. apply is_pow2_pos in Hb. unfold blocks.
  replace (size - tv_done v) with (size - tv_done v - bs + 1 * bs) by lia. rewrite Z.div_add by lia.
  pose proof (Z.div_le_mono (size - tv_done v') (size - tv_done v - bs) bs). lia.
Qed.

(** ** A step *)

Lemma vars_words v (st : io_st E) :
  request -> at_loop v st -> tv_done v < size ->
  chunk_size hs size v = chunk_of (tv_done v) /\
  (bs <= xfer -> n_blocks hs size v = chunk_of (tv_done v) / bs /\ n_pages hs size v = cdiv (chunk_of (tv_done v)) ps).
Proof.
  intros Hrq [_ _ Hd Hbd Hpd _ _ _ _] Hlt. simpl in *. specialize (Hpd Hlt).
  destruct (turn_words hs prp_dma (dma_ioaddrs buf) opcode size file_offset page0 (tv_done v) Hrq ltac:(lia))
    as (Hw1 & Hw2 & Hw3).
  assert (chunk_size hs size v = chunk_of (tv_done v)) as Hc
    by (unfold chunk_size, chunk_limit; by rewrite Hw1, Hw2).
  split; [done|]. intros Hbx. unfold n_blocks, n_pages. rewrite Hc. split; [done|].
  destruct (turn_geometry hs prp_dma (dma_ioaddrs buf) opcode size file_offset page0 (tv_done v) Hrq ltac:(lia) Hbd Hpd Hbx)
    as (Hr & Hx & _ & _ & _ & _ & Hnp & _). fold (chunk_of (tv_done v)) in Hr, Hx, Hnp.
  rewrite Hw3 by lia. by rewrite decide_False by lia.
Qed.

(** What a step may write. *)
Definition own_writes (st st' : io_st E) : Prop :=
  (forall x, ~ in_queue sq0 x -> io_sqmem st' x = io_sqmem st x) /\
  (forall x, ~ in_prp_page ps prp_dma x -> io_prp st' x = io_prp st x) /\
  exists evs, io_trace st' = io_trace st ++ evs.

Definition step_ok (c : cs) (st : io_st E) (r : option (cs * io_st E)) : Prop :=
  exists c' st', r = Some (c', st') /\ cs_ok c' st' /\ own_writes st st' /\
    0 <= rank c' (io_sq st') < rank c (io_sq st).

Lemma own_writes_frame (st st' : io_st E) :
  io_sqmem st' = io_sqmem st -> io_prp st' = io_prp st -> io_trace st' = io_trace st -> own_writes st st'.
Proof. unfold own_writes. intros -> -> ->. split; [done|]. split; [done|]. exists []. by rewrite app_nil_r. Qed.

(** The next state of the loop with another state of the queue. *)
Lemma at_loop_sq v (st st' : io_st E) :
  at_loop v st -> sq_ready (io_sq st') -> sq_static sq0 (io_sq st') -> io_trace st' = io_trace st -> at_loop v st'.
Proof. intros [] Hr Hs Ht. constructor; simpl in *; by rewrite ?Ht. Qed.

Lemma turn_bytes v (st : io_st E) : request -> in_turn v st -> 0 <= tv_done v + chunk_of (tv_done v) <= size.
Proof.
  intros Hrq [[_ _ Hd Hbd Hpd _ _ _ _] [Hlt Hbx]]. simpl in Hd, Hbd, Hpd.
  destruct (turn_geometry hs prp_dma (dma_ioaddrs buf) opcode size file_offset page0 (tv_done v) Hrq ltac:(lia) Hbd (Hpd Hlt) Hbx)
    as (Hc & _). fold (chunk_of (tv_done v)) in Hc. lia.
Qed.

Lemma top_ok v (st : io_st E) : request -> cs_ok (CTop v) st -> step_ok (CTop v) st (step (CTop v) st).
Proof.
  intros Hrq Hl. simpl in Hl. pose proof (blocks_nonneg v st Hrq Hl). pose proof poll_max_range.
  pose proof Hl as [Hr Hs Hd _ _ _ _ Hm _]. simpl in Hr, Hs, Hd, Hm. simpl.
  assert (0 < per_turn) by (unfold per_turn, per_poll; lia).
  destruct (decide (tv_done v < size)) as [Hlt|Hge].
  - destruct (vars_words v st Hrq Hl Hlt) as (-> & _).
    pose proof (turn_zero hs prp_dma (dma_ioaddrs buf) opcode size file_offset page0 sq0 [] _ Hrq Hl Hlt) as Hz.
    cbv zeta in Hz. cbn [lp_done lp_st] in Hz. fold (chunk_of (tv_done v)) in Hz.
    destruct (decide (chunk_of (tv_done v) = 0)) as [He|Hne].
    + eexists _, _. split; [done|]. split; [done|]. split; [by apply own_writes_frame|]. simpl. nia.
    + eexists _, _. split; [done|]. split; [done|]. split; [by apply own_writes_frame|]. simpl.
      pose proof (blocks_pos v st Hrq (conj Hl (conj Hlt Hz))).
      unfold per_turn, per_poll in *. destruct (full _); nia.
  - eexists _, _. split; [done|]. split.
    + split; [done|]. split; [done|]. exists size. assert (tv_done v = size) as Heq by lia. rewrite Heq in *.
      split; [lia|]. split; [done|]. left. split; [|done]. destruct Hrq. unfold s64. rewrite Z.mod_small by lia. lia.
    + split; [by apply own_writes_frame|]. simpl. nia.
Qed.

Lemma full_false q : full q = false -> exists a q', nvm_sq_enqueue q = (Some a, q').
Proof.
  unfold full. intros Hf. apply bool_decide_eq_false in Hf.
  destruct (nvm_sq_enqueue q) as [[a|] q']; [by exists a, q'|done].
Qed.

Lemma slot_ok v (st : io_st E) : request -> cs_ok (CSlot v) st -> step_ok (CSlot v) st (step (CSlot v) st).
Proof.
  intros Hrq Hin. simpl in Hin. pose proof (blocks_pos v st Hrq Hin). pose proof poll_max_range.
  assert (0 < per_turn) by (unfold per_turn, per_poll; lia). simpl.
  destruct (full (io_sq st)) eqn:Hf.
  - pose proof Hf as Hf'. apply bool_decide_eq_true in Hf'.
    destruct (nvm_sq_enqueue (io_sq st)) as [[a|] q]; [done|].
    eexists _, _. split; [done|]. split; [split; [done|]; split; [done|lia]|]. split; [by apply own_writes_frame|].
    simpl. rewrite Hf. unfold per_turn, per_poll in *. nia.
  - destruct (full_false _ Hf) as (a & q & Eq). rewrite Eq. eexists _, _. split; [done|]. split.
    + exists (io_sq st). pose proof Hin as [[Hr _ _ _ _ _ _ _ _] _].
      split; [by apply sq_enqueue_taken|]. by apply (in_turn_same v st).
    + split; [by apply own_writes_frame|]. simpl. rewrite Hf. unfold per_turn, per_poll in *. nia.
Qed.

(** A turn of a poll. *)
Lemma poll_step_cases again got n (st : io_st E) :
  0 <= n <= poll_max hs ->
  exists c' st', poll_step hs again got n st = (c', st') /\ io_frame st st' /\
    (c' = again (n + 1) /\ n + 1 <= poll_max hs \/ (exists c, c' = got c) \/ c' = CExit (- EIO)).
Proof.
  intros Hn. pose proof poll_max_range. unfold poll_step, poll_turn.
  destruct (nvm_cq_dequeue _ _) as [[c|] cq]; [eexists _, _; split; [done|]; split; [done|]; eauto|].
  rewrite wrap_small by (unfold fits; lia). destruct (decide (n + 1 > poll_max hs)).
  - eexists _, _. split; [done|]. split; [done|]. eauto.
  - eexists _, _. split; [done|]. split; [done|]. left. split; [done|lia].
Qed.

Lemma drain_ok v n (st : io_st E) : request -> cs_ok (CDrain v n) st -> step_ok (CDrain v n) st (step (CDrain v n) st).
Proof.
  intros Hrq (Hin & Hf & Hn). pose proof (blocks_pos v st Hrq Hin). pose proof poll_max_range.
  assert (0 < per_turn) by (unfold per_turn, per_poll; lia).
  destruct (poll_step_cases (CDrain v) (CDrained v) n st Hn) as (c' & st' & Ep & (Hsq & Hm & Hp & Ht) & Hc').
  cbn [cs_step]. rewrite Ep. eexists _, _. split; [done|].
  assert (in_turn v st') as Hin' by (by apply (in_turn_same v st)).
  destruct Hc' as [[-> Hle]|[[c ->]| ->]]; (split; [|split; [by apply own_writes_frame|
    simpl; rewrite ?Hsq; unfold per_turn, per_poll in *; nia]]).
  - split; [done|]. split; [by rewrite Hsq|lia].
  - split; [done|]. by rewrite Hsq.
  - destruct Hin' as [[Hr Hs Hd _ _ _ _ Hmv _] _]. by apply (run_post_eio _ _ _ _ _ _ _ _ _ st' (tv_done v)).
Qed.

Lemma wait_ok v n (st : io_st E) : request -> cs_ok (CWait v n) st -> step_ok (CWait v n) st (step (CWait v n) st).
Proof.
  intros Hrq (((st0 & Hin) & Hr & Hs & Hmv) & Hn). pose proof (blocks_pos v st0 Hrq Hin). pose proof poll_max_range.
  assert (0 < per_turn) by (unfold per_turn, per_poll; lia).
  destruct (poll_step_cases (CWait v) (CDone v) n st Hn) as (c' & st' & Ep & (Hsq & Hm & Hp & Ht) & Hc').
  cbn [cs_step]. rewrite Ep. eexists _, _. split; [done|]. rewrite <- Hsq in Hr, Hs. rewrite <- Ht in Hmv.
  destruct Hc' as [[-> Hle]|[[c ->]| ->]]; (split; [|split; [by apply own_writes_frame|
    simpl; rewrite ?Hsq; unfold per_turn, per_poll in *; nia]]).
  - split; [|lia]. split; [by exists st0|done].
  - split; [by exists st0|done].
  - eapply run_post_eio; [done|done| |exact Hmv]. by apply (turn_bytes v st0).
Qed.

Lemma drained_ok v c (st : io_st E) : request -> cs_ok (CDrained v c) st -> step_ok (CDrained v c) st (step (CDrained v c) st).
Proof.
  intros Hrq (Hin & Hf). pose proof (blocks_pos v st Hrq Hin). pose proof poll_max_range.
  assert (0 < per_turn) by (unfold per_turn, per_poll; lia).
  pose proof Hin as [Hl Hlt]. pose proof Hl as [Hr Hs Hd _ _ _ _ Hm _]. simpl in Hr, Hs, Hd, Hm.
  destruct (consume_total st) as (st' & Ec & Hsq & Hsm & Hp & Ht). cbn [cs_step]. rewrite Ec. eexists _, _. split; [done|].
  destruct (sq_update_ready _ Hr) as [Hr' Hs']. rewrite <- Hsq in Hr', Hs'.
  assert (sq_static sq0 (io_sq st')) by (by etrans).
  case_decide; (split; [|split; [by apply own_writes_frame|]]); simpl.
  - eapply run_post_eio; [done|done| |by rewrite Ht]. done.
  - unfold per_turn, per_poll in *. nia.
  - split; [|done]. by apply (at_loop_sq v st).
  - apply bool_decide_eq_true in Hf. destruct (sq_update_room _ Hr Hf) as (a & q & Eq).
    replace (full (io_sq st')) with false; [unfold per_turn, per_poll in *; nia|].
    symmetry. apply bool_decide_eq_false. rewrite Hsq, Eq. done.
Qed.

Lemma build_ok v a (st : io_st E) : request -> cs_ok (CBuild v a) st -> step_ok (CBuild v a) st (step (CBuild v a) st).
Proof.
  intros Hrq (q & Htk & Hin). pose proof (blocks_pos v _ Hrq Hin). pose proof poll_max_range.
  assert (0 < per_turn) by (unfold per_turn, per_poll; lia).
  pose proof Hin as [Hl [Hlt Hbx]]. pose proof Hl as [Hr Hs Hd Hbd Hpd Hlb Hpg Hm _]. simpl in Hr, Hs, Hd, Hbd, Hpd, Hlb, Hpg.
  destruct (vars_words v _ Hrq Hl Hlt) as (_ & Hw). destruct (Hw Hbx) as [Hnb Hnp].
  destruct (turn_build hs prp_dma (dma_ioaddrs buf) opcode size file_offset page0 sq0 (tv_done v) a st q)
    as (sqmem & prp & Eb & Hsm & Hpm & Hld); try done || auto; [lia|].
  cbn [cs_step]. rewrite Hnb, Hnp, Hpg, Hlb, Eb. eexists _, _. split; [done|]. split; [|split].
  - exists q, a. split; [done|]. split; [by apply (in_turn_same v (with_sq st q))|done].
  - split; [|split; [done|exists []; by rewrite app_nil_r]]. intros x Hx. apply Hsm. intros ->. apply Hx.
    destruct Htk as (-> & _). by apply tail_in_queue.
  - simpl. unfold per_turn, per_poll in *. nia.
Qed.

Lemma ring_ok v (st : io_st E) : request -> cs_ok (CRing v) st -> step_ok (CRing v) st (step (CRing v) st).
Proof.
  intros Hrq (q & a & Htk & Hin & Hld). pose proof (blocks_pos v _ Hrq Hin). pose proof poll_max_range.
  assert (0 < per_turn) by (unfold per_turn, per_poll; lia).
  pose proof Hin as [Hl [Hlt Hbx]]. pose proof Hl as [Hr Hs Hd Hbd Hpd Hlb Hpg Hm _]. simpl in Hr, Hs, Hd, Hbd, Hpd, Hm.
  destruct (ring_doorbell_spec q a st Hr Htk) as (st' & Er & Hr' & Hs' & Hrg & Hsm & Hpm).
  cbn [cs_step]. rewrite Er. eexists _, _. split; [done|]. split; [|split].
  - split; [|lia]. split; [by eexists|]. split; [done|]. split; [by etrans|].
    rewrite (rg_trace _ _ _ _ Hrg). apply turn_rang; try done || lia; [by apply Hpd|]. by apply Hld.
  - split; [by rewrite Hsm|]. split; [by rewrite Hpm|]. eexists. apply Hrg.
  - simpl. unfold per_turn, per_poll in *. nia.
Qed.

Lemma done_ok v c (st : io_st E) : request -> cs_ok (CDone v c) st -> step_ok (CDone v c) st (step (CDone v c) st).
Proof.
  intros Hrq ((st0 & Hin) & Hr & Hs & Hmv). pose proof (blocks_pos v st0 Hrq Hin). pose proof poll_max_range.
  assert (0 < per_turn) by (unfold per_turn, per_poll; lia).
  pose proof Hin as [Hl [Hlt Hbx]]. pose proof Hl as [_ _ Hd Hbd Hpd Hlb Hpg _ _]. simpl in Hd, Hbd, Hpd, Hlb, Hpg.
  destruct (vars_words v _ Hrq Hl Hlt) as (Hch & Hw). destruct (Hw Hbx) as [Hnb Hnp].
  destruct (consume_total st) as (st' & Ec & Hsq & Hsm & Hp & Ht). cbn [cs_step]. rewrite Ec. eexists _, _. split; [done|].
  destruct (sq_update_ready _ Hr) as [Hr' Hs']. rewrite <- Hsq in Hr', Hs'.
  assert (sq_static sq0 (io_sq st')) by (by etrans).
  rewrite <- Ht in Hmv.
  destruct (turn_next hs prp_dma (dma_ioaddrs buf) opcode size file_offset page0 sq0 [] (tv_done v) st' Hrq ltac:(lia) Hbd
    (Hpd Hlt) Hbx) as [Hinv Hle]; [done..|]. fold (chunk_of (tv_done v)) in Hinv, Hle.
  rewrite Hch, Hnb, Hnp, Hlb, Hpg.
  case_decide; (split; [|split; [by apply own_writes_frame|]]).
  - eapply run_post_eio; [done|done| |exact Hmv]. by apply (turn_bytes v st0).
  - simpl. unfold per_turn, per_poll in *. nia.
  - exact Hinv.
  - set (v' := mk_tv _ _ _) in *. pose proof (blocks_nonneg v' st' Hrq Hinv).
    assert (blocks v' <= blocks v - 1) by (by apply blocks_less).
    simpl. unfold per_turn, per_poll in *. nia.
Qed.

(** Every step of the loop is defined, keeps the invariant, writes its own memory only and
    lowers the rank. *)
Lemma cs_step_ok c (st : io_st E) :
  request -> cs_ok c st -> (forall r, c <> CExit r) -> step_ok c st (step c st).
Proof.
  intros Hrq Hc Hne. destruct c as [v|v|v n|v c|v a|v|v n|v c|r].
  - by apply top_ok.
  - by apply slot_ok.
  - by apply drain_ok.
  - by apply drained_ok.
  - by apply build_ok.
  - by apply ring_ok.
  - by apply wait_ok.
  - by apply done_ok.
  - by destruct (Hne r).
Qed.
End critical.
