(* ===== verification/UgdsThreadsSpec.v ===== *)
(** * Concurrent transfers

    Any number of threads transfer through one handle at the same time, in any interleaving and
    with any controller: no step is undefined, a queue pair is used by one thread at a time, every
    thread moves exactly the bytes of its own request, and every schedule ends with all calls
    returned. *)
From S2P Require Import Prelude NvmTypes NvmUtil NvmQueue NvmCmd UgdsTypes NvmDevice UgdsIo UgdsIoSpec.
From S2P Require Import UgdsThreads UgdsThreadsInv.
From stdpp Require Import prelude gmap functions list.
From Stdlib Require Import ZArith Lia.
Local Open Scope Z_scope.

(** The queue pair whose lock a thread holds. *)
Definition lock_of (p : pc) : option nat := match p with PRun _ _ _ q _ => Some q | _ => None end.

Section system.
Context {E : Type} `{Device E}.

(** The doorbells a thread has rung and the mappings it got. *)
Definition thread_events (t : nat) (s : shared E) : list io_event := snd <$> filter (fun x => x.1 = t) (ts_trace s).
Definition thread_mapped (t : nat) (s : shared E) : list nvm_dma_t := snd <$> filter (fun x => x.1 = t) (ts_mapped s).

Definition req_ok (rq : io_request) : Prop :=
  0 <= req_size rq < 2 ^ 63 /\ req_file_offset rq < 2 ^ 63 /\ req_buf_offset rq < 2 ^ 63 /\ fits 7 (req_opcode rq).

(** Different queue pairs have different memory, as their allocations have. *)
Definition queues_apart (hs : HandleState nvm_ctrl_t nvm_dma_t) : Prop :=
  forall i j qp qp', i <> j -> hs_qps hs !! i = Some qp -> hs_qps hs !! j = Some qp' ->
    (forall x, in_queue (qp_sq qp) x -> ~ in_queue (qp_sq qp') x) /\
    (forall x, in_prp_page (ctrl_page_size (hs_ctrl hs)) (qp_prp_dma qp) x ->
       ~ in_prp_page (ctrl_page_size (hs_ctrl hs)) (qp_prp_dma qp') x).

(** The threads are about to call [do_io] on a registered handle. *)
Record start_ok (y : tsys E) : Prop := {
  so_geom : geometry_ok (ts_hs (ts_sh y));
  so_num : 0 < hs_num_qps (ts_hs (ts_sh y)) < 2 ^ 16;
  so_len : Z.of_nat (length (hs_qps (ts_hs (ts_sh y)))) = hs_num_qps (ts_hs (ts_sh y));
  so_qps : Forall (qp_ok (ctrl_page_size (hs_ctrl (ts_hs (ts_sh y))))) (hs_qps (ts_hs (ts_sh y)));
  so_rr : 0 <= hs_rr_counter (ts_hs (ts_sh y));
  so_apart : queues_apart (ts_hs (ts_sh y));
  so_registry : forall b a, ts_registry (ts_sh y) !! b = Some a ->
    exists d, ts_dmas (ts_sh y) !! a = Some d /\ dma_ok d;
  so_inj : forall b b' a, ts_registry (ts_sh y) !! b = Some a -> ts_registry (ts_sh y) !! b' = Some a -> b = b';
  so_locks : ts_locks (ts_sh y) = ∅;
  so_trace : ts_trace (ts_sh y) = [];
  so_mapped : ts_mapped (ts_sh y) = [];
  so_threads : forall t th, ts_threads y !! t = Some th -> th_pc th = PStart /\ req_ok (th_rq th);
}.

Context (y0 : tsys E).
Abbreviation s0 := (ts_sh y0).
Abbreviation hs0 := (ts_hs s0).
Abbreviation ps := (ctrl_page_size (hs_ctrl hs0)).

(** ** The invariant *)

Definition args_ok (rq : io_request) : Prop :=
  bad_args (req_fh rq) (req_buf rq) (req_size rq) (req_file_offset rq) (req_buf_offset rq) hs0 = false.

(** The descriptor [d] and its first page for a request: those of the registered buffer, or the
    mapping made for the call. *)
Definition buffer_of (t : nat) (s : shared E) (rq : io_request) (fly : bool) (d : nvm_dma_t) (page : Z) : Prop :=
  args_ok rq /\ dma_ok d /\ 0 <= page /\ page + cdiv (req_size rq) ps <= dma_n_ioaddrs d /\
  if fly then thread_mapped t s = [d] /\ page = 0
  else page = req_buf_offset rq / ps /\ req_buf_offset rq mod ps = 0 /\
       exists a, ts_registry s0 !! req_buf rq = Some a /\ ts_dmas s0 !! a = Some d.

(** How a call may end: refused before any doorbell, or with [n] bytes asked for. *)
Definition result_ok (t : nat) (s : shared E) (rq : io_request) (r : Z) : Prop :=
  thread_events t s = [] /\ (r = - EINVAL \/ r = - EIO /\ thread_mapped t s = []) \/
  exists fly d page q qp n, buffer_of t s rq fly d page /\ hs_qps hs0 !! q = Some qp /\ 0 <= n <= req_size rq /\
    moved hs0 (qp_prp_dma qp) (dma_ioaddrs d) (req_opcode rq) (req_file_offset rq) (Z.to_nat page) (qp_sq qp) []
      n (thread_events t s) /\
    (r = req_size rq /\ n = req_size rq \/ r = - EIO \/
     r = - EINVAL /\ n = 0 /\ max_xfer hs0 ps < hs_block_size hs0).

(** The view of the owner of queue pair [q], with its own doorbells. *)
Definition running (t : nat) (s : shared E) (rq : io_request) (a : Z) (fly : bool) (page : Z) (q : nat) (c : cs) : Prop :=
  exists d qp0 qp, ts_dmas s !! a = Some d /\ buffer_of t s rq fly d page /\
    hs_qps hs0 !! q = Some qp0 /\ hs_qps (ts_hs s) !! q = Some qp /\
    cs_ok hs0 (qp_prp_dma qp0) d (req_opcode rq) (req_size rq) (req_file_offset rq) (Z.to_nat page) (qp_sq qp0) c
      (mk_io (qp_sq qp) (qp_cq qp) (ts_sqmem s) (ts_prp s) (ts_dev s) (thread_events t s)).

Definition thread_ok (t : nat) (s : shared E) (rq : io_request) (p : pc) : Prop :=
  match p with
  | PStart => thread_events t s = [] /\ thread_mapped t s = []
  | PMap | PCheck _ => thread_events t s = [] /\ thread_mapped t s = [] /\ args_ok rq
  | PPick a fly page => thread_events t s = [] /\ exists d, ts_dmas s !! a = Some d /\ buffer_of t s rq fly d page
  | PLock a fly page q => thread_events t s = [] /\ (q < length (hs_qps hs0))%nat /\
      exists d, ts_dmas s !! a = Some d /\ buffer_of t s rq fly d page
  | PRun a fly page q c => running t s rq a fly page q c
  | PUnmap _ r | PReturned r => result_ok t s rq r
  end.

Definition qp_like (qp0 qp : IOQueuePair nvm_dma_t) : Prop :=
  sq_static (qp_sq qp0) (qp_sq qp) /\ qp_prp_dma qp = qp_prp_dma qp0.

Record sys_inv (s : shared E) (ths : list thread) : Prop := {
  si_hs : exists qps rr, ts_hs s = hs_set_qps hs0 qps rr /\ 0 <= rr /\ Forall2 qp_like (hs_qps hs0) qps;
  si_locks : forall q t, ts_locks s !! q = Some t <->
    exists th, ths !! t = Some th /\ lock_of (th_pc th) = Some q;
  si_ready : forall q qp, hs_qps (ts_hs s) !! q = Some qp -> ts_locks s !! q = None -> sq_ready (qp_sq qp);
  si_registry : forall b a, ts_registry s !! b = Some a ->
    ts_registry s0 !! b = Some a /\ is_Some (ts_dmas s !! a) /\ ts_dmas s !! a = ts_dmas s0 !! a;
  si_uses : forall t th a fly, ths !! t = Some th -> uses (th_pc th) = Some (a, fly) ->
    is_Some (ts_dmas s !! a) /\ (fly = false -> ts_registry s !! req_buf (th_rq th) = Some a);
  si_fly : forall t th a, ths !! t = Some th -> uses (th_pc th) = Some (a, true) ->
    (forall b, ts_registry s !! b <> Some a) /\
    forall t' th' fly, ths !! t' = Some th' -> uses (th_pc th') = Some (a, fly) -> t' = t;
  si_threads : forall t th, ths !! t = Some th -> req_ok (th_rq th) /\ thread_ok t s (th_rq th) (th_pc th);
}.

(** What another thread may not change for a thread. *)
Definition unaffected (t : nat) (p : pc) (s s' : shared E) : Prop :=
  thread_events t s' = thread_events t s /\ thread_mapped t s' = thread_mapped t s /\
  (forall a fly, uses p = Some (a, fly) -> ts_dmas s' !! a = ts_dmas s !! a) /\
  forall q, lock_of p = Some q -> hs_qps (ts_hs s') !! q = hs_qps (ts_hs s) !! q /\
    forall qp0, hs_qps hs0 !! q = Some qp0 ->
      (forall x, in_queue (qp_sq qp0) x -> ts_sqmem s' x = ts_sqmem s x) /\
      (forall x, in_prp_page ps (qp_prp_dma qp0) x -> ts_prp s' x = ts_prp s x).

Lemma buffer_of_same t s s' rq fly d page :
  thread_mapped t s' = thread_mapped t s -> buffer_of t s rq fly d page -> buffer_of t s' rq fly d page.
Proof. intros Hm. unfold buffer_of. by rewrite Hm. Qed.

Lemma result_ok_same t s s' rq r :
  thread_events t s' = thread_events t s -> thread_mapped t s' = thread_mapped t s ->
  result_ok t s rq r -> result_ok t s' rq r.
Proof.
  intros He Hm [Hr|(fly & d & page & q & qp & n & Hb & Hrest)]; [left; by rewrite He, Hm|right].
  exists fly, d, page, q, qp, n. rewrite He. split; [by apply (buffer_of_same t s)|done].
Qed.

Lemma unaffected_ok t s s' rq p : unaffected t p s s' -> thread_ok t s rq p -> thread_ok t s' rq p.
Proof.
  intros (He & Hm & Hd & Hq).
  assert (forall a fly fly' page, uses p = Some (a, fly) ->
    (exists d, ts_dmas s !! a = Some d /\ buffer_of t s rq fly' d page) ->
    exists d, ts_dmas s' !! a = Some d /\ buffer_of t s' rq fly' d page) as Hbuf.
  { intros a fly fly' page Hu (d & Ha & Hb). exists d. rewrite (Hd a fly Hu). split; [done|]. by apply (buffer_of_same t s). }
  destruct p as [| | |a fly page|a fly page q|a fly page q c|a r|r]; simpl; rewrite ?He, ?Hm; try done.
  - intros [? Hb]. split; [done|]. by eapply Hbuf.
  - intros (? & ? & Hb). split; [done|]. split; [done|]. by eapply Hbuf.
  - intros (d & qp0 & qp & Ha & Hb & Hq0 & Hqp & Hc). destruct (Hq q eq_refl) as [Eq Hmem].
    destruct (Hmem qp0 Hq0) as [Hsq Hprp]. exists d, qp0, qp. rewrite (Hd a fly eq_refl), Eq, He.
    split_and!; try done; [by apply (buffer_of_same t s)|]. by eapply cs_ok_same.
  - by apply result_ok_same.
  - by apply result_ok_same.
Qed.

(** ** A step of one thread *)

(** What a step of thread [t] from [p] to [p'] owes the invariant. *)
Record advances (t : nat) (rq : io_request) (p p' : pc) (s s' : shared E) (ths : list thread) : Prop := {
  ad_hs : exists qps rr, ts_hs s' = hs_set_qps hs0 qps rr /\ 0 <= rr /\ Forall2 qp_like (hs_qps hs0) qps;
  ad_locks : forall q, ts_locks s' !! q =
    if decide (lock_of p' = Some q) then Some t
    else if decide (lock_of p = Some q) then None else ts_locks s !! q;
  ad_free : forall q, lock_of p' = Some q -> ts_locks s !! q = None \/ lock_of p = Some q;
  ad_ready : forall q qp, hs_qps (ts_hs s') !! q = Some qp -> ts_locks s' !! q = None -> sq_ready (qp_sq qp);
  ad_registry : ts_registry s' = ts_registry s;
  ad_dmas : forall b a, ts_registry s !! b = Some a -> ts_dmas s' !! a = ts_dmas s !! a;
  ad_uses : forall a fly, uses p' = Some (a, fly) -> is_Some (ts_dmas s' !! a) /\
    (uses p = Some (a, fly) \/ fly = false /\ ts_registry s !! req_buf rq = Some a \/
     fly = true /\ ts_dmas s !! a = None);
  ad_others : forall t' th, t' <> t -> ths !! t' = Some th -> unaffected t' (th_pc th) s s';
  ad_ok : thread_ok t s' rq p';
}.

Lemma insert_cases {A} (l : list A) (t t1 : nat) x y :
  (t < length l)%nat -> <[t := x]> l !! t1 = Some y -> t1 = t /\ y = x \/ t1 <> t /\ l !! t1 = Some y.
Proof.
  intros Hlt Hl. destruct (decide (t1 = t)) as [->|Hne].
  - rewrite list_lookup_insert_eq in Hl by done. left. by simplify_eq.
  - rewrite list_lookup_insert_ne in Hl by done. by right.
Qed.

Lemma advance_locks t rq p p' s s' ths :
  sys_inv s ths -> ths !! t = Some (mk_thread rq p) -> advances t rq p p' s s' ths ->
  forall q t1, ts_locks s' !! q = Some t1 <->
    exists th, <[t := mk_thread rq p']> ths !! t1 = Some th /\ lock_of (th_pc th) = Some q.
Proof.
  intros Hinv Ht Had q t1. pose proof (si_locks _ _ Hinv) as Hl. rewrite (ad_locks _ _ _ _ _ _ _ Had).
  assert (lock_of p = Some q -> ts_locks s !! q = Some t) as Hmine
    by (intros Hp; apply Hl; by exists (mk_thread rq p)).
  pose proof (ad_free _ _ _ _ _ _ _ Had q) as Hfree. apply lookup_lt_Some in Ht as Hlt.
  destruct (decide (t1 = t)) as [->|Hne].
  - rewrite list_lookup_insert_eq by done. transitivity (lock_of p' = Some q).
    + destruct (decide (lock_of p' = Some q)); [done|]. split; [|done].
      destruct (decide (lock_of p = Some q)) as [|Hn]; [done|]. intros Hq. apply Hl in Hq as (th & E1 & E2).
      by simplify_eq.
    + split; [by eexists|]. intros (th & E1 & E2). by simplify_eq.
  - rewrite list_lookup_insert_ne by done. rewrite <- Hl.
    destruct (decide (lock_of p' = Some q)) as [Hp'|].
    + destruct (Hfree Hp') as [->|Hp]; [|rewrite (Hmine Hp)]; split; congruence.
    + destruct (decide (lock_of p = Some q)) as [Hp|]; [|done]. rewrite (Hmine Hp). split; congruence.
Qed.

Lemma advance t rq p p' s s' ths :
  sys_inv s ths -> ths !! t = Some (mk_thread rq p) -> advances t rq p p' s s' ths ->
  sys_inv s' (<[t := mk_thread rq p']> ths).
Proof.
  intros Hinv Ht Had. pose proof (advance_locks _ _ _ _ _ _ _ Hinv Ht Had) as Hlocks.
  apply lookup_lt_Some in Ht as Hlt. destruct Had as [Hhs _ _ Hrd Hreg Hdm Hus Hoth Hok].
  assert (forall t' th a fly, t' <> t -> ths !! t' = Some th -> uses (th_pc th) = Some (a, fly) ->
    ts_dmas s' !! a = ts_dmas s !! a) as Hsame.
  { intros t' th a fly Hne Hth Hu. destruct (Hoth t' th Hne Hth) as (_ & _ & Hd & _). by eapply Hd. }
  constructor; try done.
  - intros b a Hb. rewrite Hreg in Hb. destruct (si_registry _ _ Hinv b a Hb) as (? & ? & ?).
    by rewrite (Hdm b a Hb).
  - intros t1 th a fly Hth Hu. rewrite Hreg. destruct (insert_cases _ _ _ _ _ Hlt Hth) as [[-> ->]|[Hne Hth']].
    + destruct (Hus a fly Hu) as [His Hcase]. split; [done|]. intros ->. simpl.
      destruct Hcase as [Hp|[[_ Hr]|[? _]]]; [|done|done]. by apply (si_uses _ _ Hinv t _ a false Ht).
    + rewrite (Hsame t1 th a fly) by done. by apply (si_uses _ _ Hinv t1 th).
  - intros t1 th a Hth Hu. rewrite Hreg. destruct (insert_cases _ _ _ _ _ Hlt Hth) as [[-> ->]|[Hne Hth']].
    + simpl in Hu. destruct (Hus a true Hu) as [_ Hcase].
      destruct Hcase as [Hp|[[? _]|[_ Hnone]]]; [|done|].
      * destruct (si_fly _ _ Hinv t _ a Ht Hp) as [Hr Ho]. split; [done|]. intros t' th' fly Hth' Hu'.
        destruct (insert_cases _ _ _ _ _ Hlt Hth') as [[-> _]|[? Hold]]; [done|]. by eapply Ho.
      * split.
        -- intros b Hb. destruct (si_registry _ _ Hinv b a Hb) as (_ & [? ?] & _). congruence.
        -- intros t' th' fly Hth' Hu'. destruct (insert_cases _ _ _ _ _ Hlt Hth') as [[-> _]|[? Hold]]; [done|].
           destruct (si_uses _ _ Hinv t' th' a fly Hold Hu') as [[? ?] _]. congruence.
    + destruct (si_fly _ _ Hinv t1 th a Hth' Hu) as [Hr Ho]. split; [done|]. intros t' th' fly Hth2 Hu'.
      destruct (insert_cases _ _ _ _ _ Hlt Hth2) as [[-> ->]|[? Hold]]; [|by eapply Ho].
      destruct (Hus a fly Hu') as [_ [Hp|[[_ Hb]|[_ Hnone]]]].
      * by eapply Ho.
      * by destruct (Hr (req_buf rq)).
      * destruct (si_uses _ _ Hinv t1 th a true Hth' Hu) as [[? ?] _]. congruence.
  - intros t1 th Hth. destruct (insert_cases _ _ _ _ _ Hlt Hth) as [[-> ->]|[Hne Hth']].
    + split; [|done]. apply (si_threads _ _ Hinv t _ Ht).
    + destruct (si_threads _ _ Hinv t1 th Hth') as [Hrq Hold]. split; [done|].
      eapply unaffected_ok; [|done]. by apply Hoth.
Qed.

(** ** The rank of a thread *)

Definition trank (s : shared E) (th : thread) : Z :=
  let whole := req_size (th_rq th) / hs_block_size hs0 * per_turn hs0 in
  match th_pc th with
  | PStart => whole + 7
  | PMap | PCheck _ => whole + 6
  | PPick _ _ _ => whole + 5
  | PLock _ _ _ _ => whole + 4
  | PRun _ _ _ q c =>
      match hs_qps (ts_hs s) !! q with
      | Some qp => 2 + rank hs0 (req_size (th_rq th)) c (qp_sq qp)
      | None => 0
      end
  | PUnmap _ _ => 1
  | PReturned _ => 0
  end.

Ltac trank_lia := unfold trank; cbn [th_pc th_rq]; lia.

(** ** The steps *)

Context (Hstart : start_ok y0).

Lemma whole_nonneg rq : req_ok rq -> 0 <= req_size rq / hs_block_size hs0 * per_turn hs0.
Proof.
  intros (Hs & _). pose proof (so_geom y0 Hstart) as [_ _ Hb _ _ _ _]. apply is_pow2_pos in Hb.
  pose proof (poll_max_range hs0). pose proof (Z.div_pos (req_size rq) (hs_block_size hs0)).
  unfold per_turn, per_poll. nia.
Qed.

Lemma inv_qp s ths q :
  sys_inv s ths -> (q < length (hs_qps hs0))%nat ->
  exists qp0 qp, hs_qps hs0 !! q = Some qp0 /\ hs_qps (ts_hs s) !! q = Some qp /\ qp_like qp0 qp /\ qp_ok ps qp0.
Proof.
  intros Hinv Hq. destruct (si_hs _ _ Hinv) as (qps & rr & -> & _ & Hl). simpl.
  destruct (lookup_lt_is_Some_2 _ _ Hq) as [qp0 Hqp0]. destruct (Forall2_lookup_l _ _ _ _ _ Hl Hqp0) as (qp & Hqp & ?).
  exists qp0, qp. split_and!; try done. eapply Forall_lookup_1; [apply (so_qps y0 Hstart)|done].
Qed.

(** The checks of a request make it one the transfer loop accepts. *)
Lemma request_of t s rq fly d page qp0 q :
  req_ok rq -> buffer_of t s rq fly d page -> hs_qps hs0 !! q = Some qp0 ->
  request_ok hs0 (qp_prp_dma qp0) (dma_ioaddrs d) (req_opcode rq) (req_size rq) (req_file_offset rq) (Z.to_nat page).
Proof.
  intros (Hs & Hfo & Hbo & Hop) (Hargs & (Hlen & Hd & Hf) & Hp & Hcov & _) Hq0.
  pose proof (so_geom y0 Hstart) as Hg. pose proof Hg as [_ _ Hb _ _ _ _]. apply is_pow2_pos in Hb.
  pose proof (Forall_lookup_1 _ _ _ _ (so_qps y0 Hstart) Hq0) as [_ Hprp].
  assert (req_size rq <> 0 /\ 0 <= req_file_offset rq /\ req_file_offset rq mod hs_block_size hs0 = 0 /\
    req_size rq mod hs_block_size hs0 = 0) as (? & ? & Hm1 & Hm2).
  { unfold args_ok, bad_args in Hargs. rewrite !orb_false_iff, !bool_decide_eq_false in Hargs.
    destruct (decide (req_file_offset rq mod hs_block_size hs0 = 0)),
      (decide (req_size rq mod hs_block_size hs0 = 0)); lia. }
  constructor; try done || lia; apply Z.mod_divide; lia.
Qed.

(** Steps that only look, or move the round robin counter. *)
Lemma advances_local t rq p p' s ths rr :
  sys_inv s ths -> lock_of p = None -> lock_of p' = None -> 0 <= rr ->
  let s' := sh_set_hs s (hs_set_qps (ts_hs s) (hs_qps (ts_hs s)) rr) in
  (forall a fly, uses p' = Some (a, fly) ->
     uses p = Some (a, fly) \/ fly = false /\ ts_registry s !! req_buf rq = Some a) ->
  ths !! t = Some (mk_thread rq p) -> thread_ok t s' rq p' -> advances t rq p p' s s' ths.
Proof.
  intros Hinv Hp Hp' Hrr s' Hu Ht Hok. destruct (si_hs _ _ Hinv) as (qps & rr' & Ehs & _ & Hl).
  constructor; try done.
  - exists qps, rr. simpl. rewrite Ehs. done.
  - intros q. by rewrite Hp, Hp'.
  - intros q. by rewrite Hp'.
  - intros q qp. simpl. apply (si_ready _ _ Hinv).
  - intros a fly Hua. destruct (Hu a fly Hua) as [Hpa|[-> Hb]].
    + split; [by apply (si_uses _ _ Hinv t _ a fly Ht)|auto].
    + split; [|auto]. by destruct (si_registry _ _ Hinv _ a Hb) as (_ & ? & _).
Qed.

Lemma set_rr_same (s : shared E) : sh_set_hs s (hs_set_qps (ts_hs s) (hs_qps (ts_hs s)) (hs_rr_counter (ts_hs s))) = s.
Proof. destruct s as [hs]; by destruct hs. Qed.

Lemma advances_stay t rq p p' s ths :
  sys_inv s ths -> lock_of p = None -> lock_of p' = None ->
  (forall a fly, uses p' = Some (a, fly) ->
     uses p = Some (a, fly) \/ fly = false /\ ts_registry s !! req_buf rq = Some a) ->
  ths !! t = Some (mk_thread rq p) -> thread_ok t s rq p' -> advances t rq p p' s s ths.
Proof.
  intros Hinv Hp Hp' Hu Ht Hok. destruct (si_hs _ _ Hinv) as (qps & rr & Ehs & Hrr & _).
  pose proof (advances_local t rq p p' s ths (hs_rr_counter (ts_hs s)) Hinv Hp Hp') as Hl. cbv zeta in Hl.
  rewrite set_rr_same in Hl. apply Hl; try done. by rewrite Ehs.
Qed.

(** What a step has to establish. *)
Definition step_good (t : nat) (rq : io_request) (p : pc) (s : shared E) (ths : list thread)
    (o : outcome (pc * shared E)) : Prop :=
  match o with
  | Next (p', s') => advances t rq p p' s s' ths /\ 0 <= trank s' (mk_thread rq p') < trank s (mk_thread rq p)
  | Blocked => p = PMap \/ (exists r, p = PReturned r) \/
      exists a fly page q, p = PLock a fly page q /\ is_Some (ts_locks s !! q)
  | Undefined => False
  end.

(** The constant members of the handle. *)
Lemma inv_page s ths : sys_inv s ths -> ctrl_page_size (hs_ctrl (ts_hs s)) = ps.
Proof. intros Hinv. by destruct (si_hs _ _ Hinv) as (qps & rr & -> & _). Qed.

Lemma start_good t rq s ths :
  sys_inv s ths -> ths !! t = Some (mk_thread rq PStart) ->
  step_good t rq PStart s ths (thread_step t rq PStart s).
Proof.
  intros Hinv Ht. destruct (si_threads _ _ Hinv t _ Ht) as [Hrq (He & Hm)]. simpl in Hrq.
  pose proof (whole_nonneg rq Hrq). destruct (si_hs _ _ Hinv) as (qps & rr & Ehs & _). unfold thread_step.
  assert (bad_args (req_fh rq) (req_buf rq) (req_size rq) (req_file_offset rq) (req_buf_offset rq) (ts_hs s) =
    bad_args (req_fh rq) (req_buf rq) (req_size rq) (req_file_offset rq) (req_buf_offset rq) hs0) as -> by (by rewrite Ehs).
  destruct (bad_args _ _ _ _ _ _) eqn:Hargs.
  { split; [|trank_lia]. apply advances_stay; try done. left. auto. }
  destruct (ts_registry s !! req_buf rq) as [a|] eqn:Hreg; (split; [|trank_lia]); apply advances_stay; try done.
  intros a' fly [= <- <-]. auto.
Qed.

Lemma check_good t rq a s ths :
  sys_inv s ths -> ths !! t = Some (mk_thread rq (PCheck a)) ->
  step_good t rq (PCheck a) s ths (thread_step t rq (PCheck a) s).
Proof.
  intros Hinv Ht. destruct (si_threads _ _ Hinv t _ Ht) as [Hrq (He & Hm & Hargs)]. simpl in Hrq, He, Hm, Hargs.
  pose proof (whole_nonneg rq Hrq). destruct (si_uses _ _ Hinv t _ a false Ht eq_refl) as [[d Hd] Hreg].
  specialize (Hreg eq_refl). simpl in Hreg. destruct (si_registry _ _ Hinv _ a Hreg) as (Hreg0 & _ & Hd0).
  destruct (so_registry y0 Hstart _ a Hreg0) as (d' & Hd' & Hok). rewrite <- Hd0, Hd in Hd'. injection Hd' as <-.
  unfold thread_step. rewrite (inv_page s ths Hinv), Hd. destruct Hrq as (Hs & Hfo & Hbo & Hop).
  pose proof (so_geom y0 Hstart) as [_ Hpr Hb _ _ _ _]. apply is_pow2_pos in Hb.
  assert (req_size rq <> 0 /\ 0 <= req_buf_offset rq) as [Hs0 Hbo0].
  { unfold args_ok, bad_args in Hargs. rewrite !orb_false_iff, !bool_decide_eq_false in Hargs. lia. }
  destruct (decide (req_buf_offset rq mod ps <> 0)) as [Hmis|Hal].
  { split; [|trank_lia]. apply advances_stay; try done. left. auto. }
  assert (u64 (u64 (req_size rq + ps) - 1) / ps = cdiv (req_size rq) ps) as ->.
  { rewrite (wrap_small _ (_ + _)), wrap_small by (unfold fits; lia). done. }
  case_decide as Hlong; (split; [|trank_lia]); apply advances_stay; try done.
  - left. auto.
  - intros a' fly [= <- <-]. auto.
  - split; [done|]. exists d. split; [done|]. assert (0 <= req_buf_offset rq / ps) by (apply Z.div_pos; lia).
    pose proof Hok as (_ & Hd64 & _).
    assert (u64 (req_buf_offset rq / ps + cdiv (req_size rq) ps) = req_buf_offset rq / ps + cdiv (req_size rq) ps) as Hw.
    { apply wrap_small. unfold fits. pose proof (cdiv_pos (req_size rq) ps).
      assert (req_buf_offset rq / ps <= req_buf_offset rq) by (apply Z.div_le_upper_bound; nia).
      assert (cdiv (req_size rq) ps <= req_size rq) by (apply cdiv_le; nia). lia. }
    rewrite Hw in Hlong. split_and!; try done || lia. by exists a; rewrite <- Hd0.
Qed.

Lemma pick_good t rq a fly page s ths :
  sys_inv s ths -> ths !! t = Some (mk_thread rq (PPick a fly page)) ->
  step_good t rq (PPick a fly page) s ths (thread_step t rq (PPick a fly page) s).
Proof.
  intros Hinv Ht. destruct (si_threads _ _ Hinv t _ Ht) as [Hrq (He & d & Hd & Hb)]. simpl in Hrq, He, Hd, Hb.
  pose proof (whole_nonneg rq Hrq). destruct (si_hs _ _ Hinv) as (qps & rr & Ehs & Hrr & Hl).
  pose proof (so_num y0 Hstart) as Hnum. pose proof (so_len y0 Hstart) as Hlen. unfold thread_step.
  assert (hs_num_qps (ts_hs s) = hs_num_qps hs0) as -> by (by rewrite Ehs). rewrite decide_False by lia.
  split; [|trank_lia]. apply advances_local; try done; [apply wrap_range; lia|auto|].
  split; [done|]. split.
  - pose proof (Z.mod_pos_bound (hs_rr_counter (ts_hs s)) (hs_num_qps hs0)). rewrite wrap_small by (unfold fits; lia). lia.
  - by exists d.
Qed.

(** Taking the lock. *)
Lemma lock_good t rq a fly page q s ths :
  sys_inv s ths -> ths !! t = Some (mk_thread rq (PLock a fly page q)) ->
  step_good t rq (PLock a fly page q) s ths (thread_step t rq (PLock a fly page q) s).
Proof.
  intros Hinv Ht. destruct (si_threads _ _ Hinv t _ Ht) as [Hrq (He & Hq & d & Hd & Hb)]. simpl in Hrq, He, Hd, Hb.
  pose proof (whole_nonneg rq Hrq). destruct (si_hs _ _ Hinv) as (qps & rr & Ehs & Hrr & Hl).
  destruct (inv_qp s ths q Hinv Hq) as (qp0 & qp & Hqp0 & Hqp & [Hst Hprp] & [Hr0 _]).
  unfold thread_step. rewrite Hqp.
  destruct (ts_locks s !! q) as [t1|] eqn:Hlk; [right; right; eauto 10|].
  pose proof (request_of t s rq fly d page qp0 q Hrq Hb Hqp0) as Hreq.
  split.
  - constructor; try done.
    + by exists qps, rr.
    + intros q1. simpl. destruct (decide (Some q = Some q1)) as [[= ->]|Hne].
      * by rewrite lookup_insert_eq.
      * rewrite lookup_insert_ne by congruence. done.
    + simpl. intros q1 [= <-]. auto.
    + intros q1 qp1 Hqp1. simpl in *. intros Hnone. apply lookup_insert_None in Hnone as [Hnone _].
      by apply (si_ready _ _ Hinv q1).
    + intros a' fly' Hu. split; [|auto]. by apply (si_uses _ _ Hinv t _ a' fly' Ht).
    + exists d, qp0, qp. split_and!; try done. unfold cs_ok, first_vars, at_loop. cbn [tv_done tv_lba tv_page].
      change (thread_events t _) with (thread_events t s). rewrite He.
      replace (hs_block_size (ts_hs s)) with (hs_block_size hs0) by (by rewrite Ehs).
      pose proof (loop_inv_start hs0 (qp_prp_dma qp0) (dma_ioaddrs d) (req_opcode rq) (req_size rq) (req_file_offset rq)
        (Z.to_nat page) (qp_sq qp0) [] (mk_io (qp_sq qp0) (qp_cq qp) (ts_sqmem s) (ts_prp s) (ts_dev s) [])
        Hreq Hr0 eq_refl eq_refl) as Hloop.
      rewrite Z2Nat.id in Hloop by (destruct Hb as (_ & _ & ? & _); lia).
      eapply (at_loop_sq _ _ _ _ _ _ _ _ (mk_tv _ _ _)); [exact Hloop| |done|done]. by apply (si_ready _ _ Hinv q).
  - unfold trank. cbn [th_pc th_rq ts_hs sh_set_locks]. rewrite Hqp. simpl. unfold blocks. simpl. rewrite Z.sub_0_r. lia.
Qed.

(** Leaving the loop gives the lock back. *)
Lemma exit_good t rq a fly page q r s ths :
  sys_inv s ths -> ths !! t = Some (mk_thread rq (PRun a fly page q (CExit r))) ->
  step_good t rq (PRun a fly page q (CExit r)) s ths (thread_step t rq (PRun a fly page q (CExit r)) s).
Proof.
  intros Hinv Ht. destruct (si_threads _ _ Hinv t _ Ht) as [Hrq (d & qp0 & qp & Hd & Hb & Hqp0 & Hqp & Hc)].
  simpl in Hrq, Hd, Hb. destruct Hc as (Hr & _ & n & Hn & Hm & Hres). simpl in Hr, Hm.
  assert (ts_locks s !! q = Some t) as Hlk by (apply (si_locks _ _ Hinv); by eexists).
  unfold thread_step. rewrite decide_True by done.
  set (p' := if fly then PUnmap a r else PReturned r).
  assert (lock_of p' = None) as Hp' by (by destruct fly).
  split; [|unfold trank; cbn [th_pc th_rq]; rewrite Hqp; destruct fly; simpl; lia].
  constructor; try done.
  - by apply (si_hs _ _ Hinv).
  - intros q1. simpl. rewrite Hp'. destruct (decide (Some q = Some q1)) as [[= ->]|Hne].
    + by rewrite lookup_delete_eq.
    + rewrite lookup_delete_ne by congruence. done.
  - intros q1. by rewrite Hp'.
  - intros q1 qp1 Hqp1 Hnone. simpl in *. destruct (decide (q1 = q)) as [->|Hne].
    + by simplify_eq.
    + rewrite lookup_delete_ne in Hnone by done. by apply (si_ready _ _ Hinv q1).
  - intros a' fly' Hu. assert (a' = a /\ fly' = fly) as [-> ->] by (unfold p' in Hu; destruct fly; by simplify_eq/=).
    split; [|auto]. by apply (si_uses _ _ Hinv t _ a fly Ht).
  - assert (result_ok t s rq r) as Hrok by (right; by exists fly, d, page, q, qp0, n).
    subst p'. by destruct fly.
Qed.

Lemma thread_events_put t t' q qp st s :
  thread_events t' (qp_put s t q qp st) =
    if decide (t' = t) then thread_events t s ++ io_trace st else thread_events t' s.
Proof.
  unfold thread_events, qp_put. cbn [ts_trace]. rewrite filter_app, fmap_app.
  assert (forall l : list io_event, snd <$> filter (fun x : nat * io_event => x.1 = t') ((fun ev => (t, ev)) <$> l) =
    if decide (t' = t) then l else []) as ->.
  { intros l. induction l as [|ev l IH]; [by case_decide|]. rewrite fmap_cons, filter_cons. cbn [fst].
    destruct (decide (t = t')) as [<-|Hne].
    - rewrite decide_True in IH |- * by done. by rewrite fmap_cons, IH.
    - rewrite decide_False in IH |- * by done. exact IH. }
  case_decide as Ht; [by subst|]. by rewrite app_nil_r.
Qed.

(** A step of the owner of a queue pair leaves the others alone. *)
Lemma put_unaffected t t' rq a fly page q c th qp0 qp tr (st : io_st E) s ths :
  sys_inv s ths -> ths !! t = Some (mk_thread rq (PRun a fly page q c)) -> ths !! t' = Some th -> t' <> t ->
  hs_qps hs0 !! q = Some qp0 -> own_writes hs0 (qp_prp_dma qp0) (qp_sq qp0) (add_trace tr (qp_view s qp)) (add_trace tr st) ->
  unaffected t' (th_pc th) s (qp_put s t q qp st).
Proof.
  intros Hinv Ht Hth Hne Hqp0 (Hsm & Hpm & _). split; [by rewrite thread_events_put, decide_False|].
  split; [done|]. split; [done|]. intros q' Hq'.
  assert (q' <> q) as Hqq.
  { intros ->. assert (ts_locks s !! q = Some t) by (apply (si_locks _ _ Hinv); by eexists).
    assert (ts_locks s !! q = Some t') by (apply (si_locks _ _ Hinv); by eexists). congruence. }
  split; [simpl; by rewrite list_lookup_insert_ne|]. intros qp1 Hqp1.
  destruct (so_apart y0 Hstart q' q qp1 qp0 Hqq Hqp1 Hqp0) as [Hap1 Hap2].
  split; intros x Hx; [apply Hsm|apply Hpm]; auto.
Qed.

Lemma qp_view_trace t s qp :
  mk_io (qp_sq qp) (qp_cq qp) (ts_sqmem s) (ts_prp s) (ts_dev s) (thread_events t s) =
    add_trace (thread_events t s) (qp_view s qp).
Proof. unfold add_trace. simpl. by rewrite app_nil_r. Qed.

Lemma run_good t rq a fly page q c s ths :
  sys_inv s ths -> ths !! t = Some (mk_thread rq (PRun a fly page q c)) -> (forall r, c <> CExit r) ->
  step_good t rq (PRun a fly page q c) s ths (thread_step t rq (PRun a fly page q c) s).
Proof.
  intros Hinv Ht Hne. destruct (si_threads _ _ Hinv t _ Ht) as [Hrq (d & qp0 & qp & Hd & Hb & Hqp0 & Hqp & Hc)].
  simpl in Hrq, Hd, Hb. destruct (si_hs _ _ Hinv) as (qps & rr & Ehs & Hrr & Hl).
  assert (ts_locks s !! q = Some t) as Hlk by (apply (si_locks _ _ Hinv); by eexists).
  assert (qp_like qp0 qp) as [Hst Hprp].
  { rewrite Ehs in Hqp. by eapply (Forall2_lookup_lr _ _ _ q). }
  pose proof (request_of t s rq fly d page qp0 q Hrq Hb Hqp0) as Hreq.
  pose proof (cs_step_ok _ _ _ _ _ _ _ _ c _ Hreq Hc Hne) as (c' & st' & Es & Hc' & Hown & Hrank).
  assert (thread_step t rq (PRun a fly page q c) s =
    match cs_step hs0 (qp_prp_dma qp0) (req_opcode rq) (req_size rq) (Some d) c (qp_view s qp) with
    | None => Undefined
    | Some (c, st) => Next (PRun a fly page q c, qp_put s t q qp st)
    end) as ->.
  { rewrite <- (cs_step_set hs0 qps rr), <- Ehs. unfold thread_step. rewrite Hqp, Hd, Hprp.
    destruct c; try reflexivity. by destruct (Hne result). }
  rewrite qp_view_trace, cs_step_trace in Es. rewrite qp_view_trace in Hown.
  destruct (cs_step _ _ _ _ _ _ (qp_view s qp)) as [[c2 st]|]; [|done]. injection Es as <- <-.
  assert (hs_qps (ts_hs (qp_put s t q qp st)) !! q = Some (mk_qp (io_sq st) (io_cq st) (qp_sq_dma qp) (qp_cq_dma qp)
    (qp_prp_dma qp) (qp_sq_buf qp) (qp_cq_buf qp) (qp_prp_buf qp))) as Hput.
  { simpl. apply list_lookup_insert_eq. by eapply lookup_lt_Some. }
  assert (sq_static (qp_sq qp0) (io_sq st)) as Hst' by (by eapply cs_ok_static in Hc').
  split.
  - constructor; try done.
    + exists (<[q := mk_qp (io_sq st) (io_cq st) (qp_sq_dma qp) (qp_cq_dma qp) (qp_prp_dma qp) (qp_sq_buf qp) (qp_cq_buf qp)
        (qp_prp_buf qp)]> qps), rr. simpl. rewrite Ehs. split; [done|]. split; [done|].
      rewrite <- (list_insert_id _ _ _ Hqp0). by apply Forall2_insert.
    + intros q1. simpl. destruct (decide (Some q = Some q1)) as [[= <-]|]; done.
    + simpl. intros q1 [= <-]. auto.
    + intros q1 qp1. simpl. intros Hqp1 Hnone. assert (q1 <> q) by congruence.
      rewrite list_lookup_insert_ne in Hqp1 by done. by apply (si_ready _ _ Hinv q1).
    + intros a' fly' Hu. split; [|auto]. by apply (si_uses _ _ Hinv t _ a' fly' Ht).
    + intros t' th Hn Hth. eapply put_unaffected; try done.
    + eexists d, qp0, _. split_and!; [done|by apply (buffer_of_same t s)|done|exact Hput|].
      rewrite thread_events_put, decide_True by done. exact Hc'.
  - unfold trank. cbn [th_pc th_rq]. rewrite Hput, Hqp. cbn [qp_sq]. simpl in Hrank. lia.
Qed.

Lemma unmap_good t rq a r s ths :
  sys_inv s ths -> ths !! t = Some (mk_thread rq (PUnmap a r)) ->
  step_good t rq (PUnmap a r) s ths (thread_step t rq (PUnmap a r) s).
Proof.
  intros Hinv Ht. destruct (si_threads _ _ Hinv t _ Ht) as [Hrq Hres]. simpl in Hrq, Hres.
  destruct (si_uses _ _ Hinv t _ a true Ht eq_refl) as [[d Hd] _].
  destruct (si_fly _ _ Hinv t _ a Ht eq_refl) as [Hreg Hoth].
  unfold thread_step. rewrite Hd. split; [|trank_lia]. constructor; try done.
  - by apply (si_hs _ _ Hinv).
  - intros q qp. apply (si_ready _ _ Hinv).
  - intros b a' Hb. simpl. apply lookup_delete_ne. intros ->. by destruct (Hreg b).
  - intros t' th Hne Hth. split; [done|]. split; [done|]. split; [|done]. intros a' fly Hu. simpl.
    apply lookup_delete_ne. intros <-. by apply Hne, (Hoth t' th fly).
Qed.

Lemma thread_step_good t rq p s ths :
  sys_inv s ths -> ths !! t = Some (mk_thread rq p) -> step_good t rq p s ths (thread_step t rq p s).
Proof.
  intros Hinv Ht. destruct p as [|a| |a fly page|a fly page q|a fly page q c|a r|r].
  - by apply start_good.
  - by apply check_good.
  - by left.
  - by apply pick_good.
  - by apply lock_good.
  - destruct c; try by apply run_good. by apply exit_good.
  - by apply unmap_good.
  - right. left. eauto.
Qed.

(** ** The other events *)

Lemma mapped_good t rq a d s ths :
  sys_inv s ths -> ths !! t = Some (mk_thread rq PMap) -> ts_dmas s !! a = None -> dma_ok d ->
  cdiv (req_size rq) ps <= dma_n_ioaddrs d ->
  let s' := sh_set_dmas s (ts_registry s) (<[a := d]> (ts_dmas s)) (ts_mapped s ++ [(t, d)]) in
  advances t rq PMap (PPick a true 0) s s' ths.
Proof.
  intros Hinv Ht Hnone Hd Hcov s'. destruct (si_threads _ _ Hinv t _ Ht) as [Hrq (He & Hm & Hargs)].
  assert (forall t' fly th a', ths !! t' = Some th -> uses (th_pc th) = Some (a', fly) -> a' <> a) as Hfresh.
  { intros t' fly th a' Hth Hu ->. destruct (si_uses _ _ Hinv t' th a fly Hth Hu) as [[? ?] _]. congruence. }
  constructor; try done.
  - by apply (si_hs _ _ Hinv).
  - intros q qp. apply (si_ready _ _ Hinv).
  - intros b a' Hb. simpl. apply lookup_insert_ne. intros <-.
    destruct (si_registry _ _ Hinv b a Hb) as (_ & [? ?] & _). congruence.
  - intros a' fly [= <- <-]. simpl. rewrite lookup_insert_eq. eauto.
  - intros t' th Hne Hth. split; [done|]. split.
    + unfold thread_mapped. simpl. rewrite filter_app, filter_cons_False by (simpl; congruence). by rewrite filter_nil, app_nil_r.
    + split; [|done]. intros a' fly Hu. simpl. apply lookup_insert_ne. intros <-. by eapply Hfresh.
  - split; [done|]. exists d. simpl. rewrite lookup_insert_eq. split; [done|].
    assert (thread_mapped t s' = [d]) as Hmt.
    { unfold thread_mapped in Hm |- *. simpl. rewrite filter_app, fmap_app, Hm, filter_cons_True by done. done. }
    by split_and!.
Qed.

Lemma dereg_good buf a s ths :
  sys_inv s ths -> ts_registry s !! buf = Some a ->
  (forall t th a' fly, ths !! t = Some th -> uses (th_pc th) = Some (a', fly) -> ts_registry s !! buf <> Some a') ->
  sys_inv (sh_set_dmas s (delete buf (ts_registry s)) (delete a (ts_dmas s)) (ts_mapped s)) ths.
Proof.
  intros Hinv Hbuf Hno. set (s' := sh_set_dmas _ _ _ _).
  assert (forall t th a' fly, ths !! t = Some th -> uses (th_pc th) = Some (a', fly) ->
    ts_dmas s' !! a' = ts_dmas s !! a') as Hd.
  { intros t th a' fly Hth Hu. simpl. apply lookup_delete_ne. intros <-. by destruct (Hno t th a fly Hth Hu). }
  constructor; try by apply Hinv.
  - intros b a1 Hb. simpl in Hb. apply lookup_delete_Some in Hb as [Hne Hb].
    destruct (si_registry _ _ Hinv b a1 Hb) as (Hb0 & Hs & Heq). split; [done|]. simpl.
    rewrite lookup_delete_ne; [done|]. intros <-. apply Hne.
    destruct (si_registry _ _ Hinv buf a Hbuf) as (Hbuf0 & _). by eapply (so_inj y0 Hstart).
  - intros t th a' fly Hth Hu. rewrite (Hd t th a' fly Hth Hu).
    destruct (si_uses _ _ Hinv t th a' fly Hth Hu) as [His Hr]. split; [done|]. intros Hf. simpl.
    rewrite lookup_delete_ne; [by apply Hr|]. intros ->. by destruct (Hno t th a' fly Hth Hu); apply Hr.
  - intros t th a' Hth Hu. destruct (si_fly _ _ Hinv t th a' Hth Hu) as [Hr Ho]. split; [|done].
    intros b Hb. simpl in Hb. apply lookup_delete_Some in Hb as [_ Hb]. by destruct (Hr b).
  - intros t th Hth. destruct (si_threads _ _ Hinv t th Hth) as [Hrq Hok]. split; [done|].
    eapply unaffected_ok; [|exact Hok]. split; [done|]. split; [done|]. split; [|done].
    intros a' fly Hu. by eapply Hd.
Qed.

(** ** Ranks of all threads *)

Definition total_rank (s : shared E) (ths : list thread) : Z := foldr (fun th acc => trank s th + acc) 0 ths.

Lemma total_step s s' ths t th th' :
  ths !! t = Some th -> (forall t' x, t' <> t -> ths !! t' = Some x -> trank s' x = trank s x) ->
  total_rank s' (<[t := th']> ths) = total_rank s ths - trank s th + trank s' th'.
Proof.
  revert t. induction ths as [|x ths IH]; intros [|t] Ht Hoth; simpl in *; simplify_eq.
  - assert (total_rank s' ths = total_rank s ths) as ->; [|lia].
    clear IH. assert (forall i y, ths !! i = Some y -> trank s' y = trank s y) as Hall by (intros i y; apply (Hoth (S i)); lia).
    clear Hoth. induction ths as [|y ths IH]; simpl; [done|]. rewrite (Hall 0%nat y eq_refl), IH; [done|].
    intros i z. apply (Hall (S i)).
  - rewrite (IH t Ht); [|intros t' y Hne; apply (Hoth (S t')); lia].
    rewrite (Hoth 0%nat x) by done. lia.
Qed.

Lemma unaffected_rank t s s' th : unaffected t (th_pc th) s s' -> trank s' th = trank s th.
Proof.
  intros (_ & _ & _ & Hq). unfold trank. destruct (th_pc th) as [| | | | |a fly page q c| |]; try done.
  by destruct (Hq q eq_refl) as [-> _].
Qed.

Lemma advance_total t rq p p' s s' ths :
  ths !! t = Some (mk_thread rq p) -> advances t rq p p' s s' ths ->
  trank s' (mk_thread rq p') < trank s (mk_thread rq p) ->
  total_rank s' (<[t := mk_thread rq p']> ths) < total_rank s ths.
Proof.
  intros Ht Had Hlt. rewrite (total_step s s' ths t _ _ Ht); [lia|].
  intros t' x Hne Hx. apply (unaffected_rank t'). by apply (ad_others _ _ _ _ _ _ _ Had).
Qed.

Definition by_thread (l : label) : bool := match l with Deregister _ => false | _ => true end.

(** Every event that can happen is defined, keeps the invariant, and brings the end closer if it
    is not a deregistration. *)
Lemma sys_step_good l y :
  sys_inv (ts_sh y) (ts_threads y) -> label_ok l y ->
  match sys_step l y with
  | Next y' => sys_inv (ts_sh y') (ts_threads y') /\
      (if by_thread l then total_rank (ts_sh y') (ts_threads y') < total_rank (ts_sh y) (ts_threads y)
       else total_rank (ts_sh y') (ts_threads y') = total_rank (ts_sh y) (ts_threads y))
  | Blocked => True
  | Undefined => False
  end.
Proof.
  destruct y as [s ths]. cbn [ts_sh ts_threads]. intros Hinv Hl. destruct l as [t|t r|buf]; cbn [sys_step ts_sh ts_threads by_thread].
  - destruct (ths !! t) as [[rq p]|] eqn:Ht; [|done]. cbn [th_rq th_pc].
    pose proof (thread_step_good t rq p s ths Hinv Ht) as Hg. destruct (thread_step t rq p s) as [[p' s']| |]; [|done|done].
    destruct Hg as [Had [_ Hlt]]. split; [by eapply advance|by eapply advance_total].
  - destruct (ths !! t) as [[rq p]|] eqn:Ht; [|done]. destruct p; try done.
    destruct (si_threads _ _ Hinv t _ Ht) as [Hrq (He & Hm & Hargs)]. simpl in Hrq, He, Hm, Hargs. pose proof (whole_nonneg rq Hrq).
    destruct r as [[a d]|]; cbn [map_returns ts_sh ts_threads].
    + destruct Hl as (Hnone & Hd & Hcov). simpl in Hnone. specialize (Hcov _ Ht). cbn [ts_sh th_rq] in Hcov.
      rewrite (inv_page s ths Hinv) in Hcov.
      pose proof (mapped_good t rq a d s ths Hinv Ht Hnone Hd Hcov) as Had. cbv zeta in Had.
      split; [by eapply advance|]. eapply advance_total; [done|exact Had|]. trank_lia.
    + assert (advances t rq PMap (PReturned (- EIO)) s s ths) as Had.
      { apply advances_stay; try done. left. auto. }
      split; [by eapply advance|]. eapply advance_total; [done|exact Had|]. trank_lia.
  - unfold deregister. destruct (ts_registry s !! buf) as [a|] eqn:Hb; [|done].
    destruct (si_registry _ _ Hinv buf a Hb) as (_ & [d Hd] & _). rewrite Hd. cbn [ts_sh ts_threads].
    split; [|done]. by apply dereg_good.
Qed.

Lemma start_inv : sys_inv s0 (ts_threads y0).
Proof.
  constructor.
  - exists (hs_qps hs0), (hs_rr_counter hs0). split; [by destruct hs0|]. split; [apply Hstart|].
    apply Forall_Forall2_diag, Forall_true. done.
  - intros q t. rewrite (so_locks y0 Hstart), lookup_empty. split; [done|]. intros (th & Hth & Hlk).
    destruct (so_threads y0 Hstart t th Hth) as [Hp _]. by rewrite Hp in Hlk.
  - intros q qp Hqp _. by apply (Forall_lookup_1 _ _ _ _ (so_qps y0 Hstart) Hqp).
  - intros b a Hb. destruct (so_registry y0 Hstart b a Hb) as (d & Hd & _). eauto.
  - intros t th a fly Hth Hu. destruct (so_threads y0 Hstart t th Hth) as [Hp _]. by rewrite Hp in Hu.
  - intros t th a Hth Hu. destruct (so_threads y0 Hstart t th Hth) as [Hp _]. by rewrite Hp in Hu.
  - intros t th Hth. destruct (so_threads y0 Hstart t th Hth) as [Hp Hrq]. split; [done|]. rewrite Hp.
    split; unfold thread_events, thread_mapped; [by rewrite (so_trace y0 Hstart)|by rewrite (so_mapped y0 Hstart)].
Qed.
End system.

(** ** The theorems *)

(** Runs, with the number of events that are not deregistrations. *)
Inductive truns {E : Type} `{Device E} (y0 : tsys E) : nat -> tsys E -> Prop :=
  | truns_start : truns y0 0 y0
  | truns_step n l y y' : truns y0 n y -> label_ok l y -> sys_step l y = Next y' ->
      truns y0 (if by_thread l then S n else n) y'.

Section theorems.
Context {E : Type} `{Device E}.

Lemma treach_inv (y0 y : tsys E) : start_ok y0 -> treach y0 y -> sys_inv y0 (ts_sh y) (ts_threads y).
Proof.
  intros Hstart. induction 1 as [|l y y' _ IH Hl Hs]; [by apply start_inv|].
  pose proof (sys_step_good y0 Hstart l y IH Hl) as Hg. rewrite Hs in Hg. by destruct Hg.
Qed.

(** C2: whatever the threads of a process transfer at the same time through one handle, in
    whatever order their steps interleave and whatever the controller does, nothing undefined
    happens, and no two threads are in the transfer loop of the same queue pair. *)
Theorem threads_safe (y0 y : tsys E) :
  start_ok y0 -> treach y0 y ->
  (forall l, label_ok l y -> sys_step l y <> Undefined) /\
  (forall t t' th th' q, ts_threads y !! t = Some th -> ts_threads y !! t' = Some th' ->
     lock_of (th_pc th) = Some q -> lock_of (th_pc th') = Some q -> t = t').
Proof.
  intros Hstart Hy. pose proof (treach_inv y0 y Hstart Hy) as Hinv. split.
  - intros l Hl Hs. pose proof (sys_step_good y0 Hstart l y Hinv Hl) as Hg. by rewrite Hs in Hg.
  - intros t t' th th' q Ht Ht' Hq Hq'.
    assert (ts_locks (ts_sh y) !! q = Some t) by (apply (si_locks _ _ _ Hinv); eauto).
    assert (ts_locks (ts_sh y) !! q = Some t') by (apply (si_locks _ _ _ Hinv); eauto). congruence.
Qed.

(** C3: in every interleaving a call that has returned was either refused without ringing a
    doorbell, or the doorbells it rang, among all those of the process, asked for the first [n]
    bytes of its own request on its own buffer, in order and nothing else, and [n] is the whole
    request when it returned the size. *)
Theorem threads_transfer (y0 y : tsys E) t th r :
  start_ok y0 -> treach y0 y -> ts_threads y !! t = Some th -> th_pc th = PReturned r ->
  result_ok y0 t (ts_sh y) (th_rq th) r.
Proof.
  intros Hstart Hy Ht Hp. pose proof (treach_inv y0 y Hstart Hy) as Hinv.
  destruct (si_threads _ _ _ Hinv t th Ht) as [_ Hok]. by rewrite Hp in Hok.
Qed.

Lemma trank_nonneg (y0 : tsys E) s ths t th :
  start_ok y0 -> sys_inv y0 s ths -> ths !! t = Some th -> 0 <= trank y0 s th.
Proof.
  intros Hstart Hinv Ht. destruct th as [rq p]. destruct (si_threads _ _ _ Hinv t _ Ht) as [Hrq Hok]. simpl in Hrq, Hok.
  pose proof (whole_nonneg y0 Hstart rq Hrq).
  pose proof (thread_step_good y0 Hstart t rq p s ths Hinv Ht) as Hg.
  destruct (thread_step t rq p s) as [[p' s']| |]; simpl in Hg; [lia| |done].
  destruct Hg as [->|[[r ->]|(a & fly & page & q & -> & _)]]; unfold trank; cbn [th_pc th_rq]; lia.
Qed.

Lemma total_nonneg (y0 : tsys E) s ths :
  (forall t th, ths !! t = Some th -> 0 <= trank y0 s th) -> 0 <= total_rank y0 s ths.
Proof.
  induction ths as [|th ths IH]; intros Hall; simpl; [done|].
  pose proof (Hall 0%nat th eq_refl). assert (0 <= total_rank y0 s ths); [|lia]. apply IH. intros t x. apply (Hall (S t)).
Qed.

Lemma truns_total (y0 y : tsys E) n :
  start_ok y0 -> truns y0 n y -> sys_inv y0 (ts_sh y) (ts_threads y) /\
  Z.of_nat n + total_rank y0 (ts_sh y) (ts_threads y) <= total_rank y0 (ts_sh y0) (ts_threads y0).
Proof.
  intros Hstart. induction 1 as [|n l y y' _ [IH Hle] Hl Hs]; [split; [by apply start_inv|lia]|].
  pose proof (sys_step_good y0 Hstart l y IH Hl) as Hg. rewrite Hs in Hg. destruct Hg as [Hinv Ht].
  split; [done|]. destruct (by_thread l); lia.
Qed.

(** Somebody can go on until all have returned: whoever waits for a lock waits for a thread that
    can go on. *)
Lemma threads_progress (y0 y : tsys E) t th :
  start_ok y0 -> sys_inv y0 (ts_sh y) (ts_threads y) -> ts_threads y !! t = Some th ->
  (forall r, th_pc th <> PReturned r) ->
  exists l y', by_thread l = true /\ label_ok l y /\ sys_step l y = Next y'.
Proof.
  intros Hstart Hinv Ht Hne.
  assert (forall t th, ts_threads y !! t = Some th -> (exists r, thread_step t (th_rq th) (th_pc th) (ts_sh y) = Next r) ->
    exists l y', by_thread l = true /\ label_ok l y /\ sys_step l y = Next y') as Hrun.
  { intros t1 th1 Ht1 [[p s] Hs]. exists (Run t1). simpl. rewrite Ht1, Hs. by eexists. }
  destruct th as [rq p]. pose proof (thread_step_good y0 Hstart t rq p _ _ Hinv Ht) as Hg.
  destruct (thread_step t rq p (ts_sh y)) as [x| |] eqn:Hs; [by apply (Hrun t _ Ht); exists x| |done].
  destruct Hg as [->|[[r ->]|(a & fly & page & q & -> & [t1 Hlk])]].
  - exists (Mapped t None). simpl. rewrite Ht. by eexists.
  - by destruct (Hne r).
  - apply (si_locks _ _ _ Hinv) in Hlk as ([rq1 p1] & Ht1 & Hl1).
    pose proof (thread_step_good y0 Hstart t1 rq1 p1 _ _ Hinv Ht1) as Hg1. apply (Hrun t1 _ Ht1).
    destruct (thread_step t1 rq1 p1 (ts_sh y)) as [x1| |] eqn:Hs1; [by exists x1| |done].
    by destruct Hg1 as [->|[[r ->]|(? & ? & ? & ? & -> & _)]].
Qed.

(** C15: every call returns.  A schedule, however unfair, has at most [total_rank] steps, a number known
    at the start, and as long as a call has not returned some thread can take a step: the locks
    do not deadlock, and no wait for the controller is endless. *)
Theorem threads_return (y0 y : tsys E) n :
  start_ok y0 -> truns y0 n y ->
  Z.of_nat n <= total_rank y0 (ts_sh y0) (ts_threads y0) /\
  ((forall t th, ts_threads y !! t = Some th -> exists r, th_pc th = PReturned r) \/
   exists l y', by_thread l = true /\ label_ok l y /\ sys_step l y = Next y').
Proof.
  intros Hstart Hy. destruct (truns_total y0 y n Hstart Hy) as [Hinv Hle]. split.
  - assert (0 <= total_rank y0 (ts_sh y) (ts_threads y)); [|lia]. apply total_nonneg. intros t th Ht. by eapply trank_nonneg.
  - destruct (decide (Forall (fun th => match th_pc th with PReturned _ => true | _ => false end = true) (ts_threads y))) as [Hall|Hsome].
    + left. intros t th Ht. pose proof (Forall_lookup_1 _ _ _ _ Hall Ht) as Hp. simpl in Hp. destruct (th_pc th); eauto; done.
    + right. apply not_Forall_Exists in Hsome; [|apply _]. apply Exists_exists in Hsome as (th & Hin & Hp).
      apply list_elem_of_lookup in Hin as [t Ht]. eapply threads_progress; try done. intros r Hr. apply Hp. by rewrite Hr.
Qed.
End theorems.
