(* ===== verification/UgdsThreadsSolo.v ===== *)
(** * One thread alone

    The steps of UgdsThreads.v are those of [do_io]: a thread that nobody disturbs returns what
    [do_io] returns and leaves handle, memory and controller in the same state. *)
From S2P Require Import Prelude NvmTypes NvmUtil NvmQueue NvmCmd UgdsTypes NvmDevice UgdsIo.
From S2P Require Import UgdsThreads UgdsThreadsInv.
From stdpp Require Import prelude gmap functions list relations.
From Stdlib Require Import ZArith Lia.
Local Open Scope Z_scope.
Local Open Scope ugds_scope.

(** A loop whose turns are runs of [R] is a run of [R]. *)
Lemma iter_fuel_rtc {S T A} (R : relation A) (f : S -> S + T) (emb : S -> A) (fin : T -> A -> Prop) n s r :
  iter_fuel n f s = inr r ->
  (forall s s', f s = inl s' -> rtc R (emb s) (emb s')) ->
  (forall s r, f s = inr r -> exists a, rtc R (emb s) a /\ fin r a) ->
  exists a, rtc R (emb s) a /\ fin r a.
Proof.
  intros Hr Hin Hout. revert s Hr. induction n as [|n IH]; intros s; simpl; [done|].
  destruct (f s) as [s'|r'] eqn:Ef; [|intros [= <-]; by apply Hout].
  intros Hr. destruct (IH s' Hr) as (a & Ha & Hfin). exists a. split; [|done]. etrans; [by apply Hin|done].
Qed.

Section loop.
Context {E : Type} `{Device E}.
Context (hs : HandleState nvm_ctrl_t nvm_dma_t) (qp_prp : option nvm_dma_t) (buf : nvm_dma_t) (opcode size : Z).

Definition cs_rel (x y : cs * io_st E) : Prop := cs_step hs qp_prp opcode size (Some buf) x.1 x.2 = Some y.

Lemma cs_rel_once c st y : cs_step hs qp_prp opcode size (Some buf) c st = Some y -> rtc cs_rel (c, st) y.
Proof. intros Hs. by apply rtc_once. Qed.

(** A poll from the state [at_spins] of the loop. *)
Lemma poll_solo (at_spins : Z -> cs) (got : nvm_cpl_t -> cs) st r st' :
  (forall n st, cs_step hs qp_prp opcode size (Some buf) (at_spins n) st = Some (poll_step hs at_spins got n st)) ->
  busy_poll (ctrl_timeout (hs_ctrl hs)) st = Some (r, st') ->
  rtc cs_rel (at_spins 0, st) (match r with Some c => got c | None => CExit (- EIO) end, st').
Proof.
  intros Hstep. unfold busy_poll. rewrite iter_until_fuel. fold (poll_max hs).
  destruct (iter_fuel _ _ _) as [|r1] eqn:Ei; [done|]. intros [= ->].
  destruct (iter_fuel_rtc cs_rel (poll_turn (poll_max hs)) (fun x => (at_spins x.1, x.2))
    (fun r a => a = (match r.1 with Some c => got c | None => CExit (- EIO) end, r.2)) _ _ _
    Ei) as (a & Ha & Hfin).
  - intros [n s] [n' s'] Ep. apply cs_rel_once. cbn [fst snd]. rewrite Hstep. unfold poll_step. by rewrite Ep.
  - intros [n s] [o s'] Ep. eexists. split; [|done]. apply cs_rel_once. cbn [fst snd]. rewrite Hstep. unfold poll_step.
    rewrite Ep. by destruct o.
  - by rewrite Hfin in Ha.
Qed.

Lemma slot_solo v st r st' :
  take_slot (ctrl_timeout (hs_ctrl hs)) st = Some (r, st') ->
  rtc cs_rel (CSlot v, st) (match r with Some a => CBuild v a | None => CExit (- EIO) end, st').
Proof.
  unfold take_slot. rewrite iter_until_fuel. destruct (iter_fuel _ _ _) as [|r1] eqn:Ei; [done|]. intros ->.
  destruct (iter_fuel_rtc cs_rel (slot_turn (ctrl_timeout (hs_ctrl hs))) (fun s => (CSlot v, s))
    (fun r a => forall o s, r = Some (o, s) -> a = (match o with Some a => CBuild v a | None => CExit (- EIO) end, s)) _ _ _
    Ei) as (a & Ha & Hfin).
  - intros s s'. unfold slot_turn. destruct (nvm_sq_enqueue (io_sq s)) as [[a|] q] eqn:Eq; [done|].
    destruct (busy_poll _ s) as [[[c|] s1]|] eqn:Ep; [|done|done].
    destruct (consume s1) as [[u s2]|] eqn:Ec; [|done]. case_decide as Hst; [done|]. intros [= <-].
    eapply rtc_l; [unfold cs_rel; cbn [cs_step fst snd]; by rewrite Eq|].
    etrans; [by apply (poll_solo (CDrain v) (CDrained v) s (Some c) s1); [done|exact Ep]|].
    apply cs_rel_once. cbn [cs_step]. rewrite Ec. by rewrite decide_False by tauto.
  - intros s o. unfold slot_turn. destruct (nvm_sq_enqueue (io_sq s)) as [[a|] q] eqn:Eq.
    { intros [= <-]. eexists. split; [apply cs_rel_once; cbn [cs_step]; by rewrite Eq|]. by intros ? ? [= <- <-]. }
    destruct (busy_poll _ s) as [[[c|] s1]|] eqn:Ep.
    + destruct (consume s1) as [[u s2]|] eqn:Ec; [case_decide as Hst; [|done]|]; intros [= <-].
      * exists (CExit (- EIO), s2). split; [|by intros ? ? [= <- <-]].
        eapply rtc_l; [unfold cs_rel; cbn [cs_step fst snd]; by rewrite Eq|].
        etrans; [by apply (poll_solo (CDrain v) (CDrained v) s (Some c) s1); [done|exact Ep]|].
        apply cs_rel_once. cbn [cs_step]. rewrite Ec. by rewrite decide_True.
      * eexists. split; [reflexivity|done].
    + intros [= <-]. exists (CExit (- EIO), s1). split; [|by intros ? ? [= <- <-]].
      eapply rtc_l; [unfold cs_rel; cbn [cs_step fst snd]; by rewrite Eq|].
      by apply (poll_solo (CDrain v) (CDrained v) s None s1).
    + intros [= <-]. eexists. split; [reflexivity|done].
  - by rewrite (Hfin r st' eq_refl) in Ha.
Qed.

Definition loop_vars (s : io_loop E) : vars := mk_tv (lp_done s) (lp_lba s) (lp_page s).

(** The turn in terms of the variables of a thread. *)
Lemma io_turn_vars v (st : io_st E) :
  io_turn hs qp_prp (dma_ioaddrs buf) opcode size (max_xfer hs (ctrl_page_size (hs_ctrl hs)))
    (mk_loop (tv_done v) (tv_lba v) (tv_page v) st) =
  if decide (tv_done v < size) then
    if decide (chunk_size hs size v = 0) then inr (Some (- EINVAL, st))
    else
      match take_slot (ctrl_timeout (hs_ctrl hs)) st with
      | None => inr None
      | Some (None, st) => inr (Some (- EIO, st))
      | Some (Some cmd, st) =>
          match submit_chunk hs qp_prp (dma_ioaddrs buf) opcode cmd (tv_page v) (n_pages hs size v) (tv_lba v)
                  (n_blocks hs size v) st with
          | None => inr None
          | Some (_, st) =>
              match busy_poll (ctrl_timeout (hs_ctrl hs)) st with
              | None => inr None
              | Some (None, st) => inr (Some (- EIO, st))
              | Some (Some cpl, st) =>
                  match consume st with
                  | None => inr None
                  | Some (_, st) =>
                      if decide (cpl_status cpl <> 0) then inr (Some (- EIO, st))
                      else inl (mk_loop (u64 (tv_done v + chunk_size hs size v)) (u64 (tv_lba v + n_blocks hs size v))
                                  (u64 (tv_page v + n_pages hs size v)) st)
                  end
              end
          end
      end
  else inr (Some (s64 (tv_done v), st)).
Proof.
  unfold io_turn, n_blocks, n_pages, chunk_size, chunk_limit. cbv zeta. cbn [lp_done lp_lba lp_page lp_st]. reflexivity.
Qed.

Lemma turn_solo v (st : io_st E) :
  match io_turn hs qp_prp (dma_ioaddrs buf) opcode size (max_xfer hs (ctrl_page_size (hs_ctrl hs)))
          (mk_loop (tv_done v) (tv_lba v) (tv_page v) st) with
  | inl s' => rtc cs_rel (CTop v, st) (CTop (loop_vars s'), lp_st s')
  | inr (Some (r, st')) => rtc cs_rel (CTop v, st) (CExit r, st')
  | inr None => True
  end.
Proof.
  rewrite io_turn_vars. destruct (decide (tv_done v < size)) as [Hlt|Hge].
  2:{ apply cs_rel_once. cbn [cs_step]. by rewrite decide_False. }
  destruct (decide (chunk_size hs size v = 0)) as [Hz|Hnz].
  { apply cs_rel_once. cbn [cs_step]. by rewrite decide_True, decide_True. }
  assert (cs_rel (CTop v, st) (CSlot v, st)) as Htop.
  { unfold cs_rel. cbn [cs_step fst snd]. by rewrite decide_True, decide_False. }
  destruct (take_slot _ st) as [[[a|] st1]|] eqn:Et; [| |done].
  2:{ eapply rtc_l; [exact Htop|]. by apply (slot_solo v st None). }
  pose proof (rtc_l _ _ _ _ Htop (slot_solo v st (Some a) st1 Et)) as Hto. cbv beta iota in Hto. clear Htop Et.
  unfold submit_chunk, mbind, M_bind.
  destruct (build_chunk _ _ _ _ _ _ _ _ _ st1) as [[u1 st2]|] eqn:Eb; [|done].
  destruct (ring_doorbell st2) as [[u2 st3]|] eqn:Er; [|done].
  assert (rtc cs_rel (CTop v, st) (CWait v 0, st3)) as Hw.
  { etrans; [exact Hto|]. eapply rtc_l; [unfold cs_rel; cbn [cs_step fst snd]; rewrite Eb; reflexivity|].
    apply cs_rel_once. cbn [cs_step]. by rewrite Er. }
  destruct (busy_poll _ st3) as [[[c|] st4]|] eqn:Ep; [| |done].
  2:{ etrans; [exact Hw|]. by apply (poll_solo (CWait v) (CDone v) st3 None st4). }
  assert (rtc cs_rel (CTop v, st) (CDone v c, st4)) as Hd.
  { etrans; [exact Hw|]. by apply (poll_solo (CWait v) (CDone v) st3 (Some c) st4). }
  destruct (consume st4) as [[u3 st5]|] eqn:Ec; [|done].
  case_decide as Hst; (eapply rtc_r; [exact Hd|]); unfold cs_rel; cbn [cs_step fst snd]; rewrite Ec;
    [by rewrite decide_True|by rewrite decide_False by tauto].
Qed.

Lemma run_solo start_lba page0 (st : io_st E) r st' :
  io_run hs qp_prp (dma_ioaddrs buf) opcode size start_lba page0 st = Some (r, st') ->
  rtc cs_rel (CTop (mk_tv 0 start_lba page0), st) (CExit r, st').
Proof.
  unfold io_run. rewrite iter_until_fuel. destruct (iter_fuel _ _ _) as [|r1] eqn:Ei; [done|]. intros ->.
  destruct (iter_fuel_rtc cs_rel _ (fun s => (CTop (loop_vars s), lp_st s))
    (fun o a => forall r st, o = Some (r, st) -> a = (CExit r, st)) _ _ _ Ei) as (a & Ha & Hfin).
  - intros [d l p s] s' Et. pose proof (turn_solo (mk_tv d l p) s) as Ht. cbn [tv_done tv_lba tv_page] in Ht. by rewrite Et in Ht.
  - intros [d l p s] o Et. pose proof (turn_solo (mk_tv d l p) s) as Ht. cbn [tv_done tv_lba tv_page] in Ht. rewrite Et in Ht.
    destruct o as [[r2 st2]|]; [exists (CExit r2, st2); split; [done|by intros ? ? [= <- <-]]|].
    eexists. split; [reflexivity|done].
  - by rewrite (Hfin r st' eq_refl) in Ha.
Qed.
End loop.

(** ** The whole call *)

Section call.
Context {E : Type} `{Device E} {W : Type} `{DmaOps W}.

Lemma treach_trans (y1 y2 y3 : tsys E) : treach y1 y2 -> treach y2 y3 -> treach y1 y3.
Proof. intros H12. induction 1 as [|l y y' _ IH Hl Hs]; [done|]. by eapply treach_step. Qed.

Lemma treach_run (s s' : shared E) ths t rq p p' :
  (t < length ths)%nat -> thread_step t rq p s = Next (p', s') ->
  treach (mk_tsys s (<[t := mk_thread rq p]> ths)) (mk_tsys s' (<[t := mk_thread rq p']> ths)).
Proof.
  intros Hlt Hs. eapply (treach_step _ (Run t)); [constructor|done|].
  cbn [sys_step ts_threads ts_sh]. rewrite list_lookup_insert_eq by done. cbn [th_rq th_pc].
  rewrite Hs. by rewrite list_insert_insert_eq.
Qed.

(** The shared state while [t] is in the loop on queue pair [q], [st] being its own view. *)
Definition loop_shared (s : shared E) (t q : nat) (qp : IOQueuePair nvm_dma_t) (rr : Z) (locks : gmap nat nat)
    (st : io_st E) : shared E :=
  mk_shared (hs_set_qps (ts_hs s)
      (<[q := mk_qp (io_sq st) (io_cq st) (qp_sq_dma qp) (qp_cq_dma qp) (qp_prp_dma qp)
                (qp_sq_buf qp) (qp_cq_buf qp) (qp_prp_buf qp)]> (hs_qps (ts_hs s))) rr)
    (ts_registry s) (ts_dmas s) (io_sqmem st) (io_prp st) (io_dev st) locks
    (ts_trace s ++ ((fun ev => (t, ev)) <$> io_trace st)) (ts_mapped s).

Lemma loop_step_solo (s : shared E) t q qp rr locks a d page rq c st c' st' :
  hs_qps (ts_hs s) !! q = Some qp -> ts_dmas s !! a = Some d ->
  cs_step (ts_hs s) (qp_prp_dma qp) (req_opcode rq) (req_size rq) (Some d) c st = Some (c', st') ->
  thread_step t rq (PRun a false page q c) (loop_shared s t q qp rr locks st) =
    Next (PRun a false page q c', loop_shared s t q qp rr locks st').
Proof.
  intros Hqp Hd Hs. set (y := loop_shared s t q qp rr locks st).
  set (qp1 := mk_qp (io_sq st) (io_cq st) (qp_sq_dma qp) (qp_cq_dma qp) (qp_prp_dma qp)
                (qp_sq_buf qp) (qp_cq_buf qp) (qp_prp_buf qp)).
  assert (hs_qps (ts_hs y) !! q = Some qp1) as Hy by (apply list_lookup_insert_eq; by eapply lookup_lt_Some).
  assert (st = add_trace (io_trace st) (qp_view y qp1)) as Hst by (unfold add_trace; simpl; rewrite app_nil_r; by destruct st).
  assert (thread_step t rq (PRun a false page q c) y =
    match cs_step (ts_hs s) (qp_prp_dma qp) (req_opcode rq) (req_size rq) (Some d) c (qp_view y qp1) with
    | None => Undefined
    | Some (c, st) => Next (PRun a false page q c, qp_put y t q qp1 st)
    end) as ->.
  { rewrite <- (cs_step_set (ts_hs s) (hs_qps (ts_hs y)) rr). unfold thread_step. rewrite Hy.
    change (ts_dmas y) with (ts_dmas s). rewrite Hd. destruct c; try reflexivity. done. }
  rewrite Hst, cs_step_trace in Hs. destruct (cs_step _ _ _ _ _ _ (qp_view y qp1)) as [[c2 st2]|]; [|done].
  injection Hs as <- <-. f_equal. f_equal. unfold qp_put, loop_shared, y. simpl.
  rewrite fmap_app, <- app_assoc. f_equal. f_equal. by rewrite list_insert_insert_eq.
Qed.

Lemma loop_run_solo (s : shared E) ths t q qp rr locks a d page rq x y :
  (t < length ths)%nat -> hs_qps (ts_hs s) !! q = Some qp -> ts_dmas s !! a = Some d ->
  rtc (cs_rel (ts_hs s) (qp_prp_dma qp) d (req_opcode rq) (req_size rq)) x y ->
  treach (mk_tsys (loop_shared s t q qp rr locks x.2) (<[t := mk_thread rq (PRun a false page q x.1)]> ths))
    (mk_tsys (loop_shared s t q qp rr locks y.2) (<[t := mk_thread rq (PRun a false page q y.1)]> ths)).
Proof.
  intros Hlt Hqp Hd. induction 1 as [x|x y z Hxy _ IH]; [constructor|].
  eapply treach_trans; [|exact IH]. apply treach_run; [done|]. destruct x as [c st], y as [c' st'].
  by eapply loop_step_solo.
Qed.

(** What the shared state and the state of [do_io] have in common; the doorbells are those of
    [t] since the call began. *)
Record agrees (s0 s : shared E) (t : nat) (w : io_world E W) : Prop := {
  ag_hs : ts_hs s = w_hs w;
  ag_sqmem : ts_sqmem s = w_sqmem w;
  ag_prp : ts_prp s = w_prp w;
  ag_dev : ts_dev s = w_dev w;
  ag_trace : ts_trace s = ts_trace s0 ++ ((fun ev => (t, ev)) <$> w_trace w);
  ag_locks : ts_locks s = ts_locks s0;
  ag_registry : ts_registry s = ts_registry s0;
  ag_dmas : ts_dmas s = ts_dmas s0;
}.

(** From the choice of the queue pair to the end of the loop. *)
Lemma with_qp_solo (s : shared E) ths t rq a d page (w w' : io_world E W) r :
  (t < length ths)%nat -> ts_locks s = ∅ -> ts_dmas s !! a = Some d -> agrees s s t w ->
  with_qp (dma_ioaddrs d) (req_opcode rq) (req_size rq) (req_file_offset rq / hs_block_size (w_hs w)) page w = Some (r, w') ->
  exists s', treach (mk_tsys s (<[t := mk_thread rq (PPick a false page)]> ths))
      (mk_tsys s' (<[t := mk_thread rq (PReturned r)]> ths)) /\ agrees s s' t w'.
Proof.
  intros Hlt Hlk Hd [Ehs Esq Epr Edev Etr _ _ _]. unfold with_qp. case_decide as Hn; [done|].
  rewrite <- Ehs in Hn |- *. set (q := u16 _). destruct ((hs_qps (ts_hs s)) @[q]) as [qp|] eqn:Hq; [|done].
  assert (hs_qps (ts_hs s) !! Z.to_nat q = Some qp) as Hqp by (unfold zlookup in Hq; by case_decide).
  set (st := mk_io _ _ _ _ _ _). destruct (io_run _ _ _ _ _ _ _ st) as [[r1 st']|] eqn:Er; [|done].
  intros [= -> <-]. set (rr := u32 (hs_rr_counter (ts_hs s) + 1)).
  assert (w_trace w = []) as Ew.
  { apply (f_equal length) in Etr. rewrite length_app, length_fmap in Etr. destruct (w_trace w); [done|simpl in Etr; lia]. }
  apply (run_solo (ts_hs s) (qp_prp_dma qp) d) in Er.
  apply (loop_run_solo s ths t (Z.to_nat q) qp rr {[Z.to_nat q := t]} a d page rq) in Er; [|done..].
  exists (loop_shared s t (Z.to_nat q) qp rr ∅ st'). split; [|by constructor].
  set (s1 := sh_set_hs s (hs_set_qps (ts_hs s) (hs_qps (ts_hs s)) rr)).
  eapply treach_trans; [apply (treach_run s s1 _ _ _ _ (PLock a false page (Z.to_nat q)) Hlt)|].
  { unfold thread_step. by rewrite decide_False. }
  eapply treach_trans.
  { eapply (treach_run s1 (sh_set_locks s1 (<[Z.to_nat q := t]> ∅)) _ _ _ _ _ Hlt). unfold thread_step.
    cbn [s1 sh_set_hs ts_hs hs_qps hs_set_qps ts_locks]. rewrite Hqp, Hlk, lookup_empty. reflexivity. }
  assert (loop_shared s t (Z.to_nat q) qp rr {[Z.to_nat q := t]} st = sh_set_locks s1 (<[Z.to_nat q := t]> ∅)) as Est.
  { unfold loop_shared, sh_set_locks. simpl. rewrite Ew, Esq, Epr, Edev, app_nil_r.
    f_equal. f_equal. apply list_insert_id. rewrite Hqp. by destruct qp. }
  simpl in Er. rewrite Est in Er. unfold first_vars. eapply treach_trans; [exact Er|].
  apply treach_run; [done|]. unfold thread_step, loop_shared. cbn [ts_locks].
  rewrite decide_True by apply lookup_insert_eq. unfold sh_set_locks. simpl. by rewrite delete_singleton_eq.
Qed.

(** C18: the steps of a thread are those of [do_io].  A call on a registered buffer that no other
    thread interrupts takes the steps of the threads' model to the result of [do_io], and the
    handle, the memory, the controller and the doorbells are then what [do_io] leaves. *)
Theorem solo_do_io (s : shared E) ths t rq a d (w w' : io_world E W) r :
  ths !! t = Some (mk_thread rq PStart) -> ts_locks s = ∅ ->
  ts_registry s !! req_buf rq = Some a -> ts_dmas s !! a = Some d ->
  agrees s s t w -> w_registry w !! req_buf rq = Some d ->
  do_io (req_fh rq) (req_buf rq) (req_size rq) (req_file_offset rq) (req_buf_offset rq) (req_opcode rq) w = Some (r, w') ->
  exists s', treach (mk_tsys s ths) (mk_tsys s' (<[t := mk_thread rq (PReturned r)]> ths)) /\ agrees s s' t w'.
Proof.
  intros Ht Hlk Hreg Hd Hag Hw. apply lookup_lt_Some in Ht as Hlt. 
  assert (mk_tsys s ths = mk_tsys s (<[t := mk_thread rq PStart]> ths)) as -> by (by rewrite list_insert_id).
  pose proof (ag_hs _ _ _ _ Hag) as Ehs. unfold do_io. rewrite <- Ehs.
  destruct (bad_args _ _ _ _ _ (ts_hs s)) eqn:Hargs.
  { intros [= <- <-]. exists s. split; [|done]. apply treach_run; [done|]. unfold thread_step. by rewrite Hargs. }
  rewrite Hw. assert (thread_step t rq PStart s = Next (PCheck a, s)) as H1.
  { unfold thread_step. by rewrite Hargs, Hreg. }
  pose proof (treach_run s s ths t rq _ _ Hlt H1) as Hr1. clear H1.
  destruct (decide (_ mod _ <> 0)) as [Hmis|Hal].
  { intros [= <- <-]. exists s. split; [|done]. eapply treach_trans; [exact Hr1|]. apply treach_run; [done|].
    unfold thread_step. by rewrite decide_True. }
  destruct (decide (_ > _)) as [Hlong|Hfit].
  { intros [= <- <-]. exists s. split; [|done]. eapply treach_trans; [exact Hr1|]. apply treach_run; [done|].
    unfold thread_step. rewrite decide_False, Hd by done. by rewrite decide_True. }
  rewrite Ehs. intros Hq. destruct (with_qp_solo s ths t rq a d _ w w' r Hlt Hlk Hd Hag Hq) as (s' & Hrun & Hag').
  exists s'. split; [|done]. eapply treach_trans; [exact Hr1|]. eapply treach_trans; [|exact Hrun].
  apply treach_run; [done|]. unfold thread_step. rewrite decide_False, Hd by done. rewrite decide_False by done. by rewrite Ehs.
Qed.
End call.
