(* ===== verification/UgdsThreadsCases.v ===== *)
(** * Concrete threads

    Three threads read through a handle with two queue pairs: an instance for the theorems on
    concurrent transfers, and the race between a transfer and [uGDSBufDeregister]. *)
From S2P Require Import Prelude NvmTypes NvmUtil NvmQueue NvmCmd UgdsTypes NvmDevice UgdsIo UgdsIoSpec UgdsIoCases.
From S2P Require Import UgdsThreads UgdsThreadsInv UgdsThreadsSpec UgdsThreadsSolo.
From stdpp Require Import prelude gmap functions list.
From Stdlib Require Import ZArith Lia.
Local Open Scope Z_scope.

(** A controller with two queue pairs, known by their doorbells, that completes a command as soon
    as it is submitted; its state is completion queue memory. *)
Definition duo_cq (db : Z) : Z := if decide (db = 0x7f001008) then 0x20000 else 0x60000.
Definition duo_cpl (tail : Z) : nvm_cpl_t := mk_cpl [0; 0; 0; 2 ^ 16 + tail].

#[local] Instance duo_dev : Device (Z -> nvm_cpl_t) :=
  {| dev_cpl e := e; dev_tick e := e;
     dev_sq_doorbell db tail _ _ e := <[duo_cq db + sizeof_cpl * (tail - 1) := duo_cpl tail]> e;
     dev_cq_doorbell _ _ e := e |}.

Definition duo_qp (no : Z) : IOQueuePair nvm_dma_t :=
  let base := no * 0x40000 in
  mk_qp (snd (nvm_queue_clear no_queue (sim_ctrl 0) false no sim_depth true (base - 0x30000) (base - 0x30000)))
    (snd (nvm_queue_clear no_queue (sim_ctrl 0) true no sim_depth true (base - 0x20000) (base - 0x20000)))
    None None (Some (mk_dma (base - 0x10000) true true 4096 1 [base - 0x10000])) 0 0 (base - 0x10000).
Definition duo_hs : HandleState nvm_ctrl_t nvm_dma_t :=
  mk_hs 3 (sim_ctrl 500) 1 None 0 sim_ctrl_info sim_ns_info 1 512 131072 32 2 [duo_qp 1; duo_qp 2] 0.

Definition duo_shared : shared (Z -> nvm_cpl_t) :=
  mk_shared duo_hs {[ 0x500000 := 11 ]} {[ 11 := sim_buf 64 ]} (fun _ => cmd_zero) (fun _ => 0) (fun _ => cpl_zero) ∅ [] [].

(** The first two take one queue pair each, the third waits for the first. *)
Definition duo_req (size fo bo op : Z) : io_request := mk_req 1 0x500000 size fo bo op.
Definition duo_threads : list thread :=
  [mk_thread (duo_req 204800 4096 8192 2) PStart; mk_thread (duo_req 4096 0 0 1) PStart;
   mk_thread (duo_req 512 1024 4096 2) PStart].
Definition duo_sys : tsys (Z -> nvm_cpl_t) := mk_tsys duo_shared duo_threads.

Lemma duo_geometry : geometry_ok duo_hs.
Proof. destruct (sim_geometry_ok 500). by constructor. Qed.

Lemma duo_qp_ok no : no = 1 \/ no = 2 -> qp_ok 4096 (duo_qp no).
Proof.
  intros Hno. split.
  - constructor; [| |by destruct Hno as [-> | ->]|done].
    + by apply (queue_clear_wf no_queue (sim_ctrl 0) false no sim_depth true (no * 0x40000 - 0x30000) (no * 0x40000 - 0x30000)).
    + by exists 1024.
  - eexists _, _, []. split; [done|]. split; [done|]. split; [unfold fits; lia|done].
Qed.

Lemma duo_slot no x : in_queue (qp_sq (duo_qp no)) x -> no * 0x40000 - 0x30000 <= x < no * 0x40000 - 0x20000.
Proof.
  intros (i & Hi & ->). assert (q_qs (qp_sq (duo_qp no)) = 64 /\ q_es (qp_sq (duo_qp no)) = 64) as [Hq He] by done.
  assert (q_vaddr (qp_sq (duo_qp no)) = no * 0x40000 - 0x30000) as Hv by done.
  unfold SqFifo.slot. rewrite Hq in Hi. rewrite He, Hv. lia.
Qed.

Lemma duo_start : start_ok duo_sys.
Proof.
  constructor; simpl; try done.
  - apply duo_geometry.
  - repeat constructor; apply duo_qp_ok; auto.
  - intros i j qp qp' Hij Hi Hj. destruct i as [|[|i]], j as [|[|j]]; try done; simpl in Hi, Hj; simplify_eq;
      (split; [intros x Hx%duo_slot Hx'%duo_slot; lia|intros x Hx Hx'; simpl in *; lia]).
  - intros b a Hb. apply lookup_singleton_Some in Hb as [_ <-]. exists (sim_buf 64). split; [done|]. by apply sim_buf_ok.
  - intros b b' a Hb Hb'. apply lookup_singleton_Some in Hb as [<- _], Hb' as [<- _]. done.
  - intros [|[|[|t]]] th Ht; simpl in Ht; simplify_eq; (split; [done|]); unfold req_ok, fits; simpl; lia.
Qed.

(** ** Schedules *)

(** Steps of threads; those that have to wait are skipped. *)
Fixpoint schedule (ts : list nat) (y : tsys (Z -> nvm_cpl_t)) : option (nat * tsys (Z -> nvm_cpl_t)) :=
  match ts with
  | [] => Some (0%nat, y)
  | t :: ts =>
      match sys_step (Run t) y with
      | Next y => match schedule ts y with Some (n, y) => Some (S n, y) | None => None end
      | Blocked => schedule ts y
      | Undefined => None
      end
  end.

Lemma treach_head (y0 y1 y : tsys (Z -> nvm_cpl_t)) l :
  label_ok l y0 -> sys_step l y0 = Next y1 -> treach y1 y -> treach y0 y.
Proof. intros Hl Hs. apply treach_trans. by eapply treach_step; [constructor|..]. Qed.

Lemma schedule_reach ts y n y' : schedule ts y = Some (n, y') -> treach y y'.
Proof.
  revert y n. induction ts as [|t ts IH]; intros y n; cbn [schedule]; [intros [= _ <-]; constructor|].
  destruct (sys_step (Run t) y) as [y1| |] eqn:Es; [|apply IH|done].
  destruct (schedule ts y1) as [[n1 y2]|] eqn:E2; [|done]. intros [= _ <-].
  eapply treach_head; [|exact Es|by eapply IH]. done.
Qed.

(** Turn by turn. *)
Definition turns (n : nat) : list nat := mjoin (replicate n [0; 1; 2])%nat.
Definition duo_after (n : nat) : tsys (Z -> nvm_cpl_t) := default duo_sys (snd <$> schedule (turns n) duo_sys).

Lemma duo_after_reach n : treach duo_sys (duo_after n).
Proof.
  unfold duo_after. destruct (schedule (turns n) duo_sys) as [[k y]|] eqn:Es; [|constructor].
  by eapply schedule_reach.
Qed.

(** After six turns two threads are in their loops and the third waits for the lock. *)
Example duo_waiting :
  (fun th => lock_of (th_pc th)) <$> ts_threads (duo_after 6) = [Some 0%nat; Some 1%nat; None].
Proof. by vm_compute. Qed.

Lemma threads_safe_witness :
  (forall l, label_ok l (duo_after 6) -> sys_step l (duo_after 6) <> Undefined) /\
  (forall t t' th th' q, ts_threads (duo_after 6) !! t = Some th -> ts_threads (duo_after 6) !! t' = Some th' ->
     lock_of (th_pc th) = Some q -> lock_of (th_pc th') = Some q -> t = t').
Proof. apply (threads_safe duo_sys (duo_after 6)); [apply duo_start|apply duo_after_reach]. Defined.

(** In the end all have returned what they asked for. *)
Example duo_results : (fun th => th_pc th) <$> ts_threads (duo_after 40) = [PReturned 204800; PReturned 4096; PReturned 512].
Proof. by vm_compute. Qed.

Lemma threads_transfer_witness : result_ok duo_sys 0 (ts_sh (duo_after 40)) (duo_req 204800 4096 8192 2) 204800.
Proof.
  apply (threads_transfer duo_sys (duo_after 40) 0 (mk_thread (duo_req 204800 4096 8192 2) (PReturned 204800)) 204800);
    [apply duo_start|apply duo_after_reach|by vm_compute|done].
Defined.

Lemma schedule_runs y0 n ts y m y' : truns y0 n y -> schedule ts y = Some (m, y') -> truns y0 (n + m) y'.
Proof.
  revert n y m. induction ts as [|t ts IH]; intros n y m Hn; cbn [schedule].
  - intros [= <- <-]. by rewrite Nat.add_0_r.
  - destruct (sys_step (Run t) y) as [y1| |] eqn:Es; [|by apply IH|done].
    destruct (schedule ts y1) as [[m1 y2]|] eqn:E2; [|done]. intros [= <- <-].
    replace (n + S m1)%nat with (S n + m1)%nat by lia. eapply IH; [|exact E2]. by apply (truns_step y0 n (Run t) y y1).
Qed.

(** In the first six turns the third thread had to wait three times. *)
Lemma threads_return_witness :
  exists n, Z.of_nat n <= total_rank duo_sys (ts_sh duo_sys) (ts_threads duo_sys) /\ n = 15%nat /\
  ((forall t th, ts_threads (duo_after 6) !! t = Some th -> exists r, th_pc th = PReturned r) \/
   exists l y', by_thread l = true /\ label_ok l (duo_after 6) /\ sys_step l (duo_after 6) = Next y').
Proof.
  exists 15%nat.
  assert (schedule (turns 6) duo_sys = Some (15%nat, duo_after 6)) as Es.
  { unfold duo_after. assert (fst <$> schedule (turns 6) duo_sys = Some 15%nat) as E1 by (by vm_compute).
    destruct (schedule (turns 6) duo_sys) as [[n y]|]; [|done]. simpl in *. congruence. }
  destruct (threads_return duo_sys (duo_after 6) 15) as [Hn Hp]; [apply duo_start| |by split_and!].
  by apply (schedule_runs duo_sys 0 (turns 6) duo_sys 15); [constructor|].
Defined.

(** The second thread alone does what [do_io] does. *)
#[local] Existing Instance sim_dma_ops.

Definition duo_world : io_world (Z -> nvm_cpl_t) (list Z) :=
  mk_world duo_hs {[ 0x500000 := sim_buf 64 ]} (fun _ => cmd_zero) (fun _ => 0) (fun _ => cpl_zero) [] [].

Lemma solo_do_io_witness :
  exists s', treach duo_sys (mk_tsys s' (<[1%nat := mk_thread (duo_req 4096 0 0 1) (PReturned 4096)]> duo_threads)) /\
    agrees duo_shared s' 1 (default duo_world (snd <$> do_io 1 0x500000 4096 0 0 1 duo_world)).
Proof.
  assert (fst <$> do_io 1 0x500000 4096 0 0 1 duo_world = Some 4096) as E1 by (by vm_compute).
  destruct (do_io 1 0x500000 4096 0 0 1 duo_world) as [[r w']|] eqn:Er; [|done]. simpl in E1 |- *. injection E1 as ->.
  by apply (solo_do_io duo_shared duo_threads 1 (duo_req 4096 0 0 1) 11 (sim_buf 64) duo_world w' 4096).
Defined.

