(* ===== verification/LibState.v ===== *)
(** * The objects libnvm allocates

    The structs of src/libnvm/internal/lib_ctrl.h, internal/dma.h, internal/map.h, dma.cpp and rpc.cpp, the
    process state that owns them (a finite map from addresses to objects), and the
    operating system: every fallible call takes its result from the class [Env]. *)
From S2P Require Import Prelude NvmTypes NvmUtil.
From stdpp Require Import prelude gmap gmultiset list.
From Stdlib Require Import ZArith Lia.
Local Open Scope Z_scope.

(** ** internal/lib_ctrl.h *)

Inductive device_type := DEVICE_TYPE_UNKNOWN | DEVICE_TYPE_IOCTL | DEVICE_TYPE_SMARTIO.

#[export] Instance device_type_eq_dec : EqDecision device_type.
Proof. solve_decision. Defined.

(** A [struct device_ops]: all its members null, or the three functions of linux_device.cpp. *)
Inductive device_ops := OPS_NULL | OPS_IOCTL.

#[export] Instance device_ops_eq_dec : EqDecision device_ops.
Proof. solve_decision. Defined.

(** The user's handle is a member of the controller, so one address stands for both. *)
Record controller := mk_controller {
  c_count : Z;            (* uint32_t *)
  c_type : device_type;
  c_device : Z;           (* struct device* *)
  c_ops : device_ops;
  c_handle : nvm_ctrl_t;
}.

Definition c_set_count (c : controller) (n : Z) : controller :=
  mk_controller n (c_type c) (c_device c) (c_ops c) (c_handle c).

(** ** internal/dma.h and internal/map.h *)

Record va_range := mk_va {
  va_remote : bool;
  va_vaddr : Z;
  va_page_size : Z;
  va_n_pages : Z;
}.

Inductive mapping_type := MAP_TYPE_CUDA | MAP_TYPE_HOST | MAP_TYPE_API | MAP_TYPE_DMABUF.

#[export] Instance mapping_type_eq_dec : EqDecision mapping_type.
Proof. solve_decision. Defined.

Record ioctl_mapping := mk_md {
  md_type : mapping_type;
  md_buffer : Z;
  md_range : va_range;
  md_dmabuf_fd : Z;
  md_dmabuf_offset : Z;
}.

(** An address range is allocated alone ([nvm_dma_map]) or inside a [struct ioctl_mapping]. *)
Inductive va_object := VA_PLAIN (va : va_range) | VA_IOCTL (md : ioctl_mapping).

Definition va_of (o : va_object) : va_range :=
  match o with VA_PLAIN va => va | VA_IOCTL md => md_range md end.

(** [va_range_free_t]: [free] or [release_mapping_descriptor]. *)
Inductive va_range_free_t := RELEASE_FREE | RELEASE_MD.

(** ** dma.cpp *)

(** [struct map]. *)
Record map_t := mk_map {
  m_count : Z;            (* uint32_t *)
  m_ctrl : Z;             (* struct controller* *)
  m_va : Z;               (* struct va_range* *)
  m_release : va_range_free_t;
  m_unmap : bool;         (* unmap != NULL *)
}.

Definition m_set_count (m : map_t) (n : Z) : map_t :=
  mk_map n (m_ctrl m) (m_va m) (m_release m) (m_unmap m).
Definition m_set_unmap (m : map_t) (b : bool) : map_t :=
  mk_map (m_count m) (m_ctrl m) (m_va m) (m_release m) b.

(** The container ends in an array of bus addresses; [k_cap] is the number of its elements. *)
Record container := mk_cont {
  k_map : Z;              (* struct map* *)
  k_cap : Z;
  k_handle : nvm_dma_t;
}.

(** ** rpc.cpp *)

(** [struct local_admin]. *)
Record local_admin := mk_admin {
  la_qmem : Z;            (* nvm_dma_t* *)
  la_acq : nvm_queue_t;
  la_asq : nvm_queue_t;
  la_timeout : Z;         (* uint64_t *)
}.

(** [struct rpc_handle]: the key, the instance data and the callback of a binding handle. *)
Record rpc_handle := mk_handle { rh_key : Z; rh_data : Z; rh_release : Z }.

(** The callbacks of a reference: those of a local admin queue, or someone else's. *)
Inductive rpc_free_binding_t := REMOVE_ADMIN | FREE_OTHER (f : Z).
Inductive rpc_stub_t := EXECUTE_COMMAND | STUB_OTHER (f : Z).

#[export] Instance rpc_free_binding_eq_dec : EqDecision rpc_free_binding_t.
Proof. solve_decision. Defined.
#[export] Instance rpc_stub_eq_dec : EqDecision rpc_stub_t.
Proof. solve_decision. Defined.

(** [struct nvm_admin_reference]; the linked list of handles is the list of its nodes. *)
Record nvm_admin_reference := mk_ref {
  ref_ctrl : Z;           (* struct controller* *)
  ref_handles : list rpc_handle;
  ref_data : Z;           (* void* *)
  ref_release : option rpc_free_binding_t;
  ref_stub : option rpc_stub_t;
}.

(** ** The process *)

(** What an address, or a descriptor, stands for. *)
Inductive obj :=
  | OCtrl (c : controller)
  | OMapping (m : map_t)
  | OCont (k : container)
  | OVa (v : va_object)
  | ODev (fd : Z)        (* struct device *)
  | OFd                  (* an open descriptor *)
  | OMm                  (* a mapped BAR0 window *)
  | OBuf                 (* the buffer of nvm_dma_create *)
  | ORaw                 (* memory just allocated *)
  | ORef (r : nvm_admin_reference)
  | OAdmin (a : local_admin).

Record lib := mk_lib {
  l_calls : nat;                  (* system calls made *)
  l_next : Z;                     (* next address or descriptor to hand out *)
  l_heap : gmap Z obj;            (* everything not yet released *)
  l_kmaps : gmultiset (Z * Z);    (* (descriptor, address) the kernel module has mapped *)
}.

Definition set_heap (s : lib) (heap : gmap Z obj) : lib :=
  mk_lib (l_calls s) (l_next s) heap (l_kmaps s).
Definition set_kmaps (s : lib) (kmaps : gmultiset (Z * Z)) : lib :=
  mk_lib (l_calls s) (l_next s) (l_heap s) kmaps.

(** Which GPU backend the library is compiled for. *)
Inductive gpu_backend := BACKEND_CUDA | BACKEND_HIP | BACKEND_NONE.

#[export] Instance gpu_backend_eq_dec : EqDecision gpu_backend.
Proof. solve_decision. Defined.

(** The operating system.  [sys n] is the result of the [n]-th call: 0 or an error number. *)
Class Env := {
  sys : nat -> Z;
  mmap_ok : nat -> bool;        (* whether the [n]-th call, an mmap, succeeds *)
  cap_reg : Z -> Z;             (* the CAP register behind a mapped BAR0 *)
  sc_pagesize : Z;              (* sysconf(_SC_PAGESIZE) *)
  io_addr : nat -> Z -> Z;      (* the bus address the kernel reports for a page *)
  backend : gpu_backend;
  uninit : nvm_queue_t;         (* what [malloc] leaves in a queue descriptor *)
}.

Section os.
Context `{Env}.

Definition sys_call : M lib Z := fun s =>
  Some (sys (l_calls s), mk_lib (S (l_calls s)) (l_next s) (l_heap s) (l_kmaps s)).

(** A new address that holds [o]. *)
Definition new_obj (o : obj) : M lib Z := fun s =>
  Some (l_next s, mk_lib (l_calls s) (l_next s + 1) (<[l_next s := o]> (l_heap s)) (l_kmaps s)).

(** New memory, or [NULL] when the allocator fails. *)
Definition malloc : M lib Z := r ← sys_call; if decide (r = 0) then new_obj ORaw else mret NULL.

(** Freeing what is not allocated memory is undefined. *)
Definition free (a : Z) : M lib unit :=
  if decide (a = NULL) then mret tt
  else
    s ← get;
    match l_heap s !! a with
    | None | Some OFd | Some OMm => undefined
    | Some _ => put (set_heap s (delete a (l_heap s)))
    end.

Definition store (a : Z) (o : obj) : M lib unit :=
  modify (fun s => set_heap s (<[a := o]> (l_heap s))).

(** Dereferencing an address that does not hold such an object is undefined. *)
Definition deref {V} (proj : obj -> option V) (a : Z) : M lib V :=
  s ← get; of_option (l_heap s !! a ≫= proj).

Definition as_ctrl (o : obj) : option controller := match o with OCtrl c => Some c | _ => None end.
Definition as_map (o : obj) : option map_t := match o with OMapping m => Some m | _ => None end.
Definition as_cont (o : obj) : option container := match o with OCont k => Some k | _ => None end.
Definition as_va (o : obj) : option va_object := match o with OVa v => Some v | _ => None end.
Definition as_ref (o : obj) : option nvm_admin_reference := match o with ORef r => Some r | _ => None end.
Definition as_admin (o : obj) : option local_admin := match o with OAdmin a => Some a | _ => None end.
Definition as_dev (o : obj) : option Z := match o with ODev fd => Some fd | _ => None end.

(** [close] and [munmap]: on something else they fail and change nothing. *)
Definition close_fd (fd : Z) : M lib unit :=
  modify (fun s => match l_heap s !! fd with
                   | Some OFd => set_heap s (delete fd (l_heap s)) | _ => s end).
Definition munmap (mm_ptr : Z) : M lib unit :=
  modify (fun s => match l_heap s !! mm_ptr with
                   | Some OMm => set_heap s (delete mm_ptr (l_heap s)) | _ => s end).

(** mutex.cpp: [_nvm_mutex_init] is [pthread_mutex_init]; the lock function returns success
    whatever pthread returns and unlocking returns nothing, so neither changes the state. *)
Definition _nvm_mutex_init : M lib Z := sys_call.
Definition _nvm_mutex_lock : M lib Z := mret 0.
End os.
