(* ===== verification/Ctrl.v ===== *)
(** * Controller handles (src/libnvm/ctrl.cpp, src/libnvm/linux_device.cpp)

    Reference-counted controller handles over the process state of LibState, the Linux device
    that backs them, and the controller reset on the register file. *)
From S2P Require Import Prelude NvmTypes NvmUtil LibState.
From stdpp Require Import prelude gmap list.
From Stdlib Require Import ZArith Lia.
Local Open Scope Z_scope.

Definition encode_page_size (ps : Z) : Z := _nvm_b2log (Z.shiftr ps 12).
Definition encode_entry_size (es : Z) : Z := _nvm_b2log es.

Section ctrl.
Context `{Env}.

Definition zero_ctrl : nvm_ctrl_t := mk_ctrl 0 0 0 0 0 NULL.

(** The new container, or [NULL]. *)
Definition create_handle (dev : Z) (ops : device_ops) (type : device_type) : M lib Z :=
  if decide (dev <> NULL /\ ops = OPS_NULL) then mret NULL
  else
    handle ← malloc;
    if decide (handle = NULL) then mret NULL
    else
      err ← _nvm_mutex_init;
      if decide (err <> 0) then free handle;; mret NULL
      else
        store handle (OCtrl (mk_controller 1 type dev ops zero_ctrl));;
        mret handle.

(** The loop on [EBUSY] ends at once: the lock is not held. *)
Definition remove_handle (handle : Z) : M lib unit :=
  _ ← deref as_ctrl handle; free handle.

Definition _nvm_ctrl_get (ctrl : Z) : M lib Z :=
  if decide (ctrl <> NULL) then
    controller ← deref as_ctrl ctrl;
    err ← _nvm_mutex_lock;
    if decide (err <> 0) then mret NULL
    else
      store ctrl (OCtrl (c_set_count controller (u32 (c_count controller + 1))));;
      mret ctrl
  else mret NULL.

(** linux_device.cpp: unmap BAR0, close the descriptor and free the device. *)
Definition release_device (dev mm_ptr mm_size : Z) : M lib unit :=
  fd ← deref as_dev dev;
  munmap mm_ptr;; close_fd fd;; free dev.

Definition _nvm_ctrl_put (controller : Z) : M lib unit :=
  if decide (controller <> NULL) then
    c ← deref as_ctrl controller;
    let count := u32 (c_count c - 1) in
    store controller (OCtrl (c_set_count c count));;
    if decide (count = 0) then
      (if decide (c_device c <> NULL) then
         match c_ops c with
         | OPS_IOCTL => release_device (c_device c) (ctrl_mm_ptr (c_handle c)) (ctrl_mm_size (c_handle c))
         | OPS_NULL => undefined
         end
       else mret tt);;
      store controller (OCtrl (mk_controller count (c_type c) NULL (c_ops c) (c_handle c)));;
      remove_handle controller
    else mret tt
  else mret tt.

(** Reading a register of a window that is not mapped is undefined. *)
Definition read_cap (mm_ptr : Z) : M lib Z :=
  s ← get;
  match l_heap s !! mm_ptr with Some OMm => mret (cap_reg mm_ptr) | _ => undefined end.

Definition set_handle (a : Z) (h : nvm_ctrl_t) : M lib unit :=
  c ← deref as_ctrl a;
  store a (OCtrl (mk_controller (c_count c) (c_type c) (c_device c) (c_ops c) h)).

(** Returns the error number and [*handle]. *)
Definition _nvm_ctrl_init (dev : Z) (ops : device_ops) (type : device_type) (mm_ptr mm_size : Z)
    : M lib (Z * Z) :=
  container ← create_handle dev ops type;
  if decide (container = NULL) then mret (ENOMEM, NULL)
  else
    set_handle container (mk_ctrl 0 0 0 0 mm_size mm_ptr);;
    if decide (mm_size < NVM_CTRL_MEM_MINSIZE) then remove_handle container;; mret (EINVAL, NULL)
    else
      let page_size := _nvm_host_page_size sc_pagesize in
      if decide (page_size = 0) then remove_handle container;; mret (ENOMEM, NULL)
      else
        let host_page_size := u8 (encode_page_size page_size) in
        cap ← read_cap mm_ptr;
        let max_page_size := u8 (CAP_MPSMAX cap) in
        let min_page_size := u8 (CAP_MPSMIN cap) in
        if decide (~ (min_page_size <= host_page_size /\ host_page_size <= max_page_size)) then
          remove_handle container;; mret (ERANGE, NULL)
        else
          set_handle container
            (mk_ctrl page_size (u8 (CAP_DSTRD cap)) (u64 (CAP_TO cap * 500)) (u32 (CAP_MQES cap + 1))
               mm_size mm_ptr);;
          mret (0, container).

Definition nvm_ctrl_free (ctrl : Z) : M lib unit :=
  if decide (ctrl <> NULL) then _nvm_ctrl_put ctrl else mret tt.

Definition nvm_raw_ctrl_init (mm_ptr mm_size : Z) : M lib (Z * Z) :=
  _nvm_ctrl_init NULL OPS_NULL DEVICE_TYPE_UNKNOWN mm_ptr mm_size.

(** ** linux_device.cpp: nvm_ctrl_init *)

(** [MAP_FAILED] is [(void* ) -1]. *)
Definition MAP_FAILED : Z := 2 ^ 64 - 1.

Definition mmap : M lib Z :=
  n ← gets l_calls; _ ← sys_call; if mmap_ok n then new_obj OMm else mret MAP_FAILED.

(** [dup]: a new descriptor, or -1. *)
Definition dup : M lib Z := r ← sys_call; if decide (r = 0) then new_obj OFd else mret (-1).

Definition last_errno : M lib Z := gets (fun s => sys (l_calls s - 1)).

Definition nvm_ctrl_init (filedes : Z) : M lib (Z * Z) :=
  dev ← malloc;
  if decide (dev = NULL) then mret (ENOMEM, NULL)
  else
    fd ← dup;
    if decide (fd < 0) then free dev;; errno ← last_errno; mret (errno, NULL)
    else
      store dev (ODev fd);;
      err ← sys_call;                          (* fcntl(dev->fd, F_SETFD, O_RDWR) *)
      if decide (err <> 0) then
        close_fd fd;; free dev;; mret (err, NULL)
      else
        mm_ptr ← mmap;
        if decide (mm_ptr = NULL) then
          close_fd fd;; free dev;; errno ← last_errno; mret (errno, NULL)
        else
          r ← _nvm_ctrl_init dev OPS_IOCTL DEVICE_TYPE_IOCTL mm_ptr NVM_CTRL_MEM_MINSIZE;
          if decide (fst r <> 0) then
            release_device dev mm_ptr NVM_CTRL_MEM_MINSIZE;; mret (fst r, NULL)
          else mret r.
End ctrl.
