(* ===== verification/CtrlThreads.v ===== *)
(** * References to a controller taken and put by several threads (src/src/libnvm/ctrl.cpp, mutex.cpp)

    [_nvm_ctrl_get] and [_nvm_ctrl_put] step by step: taking the lock, changing the count,
    releasing the device and the lock, and freeing the controller.  Threads interleave in any
    order, and may hand references to each other. *)
From stdpp Require Import prelude list.
From Stdlib Require Import ZArith Lia.
From S2P Require Import Prelude.
Local Open Scope Z_scope.

(** The members of [struct controller] the two functions use: who holds [lock], [count], whether
    [device] is set. *)
Record ctrl_cell := mk_cell { cc_lock : option nat; cc_count : Z; cc_device : bool }.

(** Where a thread is. *)
Inductive ref_pc :=
  | Idle
  | GetLock | GetInc | GetUnlock
  | PutLock | PutDec | PutUnlock (count : Z)
  | Removing.                                            (* [remove_handle] *)

#[export] Instance ref_pc_eq_dec : EqDecision ref_pc.
Proof. solve_decision. Defined.

(** A thread, and the references it has. *)
Record ref_thread := mk_rt { rt_pc : ref_pc; rt_owned : nat }.

(** The controller, until it is freed, how often the device was released, and the threads. *)
Record refs := mk_refs { rf_cell : option ctrl_cell; rf_released : nat; rf_threads : list ref_thread }.

(** [pthread_mutex_lock]: [None] when the thread has to wait. *)
Definition mutex_lock (t : nat) (c : ctrl_cell) : option ctrl_cell :=
  match cc_lock c with None => Some (mk_cell (Some t) (cc_count c) (cc_device c)) | Some _ => None end.
(** [pthread_mutex_unlock] by a thread that does not hold the lock is undefined. *)
Definition mutex_unlock (t : nat) (c : ctrl_cell) : option ctrl_cell :=
  if decide (cc_lock c = Some t) then Some (mk_cell None (cc_count c) (cc_device c)) else None.

(** [pthread_mutex_destroy] gives [EBUSY] while the lock is held. *)
Definition mutex_busy (c : ctrl_cell) : bool := bool_decide (is_Some (cc_lock c)).

Definition set_thread (t : nat) (th : ref_thread) (c : option ctrl_cell) (rel : nat) (s : refs) : refs :=
  mk_refs c rel (<[t := th]> (rf_threads s)).

(** One step of thread [t]; [None] is undefined: the controller is gone, or the lock is not held.
    A thread that waits stays where it is. *)
Definition ref_step (t : nat) (s : refs) : option refs :=
  match rf_threads s !! t with
  | None | Some (mk_rt Idle _) => Some s
  | Some (mk_rt pc owned) =>
      c ← rf_cell s;
      let go pc owned c := Some (set_thread t (mk_rt pc owned) (Some c) (rf_released s) s) in
      match pc with
      | Idle => Some s
      | GetLock => match mutex_lock t c with Some c => go GetInc owned c | None => Some s end
      | GetInc => go GetUnlock owned (mk_cell (cc_lock c) (u32 (cc_count c + 1)) (cc_device c))
      | GetUnlock => c ← mutex_unlock t c; go Idle (S owned) c
      | PutLock => match mutex_lock t c with Some c => go PutDec owned c | None => Some s end
      | PutDec =>
          let count := u32 (cc_count c - 1) in
          if decide (count = 0)
          then Some (set_thread t (mk_rt (PutUnlock count) owned) (Some (mk_cell (cc_lock c) count false))
                       (rf_released s + (if cc_device c then 1 else 0))%nat s)
          else go (PutUnlock count) owned (mk_cell (cc_lock c) count (cc_device c))
      | PutUnlock count => c ← mutex_unlock t c; go (if decide (count = 0) then Removing else Idle) owned c
      | Removing =>                                      (* [while (status == EBUSY)] *)
          if mutex_busy c then Some s else Some (set_thread t (mk_rt Idle owned) None (rf_released s) s)
      end
  end.

(** A thread that has a reference takes another, puts it, or hands it on. *)
Inductive ref_act := BeginGet (t : nat) | BeginPut (t : nat) | Pass (t t' : nat) | Step (t : nat).

Definition ref_do (a : ref_act) (s : refs) : option refs :=
  match a with
  | Step t => ref_step t s
  | BeginGet t =>
      match rf_threads s !! t with
      | Some (mk_rt Idle (S owned)) => Some (set_thread t (mk_rt GetLock (S owned)) (rf_cell s) (rf_released s) s)
      | _ => Some s
      end
  | BeginPut t =>
      match rf_threads s !! t with
      | Some (mk_rt Idle (S owned)) => Some (set_thread t (mk_rt PutLock owned) (rf_cell s) (rf_released s) s)
      | _ => Some s
      end
  | Pass t t' =>
      match rf_threads s !! t, rf_threads s !! t' with
      | Some (mk_rt Idle (S owned)), Some (mk_rt pc owned') =>
          if decide (t = t') then Some s
          else Some (mk_refs (rf_cell s) (rf_released s)
                       (<[t' := mk_rt pc (S owned')]> (<[t := mk_rt Idle owned]> (rf_threads s))))
      | _, _ => Some s
      end
  end.

(** The references there are: those of the threads, those being put, and those being taken. *)
Definition weight (th : ref_thread) : nat :=
  (rt_owned th + match rt_pc th with PutLock | PutDec | GetUnlock => 1 | _ => 0 end)%nat.
Definition total (s : refs) : Z := Z.of_nat (sum_list_with weight (rf_threads s)).

(** [_nvm_ctrl_init] gives the first thread the only reference; [n] other threads. *)
Definition refs_start (n : nat) : refs :=
  mk_refs (Some (mk_cell None 1 true)) 0 (mk_rt Idle 1 :: replicate n (mk_rt Idle 0)).

(** The count is a [uint32_t]: fewer than 2^32 references at any time. *)
Inductive refs_reach (n : nat) : refs -> Prop :=
  | refs_reach_start : refs_reach n (refs_start n)
  | refs_reach_do a s s' : refs_reach n s -> ref_do a s = Some s' -> total s' < 2 ^ 32 -> refs_reach n s'.

(** ** The invariant *)
Definition critical (pc : ref_pc) : bool :=
  match pc with GetInc | GetUnlock | PutDec | PutUnlock _ => true | _ => false end.

Definition thread_ok (c : ctrl_cell) (t : nat) (th : ref_thread) : Prop :=
  (cc_lock c = Some t <-> critical (rt_pc th) = true)
  /\ match rt_pc th with
     | GetLock | GetInc | GetUnlock => (1 <= rt_owned th)%nat
     | PutUnlock n => n = cc_count c
     | Removing => cc_count c = 0
     | _ => True
     end.

(** The thread that put the last reference. *)
Definition last_put (pc : ref_pc) : Prop := pc = PutUnlock 0 \/ pc = Removing.

Definition cell_ok (s : refs) (c : ctrl_cell) : Prop :=
  cc_count c = total s
  /\ (forall t th, rf_threads s !! t = Some th -> thread_ok c t th)
  /\ (forall t, cc_lock c = Some t -> is_Some (rf_threads s !! t))
  /\ (0 < cc_count c -> cc_device c = true /\ rf_released s = 0%nat)
  /\ (cc_count c = 0 -> cc_device c = false /\ rf_released s = 1%nat
        /\ exists t th, rf_threads s !! t = Some th /\ last_put (rt_pc th)
           /\ forall t' th', rf_threads s !! t' = Some th' -> t' <> t -> rt_pc th' = Idle).

Definition refs_inv (s : refs) : Prop :=
  match rf_cell s with
  | Some c => cell_ok s c
  | None => rf_released s = 1%nat /\ total s = 0 /\ forall t th, rf_threads s !! t = Some th -> rt_pc th = Idle
  end.

Lemma sum_insert ts t th th' :
  ts !! t = Some th ->
  (sum_list_with weight (<[t := th']> ts) + weight th = sum_list_with weight ts + weight th')%nat.
Proof.
  revert t. induction ts as [|x ts IH]; intros [|t] H; simplify_eq/=; [lia|]. specialize (IH _ H). lia.
Qed.

Lemma weight_le ts t th : ts !! t = Some th -> (weight th <= sum_list_with weight ts)%nat.
Proof. revert t. induction ts as [|x ts IH]; intros [|t] H; simplify_eq/=; [lia|]. specialize (IH _ H). lia. Qed.

Lemma total_set t th th' c rel s :
  rf_threads s !! t = Some th ->
  total (set_thread t th' c rel s) = total s + Z.of_nat (weight th') - Z.of_nat (weight th).
Proof. intros H. unfold total. simpl. pose proof (sum_insert _ _ _ th' H). lia. Qed.

Lemma lookup_set (t : nat) (th' : ref_thread) (ts : list ref_thread) (t' : nat) x :
  <[t := th']> ts !! t' = Some x -> (t' = t /\ x = th' /\ is_Some (ts !! t)) \/ (t' <> t /\ ts !! t' = Some x).
Proof.
  intros [(-> & -> & H)|[? ?]]%list_lookup_insert_Some; [left|right]; split_and?; auto.
  by apply lookup_lt_is_Some.
Qed.

(** A step of one thread while there are references. *)
Lemma cell_move s c t th th' c' :
  cell_ok s c -> rf_threads s !! t = Some th ->
  cc_count c' = cc_count c + Z.of_nat (weight th') - Z.of_nat (weight th) ->
  0 < cc_count c -> 0 < cc_count c' -> cc_device c' = cc_device c ->
  thread_ok c' t th' ->
  (forall u, u <> t -> cc_lock c' = Some u <-> cc_lock c = Some u) ->
  (cc_count c' <> cc_count c -> cc_lock c = Some t) ->
  cell_ok (set_thread t th' (Some c') (rf_released s) s) c'.
Proof.
  intros (Hcnt & Hths & Hlk & Hpos & _) Ht Hc' H0 H0' Hdev Hok Hoth Hchg. split_and!; try lia.
  - rewrite (total_set _ th) by done. lia.
  - intros u x [(-> & -> & _)|[Hne Hu]]%lookup_set; [done|]. destruct (Hths u x Hu) as [Hl Hpc].
    split; [by rewrite Hoth|]. destruct (rt_pc x) eqn:Hx; try done; [|lia].
    destruct (decide (cc_count c' = cc_count c)) as [->|Hd]; [done|].
    specialize (Hchg Hd). assert (Some t = Some u) by (rewrite <-Hchg; by apply Hl). congruence.
  - intros u Hu. simpl. destruct (decide (u = t)) as [->|Hne].
    + apply lookup_lt_is_Some. rewrite length_insert. by eapply lookup_lt_Some.
    + apply lookup_lt_is_Some. rewrite length_insert. by apply lookup_lt_is_Some, Hlk, Hoth.
  - intros _. rewrite Hdev. by apply Hpos.
Qed.

Lemma refs_count_pos s c t th : cell_ok s c -> rf_threads s !! t = Some th -> (1 <= weight th)%nat -> 0 < cc_count c.
Proof. intros (-> & _) Ht Hw. pose proof (weight_le _ _ _ Ht). unfold total. lia. Qed.

(** A thread that is not idle and not the last to put has, or puts, a reference, or has seen
    that there are others. *)
Lemma busy_count s c t th :
  cell_ok s c -> rf_threads s !! t = Some th -> rt_pc th <> Idle -> ~ last_put (rt_pc th) -> 0 < cc_count c.
Proof.
  intros Hc Ht Hi Hl. destruct (Hc) as (Hcnt & Hths & _). destruct (Hths _ _ Ht) as [_ Hpc].
  destruct th as [pc o]. destruct pc; simpl in *; try done;
    try (eapply refs_count_pos; [done..|]; unfold weight; simpl; lia).
  - subst count. assert (cc_count c <> 0) by (intros E; apply Hl; left; by rewrite E).
    unfold total in Hcnt. lia.
  - exfalso. apply Hl. by right.
Qed.

Lemma lock_free c t c' : mutex_lock t c = Some c' -> cc_lock c = None /\ c' = mk_cell (Some t) (cc_count c) (cc_device c).
Proof. unfold mutex_lock. destruct (cc_lock c); by intros [= <-]. Qed.

Lemma unlock_held c t : cc_lock c = Some t -> mutex_unlock t c = Some (mk_cell None (cc_count c) (cc_device c)).
Proof. intros H. unfold mutex_unlock. by rewrite decide_True. Qed.

(** Locking, incrementing and unlocking: [th] goes on to [th'] with the cell [c']. *)
Ltac ref_moves Hc Ht :=
  eexists; split; [reflexivity|]; intros Hlt; unfold refs_inv; simpl;
  eapply cell_move; [exact Hc|exact Ht|simpl..].

(** The last reference is put: the device is released. *)
Lemma put_last s c t o :
  cell_ok s c -> rf_threads s !! t = Some (mk_rt PutDec o) -> cc_count c = 1 ->
  cell_ok (set_thread t (mk_rt (PutUnlock 0) o) (Some (mk_cell (cc_lock c) 0 false))
             (rf_released s + (if cc_device c then 1 else 0))%nat s) (mk_cell (cc_lock c) 0 false).
Proof.
  intros Hc Ht H1. destruct (Hc) as (Hcnt & Hths & Hlk & Hpos & _). destruct Hpos as [Hdev Hrel]; [lia|].
  destruct (Hths _ _ Ht) as [Hl _]. assert (Hlock : cc_lock c = Some t) by by apply Hl.
  assert (Hidle : forall u x, rf_threads s !! u = Some x -> u <> t -> rt_pc x = Idle).
  { intros u x Hu Hne. destruct (Hths _ _ Hu) as [Hlu Hpc]. pose proof (sum_insert _ _ _ (mk_rt Idle 0) Ht) as Hs.
    assert (Hu' : <[t := mk_rt Idle 0]> (rf_threads s) !! u = Some x) by (rewrite list_lookup_insert_ne; [done|congruence]).
    apply weight_le in Hu'. unfold total in Hcnt. change (weight (mk_rt PutDec o)) with (o + 1)%nat in Hs.
    change (weight (mk_rt Idle 0)) with 0%nat in Hs. assert (Hw : weight x = 0%nat) by lia. unfold weight in Hw.
    destruct (rt_pc x) eqn:Hx; simpl in *; try done; try lia;
      (assert (Some t = Some u) by (rewrite <-Hlock; by apply Hlu)); congruence. }
  split_and!; simpl; try lia.
  - rewrite (total_set _ (mk_rt PutDec o)) by done. unfold weight. simpl. lia.
  - intros u x [(-> & -> & _)|[Hne Hu]]%lookup_set; [by split|].
    destruct (Hths _ _ Hu) as [Hlu _]. split; [done|]. by rewrite (Hidle u x).
  - intros u Hu. apply lookup_lt_is_Some. rewrite length_insert. by apply lookup_lt_is_Some, Hlk.
  - intros _. rewrite Hdev, Hrel. split_and!; try done. exists t, (mk_rt (PutUnlock 0) o). split_and!.
    + apply list_lookup_insert_eq. by eapply lookup_lt_Some.
    + by left.
    + intros u x [(-> & _)|[Hne Hu]]%lookup_set Hne'; [done|]. by apply (Hidle u).
Qed.

(** The lock is released after it. *)
Lemma put_last_unlock s c t o :
  cell_ok s c -> rf_threads s !! t = Some (mk_rt (PutUnlock 0) o) ->
  cell_ok (set_thread t (mk_rt Removing o) (Some (mk_cell None (cc_count c) (cc_device c))) (rf_released s) s)
    (mk_cell None (cc_count c) (cc_device c)).
Proof.
  intros Hc Ht. destruct (Hc) as (Hcnt & Hths & Hlk & Hpos & Hz). destruct (Hths _ _ Ht) as [Hl Hn]. simpl in Hn.
  destruct Hz as (Hdev & Hrel & f & x & Hf & Hlast & Hidle); [done|].
  assert (f = t) as ->. { destruct (decide (t = f)) as [|Hne]; [done|]. by specialize (Hidle _ _ Ht Hne). }
  split_and!; simpl; try lia; try done.
  - rewrite (total_set _ (mk_rt (PutUnlock 0) o)) by done. unfold weight. simpl. lia.
  - intros u y [(-> & -> & _)|[Hne Hu]]%lookup_set; [by split|]. specialize (Hidle _ _ Hu Hne).
    split; rewrite Hidle; done.
  - intros _. split_and!; try done. exists t, (mk_rt Removing o). split_and!.
    + apply list_lookup_insert_eq. by eapply lookup_lt_Some.
    + by right.
    + intros u y [(-> & _)|[Hne Hu]]%lookup_set Hne'; [done|]. by apply (Hidle u).
Qed.

(** [remove_handle]: the lock is free, and the controller is freed. *)
Lemma removing_free s c t o :
  cell_ok s c -> rf_threads s !! t = Some (mk_rt Removing o) ->
  cc_lock c = None /\ refs_inv (set_thread t (mk_rt Idle o) None (rf_released s) s).
Proof.
  intros Hc Ht. destruct (Hc) as (Hcnt & Hths & Hlk & Hpos & Hz). destruct (Hths _ _ Ht) as [Hl Hn]. simpl in Hn.
  destruct Hz as (Hdev & Hrel & f & x & Hf & Hlast & Hidle); [done|].
  assert (f = t) as ->. { destruct (decide (t = f)) as [|Hne]; [done|]. by specialize (Hidle _ _ Ht Hne). }
  split.
  - destruct (cc_lock c) as [u|] eqn:Hu; [|done]. destruct (Hlk u) as [y Hy]; [done|].
    destruct (Hths _ _ Hy) as [Hly _]. rewrite Hu in Hly. destruct (decide (u = t)) as [->|Hne].
    + simplify_eq. by destruct Hly as [H _]; specialize (H eq_refl).
    + rewrite (Hidle _ _ Hy Hne) in Hly. by destruct Hly as [H _]; specialize (H eq_refl).
  - split_and!; simpl; [done| |].
    + rewrite (total_set _ (mk_rt Removing o)) by done. unfold weight. simpl. lia.
    + intros u y [(-> & -> & _)|[Hne Hu]]%lookup_set; [done|]. by apply (Hidle u).
Qed.

(** ** Every step is defined and keeps the invariant *)
Ltac ref_lock t :=
  match goal with
  | |- context [mutex_lock t ?c] =>
      destruct (mutex_lock t c) as [?c'|] eqn:?Hm; [apply lock_free in Hm as [?Hfree ->]|]
  end.

Lemma get_step s c t th :
  rf_cell s = Some c -> cell_ok s c -> rf_threads s !! t = Some th ->
  rt_pc th = GetLock \/ rt_pc th = GetInc \/ rt_pc th = GetUnlock ->
  exists s', ref_step t s = Some s' /\ (total s' < 2 ^ 32 -> refs_inv s').
Proof.
  intros Hs Hc Ht Hpc. assert (Hpos : 0 < cc_count c).
  { apply (busy_count s c t th); [done..| |]; [intros E|intros [E|E]]; rewrite E in Hpc; by destruct_or? Hpc. }
  destruct (Hc) as (Hcnt & Hths & _). destruct (Hths _ _ Ht) as [Hl Ho]. unfold ref_step. rewrite Ht.
  destruct th as [pc o]. simpl in *. destruct Hpc as [->|[->| ->]]; rewrite Hs; simpl in *.
  - ref_lock t; [|exists s; split; [done|]; intros _; unfold refs_inv; by rewrite Hs].
    ref_moves Hc Ht; try done; try (unfold weight; simpl; lia).
    intros u Hu. rewrite Hfree. split; congruence.
  - assert (Hw : total s + 1 < 2 ^ 32 -> u32 (cc_count c + 1) = cc_count c + 1).
    { intros. apply wrap_small. unfold fits. lia. }
    eexists; split; [reflexivity|]; intros Hlt. rewrite (total_set _ (mk_rt GetInc o)) in Hlt by done.
    unfold weight in Hlt. simpl in Hlt. rewrite Hw by lia. unfold refs_inv. simpl.
    eapply cell_move; [exact Hc|exact Ht|unfold weight; simpl; lia|lia|simpl; lia|done|done|done|].
    intros _. by apply Hl.
  - rewrite unlock_held by by apply Hl. simpl.
    ref_moves Hc Ht; try done; try (unfold weight; simpl; lia).
    intros u Hu. assert (cc_lock c = Some t) as -> by by apply Hl. split; congruence.
Qed.

Lemma put_step s c t th :
  rf_cell s = Some c -> cell_ok s c -> rf_threads s !! t = Some th ->
  rt_pc th = PutLock \/ rt_pc th = PutDec ->
  total s < 2 ^ 32 ->
  exists s', ref_step t s = Some s' /\ (total s' < 2 ^ 32 -> refs_inv s').
Proof.
  intros Hs Hc Ht Hpc Hlt0. assert (Hpos : 0 < cc_count c).
  { apply (busy_count s c t th); [done..| |]; [intros E|intros [E|E]]; rewrite E in Hpc; by destruct_or? Hpc. }
  destruct (Hc) as (Hcnt & Hths & _). destruct (Hths _ _ Ht) as [Hl _]. unfold ref_step. rewrite Ht.
  destruct th as [pc o]. simpl in *. destruct Hpc as [->| ->]; rewrite Hs; simpl in *.
  - ref_lock t; [|exists s; split; [done|]; intros _; unfold refs_inv; by rewrite Hs].
    ref_moves Hc Ht; try done; try (unfold weight; simpl; lia).
    intros u Hu. rewrite Hfree. split; congruence.
  - rewrite wrap_small by (unfold fits; lia). destruct (decide _) as [Hz|Hz].
    + eexists. split; [reflexivity|]. intros _. rewrite Hz. unfold refs_inv. simpl. apply put_last; [done..|lia].
    + ref_moves Hc Ht; try done; try (unfold weight; simpl; lia). intros _. by apply Hl.
Qed.

Lemma unlock_step s c t th n :
  rf_cell s = Some c -> cell_ok s c -> rf_threads s !! t = Some th -> rt_pc th = PutUnlock n ->
  exists s', ref_step t s = Some s' /\ (total s' < 2 ^ 32 -> refs_inv s').
Proof.
  intros Hs Hc Ht Hpc. destruct (Hc) as (Hcnt & Hths & _). destruct (Hths _ _ Ht) as [Hl Hn].
  unfold ref_step. rewrite Ht. destruct th as [pc o]. simpl in *. rewrite Hpc in *. simpl in *. rewrite Hs.
  simpl. rewrite unlock_held by by apply Hl. simpl. destruct (decide (n = 0)) as [->|Hz].
  - eexists. split; [reflexivity|]. intros _. by apply put_last_unlock.
  - assert (0 < cc_count c) by (unfold total in Hcnt; lia).
    ref_moves Hc Ht; try done; try (unfold weight; simpl; lia).
    intros u Hu. assert (cc_lock c = Some t) as -> by by apply Hl. split; congruence.
Qed.

Lemma ref_step_inv s t :
  refs_inv s -> total s < 2 ^ 32 -> exists s', ref_step t s = Some s' /\ (total s' < 2 ^ 32 -> refs_inv s').
Proof.
  intros Hinv Hlt. destruct (rf_threads s !! t) as [th|] eqn:Ht; [|exists s; unfold ref_step; rewrite Ht; done].
  destruct (decide (rt_pc th = Idle)) as [Hi|Hi].
  { exists s. unfold ref_step. rewrite Ht. destruct th as [pc o]. simpl in *. by subst pc. }
  destruct (rf_cell s) as [c|] eqn:Hs; unfold refs_inv in Hinv; rewrite Hs in Hinv.
  2: { destruct Hinv as (_ & _ & H). by apply H in Ht. }
  destruct (rt_pc th) eqn:Hpc; [done|..]; try (apply (get_step s c t th); by auto);
    try (apply (put_step s c t th); by auto); [by apply (unlock_step s c t th count)|].
  destruct th as [pc o]. simpl in Hpc. subst pc. destruct (removing_free s c t o) as [Hfree Hr]; [done..|].
  unfold ref_step. rewrite Ht, Hs. simpl. unfold mutex_busy. rewrite Hfree. by eexists.
Qed.

(** References handed on leave every thread where it is. *)
Lemma pass_inv s c t t' o pc o' :
  cell_ok s c -> rf_threads s !! t = Some (mk_rt Idle (S o)) -> rf_threads s !! t' = Some (mk_rt pc o') -> t <> t' ->
  cell_ok (mk_refs (Some c) (rf_released s) (<[t' := mk_rt pc (S o')]> (<[t := mk_rt Idle o]> (rf_threads s)))) c.
Proof.
  intros Hc Ht Ht' Hne. destruct (Hc) as (Hcnt & Hths & Hlk & Hpos & _).
  assert (H0 : 0 < cc_count c) by (apply (refs_count_pos s c t _ Hc Ht); unfold weight; simpl; lia).
  split_and!; simpl; try lia; [| | |done].
  - rewrite Hcnt. unfold total. simpl. pose proof (sum_insert _ _ _ (mk_rt Idle o) Ht) as H1.
    assert (H2 : <[t := mk_rt Idle o]> (rf_threads s) !! t' = Some (mk_rt pc o')) by by rewrite list_lookup_insert_ne.
    apply (sum_insert _ _ _ (mk_rt pc (S o'))) in H2. change (weight (mk_rt Idle o)) with (o + 0)%nat in H1.
    change (weight (mk_rt Idle (S o))) with (S o + 0)%nat in H1.
    change (weight (mk_rt pc (S o'))) with (S (weight (mk_rt pc o'))) in H2. lia.
  - intros u x [(-> & -> & _)|[Hu [(-> & -> & _)|[Hu' Hx]]%lookup_set]]%lookup_set; [| |by apply Hths].
    + destruct (Hths _ _ Ht') as [Hl Hpc]. split; [done|]. simpl in *. destruct pc; try done; lia.
    + destruct (Hths _ _ Ht) as [Hl Hpc]. by split.
  - intros u Hu. apply lookup_lt_is_Some. rewrite !length_insert. by apply lookup_lt_is_Some, Hlk.
Qed.

(** A thread that has a reference finds the controller. *)
Lemma owner_cell s t th :
  refs_inv s -> rf_threads s !! t = Some th -> (1 <= rt_owned th)%nat -> exists c, rf_cell s = Some c /\ cell_ok s c.
Proof.
  unfold refs_inv. destruct (rf_cell s) as [c|]; [by eauto|]. intros (_ & H0 & _) Ht Ho.
  apply weight_le in Ht. unfold total in H0. unfold weight in Ht at 1. lia.
Qed.

Lemma begin_inv s t o th' :
  refs_inv s -> rf_threads s !! t = Some (mk_rt Idle (S o)) ->
  th' = mk_rt GetLock (S o) \/ th' = mk_rt PutLock o ->
  refs_inv (set_thread t th' (rf_cell s) (rf_released s) s).
Proof.
  intros Hinv Ht Hth. destruct (owner_cell s t _ Hinv Ht) as (c & Hs & Hc); [simpl; lia|].
  assert (H0 : 0 < cc_count c) by (apply (refs_count_pos s c t _ Hc Ht); unfold weight; simpl; lia).
  destruct (Hc) as (_ & Hths & _). destruct (Hths _ _ Ht) as [Hl _]. unfold refs_inv. simpl. rewrite Hs.
  eapply cell_move; [done..| | | | | | |]; try done.
  - destruct Hth as [-> | ->]; unfold weight; simpl; lia.
  - destruct Hth as [-> | ->]; split; simpl in *; try done; lia.
Qed.

Lemma ref_do_inv a s :
  refs_inv s -> total s < 2 ^ 32 -> exists s', ref_do a s = Some s' /\ (total s' < 2 ^ 32 -> refs_inv s').
Proof.
  intros Hinv Hlt. destruct a as [t|t|t t'|t]; [| | |by apply ref_step_inv]; simpl;
    destruct (rf_threads s !! t) as [[[] [|o]]|] eqn:Ht; try (exists s; done).
  - eexists. split; [reflexivity|]. intros _. eapply begin_inv; eauto.
  - eexists. split; [reflexivity|]. intros _. eapply begin_inv; eauto.
  - destruct (rf_threads s !! t') as [[pc o']|] eqn:Ht'; [|by exists s]. destruct (decide _) as [|Hne]; [by exists s|].
    eexists. split; [reflexivity|]. intros _.
    destruct (owner_cell s t _ Hinv Ht) as (c & Hs & Hc); [simpl; lia|]. unfold refs_inv. simpl. rewrite Hs.
    by apply pass_inv.
Qed.

Lemma start_total n : total (refs_start n) = 1.
Proof.
  unfold total, refs_start. simpl. assert (sum_list_with weight (replicate n (mk_rt Idle 0)) = 0%nat) as ->; [|done].
  by induction n.
Qed.

Lemma refs_start_inv n : refs_inv (refs_start n).
Proof.
  unfold refs_inv. cbn [rf_cell refs_start]. split_and!; cbn [cc_count cc_lock cc_device]; try done; [by rewrite start_total|].
  intros [|t] th; simpl; [by intros [= <-]|]. intros [-> _]%lookup_replicate. by split.
Qed.

Lemma refs_reach_inv n s : refs_reach n s -> refs_inv s /\ total s < 2 ^ 32.
Proof.
  induction 1 as [|a s s' _ [IH Hlt] Hdo Hlt']; [split; [apply refs_start_inv|by rewrite start_total]|].
  split; [|done]. destruct (ref_do_inv a s IH Hlt) as (s'' & Hdo' & Hinv). simplify_eq. by apply Hinv.
Qed.

(** The thread that put the last reference frees the controller. *)
Lemma last_put_frees s :
  refs_inv s -> total s = 0 ->
  exists t s', (ref_step t s ≫= ref_step t) = Some s' /\ rf_cell s' = None /\ rf_released s' = 1%nat.
Proof.
  intros Hinv H0. unfold refs_inv in Hinv. destruct (rf_cell s) as [c|] eqn:Hs.
  2: { exists (length (rf_threads s)), s.
       assert (ref_step (length (rf_threads s)) s = Some s) as Hid.
       { unfold ref_step. by rewrite (proj2 (lookup_ge_None _ _)). }
       rewrite Hid. simpl. rewrite Hid. by destruct Hinv. }
  destruct (Hinv) as (Hcnt & Hths & _ & _ & Hz).
  destruct Hz as (_ & Hrel & t & [pc o] & Ht & Hlast & _); [lia|]. simpl in Hlast. exists t.
  destruct (Hths _ _ Ht) as [Hl _]. pose proof (lookup_lt_Some _ _ _ Ht) as Hlen. destruct Hlast as [-> | ->].
  - unfold ref_step at 2. rewrite Ht, Hs. simpl. rewrite unlock_held by by apply Hl. simpl.
    unfold ref_step. simpl. rewrite list_lookup_insert_eq by done. simpl. eexists. split; [reflexivity|]. by split.
  - destruct (removing_free s c t o) as [Hfree _]; [done..|].
    unfold ref_step at 2. rewrite Ht, Hs. simpl. unfold mutex_busy. rewrite Hfree. simpl.
    unfold ref_step. simpl. rewrite list_lookup_insert_eq by done. eexists. split; [reflexivity|]. by split.
Qed.

(** ** What the references promise *)

(** C16: Threads that take, put and hand on references to a controller in any interleaving never
    use it after it was freed and never unlock a lock they do not hold.  While there is a
    reference the count is the number of references and the device has not been released.  Once
    there is none, the thread that put the last one frees the controller within two steps, and
    the device has been released once. *)
Theorem ctrl_refs_safe n s :
  refs_reach n s ->
  (forall a, is_Some (ref_do a s))
  /\ (0 < total s -> exists c, rf_cell s = Some c /\ cc_count c = total s /\ cc_device c = true /\ rf_released s = 0%nat)
  /\ (total s = 0 -> exists t s', (ref_step t s ≫= ref_step t) = Some s' /\ rf_cell s' = None /\ rf_released s' = 1%nat).
Proof.
  intros [Hinv Hlt]%refs_reach_inv. split_and!.
  - intros a. destruct (ref_do_inv a s Hinv Hlt) as (s' & Hs' & _). by exists s'.
  - intros Hpos. unfold refs_inv in Hinv. destruct (rf_cell s) as [c|] eqn:Hs; [|lia].
    destruct Hinv as (Hcnt & _ & _ & Hp & _). exists c. split_and!; [done..|apply Hp; lia|apply Hp; lia].
  - intros H0. by apply last_put_frees.
Qed.

(** ** A run of two threads *)
Fixpoint ref_run (acts : list ref_act) (s : refs) : option refs :=
  match acts with
  | [] => Some s
  | a :: acts => s' ← ref_do a s; if decide (total s' < 2 ^ 32) then ref_run acts s' else None
  end.

Lemma ref_run_reach n acts s s' : refs_reach n s -> ref_run acts s = Some s' -> refs_reach n s'.
Proof.
  revert s. induction acts as [|a acts IH]; simpl; intros s Hs Hrun; [by simplify_eq|].
  destruct (ref_do a s) as [s1|] eqn:Ha; [|done]. simpl in Hrun. destruct (decide _); [|done].
  apply (IH s1); [|done]. by eapply refs_reach_do.
Qed.

(** The first thread takes a reference for the second, and both put theirs: the second waits for
    the lock and is the last. *)
Definition two_puts : list ref_act :=
  [BeginGet 0; Step 0; Step 0; Step 0; Pass 0 1; BeginPut 0; BeginPut 1; Step 0; Step 1; Step 0; Step 0;
   Step 1; Step 1].

Lemma ctrl_refs_safe_witness :
  exists s, ref_run two_puts (refs_start 1) = Some s /\ total s = 0
    /\ exists t s', (ref_step t s ≫= ref_step t) = Some s' /\ rf_cell s' = None /\ rf_released s' = 1%nat.
Proof.
  eexists. split; [vm_compute; reflexivity|]. split; [vm_compute; reflexivity|].
  refine (proj2 (proj2 (ctrl_refs_safe 1 _ _)) _); [|vm_compute; reflexivity].
  apply (ref_run_reach 1 two_puts (refs_start 1)); [constructor|vm_compute; reflexivity].
Defined.

(** Without a reference of its own a thread must not put one: the count reaches zero under the
    feet of the owner, who then finds the controller gone. *)
Example put_without_reference :
  let s := mk_refs (Some (mk_cell None 1 true)) 0 [mk_rt Idle 1; mk_rt PutLock 0] in
  exists s', ref_run [Step 1; Step 1; Step 1; Step 1; BeginGet 0] s = Some s' /\ ref_step 0 s' = None.
Proof. eexists. split; [vm_compute; reflexivity|]. vm_compute. reflexivity. Qed.
