(* ===== verification/Dma.v ===== *)
(** * DMA mappings (src/libnvm/dma.cpp)

    Reference-counted mapping descriptors and the handles that share them, with the ioctl
    callbacks of src/libnvm/linux_device.cpp and the release callback of
    src/libnvm/linux_dma.cpp. *)
From S2P Require Import Prelude NvmTypes NvmUtil LibState Ctrl.
From stdpp Require Import prelude gmap gmultiset list.
From Stdlib Require Import ZArith Lia.
Local Open Scope Z_scope.
Local Open Scope ugds_scope.

(** [(page_size * n_pages) / ctrl->page_size] in [size_t] *)
Definition n_ctrl_pages (ctrl : nvm_ctrl_t) (page_size n_pages : Z) : Z :=
  u64 (page_size * n_pages) / ctrl_page_size ctrl.

(** ** populate_handle

    The loop over the pages of the handle: the addresses so far and the flag [contiguous].  A read
    past [ioaddrs] or a store past the [cap] elements of the handle is undefined. *)
Fixpoint populate_loop (n : nat) (i_page hps page_size cap : Z) (ioaddrs : list Z)
    (acc : list Z) (contiguous : bool) : option (list Z * bool) :=
  match n with
  | O => Some (acc, contiguous)
  | S n =>
      let current_page := u64 (i_page * hps) / page_size in
      let offset_within_page := u64 (i_page * hps) mod page_size in
      match ioaddrs @[current_page] with
      | None => None
      | Some a =>
          let addr := u64 (a + offset_within_page) in
          if decide (i_page < cap) then
            let contiguous :=
              match acc @[i_page - 1] with
              | Some prev => if decide (u64 (prev + hps) <> addr) then false else contiguous
              | None => contiguous                       (* i_page = 0 *)
              end in
            populate_loop n (i_page + 1) hps page_size cap ioaddrs (acc ++ [addr]) contiguous
          else None
      end
  end.

Definition populate_handle (handle : nvm_dma_t) (cap : Z) (va : va_range) (ctrl : nvm_ctrl_t)
    (ioaddrs : list Z) : option nvm_dma_t :=
  if decide (ctrl_page_size ctrl = 0) then None
  else
    let n_ioaddrs := n_ctrl_pages ctrl (va_page_size va) (va_n_pages va) in
    match populate_loop (Z.to_nat n_ioaddrs) 0 (ctrl_page_size ctrl) (va_page_size va) cap
            ioaddrs [] true with
    | None => None
    | Some (addrs, contiguous) =>
        Some (mk_dma (va_vaddr va) (dma_local handle) contiguous (ctrl_page_size ctrl) n_ioaddrs addrs)
    end.

Section dma.
Context `{Env}.

(** ** linux_dma.cpp: releasing an address range *)

Definition remove_mapping_descriptor (md : Z) : M lib unit :=
  o ← deref as_va md;
  match o with
  | VA_PLAIN _ => undefined
  | VA_IOCTL m =>
      (if decide (md_type m = MAP_TYPE_API) then
         free (md_buffer m)
       else mret tt);;
      free md
  end.

Definition release_mapping_descriptor (va : Z) : M lib unit := remove_mapping_descriptor va.

(** [md->release(md->va)] *)
Definition call_release (f : va_range_free_t) (va : Z) : M lib unit :=
  match f with RELEASE_FREE => free va | RELEASE_MD => release_mapping_descriptor va end.

(** ** linux_device.cpp: mapping and unmapping through the kernel module *)

(** The error number and, on success, one bus address for each page of the range. *)
Definition ioctl_map (dev va : Z) : M lib (Z * list Z) :=
  o ← deref as_va va;
  match o with
  | VA_PLAIN _ => undefined
  | VA_IOCTL m =>
      let supported :=
        match md_type m with
        | MAP_TYPE_API | MAP_TYPE_HOST | MAP_TYPE_CUDA => true
        | MAP_TYPE_DMABUF => bool_decide (backend = BACKEND_HIP)
        end in
      if supported then
        fd ← deref as_dev dev;
        n ← gets l_calls;
        err ← sys_call;
        if decide (err <> 0) then mret (err, [])
        else
          modify (fun s => set_kmaps s (l_kmaps s ⊎ {[+ (fd, md_buffer m) +]}));;
          mret (0, io_addr n <$> seqZ 0 (va_n_pages (md_range m)))
      else mret (EINVAL, [])
  end.

Definition ioctl_unmap (dev va : Z) : M lib unit :=
  o ← deref as_va va;
  match o with
  | VA_PLAIN _ => undefined
  | VA_IOCTL m =>
      fd ← deref as_dev dev;
      modify (fun s => set_kmaps s (l_kmaps s ∖ {[+ (fd, md_buffer m) +]}))
  end.

(** ** Mapping descriptors *)

(** The error number and [*md]. *)
Definition create_map (ctrl va : Z) (release : va_range_free_t) : M lib (Z * Z) :=
  ref ← _nvm_ctrl_get ctrl;
  if decide (ref = NULL) then mret (ENOSPC, NULL)
  else
    m ← malloc;
    if decide (m = NULL) then _nvm_ctrl_put ref;; mret (ENOMEM, NULL)
    else
      err ← _nvm_mutex_init;
      if decide (err <> 0) then free m;; _nvm_ctrl_put ref;; mret (err, NULL)
      else store m (OMapping (mk_map 1 ref va release false));; mret (0, m).

Definition remove_map (md : Z) : M lib unit :=
  m ← deref as_map md; _nvm_ctrl_put (m_ctrl m);; free md.

Definition put_map (md : Z) : M lib unit :=
  if decide (md = NULL) then mret tt
  else
    m ← deref as_map md;
    let m := m_set_count m (u32 (m_count m - 1)) in
    store md (OMapping m);;
    if decide (m_count m = 0) then
      (if m_unmap m then c ← deref as_ctrl (m_ctrl m); ioctl_unmap (c_device c) (m_va m)
       else mret tt);;
      call_release (m_release m) (m_va m);;
      store md (OMapping (mk_map (m_count m) (m_ctrl m) NULL (m_release m) (m_unmap m)));;
      remove_map md
    else mret tt.

Definition get_map (md : Z) : M lib Z :=
  if decide (md = NULL) then mret EINVAL
  else
    m ← deref as_map md;
    err ← _nvm_mutex_lock;
    if decide (err <> 0) then mret err
    else store md (OMapping (m_set_count m (u32 (m_count m + 1))));; mret 0.

(** ** Handle containers *)

Definition zero_dma : nvm_dma_t := mk_dma NULL false false 0 0 [].

Definition create_container (md : Z) : M lib (Z * Z) :=
  m ← deref as_map md;
  ctrl ← deref as_ctrl (m_ctrl m);
  o ← deref as_va (m_va m);
  let page_size := va_page_size (va_of o) in
  let n_pages := va_n_pages (va_of o) in
  if decide (ctrl_page_size (c_handle ctrl) = 0) then undefined     (* division by zero *)
  else if decide (page_size = 0 \/ n_pages = 0 \/
                  u64 (page_size * n_pages) mod ctrl_page_size (c_handle ctrl) <> 0)
  then mret (EINVAL, NULL)
  else
    k ← malloc;
    if decide (k = NULL) then mret (ENOMEM, NULL)
    else
      store k (OCont (mk_cont md (n_ctrl_pages (c_handle ctrl) page_size n_pages)
        (mk_dma NULL (negb (va_remote (va_of o))) true 0 0 [])));;
      mret (0, k).

Definition remove_container (k : Z) : M lib unit :=
  c ← deref as_cont k; put_map (k_map c);; free k.

Definition dma_map (container : Z) : M lib Z :=
  k ← deref as_cont container;
  md ← deref as_map (k_map k);
  ctrl ← deref as_ctrl (m_ctrl md);
  match c_ops ctrl with
  | OPS_NULL => mret EINVAL
  | OPS_IOCTL =>
      o ← deref as_va (m_va md);
      ioaddrs ← malloc;
      if decide (ioaddrs = NULL) then mret ENOMEM
      else
        r ← ioctl_map (c_device ctrl) (m_va md);
        if decide (fst r <> 0) then free ioaddrs;; mret (fst r)
        else
          store (k_map k) (OMapping (m_set_unmap md true));;
          h ← of_option (populate_handle (k_handle k) (k_cap k) (va_of o) (c_handle ctrl) (snd r));
          store container (OCont (mk_cont (k_map k) (k_cap k) h));;
          free ioaddrs;;
          mret 0
  end.

(** ** The operations *)

Definition _nvm_dma_init (ctrl va : Z) (release : va_range_free_t) : M lib (Z * Z) :=
  r ← create_map ctrl va release;
  if decide (fst r <> 0) then mret (fst r, NULL)
  else
    let map := snd r in
    r ← create_container map;
    if decide (fst r <> 0) then remove_map map;; mret (fst r, NULL)
    else
      let container := snd r in
      err ← dma_map container;
      if decide (err <> 0) then remove_map map;; free container;; mret (err, NULL)
      else mret (0, container).

(** [ioaddrs] is [None] for a null pointer. *)
Definition nvm_dma_map (ctrl vaddr page_size n_pages : Z) (ioaddrs : option (list Z))
    : M lib (Z * Z) :=
  match ioaddrs with
  | None => mret (EINVAL, NULL)
  | Some ioaddrs =>
      va ← malloc;
      if decide (va = NULL) then mret (ENOMEM, NULL)
      else
        store va (OVa (VA_PLAIN (mk_va false vaddr page_size n_pages)));;
        r ← create_map ctrl va RELEASE_FREE;
        if decide (fst r <> 0) then free va;; mret (fst r, NULL)
        else
          let map := snd r in
          r ← create_container map;
          if decide (fst r <> 0) then remove_map map;; free va;; mret (fst r, NULL)
          else
            let container := snd r in
            k ← deref as_cont container;
            c ← deref as_ctrl ctrl;
            h ← of_option (populate_handle (k_handle k) (k_cap k)
                  (mk_va false vaddr page_size n_pages) (c_handle c) ioaddrs);
            store container (OCont (mk_cont (k_map k) (k_cap k) h));;
            mret (0, container)
  end.

Definition nvm_dma_remap (other : Z) : M lib (Z * Z) :=
  ok ← deref as_cont other;
  let map := k_map ok in
  status ← get_map map;
  if decide (status <> 0) then mret (status, NULL)
  else
    r ← create_container map;
    if decide (fst r <> 0) then put_map map;; mret (fst r, NULL)
    else
      let container := snd r in
      m ← deref as_map map;
      o ← deref as_va (m_va m);
      c ← deref as_ctrl (m_ctrl m);
      k ← deref as_cont container;
      let h := k_handle ok in
      let va := mk_va (negb (dma_local h)) (va_vaddr (va_of o)) (dma_page_size h) (dma_n_ioaddrs h) in
      h' ← of_option (populate_handle (k_handle k) (k_cap k) va (c_handle c) (dma_ioaddrs h));
      store container (OCont (mk_cont (k_map k) (k_cap k) h'));;
      mret (0, container).

Definition nvm_dma_unmap (handle : Z) : M lib unit :=
  if decide (handle <> NULL) then remove_container handle else mret tt.

Definition nvm_ctrl_from_dma (handle : Z) : M lib Z :=
  if decide (handle <> NULL) then
    k ← deref as_cont handle; m ← deref as_map (k_map k); mret (m_ctrl m)
  else mret NULL.

Definition _nvm_dma_va (handle : Z) : M lib Z :=
  if decide (handle <> NULL) then
    k ← deref as_cont handle;
    if decide (k_map k <> NULL) then m ← deref as_map (k_map k); mret (m_va m) else mret NULL
  else mret NULL.
End dma.
