(* ===== verification/LinuxDma.v ===== *)
(** * Mapping host and GPU memory (src/libnvm/linux_dma.cpp) *)
From S2P Require Import Prelude NvmTypes NvmUtil LibState Ctrl Dma.
From stdpp Require Import prelude gmap gmultiset list.
From Stdlib Require Import ZArith Lia.
Local Open Scope Z_scope.

Section linux_dma.
Context `{Env}.

(** The error number and [*handle]. *)
Definition create_mapping_descriptor (page_size : Z) (type : mapping_type) (buffer size : Z)
    : M lib (Z * Z) :=
  if decide (page_size = 0) then undefined             (* division by zero *)
  else
    let n_pages := NVM_PAGE_ALIGN size page_size / page_size in
    if decide (n_pages = 0) then mret (EINVAL, NULL)
    else
      md ← malloc;
      if decide (md = NULL) then mret (ENOMEM, NULL)
      else
        store md (OVa (VA_IOCTL (mk_md type buffer (mk_va false buffer page_size n_pages) 0 0)));;
        mret (0, md).

(** What every path does once it has a mapping descriptor. *)
Definition init_or_remove (ctrl md : Z) : M lib (Z * Z) :=
  r ← _nvm_dma_init ctrl md RELEASE_MD;
  if decide (fst r <> 0) then remove_mapping_descriptor md;; mret (fst r, NULL)
  else mret r.

(** [posix_memalign]: an error number and a buffer. *)
Definition posix_memalign : M lib (Z * Z) :=
  err ← sys_call;
  if decide (err <> 0) then mret (err, NULL) else a ← new_obj OBuf; mret (0, a).

Definition nvm_dma_create (ctrl size : Z) : M lib (Z * Z) :=
  c ← deref as_ctrl ctrl;
  let size := NVM_CTRL_ALIGN (c_handle c) size in
  if decide (size = 0) then mret (EINVAL, NULL)
  else if decide (c_type c <> DEVICE_TYPE_IOCTL) then mret (EBADF, NULL)
  else
    r ← posix_memalign;
    if decide (fst r <> 0) then mret (fst r, NULL)
    else
      let buffer := snd r in
      r ← create_mapping_descriptor (ctrl_page_size (c_handle c)) MAP_TYPE_API buffer size;
      if decide (fst r <> 0) then free buffer;; mret (fst r, NULL)
      else init_or_remove ctrl (snd r).

Definition nvm_dma_map_host (ctrl vaddr size : Z) : M lib (Z * Z) :=
  c ← deref as_ctrl ctrl;
  let size := NVM_CTRL_ALIGN (c_handle c) size in
  if decide (size = 0) then mret (EINVAL, NULL)
  else if decide (c_type c <> DEVICE_TYPE_IOCTL) then mret (EBADF, NULL)
  else
    r ← create_mapping_descriptor (ctrl_page_size (c_handle c)) MAP_TYPE_HOST vaddr size;
    if decide (fst r <> 0) then mret (fst r, NULL)
    else init_or_remove ctrl (snd r).

(** ** GPU memory *)

(** What the HIP and HSA runtimes say about a pointer: whether it is device memory, the
    allocation it lies in, and the offset of the dma-buf exported for it ([None]: a failed call). *)
Record hip_info := mk_hip {
  hip_device : bool;
  hip_range : option (Z * Z);
  hip_have_v2 : bool;
  hip_export : option Z;
}.

Definition hip_page_size : Z := sc_pagesize.

Definition open_dmabuf : M lib Z := new_obj OFd.
Definition close_dmabuf (fd : Z) : M lib unit := close_fd fd.

(** The checks before the export: an error number and the size rounded to pages. *)
Definition hip_checks (hip : hip_info) (devptr size : Z) : Z * Z :=
  if decide (size = 0) then (EINVAL, 0)
  else if decide (hip_page_size <= 0) then (EINVAL, 0)
  else if hip_device hip then
    match hip_range hip with
    | None => (EIO, 0)
    | Some (base_addr, alloc_size) =>
        let offset_in_alloc := u64 (devptr - base_addr) in
        if decide (size > 2 ^ 64 - 1 - hip_page_size) then (EINVAL, 0)
        else
          let aligned_size := Z.land (size + hip_page_size - 1) (u64 (Z.lnot (hip_page_size - 1))) in
          if decide (devptr < base_addr \/ offset_in_alloc > alloc_size \/
                     aligned_size > alloc_size - offset_in_alloc) then (EIO, 0)
          else if decide (devptr mod hip_page_size <> 0) then (EINVAL, 0)
          else (0, aligned_size)
    end
  else (EIO, 0).

Definition map_device_hip (hip : hip_info) (ctrl devptr size : Z) : M lib (Z * Z) :=
  let '(err, _) := hip_checks hip devptr size in
  if decide (err <> 0) then mret (err, NULL)
  else if hip_have_v2 hip then
    match hip_export hip with
    | None => mret (EIO, NULL)
    | Some dmabuf_offset =>
        dmabuf_fd ← open_dmabuf;
        if decide (dmabuf_offset mod hip_page_size <> 0) then close_dmabuf dmabuf_fd;; mret (EINVAL, NULL)
        else
          r ← create_mapping_descriptor hip_page_size MAP_TYPE_DMABUF devptr size;
          if decide (fst r <> 0) then close_dmabuf dmabuf_fd;; mret (fst r, NULL)
          else
            let md := snd r in
            o ← deref as_va md;
            store md (OVa match o with
                          | VA_IOCTL m =>
                              VA_IOCTL (mk_md (md_type m) (md_buffer m) (md_range m) dmabuf_fd dmabuf_offset)
                          | VA_PLAIN va => VA_PLAIN va
                          end);;
            r ← _nvm_dma_init ctrl md RELEASE_MD;
            if decide (fst r <> 0) then
              remove_mapping_descriptor md;; close_dmabuf dmabuf_fd;; mret (fst r, NULL)
            else close_dmabuf dmabuf_fd;; mret r
    end
  else mret (ENOTSUP, NULL).

Definition nvm_dma_map_device (hip : hip_info) (ctrl devptr size : Z) : M lib (Z * Z) :=
  c ← deref as_ctrl ctrl;
  if decide (c_type c <> DEVICE_TYPE_IOCTL) then mret (EBADF, NULL)
  else
    match backend with
    | BACKEND_HIP => map_device_hip hip ctrl devptr size
    | BACKEND_CUDA =>
        r ← create_mapping_descriptor (2 ^ 16) MAP_TYPE_CUDA devptr size;
        if decide (fst r <> 0) then mret (fst r, NULL)
        else init_or_remove ctrl (snd r)
    | BACKEND_NONE => mret (ENOTSUP, NULL)
    end.
End linux_dma.
