(* ===== verification/Aq.v ===== *)
(** * Admin queue references (src/libnvm/rpc.cpp)

    Creating and destroying the reference to an admin queue pair, over the process state of
    LibState, and the list of binding handles.  Executing commands is in Rpc. *)
From S2P Require Import Prelude NvmTypes NvmUtil NvmQueue LibState Ctrl Dma.
From stdpp Require Import prelude gmap list.
From Stdlib Require Import ZArith Lia.
Local Open Scope Z_scope.
Local Open Scope ugds_scope.

(** ** Binding handles

    The nodes of the linked list in order; [malloc_ok] says whether a node could be allocated. *)

Definition _nvm_rpc_handle_insert (malloc_ok : bool) (handles : list rpc_handle) (key data release : Z)
    : Z * list rpc_handle :=
  if decide (data = NULL \/ release = NULL) then (EINVAL, handles)
  else if malloc_ok then
    if decide (Exists (fun curr => rh_key curr = key) handles) then (EINVAL, handles)
    else (0, handles ++ [mk_handle key data release])
  else (ENOMEM, handles).

(** The walk [while (curr != NULL && curr->key != key)]: the nodes passed, and the rest. *)
Fixpoint handle_walk (key : Z) (handles : list rpc_handle) : list rpc_handle * list rpc_handle :=
  match handles with
  | [] => ([], [])
  | curr :: next =>
      if decide (rh_key curr <> key) then
        let '(passed, rest) := handle_walk key next in (curr :: passed, rest)
      else ([], handles)
  end.

(** The new list and the handle whose [release] was called.  [curr->next] is read before [curr] is
    tested, so a key that is not in the list is undefined. *)
Definition _nvm_rpc_handle_remove (handles : list rpc_handle) (key : Z)
    : option (list rpc_handle * rpc_handle) :=
  match handle_walk key handles with
  | (passed, curr :: next) => Some (passed ++ next, curr)
  | (_, []) => None
  end.

(** The handles released, in order; the list is empty afterwards. *)
Definition release_handles (handles : list rpc_handle) : list rpc_handle := handles.

Section aq.
Context `{Env}.

(** ** References *)

Definition _nvm_ref_get (ctrl : Z) : M lib (Z * Z) :=
  cref ← _nvm_ctrl_get ctrl;
  if decide (cref = NULL) then mret (ENOTTY, NULL)
  else
    ref ← malloc;
    if decide (ref = NULL) then _nvm_ctrl_put cref;; mret (ENOMEM, NULL)
    else
      err ← _nvm_mutex_init;
      if decide (err <> 0) then _nvm_ctrl_put cref;; free ref;; mret (err, NULL)
      else store ref (ORef (mk_ref cref [] NULL None None));; mret (0, ref).

Definition remove_admin (admin : Z) : M lib unit :=
  if decide (admin <> NULL) then
    a ← deref as_admin admin; nvm_dma_unmap (la_qmem a);; free admin
  else mret tt.

(** Someone else's callback releases someone else's data. *)
Definition free_binding (f : rpc_free_binding_t) (data : Z) : M lib unit :=
  match f with REMOVE_ADMIN => remove_admin data | FREE_OTHER _ => mret tt end.

Definition _nvm_ref_put (ref : Z) : M lib unit :=
  if decide (ref <> NULL) then
    r ← deref as_ref ref;
    store ref (ORef (mk_ref (ref_ctrl r) [] (ref_data r) (ref_release r) (ref_stub r)));;
    match ref_release r with Some f => free_binding f (ref_data r) | None => mret tt end;;
    _nvm_ctrl_put (ref_ctrl r);;
    free ref
  else mret tt.

(** [errno] of the failed allocation is [ENOMEM]; the results of [nvm_queue_clear] are not looked
    at, and a failure leaves the descriptor as it is. *)
Definition create_admin (ctrl window : Z) : M lib (Z * Z) :=
  c ← deref as_ctrl ctrl;
  w ← deref as_cont window;
  if decide (ctrl_page_size (c_handle c) <> dma_page_size (k_handle w)) then mret (EINVAL, NULL)
  else if decide (dma_n_ioaddrs (k_handle w) < 2) then mret (ERANGE, NULL)
  else if decide (dma_vaddr (k_handle w) = NULL) then mret (EINVAL, NULL)
  else
    r ← nvm_dma_remap window;
    if decide (fst r <> 0) then mret (fst r, NULL)
    else
      let copy := snd r in
      admin ← malloc;
      if decide (admin = NULL) then nvm_dma_unmap copy;; mret (ENOMEM, NULL)
      else
        k ← deref as_cont copy;
        let q := k_handle k in
        io0 ← of_option ((dma_ioaddrs q) @[0]);
        io1 ← of_option ((dma_ioaddrs q) @[1]);
        let ps := ctrl_page_size (c_handle c) in
        let acq := snd (nvm_queue_clear uninit (c_handle c) true 0 (ps / sizeof_cpl)
                          (dma_local q) (dma_vaddr q) io0) in
        let asq := snd (nvm_queue_clear uninit (c_handle c) false 0 (ps / sizeof_cmd)
                          (dma_local q) (NVM_DMA_OFFSET q 1) io1) in
        store admin (OAdmin (mk_admin copy acq asq (ctrl_timeout (c_handle c))));;
        mret (0, admin).

(** The result of [nvm_raw_ctrl_reset(ctrl, ioaddrs[0], ioaddrs[1])], which is defined in
    CtrlReset, is not looked at. *)
Definition nvm_aq_create (ctrl window : Z) : M lib (Z * Z) :=
  r ← _nvm_ref_get ctrl;
  if decide (fst r <> 0) then mret (fst r, NULL)
  else
    let ref := snd r in
    o ← deref as_ref ref;
    r ← create_admin (ref_ctrl o) window;
    store ref (ORef (mk_ref (ref_ctrl o) (ref_handles o) (snd r) (ref_release o) (ref_stub o)));;
    if decide (fst r <> 0) then _nvm_ref_put ref;; mret (fst r, NULL)
    else
      store ref (ORef (mk_ref (ref_ctrl o) (ref_handles o) (snd r) (Some REMOVE_ADMIN)
                         (Some EXECUTE_COMMAND)));;
      mret (0, ref).

Definition nvm_aq_destroy (ref : Z) : M lib unit :=
  if decide (ref <> NULL) then _nvm_ref_put ref else mret tt.

Definition nvm_rpc_unbind (ref : Z) : M lib unit :=
  if decide (ref <> NULL) then _nvm_ref_put ref else mret tt.

Definition nvm_ctrl_from_aq_ref (ref : Z) : M lib Z :=
  if decide (ref <> NULL) then r ← deref as_ref ref; mret (ref_ctrl r) else mret NULL.

Definition _nvm_rpc_bind (ref data : Z) (release : option rpc_free_binding_t) (stub : option rpc_stub_t)
    : M lib Z :=
  err ← _nvm_mutex_lock;
  if decide (err <> 0) then mret err
  else
    r ← deref as_ref ref;
    if decide (ref_data r <> NULL \/ ref_stub r <> None) then mret EINVAL
    else store ref (ORef (mk_ref (ref_ctrl r) (ref_handles r) data release stub));; mret 0.
End aq.

(** ** Handles, proved *)

Definition keys (handles : list rpc_handle) : list Z := rh_key <$> handles.

Lemma handle_walk_spec key handles :
  let '(passed, rest) := handle_walk key handles in
  handles = passed ++ rest /\ (key ∉ keys passed) /\
  match rest with [] => key ∉ keys handles | curr :: _ => rh_key curr = key end.
Proof.
  induction handles as [|h hs IH]; simpl; [by repeat split; apply not_elem_of_nil|].
  case_decide as Hk.
  - destruct (handle_walk key hs) as [passed rest]. destruct IH as (-> & Hp & Hr). simpl.
    split; [done|]. split; [by apply not_elem_of_cons|].
    destruct rest; [|done]. rewrite app_nil_r in *. by apply not_elem_of_cons.
  - split; [done|]. split; [apply not_elem_of_nil|].
    destruct (decide (rh_key h = key)); tauto.
Qed.

(** the binding handles of a reference are a set of keys in order of insertion: an insertion
    is refused exactly when it has no data, no callback, no memory or a key that is there, and
    leaves the list alone then; a removal takes out exactly the handle with the key, keeps the
    others in order, and is undefined (a null pointer is read) when the key is not there. *)
Theorem rpc_handles_spec ok handles key data release :
  NoDup (keys handles) ->
  (let '(err, handles') := _nvm_rpc_handle_insert ok handles key data release in
   NoDup (keys handles') /\
   (err = 0 <-> data <> NULL /\ release <> NULL /\ ok = true /\ key ∉ keys handles) /\
   handles' = if decide (err = 0) then handles ++ [mk_handle key data release] else handles) /\
  match _nvm_rpc_handle_remove handles key with
  | Some (handles', h) =>
      h ∈ handles /\ rh_key h = key /\ handles' = filter (fun x => rh_key x <> key) handles
  | None => key ∉ keys handles
  end.
Proof.
  intros Hnd. split.
  - unfold _nvm_rpc_handle_insert. case_decide as Hnull.
    { split; [done|]. split; [|done]. split; [done|]. intros (? & ? & _). tauto. }
    destruct ok; [|split; [done|]; split; [|done]; split; [done|intros (_ & _ & ? & _); done]].
    case_decide as Hex.
    + split; [done|]. split; [|done]. split; [done|]. intros (_ & _ & _ & Hk). destruct Hk.
      apply list_elem_of_fmap. apply Exists_exists in Hex as (h & Hh & <-). eauto.
    + assert (key ∉ keys handles) as Hk.
      { intros Hk. apply list_elem_of_fmap in Hk as (h & -> & Hh). apply Hex, Exists_exists. eauto. }
      split; [|split; [|done]].
      * unfold keys. rewrite fmap_app. apply NoDup_app. split; [done|]. split; [|apply NoDup_singleton].
        intros x Hx ->%list_elem_of_singleton. done.
      * split; [intros _|done]. tauto.
  - unfold _nvm_rpc_handle_remove. pose proof (handle_walk_spec key handles) as Hw.
    destruct (handle_walk key handles) as [passed [|curr next]]; [by destruct Hw as (_ & _ & Hk)|].
    destruct Hw as (-> & Hp & Hc). split; [|split; [done|]].
    + apply elem_of_app. right. left.
    + unfold keys in Hnd. rewrite fmap_app, fmap_cons, Hc in Hnd. apply NoDup_app in Hnd as (_ & _ & Hn).
      apply NoDup_cons in Hn as [Hn _]. rewrite filter_app, filter_cons_False by tauto.
      f_equal; symmetry; apply filter_all; intros h Hh Heq; [apply Hp|apply Hn];
        apply list_elem_of_fmap; eauto.
Qed.
