(* ===== verification/Rpc.v ===== *)
(** * Admin commands (src/libnvm/rpc.cpp)

    Executing a command on the local admin queue pair, and the dispatch of [nvm_raw_rpc].  The
    controller is the class of NvmDevice. *)
From S2P Require Import Prelude NvmTypes NvmUtil NvmError NvmQueue NvmCmd NvmDevice LibState.
From stdpp Require Import prelude functions list.
From Stdlib Require Import ZArith Lia.
Local Open Scope Z_scope.

(** A submission doorbell with the queue memory the controller may fetch from. *)
Record adm_event := mk_adm_event { ae_db : Z; ae_tail : Z; ae_sqmem : Z -> nvm_cmd_t }.

Section rpc.
Context {E : Type} `{Device E}.

(** The admin queue pair while the reference's lock is held. *)
Record adm_st := mk_adm {
  a_admin : local_admin;
  a_sqmem : Z -> nvm_cmd_t;
  a_dev : E;
  a_trace : list adm_event;
}.

Definition la_set_queues (a : local_admin) (acq asq : nvm_queue_t) : local_admin :=
  mk_admin (la_qmem a) acq asq (la_timeout a).

(** [nvm_sq_submit] with the doorbell it writes. *)
Definition adm_submit (st : adm_st) : adm_st :=
  let adm := a_admin st in
  match nvm_sq_submit (la_asq adm) with
  | (Some tail, asq) =>
      mk_adm (la_set_queues adm (la_acq adm) asq) (a_sqmem st)
        (dev_sq_doorbell (q_db asq) tail (a_sqmem st) (fun _ => 0) (a_dev st))
        (a_trace st ++ [mk_adm_event (q_db asq) tail (a_sqmem st)])
  | (None, asq) => mk_adm (la_set_queues adm (la_acq adm) asq) (a_sqmem st) (a_dev st) (a_trace st)
  end.

(** [nvm_sq_update(&admin->asq); *cpl = *in_queue_cpl; nvm_cq_update(&admin->acq);] *)
Definition adm_consume (st : adm_st) : adm_st :=
  let adm := a_admin st in
  let asq := nvm_sq_update (la_asq adm) in
  match nvm_cq_update (la_acq adm) with
  | (Some head, acq) =>
      mk_adm (la_set_queues adm acq asq) (a_sqmem st) (dev_cq_doorbell (q_db acq) head (a_dev st)) (a_trace st)
  | (None, acq) => mk_adm (la_set_queues adm acq asq) (a_sqmem st) (a_dev st) (a_trace st)
  end.

(** The error number and [*cpl], which only a completion changes. *)
Definition execute_command (cmd : nvm_cmd_t) (cpl : nvm_cpl_t) : M adm_st (Z * nvm_cpl_t) := fun st =>
  let adm := a_admin st in
  match nvm_sq_enqueue (la_asq adm) with
  | (None, _) => Some ((EAGAIN, cpl), st)
  | (Some in_queue_cmd, asq) =>
      let in_queue_id := NVM_DEFAULT_CID asq in
      let local_copy := NVM_CMD_CID_store cmd in_queue_id in
      let st := mk_adm (la_set_queues adm (la_acq adm) asq)
                  (<[in_queue_cmd := local_copy]> (a_sqmem st)) (a_dev st) (a_trace st) in
      let st := adm_submit st in
      match nvm_cq_dequeue_block dev_cpl dev_tick (la_acq (a_admin st)) (la_timeout adm) (a_dev st) with
      | None => None
      | Some (in_queue_cpl, acq, dev) =>
          let st := mk_adm (la_set_queues (a_admin st) acq (la_asq (a_admin st))) (a_sqmem st) dev (a_trace st) in
          match in_queue_cpl with
          | None => Some ((ETIME, cpl), st)
          | Some c => Some ((0, c), adm_consume st)
          end
      end
  end.

(** Stubs other than [execute_command] belong to someone else. *)
Context (stub_other : Z -> Z -> nvm_cmd_t -> nvm_cpl_t -> M adm_st (Z * nvm_cpl_t)).

Definition call_stub (stub : rpc_stub_t) (data : Z) : nvm_cmd_t -> nvm_cpl_t -> M adm_st (Z * nvm_cpl_t) :=
  match stub with EXECUTE_COMMAND => execute_command | STUB_OTHER f => stub_other f data end.

(** The packed status and [*cpl]. *)
Definition nvm_raw_rpc (ref : nvm_admin_reference) (cmd : nvm_cmd_t) (cpl : nvm_cpl_t)
    : M adm_st (Z * nvm_cpl_t) :=
  match ref_stub ref with
  | None => mret (NVM_ERR_PACK None EINVAL, cpl)
  | Some stub =>
      r ← call_stub stub (ref_data ref) cmd cpl;
      mret (NVM_ERR_PACK (Some (snd r)) (fst r), snd r)
  end.

Definition _nvm_local_admin (ref : nvm_admin_reference) (cmd : nvm_cmd_t) (cpl : nvm_cpl_t)
    : M adm_st (Z * nvm_cpl_t) :=
  if decide (ref_stub ref <> Some EXECUTE_COMMAND) then mret (NVM_ERR_PACK None EINVAL, cpl)
  else r ← execute_command cmd cpl; mret (NVM_ERR_PACK None (fst r), snd r).

(** ** What executing a command does *)

(** The queue pair between two commands. *)
Record admin_ok (a : local_admin) : Prop := {
  ao_sq : queue_wf (la_asq a);
  ao_cq : queue_wf (la_acq a);
  ao_div : (q_qs (la_asq a) | 2 ^ 16);
  ao_last : q_last (la_asq a) = q_tail (la_asq a);
  ao_sqdb : q_db (la_asq a) <> NULL;
}.

Lemma adm_submit_new st tail' :
  queue_wf (la_asq (a_admin st)) -> q_last (la_asq (a_admin st)) <> q_tail (la_asq (a_admin st)) ->
  q_db (la_asq (a_admin st)) <> NULL -> tail' = q_tail (la_asq (a_admin st)) ->
  let asq := la_asq (a_admin st) in
  let asq' := q_set_ptrs asq (q_head asq) (q_tail asq) (q_phase asq) tail' in
  adm_submit st =
    mk_adm (la_set_queues (a_admin st) (la_acq (a_admin st)) asq') (a_sqmem st)
      (dev_sq_doorbell (q_db asq) tail' (a_sqmem st) (fun _ => 0) (a_dev st))
      (a_trace st ++ [mk_adm_event (q_db asq) tail' (a_sqmem st)]).
Proof.
  intros Hwf Hl Hdb ->. unfold adm_submit, nvm_sq_submit. rewrite decide_True by done. done.
Qed.

Lemma cq_update_wf q : queue_wf q -> queue_wf (snd (nvm_cq_update q)).
Proof.
  intros []. unfold nvm_cq_update. case_decide; [|done]. constructor; simpl; done.
Qed.

Lemma cq_dequeue_wf load q r q' : queue_wf q -> nvm_cq_dequeue load q = (r, q') -> queue_wf q'.
Proof.
  intros Hwf Ed. destruct r as [c|].
  - apply (CqFifo.cq_dequeue_Some _ _ _ _ Hwf) in Ed. apply Ed.
  - by apply cq_dequeue_none in Ed as [-> _].
Qed.

(** What [adm_consume] changes. *)
Lemma adm_consume_admin st :
  a_admin (adm_consume st) =
    la_set_queues (a_admin st) (snd (nvm_cq_update (la_acq (a_admin st)))) (nvm_sq_update (la_asq (a_admin st))).
Proof. unfold adm_consume. by destruct (nvm_cq_update _) as [[]]. Qed.

Lemma adm_consume_trace st : a_trace (adm_consume st) = a_trace st.
Proof. unfold adm_consume. by destruct (nvm_cq_update _) as [[]]. Qed.

End rpc.
