(* ===== verification/UgdsHandle.v ===== *)
(** * Handles, buffers and the driver (src/ugds_handle.cpp, ugds_buf.cpp, ugds_driver.cpp)

    The functions behind [uGDSHandleRegister], [uGDSBufRegister], [uGDSDriverOpen] and their
    counterparts, on the state of libnvm, the controllers and the library's own globals.  Admin
    commands run through the reference's queue pair in libnvm's heap, as Rpc defines it. *)
From S2P Require Import Prelude NvmTypes NvmUtil NvmError NvmQueue NvmCmd NvmDevice Admin UgdsTypes.
From S2P Require Import UgdsIo LibState Ctrl Dma LinuxDma Aq Rpc.
From stdpp Require Import prelude gmap list.
From Stdlib Require Import ZArith Lia.
Local Open Scope Z_scope.
Local Open Scope ugds_scope.

(** Memory the host shares with the controllers, at virtual addresses, and the version register of
    the controller behind a BAR0 window. *)
Class HostMem (E : Type) := {
  mem_byte : E -> Z -> Z;
  mem_clear : Z -> Z -> E -> E;      (* memset(ptr, 0, n) *)
  ver_reg : E -> Z -> Z;
}.

Section ugds.
Context `{Env} {E : Type} `{Device E, HostMem E}.

(** ** State *)

(** In [g_lib] is everything libnvm allocated, and the buffers of [posix_memalign].  A handle is
    the address of a [HandleState].  [g_sqmem] and [g_prp] are the memory of submission queues and
    PRP lists, [g_trace] and [g_io] the doorbells of admin commands and of transfers. *)
Record ugds := mk_ugds {
  g_lib : lib;
  g_sqmem : Z -> nvm_cmd_t;
  g_dev : E;
  g_trace : list adm_event;
  g_prp : Z -> Z;
  g_io : list io_event;
  g_driver : DriverState Z Z;
  g_handles : gmap Z (HandleState Z Z);
  g_next : Z;
}.

Definition g_set_lib (g : ugds) (l : lib) : ugds :=
  mk_ugds l (g_sqmem g) (g_dev g) (g_trace g) (g_prp g) (g_io g) (g_driver g) (g_handles g) (g_next g).
Definition g_set_dev (g : ugds) (e : E) : ugds :=
  mk_ugds (g_lib g) (g_sqmem g) e (g_trace g) (g_prp g) (g_io g) (g_driver g) (g_handles g) (g_next g).
Definition g_set_driver (g : ugds) (d : DriverState Z Z) : ugds :=
  mk_ugds (g_lib g) (g_sqmem g) (g_dev g) (g_trace g) (g_prp g) (g_io g) d (g_handles g) (g_next g).

Definition on_lib {A} (m : M lib A) : M ugds A := fun g =>
  match m (g_lib g) with Some (a, l) => Some (a, g_set_lib g l) | None => None end.

(** [memset(ptr, 0, n)]; slots of queues and PRP lists are written before each use. *)
Definition memset (ptr n : Z) : M ugds unit := modify (fun g => g_set_dev g (mem_clear ptr n (g_dev g))).

(** ** Admin commands through a reference *)

(** Every reference here comes from [nvm_aq_create], so its stub is [execute_command]. *)
Definition no_stub (f data : Z) (cmd : nvm_cmd_t) (cpl : nvm_cpl_t) : M (@adm_st E) (Z * nvm_cpl_t) := undefined.

Definition rpc (ref : Z) (cmd : nvm_cmd_t) (cpl : nvm_cpl_t) : M ugds (Z * nvm_cpl_t) :=
  r ← on_lib (deref as_ref ref);
  a ← on_lib (deref as_admin (ref_data r));
  g ← get;
  match nvm_raw_rpc no_stub r cmd cpl (mk_adm a (g_sqmem g) (g_dev g) (g_trace g)) with
  | None => undefined
  | Some (res, st) =>
      put (mk_ugds (set_heap (g_lib g) (<[ref_data r := OAdmin (a_admin st)]> (l_heap (g_lib g))))
             (a_sqmem st) (a_dev st) (a_trace st) (g_prp g) (g_io g) (g_driver g) (g_handles g) (g_next g));;
      mret res
  end.

Definition admin_of (ref : Z) : AdminRpc ugds := {|
  raw_rpc := rpc ref;
  clear_page ptr := memset ptr 0x1000;
  host_byte g a := mem_byte (g_dev g) a;
|}.

(** The controller behind a reference, which the admin functions look at. *)
Definition ref_ctrl_of (ref : Z) : M ugds controller :=
  on_lib (a ← nvm_ctrl_from_aq_ref ref; deref as_ctrl a).

Definition ctrl_info (ref info ptr ioaddr : Z) : M ugds (Z * option nvm_ctrl_info) :=
  c ← ref_ctrl_of ref;
  let mm := ctrl_mm_ptr (c_handle c) in
  g ← get;
  cap ← on_lib (read_cap mm);
  nvm_admin_ctrl_info (H := admin_of ref) (c_handle c) (ver_reg (g_dev g) mm) cap info ptr ioaddr.

Definition ns_info (ref info ns_id ptr ioaddr : Z) : M ugds (Z * option nvm_ns_info) :=
  nvm_admin_ns_info (H := admin_of ref) info ns_id ptr ioaddr.

Definition cq_create (ref id dma : Z) : M ugds (Z * option nvm_queue_t) :=
  c ← ref_ctrl_of ref;
  k ← on_lib (deref as_cont dma);
  nvm_admin_cq_create (H := admin_of ref) (Some (c_handle c)) uninit id (k_handle k) 0
    UGDS_DEFAULT_QUEUE_DEPTH false.

Definition sq_create (ref : Z) (cq : nvm_queue_t) (id dma : Z) : M ugds (Z * option nvm_queue_t) :=
  c ← ref_ctrl_of ref;
  k ← on_lib (deref as_cont dma);
  nvm_admin_sq_create (H := admin_of ref) (Some (c_handle c)) uninit cq id (k_handle k) 0
    UGDS_DEFAULT_QUEUE_DEPTH false.

(** ** Queue pairs *)

Definition release_dma (d : option Z) (delete_queue : M ugds unit) : M ugds unit :=
  match d with Some a => delete_queue;; on_lib (nvm_dma_unmap a) | None => mret tt end.

Definition cleanup_qp (aq_ref : Z) (qp : IOQueuePair Z) : M ugds unit :=
  release_dma (qp_sq_dma qp)
    (_ ← nvm_admin_sq_delete (H := admin_of aq_ref) (qp_sq qp) (Some (qp_cq qp)); mret tt);;
  release_dma (qp_cq_dma qp)
    (_ ← nvm_admin_cq_delete (H := admin_of aq_ref) (qp_cq qp); mret tt);;
  release_dma (qp_prp_dma qp) (mret tt);;
  on_lib (free (qp_sq_buf qp));;
  on_lib (free (qp_cq_buf qp));;
  on_lib (free (qp_prp_buf qp)).

(** [std::make_unique] clears the members. *)
Definition zero_queue : nvm_queue_t := mk_queue 0 0 0 0 0 0 0 0 0 0 false 0 0 0 0.
Definition new_qp : IOQueuePair Z := mk_qp zero_queue zero_queue None None None NULL NULL NULL.

Definition qp_set_cq_buf (qp : IOQueuePair Z) (b : Z) : IOQueuePair Z :=
  mk_qp (qp_sq qp) (qp_cq qp) (qp_sq_dma qp) (qp_cq_dma qp) (qp_prp_dma qp) (qp_sq_buf qp) b (qp_prp_buf qp).
Definition qp_set_sq_buf (qp : IOQueuePair Z) (b : Z) : IOQueuePair Z :=
  mk_qp (qp_sq qp) (qp_cq qp) (qp_sq_dma qp) (qp_cq_dma qp) (qp_prp_dma qp) b (qp_cq_buf qp) (qp_prp_buf qp).
Definition qp_set_prp_buf (qp : IOQueuePair Z) (b : Z) : IOQueuePair Z :=
  mk_qp (qp_sq qp) (qp_cq qp) (qp_sq_dma qp) (qp_cq_dma qp) (qp_prp_dma qp) (qp_sq_buf qp) (qp_cq_buf qp) b.
Definition qp_set_cq (qp : IOQueuePair Z) (q : nvm_queue_t) (d : option Z) : IOQueuePair Z :=
  mk_qp (qp_sq qp) q (qp_sq_dma qp) d (qp_prp_dma qp) (qp_sq_buf qp) (qp_cq_buf qp) (qp_prp_buf qp).
Definition qp_set_sq (qp : IOQueuePair Z) (q : nvm_queue_t) (d : option Z) : IOQueuePair Z :=
  mk_qp q (qp_cq qp) d (qp_cq_dma qp) (qp_prp_dma qp) (qp_sq_buf qp) (qp_cq_buf qp) (qp_prp_buf qp).
Definition qp_set_prp (qp : IOQueuePair Z) (d : option Z) : IOQueuePair Z :=
  mk_qp (qp_sq qp) (qp_cq qp) (qp_sq_dma qp) (qp_cq_dma qp) d (qp_sq_buf qp) (qp_cq_buf qp) (qp_prp_buf qp).

(** A page of host memory for [ctrl]: [posix_memalign], [memset], [nvm_dma_map_host].  The buffer
    (null when there is none) and the handle. *)
Definition host_page (ctrl page_size : Z) : M ugds (Z * option Z) :=
  r ← on_lib posix_memalign;
  if decide (fst r <> 0) then mret (NULL, None)
  else
    let buf := snd r in
    memset buf page_size;;
    r ← on_lib (nvm_dma_map_host ctrl buf page_size);
    if negb (nvm_ok (fst r)) then mret (buf, None) else mret (buf, Some (snd r)).

(** One turn of the loop up to the label [fail]: whether the pair is complete, and the pair. *)
Definition make_qp (ctrl aq_ref page_size i : Z) : M ugds (bool * IOQueuePair Z) :=
  let qp := new_qp in
  r ← host_page ctrl page_size;
  let qp := qp_set_cq_buf qp (fst r) in
  match snd r with
  | None => mret (false, qp)
  | Some cq_dma =>
      let qp := qp_set_cq qp (qp_cq qp) (Some cq_dma) in
      r ← cq_create aq_ref (u16 (i + 1)) cq_dma;
      if negb (nvm_ok (fst r)) then
        on_lib (nvm_dma_unmap cq_dma);;
        mret (false, qp_set_cq qp (qp_cq qp) None)
      else
        let qp := qp_set_cq qp (default (qp_cq qp) (snd r)) (Some cq_dma) in
        r ← host_page ctrl page_size;
        let qp := qp_set_sq_buf qp (fst r) in
        match snd r with
        | None => mret (false, qp)
        | Some sq_dma =>
            let qp := qp_set_sq qp (qp_sq qp) (Some sq_dma) in
            r ← sq_create aq_ref (qp_cq qp) (u16 (i + 1)) sq_dma;
            if negb (nvm_ok (fst r)) then
              on_lib (nvm_dma_unmap sq_dma);;
              mret (false, qp_set_sq qp (qp_sq qp) None)
            else
              let qp := qp_set_sq qp (default (qp_sq qp) (snd r)) (Some sq_dma) in
              r ← host_page ctrl page_size;
              let qp := qp_set_prp_buf qp (fst r) in
              match snd r with
              | None => mret (false, qp)
              | Some prp_dma => mret (true, qp_set_prp qp (Some prp_dma))
              end
        end
  end.

Fixpoint cleanup_qps (aq_ref : Z) (qps : list (IOQueuePair Z)) : M ugds unit :=
  match qps with [] => mret tt | qp :: qps => cleanup_qp aq_ref qp;; cleanup_qps aq_ref qps end.

(** The loop over [i]; [None] when a turn failed and every pair was cleaned up. *)
Fixpoint make_qps (n : nat) (ctrl aq_ref page_size i : Z) (qps : list (IOQueuePair Z))
    : M ugds (option (list (IOQueuePair Z))) :=
  match n with
  | O => mret (Some qps)
  | S n =>
      '(ok, qp) ← make_qp ctrl aq_ref page_size i;
      if (ok : bool) then make_qps n ctrl aq_ref page_size (u16 (i + 1)) (qps ++ [qp])
      else
        cleanup_qp aq_ref qp;;
        cleanup_qps aq_ref qps;;
        mret None
  end.

(** ** uGDSHandleRegister *)

Definition fail : M ugds (uGDSError_t * Z) := mret (make_error UGDS_INTERNAL_ERROR, NULL).

(** What the error paths undo, from the last resource to the first. *)
Definition undo_ctrl (ctrl : Z) : M ugds (uGDSError_t * Z) := on_lib (nvm_ctrl_free ctrl);; fail.
Definition undo_buf (ctrl aq_buf : Z) : M ugds (uGDSError_t * Z) := on_lib (free aq_buf);; undo_ctrl ctrl.
Definition undo_dma (ctrl aq_buf aq_dma : Z) : M ugds (uGDSError_t * Z) :=
  on_lib (nvm_dma_unmap aq_dma);; undo_buf ctrl aq_buf.
Definition undo_aq (ctrl aq_buf aq_dma aq_ref : Z) : M ugds (uGDSError_t * Z) :=
  on_lib (nvm_aq_destroy aq_ref);; undo_dma ctrl aq_buf aq_dma.

(** [g_driver.default_ctrl] under the driver's lock, and [*fh]. *)
Definition publish (hs : HandleState Z Z) : M ugds (uGDSError_t * Z) := fun g =>
  let d := g_driver g in
  let d := match drv_default_ctrl d with
           | None => mk_driver (drv_initialized d) (Some (hs_ctrl hs)) (drv_buf_registry d)
           | Some _ => d
           end in
  Some ((UGDS_OK, g_next g),
    mk_ugds (g_lib g) (g_sqmem g) (g_dev g) (g_trace g) (g_prp g) (g_io g) d (<[g_next g := hs]> (g_handles g)) (g_next g + 1)).

(** From the admin queue on.  [info] is the address of the members the admin functions fill. *)
Definition register_queues (fd ctrl page_size aq_buf aq_dma aq_ref info : Z) : M ugds (uGDSError_t * Z) :=
  let undo := undo_aq ctrl aq_buf aq_dma aq_ref in
  k ← on_lib (deref as_cont aq_dma);
  ioaddr ← of_option ((dma_ioaddrs (k_handle k)) @[2]);
  let ptr := NVM_DMA_OFFSET (k_handle k) 2 in
  r ← ctrl_info aq_ref info ptr ioaddr;
  if negb (nvm_ok (fst r)) then undo
  else
    ci ← of_option (snd r);
    let ns_id := 1 in
    r ← ns_info aq_ref info ns_id ptr ioaddr;
    if negb (nvm_ok (fst r)) then undo
    else
      ni ← of_option (snd r);
      r ← nvm_admin_request_num_queues (H := admin_of aq_ref) UGDS_DEFAULT_NUM_QPS UGDS_DEFAULT_NUM_QPS;
      if negb (nvm_ok (fst r)) then undo
      else
        let avail := Z.min (fst (snd r)) (snd (snd r)) in
        let num_qps := Z.min avail UGDS_DEFAULT_NUM_QPS in
        qps ← make_qps (Z.to_nat num_qps) ctrl aq_ref page_size 0 [];
        match qps with
        | None => undo
        | Some qps =>
            publish (mk_hs fd ctrl aq_ref (Some aq_dma) aq_buf ci ni ns_id (ni_lba_data_size ni)
                       (ci_max_data_size ci) (ci_max_data_pages ci) num_qps qps 0)
        end.

(** [fh_null]: whether [fh] is null; the error and [*fh]. *)
Definition uGDSHandleRegister (fh_null : bool) (descr : option uGDSDescr_t) : M ugds (uGDSError_t * Z) :=
  match fh_null, descr with
  | true, _ | _, None => mret (make_error UGDS_INVALID_VALUE, NULL)
  | false, Some descr =>
      g ← get;
      if negb (drv_initialized (g_driver g)) then mret (make_error UGDS_DRIVER_NOT_INITIALIZED, NULL)
      else if decide (descr_type descr <> UGDS_HANDLE_TYPE_OPAQUE_FD) then
        mret (make_error UGDS_INVALID_FILE_TYPE, NULL)
      else
        r ← on_lib (nvm_ctrl_init (descr_fd descr));
        if negb (nvm_ok (fst r)) then fail
        else
          let ctrl := snd r in
          c ← on_lib (deref as_ctrl ctrl);
          let page_size := ctrl_page_size (c_handle c) in
          r ← on_lib posix_memalign;
          if decide (fst r <> 0) then undo_ctrl ctrl
          else
            let aq_buf := snd r in
            memset aq_buf (u64 (page_size * 3));;
            r ← on_lib (nvm_dma_map_host ctrl aq_buf (u64 (page_size * 3)));
            if negb (nvm_ok (fst r)) then undo_buf ctrl aq_buf
            else
              let aq_dma := snd r in
              r ← on_lib (nvm_aq_create ctrl aq_dma);
              if negb (nvm_ok (fst r)) then undo_dma ctrl aq_buf aq_dma
              else register_queues (descr_fd descr) ctrl page_size aq_buf aq_dma (snd r) (g_next g)
  end.

(** ** uGDSHandleDeregister *)

Definition uGDSHandleDeregister (fh : Z) : M ugds unit :=
  if decide (fh = NULL) then mret tt
  else
    g ← get;
    hs ← of_option (g_handles g !! fh);
    cleanup_qps (hs_aq_ref hs) (rev (hs_qps hs));;
    modify (fun g =>
      let d := g_driver g in
      if decide (drv_default_ctrl d = Some (hs_ctrl hs)) then
        g_set_driver g (mk_driver (drv_initialized d) None (drv_buf_registry d))
      else g);;
    (if decide (hs_aq_ref hs <> NULL) then on_lib (nvm_aq_destroy (hs_aq_ref hs)) else mret tt);;
    release_dma (hs_aq_dma hs) (mret tt);;
    on_lib (free (hs_aq_buf hs));;
    (if decide (hs_ctrl hs <> NULL) then on_lib (nvm_ctrl_free (hs_ctrl hs)) else mret tt);;
    modify (fun g => mk_ugds (g_lib g) (g_sqmem g) (g_dev g) (g_trace g) (g_prp g) (g_io g) (g_driver g)
                       (delete fh (g_handles g)) (g_next g)).

(** ** Buffers: ugds_buf.cpp *)

Definition set_registry (reg : gmap Z Z) : M ugds unit :=
  modify (fun g => let d := g_driver g in
                   g_set_driver g (mk_driver (drv_initialized d) (drv_default_ctrl d) reg)).

(** [hip] is what the GPU runtime says about the buffer. *)
Definition uGDSBufRegister (hip : hip_info) (bufPtr_base length : Z) : M ugds uGDSError_t :=
  g ← get;
  let d := g_driver g in
  if negb (drv_initialized d) then mret (make_error UGDS_DRIVER_NOT_INITIALIZED)
  else if decide (bufPtr_base = NULL \/ length = 0) then mret (make_error UGDS_INVALID_VALUE)
  else
    match drv_buf_registry d !! bufPtr_base, drv_default_ctrl d with
    | Some _, _ => mret (make_error UGDS_MEMORY_ALREADY_REGISTERED)
    | None, None => mret (make_error UGDS_DRIVER_NOT_INITIALIZED)
    | None, Some ctrl =>
        r ← on_lib (nvm_dma_map_device hip ctrl bufPtr_base length);
        if decide (fst r <> 0 \/ snd r = NULL) then mret (make_error UGDS_GPU_MEMORY_PINNING_FAILED)
        else
          set_registry (<[bufPtr_base := snd r]> (drv_buf_registry d));;
          mret UGDS_OK
    end.

Definition uGDSBufDeregister (bufPtr_base : Z) : M ugds uGDSError_t :=
  g ← get;
  let d := g_driver g in
  if negb (drv_initialized d) then mret (make_error UGDS_DRIVER_NOT_INITIALIZED)
  else
    match drv_buf_registry d !! bufPtr_base with
    | None => mret (make_error UGDS_MEMORY_NOT_REGISTERED)
    | Some dma =>
        on_lib (nvm_dma_unmap dma);;
        set_registry (delete bufPtr_base (drv_buf_registry d));;
        mret UGDS_OK
    end.

(** ** The driver: ugds_driver.cpp *)

Definition uGDSDriverOpen : M ugds uGDSError_t :=
  g ← get;
  let d := g_driver g in
  if drv_initialized d then mret UGDS_OK
  else
    put (g_set_driver g (mk_driver true (drv_default_ctrl d) (drv_buf_registry d)));;
    mret UGDS_OK.

Fixpoint unmap_all (dmas : list Z) : M ugds unit :=
  match dmas with [] => mret tt | dma :: dmas => on_lib (nvm_dma_unmap dma);; unmap_all dmas end.

Definition uGDSDriverClose : M ugds uGDSError_t :=
  g ← get;
  let d := g_driver g in
  if negb (drv_initialized d) then mret (make_error UGDS_DRIVER_NOT_INITIALIZED)
  else
    unmap_all (snd <$> map_to_list (drv_buf_registry d));;
    modify (fun g => g_set_driver g (mk_driver false None ∅));;
    mret UGDS_OK.
End ugds.
Arguments ugds E : clear implicits.
