(* ===== verification/UgdsRw.v ===== *)
(** * Reading and writing on the state of the process (src/ugds_io.cpp)

    [do_io] of UgdsIo.v works on what a handle points to.  Here the pointers are followed in
    libnvm's heap, [nvm_dma_map_device] and [nvm_dma_unmap] are libnvm's own, and what changed is
    stored in the handle again. *)
From S2P Require Import Prelude NvmTypes NvmUtil NvmError NvmQueue NvmCmd NvmDevice UgdsTypes UgdsIo.
From S2P Require Import LibState Ctrl Dma LinuxDma Rpc UgdsHandle.
From stdpp Require Import prelude gmap list.
From Stdlib Require Import ZArith Lia.
Local Open Scope Z_scope.
Local Open Scope ugds_scope.

(** ** Following pointers; [None]: the pointer dangles *)

Definition dma_at (l : lib) (a : Z) : option nvm_dma_t := k_handle <$> (l_heap l !! a ≫= as_cont).
Definition ctrl_at (l : lib) (a : Z) : option nvm_ctrl_t := c_handle <$> (l_heap l !! a ≫= as_ctrl).

(** A pointer that may be null. *)
Definition dma_opt_at (l : lib) (o : option Z) : option (option nvm_dma_t) :=
  match o with None => Some None | Some a => Some <$> dma_at l a end.

Definition qp_at (l : lib) (qp : IOQueuePair Z) : option (IOQueuePair nvm_dma_t) :=
  sq ← dma_opt_at l (qp_sq_dma qp);
  cq ← dma_opt_at l (qp_cq_dma qp);
  prp ← dma_opt_at l (qp_prp_dma qp);
  Some (mk_qp (qp_sq qp) (qp_cq qp) sq cq prp (qp_sq_buf qp) (qp_cq_buf qp) (qp_prp_buf qp)).

Definition hs_at (l : lib) (hs : HandleState Z Z) : option (HandleState nvm_ctrl_t nvm_dma_t) :=
  ctrl ← ctrl_at l (hs_ctrl hs);
  aq ← dma_opt_at l (hs_aq_dma hs);
  qps ← mapM (qp_at l) (hs_qps hs);
  Some (mk_hs (hs_fd hs) ctrl (hs_aq_ref hs) aq (hs_aq_buf hs) (hs_ctrl_info hs) (hs_ns_info hs)
    (hs_ns_id hs) (hs_block_size hs) (hs_max_transfer_size hs) (hs_max_transfer_pages hs)
    (hs_num_qps hs) qps (hs_rr_counter hs)).

(** The registry at the one key that is looked up. *)
Definition registry_at (l : lib) (reg : gmap Z Z) (buf : Z) : option (gmap Z nvm_dma_t) :=
  match reg !! buf with None => Some ∅ | Some a => d ← dma_at l a; Some {[ buf := d ]} end.

Section rw.
Context `{Env} {E : Type} `{Device E, HostMem E}.

(** ** libnvm as [do_io] sees it

    The mapping functions for the controller at [ctrl]; [hip] is what the GPU runtime says about
    the buffer. *)
Definition lib_dma (hip : hip_info) (ctrl : Z) : DmaOps lib := {|
  dma_map_device _ ptr size :=
    r ← nvm_dma_map_device hip ctrl ptr size;
    if decide (snd r = NULL) then mret (fst r, None)
    else
      d ← deref as_cont (snd r);
      mret (fst r, Some (snd r, k_handle d));
  dma_unmap := nvm_dma_unmap;
|}.

Definition io_at (g : ugds E) (hs : HandleState Z Z) (buf : Z) : option (io_world E lib) :=
  hs ← hs_at (g_lib g) hs;
  reg ← registry_at (g_lib g) (drv_buf_registry (g_driver g)) buf;
  Some (mk_world hs reg (g_sqmem g) (g_prp g) (g_dev g) (g_io g) (g_lib g)).

(** ** What a transfer stores: the queues, the round robin counter and memory *)

Definition qp_back {D} (qp : IOQueuePair Z) (qp' : IOQueuePair D) : IOQueuePair Z :=
  mk_qp (qp_sq qp') (qp_cq qp') (qp_sq_dma qp) (qp_cq_dma qp) (qp_prp_dma qp)
    (qp_sq_buf qp) (qp_cq_buf qp) (qp_prp_buf qp).

Definition hs_back {C D} (hs : HandleState Z Z) (hs' : HandleState C D) : HandleState Z Z :=
  hs_set_qps hs (zip_with qp_back (hs_qps hs) (hs_qps hs')) (hs_rr_counter hs').

Definition io_back (g : ugds E) (fh : Z) (hs : HandleState Z Z) (w : io_world E lib) : ugds E :=
  mk_ugds (w_dma w) (w_sqmem w) (w_dev w) (g_trace g) (w_prp w) (w_trace w) (g_driver g)
    (<[fh := hs_back hs (w_hs w)]> (g_handles g)) (g_next g).

(** A null handle is refused before anything is read. *)
Definition handle_io (hip : hip_info) (fh buf size file_offset buf_offset opcode : Z) : M (ugds E) Z :=
  if decide (fh = NULL) then mret (- EINVAL)
  else
    g ← get;
    hs ← of_option (g_handles g !! fh);
    w ← of_option (io_at g hs buf);
    match do_io (H0 := lib_dma hip (hs_ctrl hs)) fh buf size file_offset buf_offset opcode w with
    | None => undefined
    | Some (r, w) => put (io_back g fh hs w);; mret r
    end.
End rw.
