(* ===== verification/CtrlReset.v ===== *)
(** * Resetting a controller (src/libnvm/ctrl.cpp, nvm_raw_ctrl_reset)

    The controller's registers are an arbitrary machine that answers reads, reacts to writes and
    moves on while the host sleeps.  Every register access goes into a trace. *)
From S2P Require Import Prelude NvmTypes NvmUtil Ctrl.
From stdpp Require Import prelude list.
From Stdlib Require Import ZArith Lia.
Local Open Scope Z_scope.

(** Registers by their offset in BAR0. *)
Class RegDev (E : Type) := {
  reg_read : E -> Z -> Z;
  reg_write : Z -> Z -> E -> E;
  reg_tick : E -> E;
}.

Section reset.
Context {E : Type} `{RegDev E}.

(** A write, or what a read of CSTS found. *)
Inductive reg_event := Wrote (offs value : Z) | SawRdy (rdy : Z).

Record reg_st := mk_reg { r_dev : E; r_trace : list reg_event }.

Definition write_reg (offs v : Z) (s : reg_st) : reg_st :=
  mk_reg (reg_write offs v (r_dev s)) (r_trace s ++ [Wrote offs v]).

Definition saw (s : reg_st) (rdy : Z) : reg_st := mk_reg (r_dev s) (r_trace s ++ [SawRdy rdy]).

(** [_nvm_delay_remain] sleeps unless nothing remains. *)
Definition delay (remaining : Z) (s : reg_st) : Z * reg_st :=
  (_nvm_delay_remain remaining,
   if decide (remaining = 0) then s else mk_reg (reg_tick (r_dev s)) (r_trace s)).

(** One turn of [while (CSTS$RDY(mm_ptr) != want)]: whether the wait ended well. *)
Definition wait_turn (want : Z) (st : Z * reg_st) : (Z * reg_st) + (bool * reg_st) :=
  let '(remaining, s) := st in
  let rdy := CSTS_RDY (reg_read (r_dev s) CSTS_offs) in
  let s := saw s rdy in
  if decide (rdy <> want) then
    if decide (remaining = 0) then inr (false, s) else inl (delay remaining s)
  else inr (true, s).

(** A turn for each started millisecond, and the one that finds 0. *)
Definition wait_rdy (want remaining : Z) (s : reg_st) : option (bool * reg_st) :=
  match iter_until (Z.to_pos (cdiv remaining 1000000 + 1)) (wait_turn want) (remaining, s) with
  | inr r => Some r
  | inl _ => None
  end.

(** The values written. *)
Definition aqa_value (ctrl : nvm_ctrl_t) : Z :=
  let cq_max_entries := u32 (ctrl_page_size ctrl / sizeof_cpl - 1) in
  let sq_max_entries := u32 (ctrl_page_size ctrl / sizeof_cmd - 1) in
  Z.lor (AQA_ACQS cq_max_entries) (AQA_ASQS sq_max_entries).

Definition cc_value (ctrl : nvm_ctrl_t) : Z :=
  let cqes := encode_entry_size sizeof_cpl in
  let sqes := encode_entry_size sizeof_cmd in
  Z.lor (Z.lor (Z.lor (Z.lor (CC_IOCQES cqes) (CC_IOSQES sqes))
    (CC_MPS (encode_page_size (ctrl_page_size ctrl)))) (CC_CSS 0)) (CC_EN 1).

Definition nvm_raw_ctrl_reset (ctrl : nvm_ctrl_t) (acq_addr asq_addr : Z) (s : reg_st)
    : option (Z * reg_st) :=
  let s := write_reg CC_offs (Z.land (reg_read (r_dev s) CC_offs) (2 ^ 32 - 2)) s in
  let timeout := u64 (ctrl_timeout ctrl * 1000000) in
  let '(remaining, s) := delay timeout s in
  match wait_rdy 0 remaining s with
  | None => None
  | Some (false, s) => Some (ETIME, s)
  | Some (true, s) =>
      let s := write_reg AQA_offs (aqa_value ctrl) s in
      let s := write_reg ACQ_offs acq_addr s in
      let s := write_reg ASQ_offs asq_addr s in
      let s := write_reg CC_offs (cc_value ctrl) s in
      let '(remaining, s) := delay timeout s in
      match wait_rdy 1 remaining s with
      | None => None
      | Some (false, s) => Some (ETIME, s)
      | Some (true, s) => Some (0, s)
      end
  end.

(** ** Waiting *)

(** [n] reads of CSTS that were not [want], then one that is if [ok]. *)
Definition waited (want : Z) (ok : bool) (ev : list reg_event) : Prop :=
  exists seen last, ev = (SawRdy <$> seen) ++ [SawRdy last] /\
    Forall (fun r => r <> want) seen /\ (ok = true <-> last = want).

Lemma wait_fuel_spec want fuel remaining (s : reg_st) :
  0 <= remaining < 2 ^ 64 -> cdiv remaining 1000000 < Z.of_nat fuel ->
  exists ok s' ev, iter_fuel fuel (wait_turn want) (remaining, s) = inr (ok, s') /\
    r_trace s' = r_trace s ++ ev /\ waited want ok ev.
Proof.
  revert remaining s. induction fuel as [|fuel IH]; intros remaining s Hr Hf.
  { pose proof (cdiv_spec remaining 1000000). lia. }
  cbn [iter_fuel]. unfold wait_turn at 1.
  set (rdy := CSTS_RDY _). case_decide as Hne.
  - destruct (decide (remaining = 0)) as [->|Hnz].
    + exists false. eexists _, [SawRdy rdy]. split; [reflexivity|]. split; [reflexivity|].
      exists [], rdy. done.
    + destruct (delay_remain_turns remaining ltac:(lia)) as [Hr' Hc]. unfold delay.
      rewrite decide_False by done.
      destruct (IH (_nvm_delay_remain remaining) (mk_reg (reg_tick (r_dev (saw s rdy))) (r_trace (saw s rdy))))
        as (ok & s' & ev & E1 & Htr & seen & last & -> & Hs & Hok); [lia|lia|].
      exists ok, s', (SawRdy rdy :: (SawRdy <$> seen) ++ [SawRdy last]). split; [exact E1|]. split.
      * rewrite Htr. simpl. by rewrite <- app_assoc.
      * exists (rdy :: seen), last. split; [done|]. split; [by constructor|done].
  - exists true. eexists _, [SawRdy rdy]. split; [reflexivity|]. split; [reflexivity|].
    exists [], rdy. split; [done|]. split; [done|]. split; [|done]. intros _.
    destruct (decide (rdy = want)); tauto.
Qed.

Lemma wait_rdy_spec want remaining (s : reg_st) :
  0 <= remaining < 2 ^ 64 ->
  exists ok s' ev, wait_rdy want remaining s = Some (ok, s') /\
    r_trace s' = r_trace s ++ ev /\ waited want ok ev.
Proof.
  intros Hr. unfold wait_rdy. rewrite iter_until_fuel.
  destruct (wait_fuel_spec want (Pos.to_nat (Z.to_pos (cdiv remaining 1000000 + 1))) remaining s Hr)
    as (ok & s' & ev & E1 & H1).
  { pose proof (cdiv_spec remaining 1000000). rewrite positive_nat_Z, Z2Pos.id by lia. lia. }
  exists ok, s', ev. by rewrite E1.
Qed.

Lemma delay_trace remaining (s : reg_st) :
  0 <= remaining < 2 ^ 64 ->
  0 <= fst (delay remaining s) < 2 ^ 64 /\ r_trace (snd (delay remaining s)) = r_trace s.
Proof.
  intros Hr. unfold delay. simpl. case_decide as Hz; [by rewrite Hz; split; [vm_compute; split; congruence|]|].
  destruct (delay_remain_turns remaining ltac:(lia)) as [Hd _]. split; [lia|done].
Qed.

(** The registers a reset writes. *)
Definition disable_writes (cc : Z) : list reg_event := [Wrote CC_offs (Z.land cc (2 ^ 32 - 2))].
Definition enable_writes (ctrl : nvm_ctrl_t) (acq asq : Z) : list reg_event :=
  [Wrote AQA_offs (aqa_value ctrl); Wrote ACQ_offs acq; Wrote ASQ_offs asq; Wrote CC_offs (cc_value ctrl)].

(** C34: [nvm_raw_ctrl_reset] always returns.  It clears CC.EN, writes the admin queue registers
    only after it has seen CSTS.RDY clear, sets CC.EN last, and returns 0 exactly when it has then
    seen CSTS.RDY set; otherwise it returns [ETIME], having written nothing but CC when the
    controller never became idle. *)
Theorem ctrl_reset_protocol ctrl acq asq (s : reg_st) :
  exists r s', nvm_raw_ctrl_reset ctrl acq asq s = Some (r, s') /\
    let cc := reg_read (r_dev s) CC_offs in
    exists down, r_trace s' = r_trace s ++ disable_writes cc ++ down /\
      (r = ETIME /\ waited 0 false down \/
       exists idle up ok, down = idle ++ enable_writes ctrl acq asq ++ up /\ waited 0 true idle /\
         waited 1 ok up /\ r = if ok : bool then 0 else ETIME).
Proof.
  unfold nvm_raw_ctrl_reset. set (cc := Z.land _ _). set (t := u64 _).
  pose proof (wrap_range 64 (ctrl_timeout ctrl * 1000000) ltac:(lia)) as Ht. fold t in Ht.
  destruct (delay_trace t (write_reg CC_offs cc s) Ht) as [Hr1 Htr1].
  destruct (delay t (write_reg CC_offs cc s)) as [r1 s1]. simpl in Hr1, Htr1.
  destruct (wait_rdy_spec 0 r1 s1 Hr1) as (ok1 & s2 & ev1 & -> & Htr2 & Hw1).
  destruct ok1.
  2:{ exists ETIME, s2. split; [done|]. exists ev1. rewrite Htr2, Htr1, <- app_assoc. split; [done|]. by left. }
  set (s6 := write_reg CC_offs (cc_value ctrl) _).
  destruct (delay_trace t s6 Ht) as [Hr3 Htr3].
  destruct (delay t s6) as [r3 s7]. simpl in Hr3, Htr3.
  destruct (wait_rdy_spec 1 r3 s7 Hr3) as (ok2 & s8 & ev2 & -> & Htr4 & Hw2).
  assert (r_trace s8 = r_trace s ++ disable_writes (reg_read (r_dev s) CC_offs) ++
    ev1 ++ enable_writes ctrl acq asq ++ ev2) as Htr.
  { rewrite Htr4, Htr3. simpl. rewrite Htr2, Htr1. simpl. rewrite <- !app_assoc. done. }
  destruct ok2; eexists _, s8; (split; [reflexivity|]); (eexists; split; [exact Htr|]); right.
  - exists ev1, ev2, true. done.
  - exists ev1, ev2, false. done.
Qed.
End reset.

(** ** The values *)

Ltac page_shifts k :=
  assert (k = 12 \/ k = 13 \/ k = 14 \/ k = 15 \/ k = 16 \/ k = 17 \/ k = 18 \/ k = 19 \/ k = 20 \/
          k = 21 \/ k = 22 \/ k = 23 \/ k = 24 \/ k = 25 \/ k = 26 \/ k = 27) as Hcases by lia.

(** the configuration written at the end of a reset enables the controller with the host's
    page size, 16-byte completions and 64-byte commands, for every page size CC.MPS can express;
    the admin queue sizes fit in AQA, so that the controller agrees with the page-sized queues of
    [create_admin], exactly for pages of at most 64 KiB. *)
Theorem ctrl_reset_values k ctrl :
  12 <= k <= 27 -> ctrl_page_size ctrl = 2 ^ k ->
  _RB (cc_value ctrl) 0 0 = 1 /\ _RB (cc_value ctrl) 10 7 = k - 12 /\ _RB (cc_value ctrl) 3 1 = 0 /\
  2 ^ _RB (cc_value ctrl) 23 20 = sizeof_cpl /\ 2 ^ _RB (cc_value ctrl) 19 16 = sizeof_cmd /\
  (_RB (aqa_value ctrl) 27 16 = ctrl_page_size ctrl / sizeof_cpl - 1 /\
   _RB (aqa_value ctrl) 11 0 = ctrl_page_size ctrl / sizeof_cmd - 1 <-> k <= 16).
Proof.
  intros Hk Hps. unfold cc_value, aqa_value. rewrite !Hps. page_shifts k.
  repeat destruct Hcases as [->|Hcases]; try subst k;
    do 5 (split; [vm_compute; reflexivity|]); split; intros Hx;
    first [lia|split; vm_compute; reflexivity|destruct Hx as [Hx _]; vm_compute in Hx; discriminate Hx].
Qed.

Lemma ctrl_reset_values_witness :
  let ctrl := mk_ctrl 4096 0 5000 1024 0x2000 0x1000000 in
  12 <= 12 <= 27 /\ ctrl_page_size ctrl = 2 ^ 12 /\ _RB (cc_value ctrl) 10 7 = 12 - 12.
Proof.
  split; [lia|]. split; [reflexivity|].
  apply (ctrl_reset_values 12 (mk_ctrl 4096 0 5000 1024 0x2000 0x1000000)); [lia|reflexivity].
Defined.
