(* ===== verification/AdminCases.v ===== *)
(** * Admin functions on concrete controllers

    A controller that answers every admin command, and the theorems on the admin functions, the
    admin queue and the binding handles applied to it. *)
From S2P Require Import Prelude NvmTypes NvmUtil NvmError NvmQueue NvmCmd NvmDevice Admin AdminSpec.
From S2P Require Import LibState Aq Rpc.
From stdpp Require Import prelude functions list.
From Stdlib Require Import ZArith Lia.
Local Open Scope Z_scope.

(** The state is host memory, at the bus addresses the controller uses.  Identify reports MDTS 5
    and, as format 0, blocks of 512 bytes; Set Features grants what it is asked for. *)
#[export] Instance sim_rpc : AdminRpc (Z -> Z) := {|
  raw_rpc cmd cpl m :=
    Some ((0, mk_cpl [cmd_get cmd 11; 0; 0; 0]),
          if decide (cmd_opcode cmd = admin_opcode NVM_ADMIN_IDENTIFY)
          then <[cmd_prp1 cmd + 77 := 5]> (<[cmd_prp1 cmd + 130 := 9]> m) else m);
  clear_page ptr m := Some (tt, fun a => if decide (ptr <= a < ptr + 4096) then 0 else m a);
  host_byte m a := m a;
|}.

Definition sim_ctrl : nvm_ctrl_t := mk_ctrl 4096 0 5000 1024 0x2000 0x1000000.
Definition sim_qmem : nvm_dma_t := mk_dma 0x200000 true true 4096 2 [0x900000; 0x901000].
Definition sim_queue : nvm_queue_t := mk_queue 0 0 0 0 0 0 1 16 64 1 true 0 0x1000 0x1000 0x1000.
Definition dirty : Z -> Z := fun _ => 255.

Lemma sim_mem_ok : mem_ok sim_ctrl sim_qmem.
Proof.
  constructor; simpl; try lia; [by exists 64|]. repeat constructor; unfold fits; lia.
Qed.

Lemma cq_create_spec_witness :
  exists q, nvm_admin_cq_create (Some sim_ctrl) sim_queue 1 sim_qmem 1 64 false dirty = Some ((0, Some q), dirty) /\
    new_queue q sim_qmem 1 1 sizeof_cpl 0x901000.
Proof.
  destruct (cq_create_spec sim_ctrl sim_queue 1 sim_qmem 1 64 false dirty sim_mem_ok ltac:(lia) ltac:(lia))
    as [Hbad|(q & cmd & ioaddr & Hnew & Hcr & _ & Hrun)]; [discriminate Hbad|].
  exists q. assert (ioaddr = 0x901000) as ->.
  { destruct Hnew as [_ _ _ _ [_ Hio] _ _]. vm_compute in Hio. by injection Hio as <-. }
  split; [|exact Hnew]. rewrite Hrun. unfold mbind, M_bind, raw_rpc. simpl.
  rewrite (cr_opcode _ _ _ _ _ Hcr). rewrite decide_False by done. reflexivity.
Defined.

Lemma sq_create_spec_witness :
  exists q, nvm_admin_sq_create (Some sim_ctrl) sim_queue sim_queue 1 sim_qmem 0 64 false dirty =
      Some ((0, Some q), dirty) /\ new_queue q sim_qmem 0 1 sizeof_cmd 0x900000.
Proof.
  destruct (sq_create_spec sim_ctrl sim_queue sim_queue 1 sim_qmem 0 64 false dirty sim_mem_ok
    ltac:(lia) ltac:(simpl; lia) ltac:(lia)) as [Hbad|(q & cmd & ioaddr & Hnew & Hcr & _ & _ & Hrun)]; [discriminate Hbad|].
  exists q. assert (ioaddr = 0x900000) as ->.
  { destruct Hnew as [_ _ _ _ [_ Hio] _ _]. vm_compute in Hio. by injection Hio as <-. }
  split; [|exact Hnew]. rewrite Hrun. unfold mbind, M_bind, raw_rpc. simpl.
  rewrite (cr_opcode _ _ _ _ _ Hcr). rewrite decide_False by done. reflexivity.
Defined.

(** Sixteen completion queues and eight submission queues. *)
Lemma num_queues_swapped_witness :
  nvm_admin_request_num_queues 16 8 dirty = Some ((0, (8, 16)), dirty).
Proof.
  apply (num_queues_swapped 16 8 dirty); [|lia|lia].
  intros cmd cpl s Hop. eexists. unfold raw_rpc. simpl. rewrite Hop. rewrite decide_False by done.
  split; reflexivity.
Defined.

Lemma log_page_overruns_witness :
  0 <= 2 < 2 ^ 8 /\ log_bytes (admin_get_log_page cmd_zero 1 0x900000 2 0) = 4100.
Proof. split; [lia|]. apply (log_page_overruns 1 0x900000 2 0). lia. Defined.

(** The memory after the page was cleared, and after the controller wrote to it. *)
Definition cleared : Z -> Z := fun a => if decide (0x900000 <= a < 0x900000 + 4096) then 0 else dirty a.
Definition identified : Z -> Z := <[0x900000 + 77 := 5]> (<[0x900000 + 130 := 9]> cleared).

Lemma ns_info_spec_witness :
  exists i, nvm_admin_ns_info 1 1 0x900000 0x900000 dirty = Some ((0, Some i), identified) /\
    ni_lba_data_size i = 512.
Proof.
  eexists. split.
  - apply (ns_info_spec 1 1 0x900000 0x900000 dirty cleared identified (mk_cpl [0; 0; 0; 0]));
      [done|done|unfold fits; lia|done|reflexivity|reflexivity|vm_compute; reflexivity].
  - vm_compute. reflexivity.
Defined.

(** CAP with 65536 entries per queue. *)
Lemma ctrl_info_spec_witness :
  exists i, nvm_admin_ctrl_info sim_ctrl 0x10300 0xffff 1 0x900000 0x900000 dirty = Some ((0, Some i), identified) /\
    ci_max_data_size i = 2 ^ 17 /\ ci_max_entries i = 0.
Proof.
  destruct (ctrl_info_spec sim_ctrl 0x10300 0xffff 1 0x900000 0x900000 dirty cleared identified
    (mk_cpl [0; 0; 0; 0])) as (i & Hrun & Hsize & _ & Hent);
    [done|done|done|simpl; lia|reflexivity|reflexivity|vm_compute; discriminate|vm_compute; reflexivity|].
  exists i. split; [exact Hrun|]. split; [exact Hsize|exact Hent].
Defined.

(** ** The admin queue *)

(** A controller that completes at once: every entry shows a success with the phase tag set. *)
#[export] Instance quick_dev : Device unit := {|
  dev_cpl _ _ := mk_cpl [0; 0; 0; 2 ^ 16];
  dev_tick e := e;
  dev_sq_doorbell _ _ _ _ e := e;
  dev_cq_doorbell _ _ e := e;
|}.

Definition sim_admin : local_admin :=
  mk_admin 12
    (snd (nvm_queue_clear sim_queue sim_ctrl true 0 256 true 0x200000 0x900000))
    (snd (nvm_queue_clear sim_queue sim_ctrl false 0 64 true 0x201000 0x901000)) 5000.


(** ** Binding handles *)

Lemma rpc_handles_spec_witness :
  NoDup (keys [mk_handle 3 10 20; mk_handle 5 11 20]) /\
  snd (_nvm_rpc_handle_insert true [mk_handle 3 10 20; mk_handle 5 11 20] 7 12 20) =
    [mk_handle 3 10 20; mk_handle 5 11 20; mk_handle 7 12 20].
Proof.
  assert (NoDup (keys [mk_handle 3 10 20; mk_handle 5 11 20])) as Hnd.
  { apply (bool_decide_unpack (NoDup [3; 5])). vm_compute. exact I. }
  split; [exact Hnd|].
  pose proof (proj1 (rpc_handles_spec true [mk_handle 3 10 20; mk_handle 5 11 20] 7 12 20 Hnd)) as Hins.
  exact (proj2 (proj2 Hins)).
Defined.
