(* ===== verification/DmaSpec.v ===== *)
(** * DMA handles describe the memory they were made for

    The addresses [populate_handle] computes, byte for byte, and that it stays inside its arrays. *)
From S2P Require Import Prelude NvmTypes NvmUtil LibState Ctrl Dma.
From stdpp Require Import prelude gmap list.
From Stdlib Require Import ZArith Lia.
Local Open Scope Z_scope.
Local Open Scope ugds_scope.

Section populate.
Context (hps ps cap : Z) (ioaddrs : list Z).

(** The address of handle page [i]. *)
Definition page_addr (i : Z) : Z :=
  u64 (nth (Z.to_nat (u64 (i * hps) / ps)) ioaddrs 0 + u64 (i * hps) mod ps).

(** Whether pages [0..n-1] follow each other on the bus. *)
Definition pages_contiguous (n : nat) : Prop :=
  forall i, (0 < i < n)%nat -> u64 (page_addr (Z.of_nat i - 1) + hps) = page_addr (Z.of_nat i).

Lemma populate_loop_spec (n i : nat) contiguous :
  0 < ps -> 0 < hps -> Z.of_nat (i + n) <= cap ->
  Z.of_nat (i + n) * hps <= ps * Z.of_nat (length ioaddrs) -> Z.of_nat (i + n) * hps <= 2 ^ 64 ->
  (contiguous = true <-> pages_contiguous i) ->
  exists contiguous',
    populate_loop n (Z.of_nat i) hps ps cap ioaddrs (page_addr ∘ Z.of_nat <$> seq 0 i) contiguous =
      Some (page_addr ∘ Z.of_nat <$> seq 0 (i + n), contiguous') /\
    (contiguous' = true <-> pages_contiguous (i + n)).
Proof.
  revert i contiguous. induction n as [|n IH]; intros i contiguous Hps Hhps Hcap Hlen H64 Hc; simpl.
  { exists contiguous. by rewrite Nat.add_0_r. }
  assert (u64 (Z.of_nat i * hps) = Z.of_nat i * hps) as Hw by (apply wrap_small; unfold fits; nia).
  assert (0 <= Z.of_nat i * hps / ps < Z.of_nat (length ioaddrs)) as Hidx.
  { split; [apply Z.div_pos; lia|]. apply Z.div_lt_upper_bound; nia. }
  destruct (zlookup_is_Some ioaddrs (Z.of_nat i * hps / ps)) as [a Ha]; [done|].
  rewrite Hw, Ha. rewrite decide_True by lia.
  assert (u64 (a + (Z.of_nat i * hps) mod ps) = page_addr (Z.of_nat i)) as ->.
  { unfold page_addr. rewrite Hw. unfold zlookup in Ha. rewrite decide_True in Ha by lia.
    rewrite nth_lookup, Ha. done. }
  set (c' := match _ with Some _ => _ | None => _ end).
  assert (c' = true <-> pages_contiguous (S i)) as Hc'.
  { subst c'. destruct i as [|i].
    - simpl. rewrite Hc. split; intros ? j Hj; lia.
    - replace (Z.of_nat (S i) - 1) with (Z.of_nat i) by lia. rewrite zlookup_nat.
      rewrite list_lookup_fmap, lookup_seq_lt by lia. simpl.
      destruct (decide (u64 (page_addr (Z.of_nat i) + hps) <> page_addr (Z.of_nat (S i)))) as [Hne|He].
      + split; [done|]. intros Hp. destruct Hne. rewrite <- (Hp (S i)) by lia. do 2 f_equal.
        f_equal. lia.
      + rewrite Hc. split; intros Hp j Hj; [|apply Hp; lia].
        destruct (decide (j = S i)) as [->|]; [|apply Hp; lia].
        replace (Z.of_nat (S i) - 1) with (Z.of_nat i) by lia.
        destruct (decide (u64 (page_addr (Z.of_nat i) + hps) = page_addr (Z.of_nat (S i)))); done. }
  replace (Z.of_nat i + 1) with (Z.of_nat (S i)) by lia.
  replace ((page_addr ∘ Z.of_nat <$> seq 0 i) ++ [page_addr (Z.of_nat i)])
    with (page_addr ∘ Z.of_nat <$> seq 0 (S i)) by (rewrite seq_S, fmap_app; done).
  destruct (IH (S i) c' Hps Hhps) as (c'' & E & Hc''); [lia..|done|].
  exists c''. replace (i + S n)%nat with (S i + n)%nat by lia. done.
Qed.
End populate.

(** [populate_handle] on a range whose pages are all in [ioaddrs] and a handle with room. *)
Lemma populate_handle_spec handle cap va ctrl ioaddrs :
  0 < ctrl_page_size ctrl -> 0 <= va_page_size va -> 0 <= va_n_pages va ->
  (0 < n_ctrl_pages ctrl (va_page_size va) (va_n_pages va) -> 0 < va_page_size va) ->
  n_ctrl_pages ctrl (va_page_size va) (va_n_pages va) <= cap ->
  va_n_pages va <= Z.of_nat (length ioaddrs) ->
  let n := Z.to_nat (n_ctrl_pages ctrl (va_page_size va) (va_n_pages va)) in
  let addr := page_addr (ctrl_page_size ctrl) (va_page_size va) ioaddrs in
  exists contiguous,
    populate_handle handle cap va ctrl ioaddrs =
      Some (mk_dma (va_vaddr va) (dma_local handle) contiguous (ctrl_page_size ctrl) (Z.of_nat n)
              (addr ∘ Z.of_nat <$> seq 0 n)) /\
    (contiguous = true <->
     pages_contiguous (ctrl_page_size ctrl) (va_page_size va) ioaddrs n).
Proof.
  intros Hhps Hps Hn Hpos Hcap Hlen. unfold populate_handle. rewrite decide_False by lia.
  set (N := n_ctrl_pages ctrl (va_page_size va) (va_n_pages va)) in *. cbv zeta.
  assert (0 <= N /\ N * ctrl_page_size ctrl <= u64 (va_page_size va * va_n_pages va)) as [HN HNps].
  { pose proof (wrap_range 64 (va_page_size va * va_n_pages va)). unfold N, n_ctrl_pages.
    split; [apply Z.div_pos; lia|]. rewrite Z.mul_comm. apply Z.mul_div_le. lia. }
  assert (u64 (va_page_size va * va_n_pages va) <= va_page_size va * va_n_pages va)
    by (apply Z.mod_le; nia).
  pose proof (wrap_range 64 (va_page_size va * va_n_pages va)).
  destruct (decide (N = 0)) as [Hz|Hnz].
  { rewrite Hz. exists true. split; [done|]. split; [|done]. intros _ i Hi. lia. }
  destruct (populate_loop_spec (ctrl_page_size ctrl) (va_page_size va) cap ioaddrs (Z.to_nat N) 0 true)
    as (c & E & Hc); [lia|lia|lia|rewrite Nat.add_0_l, Z2Nat.id by lia; nia
    |rewrite Nat.add_0_l, Z2Nat.id by lia; lia| |].
  { split; [|done]. intros _ i Hi. lia. }
  change (Z.of_nat 0) with 0 in E. simpl in E, Hc. rewrite E. rewrite Z2Nat.id by lia. by exists c.
Qed.

(** The bus address of byte [b] of a range given by pages. *)
Definition bus_addr (ps : Z) (pages : list Z) (b : Z) : Z :=
  nth (Z.to_nat (b / ps)) pages 0 + b mod ps.

(** When the handle's pages divide the range's pages, handle and range agree on every byte. *)
Lemma page_addr_bytes hps ps ioaddrs b :
  0 < hps -> (hps | ps) -> 0 < ps -> 0 <= b < 2 ^ 64 ->
  (forall a, ioaddrs !! Z.to_nat (b / ps) = Some a -> 0 <= a /\ a + ps <= 2 ^ 64) ->
  b / ps < Z.of_nat (length ioaddrs) ->
  page_addr hps ps ioaddrs (b / hps) + b mod hps = bus_addr ps ioaddrs b.
Proof.
  intros Hh [c ->] Hps Hb Ha Hlt. assert (0 < c) by nia. unfold page_addr, bus_addr.
  assert (b / hps * hps <= b) by (rewrite Z.mul_comm; apply Z.mul_div_le; lia).
  assert (0 <= b / hps) by (apply Z.div_pos; lia).
  rewrite (wrap_small 64 (b / hps * hps)) by (unfold fits; nia).
  rewrite (Z.mul_comm c hps) in Ha |- *. rewrite <- (Z.div_div (b / hps * hps)) by lia. rewrite Z.div_mul by lia.
  rewrite (Z.mul_comm (b / hps) hps), Z.mul_mod_distr_l by lia.
  assert (b mod (hps * c) = hps * ((b / hps) mod c) + b mod hps) as ->.
  { rewrite Z.rem_mul_r by lia. lia. }
  rewrite Z.div_div by lia.
  destruct (lookup_lt_is_Some_2 ioaddrs (Z.to_nat (b / (hps * c)))) as [a Hl].
  { rewrite (Z.mul_comm hps c). pose proof (Z.div_pos b (c * hps)). lia. }
  rewrite nth_lookup, Hl. simpl. specialize (Ha a Hl).
  pose proof (Z.mod_pos_bound (b / hps) c).
  rewrite wrap_small by (unfold fits; nia). lia.
Qed.

(** The handle [populate_handle] makes of a range that the controller's pages divide: it covers the
    range, and its pages are those of [page_addr]. *)
Lemma populate_handle_pages handle cap va ctrl ioaddrs :
  let hps := ctrl_page_size ctrl in
  let ps := va_page_size va in
  0 < hps -> 0 < ps -> (hps | ps) -> 0 <= va_n_pages va ->
  ps * va_n_pages va < 2 ^ 64 -> n_ctrl_pages ctrl ps (va_n_pages va) <= cap ->
  va_n_pages va = Z.of_nat (length ioaddrs) ->
  exists contiguous N addrs,
    populate_handle handle cap va ctrl ioaddrs = Some (mk_dma (va_vaddr va) (dma_local handle) contiguous hps N addrs) /\
    N = Z.of_nat (length addrs) /\ N * hps = ps * va_n_pages va /\
    (forall i, 0 <= i < N -> nth (Z.to_nat i) addrs 0 = page_addr hps ps ioaddrs i) /\
    (contiguous = true <-> pages_contiguous hps ps ioaddrs (Z.to_nat N)).
Proof.
  intros hps ps Hh Hp Hd Hn H64 Hcap Hlen.
  destruct (populate_handle_spec handle cap va ctrl ioaddrs) as (c & -> & Hc); try done || lia.
  fold hps ps. fold hps ps in Hc.
  assert (n_ctrl_pages ctrl ps (va_n_pages va) * hps = ps * va_n_pages va) as Hcov.
  { unfold n_ctrl_pages. rewrite wrap_small by (unfold fits; nia). fold hps.
    destruct Hd as [q Hq]. rewrite Hq, <- Z.mul_assoc, (Z.mul_comm hps), Z.mul_assoc.
    rewrite Z.div_mul by lia. lia. }
  set (N := n_ctrl_pages ctrl ps (va_n_pages va)) in *. assert (0 <= N) by nia.
  eexists c, N, _. rewrite Z2Nat.id by lia. split; [done|]. rewrite length_fmap, length_seq. split_and!; [lia|done| |done].
  intros i Hi. rewrite nth_lookup, list_lookup_fmap, lookup_seq_lt by lia. simpl. f_equal. lia.
Qed.

(** C33: a DMA handle describes exactly the memory it was made for.  For page addresses that fit
    and controller pages that divide the range's pages, [populate_handle] succeeds, the handle
    covers the whole range, every byte of the range has through the handle the bus address it has
    through the range's own pages, and [contiguous] says whether the handle's pages follow each
    other on the bus. *)
Theorem populate_handle_bytes handle cap va ctrl ioaddrs :
  let hps := ctrl_page_size ctrl in
  let ps := va_page_size va in
  0 < hps -> 0 < ps -> (hps | ps) -> 0 <= va_n_pages va ->
  ps * va_n_pages va < 2 ^ 64 -> n_ctrl_pages ctrl ps (va_n_pages va) <= cap ->
  va_n_pages va = Z.of_nat (length ioaddrs) ->
  (forall a, a ∈ ioaddrs -> 0 <= a /\ a + ps <= 2 ^ 64) ->
  exists h, populate_handle handle cap va ctrl ioaddrs = Some h /\
    dma_page_size h = hps /\ dma_vaddr h = va_vaddr va /\ dma_local h = dma_local handle /\
    dma_n_ioaddrs h = Z.of_nat (length (dma_ioaddrs h)) /\
    dma_n_ioaddrs h * hps = ps * va_n_pages va /\
    (forall b, 0 <= b < ps * va_n_pages va -> bus_addr hps (dma_ioaddrs h) b = bus_addr ps ioaddrs b) /\
    (dma_contiguous h = true <->
     forall i, 0 < i < dma_n_ioaddrs h ->
       u64 (nth (Z.to_nat (i - 1)) (dma_ioaddrs h) 0 + hps) = nth (Z.to_nat i) (dma_ioaddrs h) 0).
Proof.
  intros hps ps Hh Hp Hd Hn H64 Hcap Hlen Ha.
  destruct (populate_handle_pages handle cap va ctrl ioaddrs) as (c & N & addrs & -> & HN & Hcov & Hnth & Hc); try done.
  fold hps ps in Hcov, Hnth, Hc.
  eexists. split; [done|]. simpl. repeat (split; [done|]). split.
  - intros b Hb. assert (b / ps < Z.of_nat (length ioaddrs)) by (apply Z.div_lt_upper_bound; lia).
    rewrite <- (page_addr_bytes hps ps ioaddrs b); [|done|done|done|lia| |done].
    + unfold bus_addr. rewrite Hnth; [done|]. split; [apply Z.div_pos; lia|]. apply Z.div_lt_upper_bound; lia.
    + intros a Hl. by eapply Ha, list_elem_of_lookup_2.
  - rewrite Hc. unfold pages_contiguous. split.
    + intros Hi i Hr. rewrite !Hnth by lia. specialize (Hi (Z.to_nat i)).
      rewrite Z2Nat.id in Hi by lia. apply Hi. lia.
    + intros Hi i Hr. specialize (Hi (Z.of_nat i)). rewrite !Hnth in Hi by lia. apply Hi. lia.
Qed.

(** A range of two 64 KiB pages on a controller with 4 KiB pages. *)
Lemma populate_handle_bytes_witness :
  exists h, populate_handle zero_dma 32 (mk_va false 0x7000 0x10000 2)
      (mk_ctrl 4096 0 500 64 0x2000 0x1000) [0x100000; 0x200000] = Some h /\
    dma_n_ioaddrs h * 4096 = 0x10000 * 2 /\ bus_addr 4096 (dma_ioaddrs h) 0x12345 = 0x202345.
Proof.
  destruct (populate_handle_bytes zero_dma 32 (mk_va false 0x7000 0x10000 2)
    (mk_ctrl 4096 0 500 64 0x2000 0x1000) [0x100000; 0x200000])
    as (h & E & _ & _ & _ & _ & Hcov & Hb & _);
    [done|done|by exists 16|done|done|by vm_compute|done| |].
  - intros a Hin. repeat (apply elem_of_cons in Hin as [->|Hin]; [simpl; lia|]).
    by apply elem_of_nil in Hin.
  - exists h. split; [exact E|]. split; [exact Hcov|]. etrans; [apply (Hb 0x12345); simpl; lia|].
    by vm_compute.
Defined.
