(* ===== verification/LibInv.v ===== *)
(** * Ownership in libnvm

    Every object is reference counted or has one owner.  The invariant [lib_inv ext s] says that
    the count of each object of [s] is the number of pointers to it in the heap plus the number
    [ext] of references held outside (by the user, or by the function being executed). *)
From S2P Require Import Prelude NvmTypes NvmUtil LibState Ctrl Dma DmaSpec.
From stdpp Require Import prelude gmap gmultiset list.
From Stdlib Require Import ZArith Lia.
Local Open Scope Z_scope.

(** ** Pointers and counts *)

(** The pointers an object owns. *)
Definition ptrs (o : obj) : list Z :=
  match o with
  | OCtrl c => if decide (c_device c = NULL) then [] else [c_device c; ctrl_mm_ptr (c_handle c)]
  | OMapping m => [m_ctrl m; m_va m]
  | OCont k => [k_map k]
  | OVa (VA_IOCTL md) => if decide (md_type md = MAP_TYPE_API) then [md_buffer md] else []
  | ODev fd => [fd]
  | ORef r => ref_ctrl r :: if decide (ref_release r = Some REMOVE_ADMIN) then [ref_data r] else []
  | OAdmin a => [la_qmem a]
  | _ => []
  end.

Definition points (a : Z) (o : obj) : Prop := a ∈ ptrs o.

#[export] Instance points_dec a o : Decision (points a o).
Proof. unfold points. apply _. Defined.

(** How many references an object expects. *)
Definition weight (o : obj) : Z :=
  match o with OCtrl c => c_count c | OMapping m => m_count m | _ => 1 end.

Definition wt (h : gmap Z obj) (a : Z) : Z := match h !! a with Some o => weight o | None => 0 end.

(** [1] when [x] is [a], and when [o] points to [x]. *)
Definition at_ (a x : Z) : Z := if decide (x = a) then 1 else 0.
Definition ptr_ (o : obj) (x : Z) : Z := if decide (points x o) then 1 else 0.

(** ** Well-formed objects: every pointer leads to an object of the right kind *)

Definition va_ok (v : va_object) : Prop :=
  0 <= va_page_size (va_of v) /\ 0 <= va_n_pages (va_of v).

Definition is_ioctl (v : va_object) : Prop := match v with VA_IOCTL _ => True | VA_PLAIN _ => False end.

(** The handle of a container describes its mapping (or is still empty). *)
Definition cont_ok (k : container) (c : controller) (v : va_object) : Prop :=
  let n := n_ctrl_pages (c_handle c) (va_page_size (va_of v)) (va_n_pages (va_of v)) in
  k_cap k = n /\ dma_n_ioaddrs (k_handle k) = Z.of_nat (length (dma_ioaddrs (k_handle k))) /\
  (dma_n_ioaddrs (k_handle k) = 0 \/
   dma_page_size (k_handle k) = ctrl_page_size (c_handle c) /\ dma_n_ioaddrs (k_handle k) = n).

Definition obj_ok (h : gmap Z obj) (o : obj) : Prop :=
  match o with
  | OCtrl c =>
      1 <= c_count c < 2 ^ 32 /\ (c_ops c = OPS_IOCTL <-> c_device c <> NULL) /\
      (c_device c <> NULL ->
       (exists fd, h !! c_device c = Some (ODev fd)) /\ h !! ctrl_mm_ptr (c_handle c) = Some OMm)
  | OMapping m =>
      1 <= m_count m < 2 ^ 32 /\
      (exists c, h !! m_ctrl m = Some (OCtrl c) /\ 0 < ctrl_page_size (c_handle c) /\
         (m_unmap m = true -> c_device c <> NULL)) /\
      (exists v, h !! m_va m = Some (OVa v) /\ va_ok v /\
         (m_release m = RELEASE_MD <-> is_ioctl v) /\ (m_unmap m = true -> is_ioctl v))
  | OCont k =>
      exists m c v, h !! k_map k = Some (OMapping m) /\ h !! m_ctrl m = Some (OCtrl c) /\
        h !! m_va m = Some (OVa v) /\ cont_ok k c v
  | OVa (VA_IOCTL md) => md_type md = MAP_TYPE_API -> h !! md_buffer md = Some OBuf
  | ODev fd => h !! fd = Some OFd
  | ORef r =>
      (exists c, h !! ref_ctrl r = Some (OCtrl c)) /\
      (ref_stub r = Some EXECUTE_COMMAND -> ref_release r = Some REMOVE_ADMIN) /\
      (ref_release r = Some REMOVE_ADMIN -> exists a, h !! ref_data r = Some (OAdmin a))
  | OAdmin a => exists k, h !! la_qmem a = Some (OCont k)
  | _ => True
  end.

Record hinv (ext : Z -> Z) (next : Z) (h : gmap Z obj) : Prop := {
  h_dom : forall a o, h !! a = Some o -> 0 < a < next;
  h_next : 0 < next;
  h_ext : forall a, 0 <= ext a;
  h_refs : forall a, a <> NULL -> count (points a) h + ext a = wt h a;
  h_ok : forall a o, h !! a = Some o -> obj_ok h o;
}.

Definition lib_inv (ext : Z -> Z) (s : lib) : Prop := hinv ext (l_next s) (l_heap s).

(** ** Changing one object *)

(** Membership in the literal lists of [ptrs]. *)
Ltac in_ptrs := solve [left|right; left].

Section changes.
Context (ext : Z -> Z) (next : Z) (h : gmap Z obj).

Lemma hinv_ext ext' :
  (forall x, x <> NULL -> ext' x = ext x) -> 0 <= ext' NULL -> hinv ext next h -> hinv ext' next h.
Proof.
  intros He H0 [Hd Hn Hx Hr Hk]. constructor; try done.
  - intros a. destruct (decide (a = NULL)) as [->|]; [done|]. rewrite He by done. apply Hx.
  - intros a Ha. rewrite He by done. by apply Hr.
Qed.

Lemma hinv_fresh a :
  hinv ext next h -> 0 < a -> h !! a = None -> count (points a) h = 0 /\ ext a = 0.
Proof.
  intros [_ _ Hx Hr _] Ha Hnone. assert (a <> NULL) as Hne by (unfold NULL; lia).
  specialize (Hr a Hne). unfold wt in Hr. rewrite Hnone in Hr.
  pose proof (count_nonneg (points a) h). pose proof (Hx a). lia.
Qed.

Lemma hinv_next : hinv ext next h -> h !! next = None.
Proof. intros [Hd _ _ _ _]. destruct (h !! next) eqn:E; [|done]. apply Hd in E. lia. Qed.

(** Nothing points to an object all of whose references are outside the heap. *)
Lemma hinv_unpointed a o :
  hinv ext next h -> h !! a = Some o -> ext a = weight o ->
  forall b o', h !! b = Some o' -> ~ points a o'.
Proof.
  intros [Hd _ _ Hr _] Ha He b o' Hb. pose proof (Hd a o Ha).
  assert (a <> NULL) as Hne by (unfold NULL; lia).
  specialize (Hr a Hne). unfold wt in Hr. rewrite Ha in Hr.
  eapply (count_zero (points a)); [|done]. lia.
Qed.

Lemma obj_ok_delete a o :
  (forall b o', h !! b = Some o' -> ~ points a o') -> ~ points a o ->
  obj_ok h o -> obj_ok (delete a h) o.
Proof.
  intros Hall Hp. assert (forall x, points x o -> (delete a h) !! x = h !! x) as Hkeep.
  { intros x Hx. apply lookup_delete_ne. by intros ->. }
  unfold points in Hkeep. destruct o as [c|m|k|[va|md]|fd| | | | |r|a']; simpl in *; try done.
  - intros (Hc & Hops & Hdev). split; [done|]. split; [done|]. intros Hne. specialize (Hdev Hne).
    rewrite decide_False in Hkeep by done. rewrite !Hkeep by in_ptrs. done.
  - rewrite !Hkeep by in_ptrs. done.
  - intros (m & c & v & Hm & Hc & Hv & Hk). exists m, c, v. rewrite Hkeep by in_ptrs.
    split; [done|]. specialize (Hall _ _ Hm). unfold points in Hall. simpl in Hall.
    rewrite !lookup_delete_ne by (intros ->; apply Hall; in_ptrs). done.
  - intros Hmd Hapi. rewrite decide_True in Hkeep by done. rewrite Hkeep by in_ptrs. auto.
  - rewrite Hkeep by in_ptrs. done.
  - intros (Hc & Hst & Hrel). rewrite Hkeep by in_ptrs. split; [done|]. split; [done|].
    intros Hr. rewrite decide_True in Hkeep by done. rewrite Hkeep by in_ptrs. auto.
  - rewrite Hkeep by in_ptrs. done.
Qed.

Lemma obj_ok_fresh a o' o : h !! a = None -> obj_ok h o -> obj_ok (<[a := o']> h) o.
Proof.
  intros Ha. assert (forall x o, h !! x = Some o -> <[a := o']> h !! x = Some o) as Hkeep.
  { intros x ox Hx. rewrite lookup_insert_ne; [done|]. intros ->. congruence. }
  destruct o as [c|m|k|[va|md]|fd| | | | |r|a']; simpl; try done.
  - intros (Hc & Hops & Hdev). split; [done|]. split; [done|]. intros Hne.
    destruct (Hdev Hne) as [[fd Hfd] Hmm]. eauto.
  - intros (Hm & (c & Hc & Hc') & (v & Hv & Hv')). split; [done|]. split; eauto.
  - intros (m & c & v & Hm & Hc & Hv & Hk). exists m, c, v. by rewrite !(Hkeep _ _ Hm), (Hkeep _ _ Hc), (Hkeep _ _ Hv).
  - intros Hmd Hapi. by rewrite (Hkeep _ _ (Hmd Hapi)).
  - intros Hfd. by rewrite (Hkeep _ _ Hfd).
  - intros ((c & Hc) & Hst & Hrel). split; [eauto|]. split; [done|]. intros Hr.
    destruct (Hrel Hr) as [x Hx]. eauto.
  - intros [k Hk]. eauto.
Qed.

Lemma hinv_delete a o ext' :
  hinv ext next h -> h !! a = Some o -> ext a = weight o ->
  (forall x, x <> NULL -> ext' x = ext x + ptr_ o x - at_ a x * weight o) -> 0 <= ext' NULL ->
  hinv ext' next (delete a h).
Proof.
  intros Hinv Ha He Hx H0. pose proof (hinv_unpointed a o Hinv Ha He) as Hun.
  pose proof Hinv as [Hd Hn Hx0 Hr Hk]. constructor; [|done|..].
  - intros b ob Hb. apply lookup_delete_Some in Hb as [_ Hb]. eauto.
  - intros b. destruct (decide (b = NULL)) as [->|Hb]; [done|]. rewrite Hx by done.
    unfold ptr_, at_. specialize (Hx0 b). repeat case_decide; subst; lia.
  - intros b Hb. rewrite (count_delete _ h a o Ha), Hx by done. specialize (Hr b Hb).
    unfold wt, ptr_, at_ in *. destruct (decide (b = a)) as [->|Hne].
    + rewrite lookup_delete_eq. rewrite Ha in Hr. repeat case_decide; lia.
    + rewrite lookup_delete_ne by done. repeat case_decide; lia.
  - intros b ob Hb. apply lookup_delete_Some in Hb as [_ Hb].
    apply obj_ok_delete; [done|by eapply Hun|by eapply Hk].
Qed.

Lemma hinv_insert o next' ext' a :
  hinv ext next h -> h !! a = None -> 0 < a < next' -> next <= next' -> obj_ok h o ->
  (forall x, x <> NULL -> ext' x = ext x - ptr_ o x + at_ a x * weight o) ->
  (forall x, 0 <= ext' x) -> hinv ext' next' (<[a := o]> h).
Proof.
  intros Hinv Hnone Ha Hnext Hok Hx H0. destruct (hinv_fresh a Hinv) as (Hca & Hea); [lia|done|].
  destruct Hinv as [Hd Hn Hx0 Hr Hk]. constructor; [|lia|done|..].
  - intros b ob Hb. apply lookup_insert_Some in Hb as [[<- _]|[_ Hb]]; [lia|].
    apply Hd in Hb. lia.
  - intros b Hb. rewrite count_insert_fresh, Hx by done. specialize (Hr b Hb).
    unfold wt, ptr_, at_ in *. destruct (decide (b = a)) as [->|Hne].
    + rewrite lookup_insert_eq. rewrite Hnone in Hr. repeat case_decide; lia.
    + rewrite lookup_insert_ne by done. repeat case_decide; lia.
  - intros b ob Hb. apply obj_ok_fresh; [done|].
    apply lookup_insert_Some in Hb as [[_ <-]|[_ Hb]]; [done|by eapply Hk].
Qed.

(** What the objects that point to an object rely on. *)
Definition keeps (o o' : obj) : Prop :=
  match o, o' with
  | OCtrl c, OCtrl c' => c_device c' = c_device c /\ c_handle c' = c_handle c
  | OMapping m, OMapping m' => m_ctrl m' = m_ctrl m /\ m_va m' = m_va m
  | OVa v, OVa v' => va_of v' = va_of v /\ (is_ioctl v <-> is_ioctl v')
  | OCont _, OCont _ | ORef _, ORef _ | OAdmin _, OAdmin _ => True
  | _, _ => o = o'
  end.

Lemma obj_ok_keeps a o o' ob :
  h !! a = Some o -> keeps o o' -> obj_ok h ob -> obj_ok (<[a := o']> h) ob.
Proof.
  intros Ha Hk.
  assert (forall x ox, h !! x = Some ox -> exists ox', <[a := o']> h !! x = Some ox' /\ keeps ox ox')
    as Hkeep.
  { intros x ox Hx. destruct (decide (x = a)) as [->|].
    - rewrite lookup_insert_eq. simplify_eq. eauto.
    - rewrite lookup_insert_ne by done. exists ox. split; [done|]. by destruct ox. }
  assert (forall x c, h !! x = Some (OCtrl c) -> exists c', <[a := o']> h !! x = Some (OCtrl c') /\
    c_device c' = c_device c /\ c_handle c' = c_handle c) as Hctrl.
  { intros x c Hx. destruct (Hkeep _ _ Hx) as ([] & E & K); simplify_eq/=. eauto. }
  assert (forall x v, h !! x = Some (OVa v) -> exists v', <[a := o']> h !! x = Some (OVa v') /\
    va_of v' = va_of v /\ (is_ioctl v <-> is_ioctl v')) as Hva.
  { intros x v Hx. destruct (Hkeep _ _ Hx) as ([] & E & K); simplify_eq/=. eauto. }
  destruct ob as [c|m|k|[va|md]|fd| | | | |r|a']; simpl; try done.
  - intros (Hc & Hops & Hdev). split; [done|]. split; [done|]. intros Hne.
    destruct (Hdev Hne) as [[fd Hfd] Hmm]. destruct (Hkeep _ _ Hfd) as ([] & E1 & K1); simplify_eq/=.
    destruct (Hkeep _ _ Hmm) as ([] & E2 & K2); simplify_eq/=. eauto.
  - intros (Hm & (c & Hc & Hp & Hu) & (v & Hv & Hvo & Hio)). split; [done|].
    destruct (Hctrl _ _ Hc) as (c' & E1 & Hd & Hh). destruct (Hva _ _ Hv) as (v' & E2 & Hr & Hi).
    split; [exists c'; by rewrite Hd, Hh|]. exists v'. unfold va_ok in *. rewrite Hr, <- Hi. auto.
  - intros (m & c & v & Hm & Hc & Hv & Hok).
    destruct (Hkeep _ _ Hm) as ([|m'| | | | | | | | |] & E0 & K0); simplify_eq/=. destruct K0 as [K0 K0'].
    destruct (Hctrl _ _ Hc) as (c' & E1 & Hd & Hh). destruct (Hva _ _ Hv) as (v' & E2 & Hr & _).
    exists m', c', v'. rewrite K0, K0'. unfold cont_ok in *. by rewrite Hh, Hr.
  - intros Hmd Hapi. destruct (Hkeep _ _ (Hmd Hapi)) as ([] & E1 & K1); by simplify_eq/=.
  - intros Hfd. destruct (Hkeep _ _ Hfd) as ([] & E1 & K1); by simplify_eq/=.
  - intros ((c & Hc) & Hst & Hrel). destruct (Hctrl _ _ Hc) as (c' & E1 & _). split; [eauto|]. split; [done|].
    intros Hr. destruct (Hrel Hr) as [x Hx]. destruct (Hkeep _ _ Hx) as ([] & E2 & K2); simplify_eq/=. eauto.
  - intros [k Hx]. destruct (Hkeep _ _ Hx) as ([] & E2 & K2); simplify_eq/=. eauto.
Qed.

(** Updating an object in place. *)
Lemma hinv_update a o o' ext' :
  hinv ext next h -> h !! a = Some o -> keeps o o' -> obj_ok h o' -> ptrs o' = ptrs o ->
  (forall x, x <> NULL -> ext' x = ext x + at_ a x * (weight o' - weight o)) ->
  (forall x, 0 <= ext' x) -> hinv ext' next (<[a := o']> h).
Proof.
  intros [Hd Hn Hx0 Hr Hk] Ha Hkp Hok Hp Hx H0. constructor; [|done|done|..].
  - intros b ob Hb. apply lookup_insert_Some in Hb as [[<- _]|[_ Hb]]; eauto.
  - intros b Hb. rewrite (count_update _ h a o o' Ha), Hx by (done || by unfold points; rewrite Hp).
    specialize (Hr b Hb). unfold wt, at_ in *. destruct (decide (b = a)) as [->|Hne].
    + rewrite lookup_insert_eq. rewrite Ha in Hr. lia.
    + rewrite lookup_insert_ne by done. lia.
  - intros b ob Hb. apply (obj_ok_keeps a o); [done|done|].
    apply lookup_insert_Some in Hb as [[_ <-]|[_ Hb]]; [done|by eapply Hk].
Qed.

End changes.

(** Filling memory that nothing in the heap points to. *)
Lemma hinv_store ext next h a o o' ext' :
  hinv ext next h -> h !! a = Some o -> ext a = weight o -> ptrs o = [] -> obj_ok (delete a h) o' ->
  (forall x, x <> NULL -> ext' x = ext x - ptr_ o' x + at_ a x * (weight o' - weight o)) ->
  (forall x, 0 <= ext' x) -> hinv ext' next (<[a := o']> h).
Proof.
  intros Hinv Ha He Hp Hok Hx H0. rewrite <- insert_delete_eq.
  pose proof (h_dom _ _ _ Hinv a o Ha).
  assert (hinv (fun x => ext x - at_ a x * weight o) next (delete a h)) as Hinv'.
  { apply (hinv_delete ext next h a o); try done.
    - intros x Hne. unfold ptr_.
      rewrite decide_False by (unfold points; rewrite Hp; apply not_elem_of_nil). lia.
    - unfold at_. rewrite decide_False by (unfold NULL; lia).
      pose proof (h_ext _ _ _ Hinv NULL). lia. }
  eapply hinv_insert; [done|apply lookup_delete_eq|lia|lia|done| |done].
  intros x Hne. rewrite Hx by done. simpl. lia.
Qed.

(** Replacing an object that the caller owns by another. *)
Lemma hinv_replace ext next h a o o' ext' :
  hinv ext next h -> h !! a = Some o -> weight o = 1 -> weight o' = 1 -> ext a = 1 ->
  obj_ok (delete a h) o' -> (forall x, ext' x = ext x + ptr_ o x - ptr_ o' x) ->
  (forall x, 0 <= ext' x) -> hinv ext' next (<[a := o']> h).
Proof.
  intros Hinv Ha Hw Hw' He Hok Hx H0. rewrite <- insert_delete_eq.
  pose proof (h_dom _ _ _ Hinv a o Ha).
  assert (hinv (fun x => ext x + ptr_ o x - at_ a x) next (delete a h)) as Hinv'.
  { apply (hinv_delete ext next h a o); [done|done|lia| |].
    - intros x _. rewrite Hw. lia.
    - unfold at_. rewrite decide_False by (unfold NULL; lia).
      pose proof (h_ext _ _ _ Hinv NULL). unfold ptr_. case_decide; lia. }
  eapply hinv_insert; [exact Hinv'|apply lookup_delete_eq|lia|lia|done| |done].
  intros x _. cbv beta. rewrite Hx, Hw'. lia.
Qed.

(** ** What survives

    No function turns an object into one of another kind, or changes a handle it does not own. *)
Definition same (o o' : obj) : Prop :=
  match o, o' with
  | OCtrl c, OCtrl c' =>
      c_handle c' = c_handle c /\ c_device c' = c_device c /\ c_type c' = c_type c /\ c_ops c' = c_ops c
  | OMapping m, OMapping m' => m_ctrl m' = m_ctrl m /\ m_va m' = m_va m
  | _, _ => o = o'
  end.

Lemma same_refl o : same o o.
Proof. by destruct o. Qed.

Definition frame (h h' : gmap Z obj) : Prop :=
  forall a o', h' !! a = Some o' -> h !! a = None \/ exists o, h !! a = Some o /\ same o o'.

Lemma frame_refl h : frame h h.
Proof. intros a o Ha. right. exists o. split; [done|]. apply same_refl. Qed.

Lemma frame_eq h h' : h' = h -> frame h h'.
Proof. intros ->. apply frame_refl. Qed.

Lemma frame_delete h h' a : frame h h' -> frame h (delete a h').
Proof. intros Hf b o [_ Hb]%lookup_delete_Some. by apply Hf. Qed.

Lemma frame_insert h h' a o o' :
  frame h h' -> h !! a = Some o -> same o o' -> frame h (<[a := o']> h').
Proof.
  intros Hf Ha Hs b ob [[<- <-]|[_ Hb]]%lookup_insert_Some; [right; eauto|by apply Hf].
Qed.

Lemma frame_fresh h h' a o : frame h h' -> h !! a = None -> frame h (<[a := o]> h').
Proof.
  intros Hf Ha b ob [[<- _]|[_ Hb]]%lookup_insert_Some; [by left|by apply Hf].
Qed.

(** An object the caller has a reference to is there afterwards, as it was. *)
Lemma frame_held ext next h h' a o :
  hinv ext next h' -> frame h h' -> h !! a = Some o -> 0 < a -> 1 <= ext a ->
  exists o', h' !! a = Some o' /\ same o o'.
Proof.
  intros Hinv Hf Ha Hpos He. destruct (h' !! a) as [o'|] eqn:E.
  - destruct (Hf a o' E) as [|(o1 & E1 & Hs)]; [congruence|]. exists o'.
    rewrite E1 in Ha. by injection Ha as <-.
  - destruct (hinv_fresh _ _ _ a Hinv Hpos E). lia.
Qed.

(** ** No leaks

    Pointers go from higher ranks to lower ones, so an object that nothing outside refers to
    would need a chain of owners that does not end. *)
Definition rank (o : obj) : nat :=
  match o with
  | ORef _ | ORaw => 6
  | OAdmin _ => 5
  | OCont _ => 4
  | OMapping _ => 3
  | OCtrl _ | OVa _ => 2
  | ODev _ | OMm | OBuf => 1
  | OFd => 0
  end.

Lemma points_rank h o a oa : obj_ok h o -> points a o -> h !! a = Some oa -> (rank oa < rank o)%nat.
Proof.
  intros Hok Hp Ha. unfold points in Hp.
  destruct o as [c|m|k|[va|md]|fd| | | | |r|a']; simpl in *; try by apply not_elem_of_nil in Hp.
  - destruct Hok as (_ & _ & Hdev). case_decide as Hd; [by apply not_elem_of_nil in Hp|].
    destruct (Hdev Hd) as [[fd Hfd] Hmm].
    apply elem_of_cons in Hp as [->|Hp%list_elem_of_singleton]; subst; simplify_eq/=; lia.
  - destruct Hok as (_ & (c & Hc & _) & (v & Hv & _)).
    apply elem_of_cons in Hp as [->|Hp%list_elem_of_singleton]; subst; simplify_eq/=; lia.
  - destruct Hok as (m & _ & _ & Hm & _). apply list_elem_of_singleton in Hp. subst. simplify_eq/=. lia.
  - case_decide as Hd; [|by apply not_elem_of_nil in Hp]. apply list_elem_of_singleton in Hp. subst.
    rewrite (Hok Hd) in Ha. simplify_eq/=. lia.
  - apply list_elem_of_singleton in Hp. subst. simplify_eq/=. lia.
  - destruct Hok as ((c & Hc) & _ & Hrel). apply elem_of_cons in Hp as [->|Hp]; [simplify_eq/=; lia|].
    case_decide as Hr; [|by apply not_elem_of_nil in Hp]. apply list_elem_of_singleton in Hp. subst.
    destruct (Hrel Hr) as [x Hx]. simplify_eq/=. lia.
  - destruct Hok as [k Hk]. apply list_elem_of_singleton in Hp. subst. simplify_eq/=. lia.
Qed.

Lemma hinv_no_leak ext next h : hinv ext next h -> (forall a, ext a = 0) -> h = ∅.
Proof.
  intros Hinv He.
  assert (forall n a o, h !! a = Some o -> (7 - rank o <= n)%nat -> False) as Hnone.
  { induction n as [|n IH]; intros a o Ha Hr; [destruct o; simpl in Hr; lia|].
    pose proof (h_dom _ _ _ Hinv _ _ Ha). assert (a <> NULL) as Hne by (unfold NULL; lia).
    pose proof (h_refs _ _ _ Hinv a Hne) as Hc. unfold wt in Hc. rewrite Ha, He in Hc.
    assert (1 <= weight o).
    { pose proof (h_ok _ _ _ Hinv _ _ Ha) as Hok. destruct o; simpl in *; lia. }
    destruct (count_ex (points a) h) as (b & ob & Hb & Hp); [lia|].
    pose proof (points_rank h ob a o (h_ok _ _ _ Hinv _ _ Hb) Hp Ha). apply (IH b ob Hb). lia. }
  apply map_eq. intros a. rewrite lookup_empty. destruct (h !! a) as [o|] eqn:E; [|done].
  destruct (Hnone _ a o E (Nat.le_refl _)).
Qed.
