(* ===== verification/LibProofs.v ===== *)
(** * The library keeps its objects

    Every function of ctrl.cpp, dma.cpp, linux_dma.cpp and linux_device.cpp runs without undefined
    behaviour and preserves the ownership invariant; what the user has released is released. *)
From S2P Require Import Prelude NvmTypes NvmUtil LibState Ctrl Dma LinuxDma DmaSpec LibInv.
From stdpp Require Import prelude gmap gmultiset list.
From Stdlib Require Import ZArith Lia.
Local Open Scope Z_scope.

(** ** Primitives *)

Section prims.
Context `{Env}.

(** [s'] is [s] up to the number of system calls and the kernel's mappings. *)
Definition with_heap (s' : lib) (next : Z) (h : gmap Z obj) : Prop :=
  l_next s' = next /\ l_heap s' = h.

Lemma wp_sys_call Q (s : lib) :
  (forall s', with_heap s' (l_next s) (l_heap s) -> Q (sys (l_calls s)) s') -> wp sys_call Q s.
Proof. intros HQ. by apply HQ. Qed.

Lemma wp_new_obj o Q (s : lib) :
  (forall s', with_heap s' (l_next s + 1) (<[l_next s := o]> (l_heap s)) -> Q (l_next s) s') ->
  wp (new_obj o) Q s.
Proof. intros HQ. by apply HQ. Qed.

Lemma wp_malloc Q (s : lib) :
  (forall s', with_heap s' (l_next s) (l_heap s) -> Q NULL s') ->
  (forall s', with_heap s' (l_next s + 1) (<[l_next s := ORaw]> (l_heap s)) -> Q (l_next s) s') ->
  wp malloc Q s.
Proof.
  intros H1 H2. apply wp_bind, wp_sys_call. intros s' [Hn Hh].
  destruct (decide (sys (l_calls s) = 0)).
  - apply wp_new_obj. intros s'' Hs. rewrite Hn, Hh in *. by apply H2.
  - by apply wp_ret, H1.
Qed.

Definition freeable (o : obj) : Prop := match o with OFd | OMm => False | _ => True end.

Lemma wp_free a o Q (s : lib) :
  a <> NULL -> l_heap s !! a = Some o -> freeable o ->
  (forall s', with_heap s' (l_next s) (delete a (l_heap s)) -> Q tt s') -> wp (free a) Q s.
Proof.
  intros Ha Ho Hf HQ. unfold free, wp. rewrite decide_False by done.
  unfold mbind, M_bind, get. rewrite Ho. destruct o; try done; by apply HQ.
Qed.

Lemma wp_store a o Q (s : lib) :
  (forall s', with_heap s' (l_next s) (<[a := o]> (l_heap s)) -> Q tt s') -> wp (store a o) Q s.
Proof. intros HQ. by apply HQ. Qed.

Lemma wp_deref {V} (proj : obj -> option V) a o v Q (s : lib) :
  l_heap s !! a = Some o -> proj o = Some v -> Q v s -> wp (deref proj a) Q s.
Proof.
  intros Ho Hp HQ. unfold deref, wp, mbind, M_bind, get. rewrite Ho. simpl. by rewrite Hp.
Qed.

Lemma wp_close_fd fd Q (s : lib) :
  l_heap s !! fd = Some OFd ->
  (forall s', with_heap s' (l_next s) (delete fd (l_heap s)) -> Q tt s') -> wp (close_fd fd) Q s.
Proof. intros Hf HQ. unfold close_fd, wp, modify. rewrite Hf. by apply HQ. Qed.

Lemma wp_munmap mm Q (s : lib) :
  l_heap s !! mm = Some OMm ->
  (forall s', with_heap s' (l_next s) (delete mm (l_heap s)) -> Q tt s') -> wp (munmap mm) Q s.
Proof. intros Hf HQ. unfold munmap, wp, modify. rewrite Hf. by apply HQ. Qed.
End prims.

(** ** Counting outside references *)

Definition plus_ (ext : Z -> Z) (a x : Z) : Z := ext x + at_ a x.
Definition minus_ (ext : Z -> Z) (a x : Z) : Z := ext x - at_ a x.

Definition in_ (l : list Z) (x : Z) : Z := if decide (x ∈ l) then 1 else 0.

Lemma ptr_in o l x : ptrs o = l -> ptr_ o x = in_ l x.
Proof. by intros <-. Qed.

Lemma in_nil x : in_ [] x = 0.
Proof. unfold in_. by rewrite decide_False by apply not_elem_of_nil. Qed.

Lemma in_one b x : in_ [b] x = at_ b x.
Proof.
  unfold in_, at_. destruct (decide (x = b)) as [->|].
  - by rewrite decide_True by left.
  - by rewrite decide_False by (rewrite list_elem_of_singleton; done).
Qed.

Lemma in_two b c x : b <> c -> in_ [b; c] x = at_ b x + at_ c x.
Proof.
  intros Hne. unfold in_, at_. destruct (decide (x = b)) as [->|].
  - rewrite decide_True by left. by rewrite decide_False.
  - destruct (decide (x = c)) as [->|].
    + by rewrite decide_True by (right; left).
    + rewrite decide_False; [done|]. rewrite elem_of_cons, list_elem_of_singleton. tauto.
Qed.

Lemma at_eq a : at_ a a = 1.
Proof. unfold at_. by rewrite decide_True. Qed.

Lemma at_ne a x : x <> a -> at_ a x = 0.
Proof. intros. unfold at_. by rewrite decide_False. Qed.

(** Two addresses that hold different objects are different. *)
Ltac kinds := intros ?; congruence.

(** Case analysis on the indicators. *)
Ltac ext_lia :=
  unfold plus_, minus_, ptr_, at_ in *;
  repeat match goal with
  | H : context [if decide ?P then _ else _] |- _ => destruct (decide P)
  | |- context [if decide ?P then _ else _] => destruct (decide P)
  end; subst; try lia.

(** ** Controller references *)

(** The heap after the last reference of [c] at [a] is gone. *)
Definition release_heap (a : Z) (c : controller) (h : gmap Z obj) : gmap Z obj :=
  delete a
    (if decide (c_device c = NULL) then h
     else match h !! c_device c with
          | Some (ODev fd) =>
              delete (c_device c) (delete fd (delete (ctrl_mm_ptr (c_handle c)) h))
          | _ => h
          end).

Definition put_heap (a : Z) (c : controller) (h : gmap Z obj) : gmap Z obj :=
  if decide (c_count c = 1) then release_heap a c h
  else <[a := OCtrl (c_set_count c (c_count c - 1))]> h.

Section ctrl_refs.
Context `{Env}.

Lemma wp_ctrl_get a c Q (s : lib) :
  a <> NULL -> l_heap s !! a = Some (OCtrl c) -> 0 <= c_count c < 2 ^ 32 - 1 ->
  (forall s', with_heap s' (l_next s) (<[a := OCtrl (c_set_count c (c_count c + 1))]> (l_heap s)) ->
     Q a s') -> wp (_nvm_ctrl_get a) Q s.
Proof.
  intros Ha Hc Hn HQ. unfold _nvm_ctrl_get. rewrite decide_True by done.
  apply wp_bind. eapply wp_deref; [done|done|].
  apply wp_bind, wp_ret. rewrite decide_False by tauto.
  apply wp_bind, wp_store. intros s' Hs. apply wp_ret, HQ.
  by rewrite wrap_small in Hs by (unfold fits; lia).
Qed.

Lemma hinv_ctrl_get ext next h a c :
  hinv ext next h -> h !! a = Some (OCtrl c) -> c_count c < 2 ^ 32 - 1 ->
  hinv (plus_ ext a) next (<[a := OCtrl (c_set_count c (c_count c + 1))]> h).
Proof.
  intros Hinv Ha Hlt. pose proof (h_ok _ _ _ Hinv a _ Ha) as (Hc & Hops & Hdev).
  eapply hinv_update; [done|done|done| |done| |].
  - split; [simpl; lia|]. done.
  - intros x Hx. simpl. ext_lia.
  - intros x. pose proof (h_ext _ _ _ Hinv x). ext_lia.
Qed.

(** An object with one reference, which is in the heap, has none outside. *)
Lemma hinv_owned ext next h a o b ob :
  hinv ext next h -> h !! a = Some o -> weight o = 1 -> h !! b = Some ob -> points a ob -> ext a = 0.
Proof.
  intros Hinv Ha Hw Hb Hp. pose proof (h_dom _ _ _ Hinv a o Ha).
  assert (a <> NULL) as Hne by (unfold NULL; lia).
  pose proof (h_refs _ _ _ Hinv a Hne) as Hr. unfold wt in Hr. rewrite Ha in Hr.
  pose proof (count_pos (points a) h b ob Hb Hp). pose proof (h_ext _ _ _ Hinv a). lia.
Qed.

Lemma hinv_weight ext next h a o :
  hinv ext next h -> h !! a = Some o -> ext a <= weight o.
Proof.
  intros Hinv Ha. pose proof (h_dom _ _ _ Hinv a o Ha).
  assert (a <> NULL) as Hne by (unfold NULL; lia).
  pose proof (h_refs _ _ _ Hinv a Hne) as Hr. unfold wt in Hr. rewrite Ha in Hr.
  pose proof (count_nonneg (points a) h). lia.
Qed.

(** Deleting an object that has one reference, from outside. *)
Lemma hinv_delete_one ext next h a o ext' :
  hinv ext next h -> h !! a = Some o -> weight o = 1 -> ext a = 1 ->
  (forall x, ext' x = ext x + ptr_ o x - at_ a x) -> hinv ext' next (delete a h).
Proof.
  intros Hinv Ha Hw He Hx. pose proof (h_dom _ _ _ Hinv a o Ha).
  eapply hinv_delete; [done|done|lia| |].
  - intros x _. rewrite Hx, Hw. lia.
  - rewrite Hx. pose proof (h_ext _ _ _ Hinv NULL). unfold ptr_, at_.
    rewrite (decide_False (P := NULL = a)) by (unfold NULL; lia). case_decide; lia.
Qed.

(** Releasing the last reference. *)
Lemma hinv_release ext next h a c :
  hinv ext next h -> h !! a = Some (OCtrl c) -> c_count c = 1 -> ext a = 1 ->
  hinv (minus_ ext a) next (release_heap a c h).
Proof.
  intros Hinv Ha Hc He. pose proof (h_ok _ _ _ Hinv a _ Ha) as (_ & _ & Hdev).
  unfold release_heap. destruct (decide (c_device c = NULL)) as [Hnull|Hne].
  { eapply hinv_delete_one; [done|done|done|done|]. intros x.
    rewrite (ptr_in _ []) by (simpl; by rewrite decide_True). rewrite in_nil. unfold minus_. lia. }
  destruct (Hdev Hne) as [[fd Hfd] Hmm]. rewrite Hfd.
  pose proof (h_ok _ _ _ Hinv _ _ Hfd) as Hfo. simpl in Hfo.
  set (dev := c_device c) in *. set (mm := ctrl_mm_ptr (c_handle c)) in *.
  assert (forall x, ptr_ (OCtrl c) x = at_ dev x + at_ mm x) as Hpc.
  { intros x. rewrite (ptr_in _ [dev; mm]) by (simpl; by rewrite decide_False).
    apply in_two. kinds. }
  assert (ext dev = 0) as Ed.
  { eapply hinv_owned; [done|exact Hfd|done|exact Ha|]. unfold points. simpl.
    rewrite decide_False by done. left. }
  assert (ext mm = 0) as Em.
  { eapply hinv_owned; [done|exact Hmm|done|exact Ha|]. unfold points. simpl.
    rewrite decide_False by done. right. left. }
  assert (ext fd = 0) as Ef by (eapply hinv_owned; [done|exact Hfo|done|exact Hfd|left]).
  assert (a <> dev) by kinds. assert (a <> mm) by kinds. assert (a <> fd) by kinds.
  assert (dev <> mm) by kinds. assert (dev <> fd) by kinds. assert (fd <> mm) by kinds.
  rewrite !(delete_delete _ a), (delete_delete _ dev fd).
  assert (hinv (fun x => ext x + at_ dev x + at_ mm x - at_ a x) next (delete a h)) as Hinv1.
  { eapply hinv_delete_one; [done|exact Ha|done|done|]. intros x. rewrite Hpc. lia. }
  assert (hinv (fun x => ext x + at_ dev x - at_ a x) next (delete mm (delete a h))) as Hinv2.
  { eapply hinv_delete_one; [exact Hinv1|by rewrite lookup_delete_ne|done| |].
    - cbv beta. by rewrite Em, at_eq, !at_ne.
    - intros x. rewrite (ptr_in _ []), in_nil by done. lia. }
  assert (hinv (fun x => ext x + at_ fd x - at_ a x) next (delete dev (delete mm (delete a h)))) as Hinv3.
  { eapply hinv_delete_one; [exact Hinv2|by rewrite !lookup_delete_ne|done| |].
    - cbv beta. by rewrite Ed, at_eq, at_ne.
    - intros x. rewrite (ptr_in _ [fd]), in_one by done. lia. }
  eapply hinv_delete_one; [exact Hinv3|by rewrite !lookup_delete_ne|done| |].
  - cbv beta. by rewrite Ef, at_eq, at_ne.
  - intros x. rewrite (ptr_in _ []), in_nil by done. unfold minus_. lia.
Qed.

(** Dropping a reference. *)
Lemma hinv_put ext next h a c :
  hinv ext next h -> h !! a = Some (OCtrl c) -> 1 <= ext a ->
  hinv (minus_ ext a) next (put_heap a c h).
Proof.
  intros Hinv Ha He. pose proof (h_ok _ _ _ Hinv a _ Ha) as (Hc & Hops & Hdev).
  pose proof (hinv_weight _ _ _ a _ Hinv Ha) as Hw. simpl in Hw. unfold put_heap.
  destruct (decide (c_count c = 1)); [apply hinv_release; try done; lia|].
  eapply hinv_update; [done|done|done| |done| |].
  - split; [simpl; lia|]. done.
  - intros x Hx. simpl. unfold minus_. lia.
  - intros x. pose proof (h_ext _ _ _ Hinv x). unfold minus_, at_. case_decide; subst; lia.
Qed.

Lemma wp_release_device dev fd mm size Q (s : lib) :
  dev <> NULL -> l_heap s !! dev = Some (ODev fd) -> l_heap s !! mm = Some OMm ->
  l_heap s !! fd = Some OFd ->
  (forall s', with_heap s' (l_next s) (delete dev (delete fd (delete mm (l_heap s)))) -> Q tt s') ->
  wp (release_device dev mm size) Q s.
Proof.
  intros Hne Hd Hm Hf HQ. assert (dev <> fd) by kinds. assert (dev <> mm) by kinds.
  assert (fd <> mm) by kinds.
  apply wp_bind. eapply wp_deref; [done|done|]. apply wp_bind, wp_munmap; [done|].
  intros s1 [Hn1 Hh1]. apply wp_bind, wp_close_fd; [by rewrite Hh1, lookup_delete_ne|].
  intros s2 [Hn2 Hh2]. eapply wp_free; [done|by rewrite Hh2, Hh1, !lookup_delete_ne|done|].
  intros s3 Hs3. apply HQ. by rewrite Hn2, Hn1, Hh2, Hh1 in Hs3.
Qed.

(** A controller with its device, descriptor and BAR0 window. *)
Definition ctrl_ok (h : gmap Z obj) (c : controller) : Prop :=
  1 <= c_count c < 2 ^ 32 /\ (c_ops c = OPS_IOCTL <-> c_device c <> NULL) /\
  (c_device c <> NULL -> exists fd, h !! c_device c = Some (ODev fd) /\ h !! fd = Some OFd /\
     h !! ctrl_mm_ptr (c_handle c) = Some OMm).

Lemma hinv_ctrl_ok ext next h a c : hinv ext next h -> h !! a = Some (OCtrl c) -> ctrl_ok h c.
Proof.
  intros Hinv Ha. pose proof (h_ok _ _ _ Hinv a _ Ha) as (Hc & Hops & Hdev).
  split; [done|]. split; [done|]. intros Hne. destruct (Hdev Hne) as [[fd Hfd] Hmm].
  exists fd. split; [done|]. split; [|done]. apply (h_ok _ _ _ Hinv _ _ Hfd).
Qed.

(** Only the device, its descriptor and its window matter. *)
Lemma ctrl_ok_keep h h' c :
  ctrl_ok h c ->
  (forall x o, h !! x = Some o -> match o with ODev _ | OFd | OMm => True | _ => False end ->
     h' !! x = Some o) -> ctrl_ok h' c.
Proof.
  intros (Hc & Hops & Hdev) Hk. split; [done|]. split; [done|]. intros Hne.
  destruct (Hdev Hne) as (fd & H1 & H2 & H3). exists fd.
  split; [by apply Hk|]. split; by apply Hk.
Qed.

Lemma wp_ctrl_put a c Q (s : lib) :
  a <> NULL -> l_heap s !! a = Some (OCtrl c) -> ctrl_ok (l_heap s) c ->
  (forall s', with_heap s' (l_next s) (put_heap a c (l_heap s)) -> Q tt s') ->
  wp (_nvm_ctrl_put a) Q s.
Proof.
  intros Hne Ha (Hc & Hops & Hdev) HQ.
  unfold _nvm_ctrl_put. rewrite decide_True by done.
  apply wp_bind. eapply wp_deref; [done|done|].
  rewrite wrap_small by (unfold fits; lia). apply wp_bind, wp_store. intros s1 [Hn1 Hh1].
  unfold put_heap in HQ. destruct (decide (c_count c = 1)) as [H1|H1].
  2:{ rewrite decide_False by lia. apply wp_ret, HQ. by rewrite <- Hn1, <- Hh1. }
  rewrite decide_True by lia. unfold release_heap in HQ.
  destruct (decide (c_device c = NULL)) as [Hnull|Hd].
  - rewrite decide_False by tauto. apply wp_bind, wp_ret. apply wp_bind, wp_store.
    intros s2 [Hn2 Hh2]. apply wp_bind. eapply wp_deref; [by rewrite Hh2, lookup_insert_eq|done|].
    eapply wp_free; [done|by rewrite Hh2, lookup_insert_eq|done|]. intros s3 [Hn3 Hh3].
    apply HQ. split; [congruence|]. rewrite Hh3, Hh2, Hh1. by rewrite !delete_insert_eq.
  - destruct (Hdev Hd) as (fd & Hfd & Hfo & Hmm). rewrite Hfd in HQ.
    rewrite (proj2 Hops Hd). rewrite decide_True by done.
    assert (a <> c_device c) by kinds. assert (a <> ctrl_mm_ptr (c_handle c)) by kinds.
    assert (a <> fd) by kinds.
    apply wp_bind. eapply wp_release_device; [done|by rewrite Hh1, lookup_insert_ne..|].
    intros s2 [Hn2 Hh2]. apply wp_bind, wp_store. intros s3 [Hn3 Hh3].
    apply wp_bind. eapply wp_deref; [by rewrite Hh3, lookup_insert_eq|done|].
    eapply wp_free; [done|by rewrite Hh3, lookup_insert_eq|done|]. intros s4 [Hn4 Hh4].
    apply HQ. split; [congruence|]. rewrite Hh4, Hh3, Hh2, Hh1.
    rewrite delete_insert_eq, !(delete_delete _ a), delete_insert_eq. done.
Qed.

End ctrl_refs.

(** ** Mapping descriptors and containers *)

(** The error paths leave the heap exactly as it was. *)
Definition unchanged (s s' : lib) : Prop := l_heap s' = l_heap s /\ l_next s <= l_next s'.

Lemma hinv_mono ext next next' h : hinv ext next h -> next <= next' -> hinv ext next' h.
Proof.
  intros [Hd Hn Hx Hr Hk] Hle. constructor; try done; [|lia].
  intros a o Ha. apply Hd in Ha. lia.
Qed.

Lemma hinv_eq ext ext' next h : hinv ext next h -> (forall x, ext' x = ext x) -> hinv ext' next h.
Proof.
  intros Hinv Heq. apply (hinv_ext ext); [intros x _; apply Heq| |done].
  rewrite Heq. apply (h_ext _ _ _ Hinv).
Qed.

Section maps.
Context `{Env}.

(** Dropping a reference that is not the last one. *)
Lemma wp_ctrl_put_more a c Q (s : lib) :
  a <> NULL -> l_heap s !! a = Some (OCtrl c) -> 2 <= c_count c < 2 ^ 32 ->
  (forall s', with_heap s' (l_next s) (<[a := OCtrl (c_set_count c (c_count c - 1))]> (l_heap s)) ->
     Q tt s') -> wp (_nvm_ctrl_put a) Q s.
Proof.
  intros Hne Ha Hc HQ. unfold _nvm_ctrl_put. rewrite decide_True by done.
  apply wp_bind. eapply wp_deref; [done|done|].
  rewrite wrap_small by (unfold fits; lia). apply wp_bind, wp_store. intros s1 Hs1.
  rewrite decide_False by lia. by apply wp_ret, HQ.
Qed.

(** The heap with a new mapping descriptor at [m]. *)
Definition map_heap (h : gmap Z obj) (ctrl : Z) (c : controller) (m : Z) (mm : map_t) : gmap Z obj :=
  <[m := OMapping mm]> (<[ctrl := OCtrl (c_set_count c (c_count c + 1))]> h).

Lemma restore_ctrl (h : gmap Z obj) ctrl c :
  h !! ctrl = Some (OCtrl c) ->
  <[ctrl := OCtrl (c_set_count (c_set_count c (c_count c + 1)) (c_count c + 1 - 1))]>
    (<[ctrl := OCtrl (c_set_count c (c_count c + 1))]> h) = h.
Proof.
  intros Hc. rewrite insert_insert_eq. replace (c_count c + 1 - 1) with (c_count c) by lia.
  apply insert_id. rewrite Hc. by destruct c.
Qed.

Lemma wp_create_map ctrl c va release Q (s : lib) :
  ctrl <> NULL -> l_heap s !! ctrl = Some (OCtrl c) -> 1 <= c_count c < 2 ^ 32 - 1 ->
  0 < l_next s -> l_heap s !! l_next s = None ->
  (forall err s', err <> 0 -> unchanged s s' -> Q (err, NULL) s') ->
  (forall s', with_heap s' (l_next s + 1)
     (map_heap (l_heap s) ctrl c (l_next s) (mk_map 1 ctrl va release false)) ->
     Q (0, l_next s) s') ->
  wp (create_map ctrl va release) Q s.
Proof.
  intros Hne Hc Hcnt Hn Hfresh Hfail Hok. assert (ctrl <> l_next s) by kinds.
  apply wp_bind, wp_ctrl_get with c; [done|done|lia|]. intros s1 [Hn1 Hh1].
  rewrite decide_False by done. apply wp_bind, wp_malloc.
  - intros s2 [Hn2 Hh2]. rewrite decide_True by done.
    apply wp_bind, wp_ctrl_put_more with (c_set_count c (c_count c + 1));
      [done|by rewrite Hh2, Hh1, lookup_insert_eq|simpl; lia|].
    intros s3 [Hn3 Hh3]. apply wp_ret, Hfail; [done|].
    split; [|lia]. rewrite Hh3, Hh2, Hh1. by apply restore_ctrl.
  - intros s2 [Hn2 Hh2]. rewrite Hn1 in *.
    rewrite decide_False by (unfold NULL; lia). apply wp_bind, wp_sys_call. intros s3 [Hn3 Hh3].
    case_decide as Herr.
    + apply wp_bind. eapply wp_free; [unfold NULL; lia|by rewrite Hh3, Hh2, lookup_insert_eq|done|].
      intros s4 [Hn4 Hh4]. apply wp_bind, wp_ctrl_put_more with (c_set_count c (c_count c + 1)); [done| |simpl; lia|].
      { by rewrite Hh4, Hh3, Hh2, Hh1, lookup_delete_ne, lookup_insert_ne, lookup_insert_eq. }
      intros s5 [Hn5 Hh5]. apply wp_ret, Hfail; [done|]. split; [|lia].
      rewrite Hh5, Hh4, Hh3, Hh2, Hh1.
      rewrite delete_insert_id by (by rewrite lookup_insert_ne). by apply restore_ctrl.
    + apply wp_bind, wp_store. intros s4 [Hn4 Hh4]. apply wp_ret, Hok.
      split; [lia|]. unfold map_heap. by rewrite Hh4, Hh3, Hh2, Hh1, insert_insert_eq.
Qed.

(** Removing a mapping descriptor whose range was not released. *)
Lemma wp_remove_map_more md m c Q (s : lib) :
  md <> NULL -> l_heap s !! md = Some (OMapping m) -> m_ctrl m <> NULL ->
  l_heap s !! m_ctrl m = Some (OCtrl c) -> 2 <= c_count c < 2 ^ 32 ->
  (forall s', with_heap s' (l_next s)
     (delete md (<[m_ctrl m := OCtrl (c_set_count c (c_count c - 1))]> (l_heap s))) -> Q tt s') ->
  wp (remove_map md) Q s.
Proof.
  intros Hne Hm Hcn Hc Hcnt HQ. assert (md <> m_ctrl m) by kinds.
  apply wp_bind. eapply wp_deref; [done|done|].
  apply wp_bind, wp_ctrl_put_more with c; [done..|]. intros s1 [Hn1 Hh1].
  eapply wp_free; [done|by rewrite Hh1, lookup_insert_ne|done|].
  intros s2 Hs2. apply HQ. by rewrite Hn1, Hh1 in Hs2.
Qed.

Lemma wp_create_container md m c v Q (s : lib) :
  l_heap s !! md = Some (OMapping m) -> l_heap s !! m_ctrl m = Some (OCtrl c) ->
  l_heap s !! m_va m = Some (OVa v) -> 0 < ctrl_page_size (c_handle c) -> 0 < l_next s ->
  let n := n_ctrl_pages (c_handle c) (va_page_size (va_of v)) (va_n_pages (va_of v)) in
  (forall err s', err <> 0 -> unchanged s s' -> Q (err, NULL) s') ->
  (forall s', va_page_size (va_of v) <> 0 ->
     with_heap s' (l_next s + 1) (<[l_next s := OCont (mk_cont md n
       (mk_dma NULL (negb (va_remote (va_of v))) true 0 0 []))]> (l_heap s)) -> Q (0, l_next s) s') ->
  wp (create_container md) Q s.
Proof.
  intros Hm Hc Hv Hps Hn n Hfail Hok. apply wp_bind. eapply wp_deref; [done|done|].
  apply wp_bind. eapply wp_deref; [done|done|]. apply wp_bind. eapply wp_deref; [done|done|].
  rewrite decide_False by lia. case_decide as Hbad; [by apply wp_ret, Hfail|].
  apply wp_bind, wp_malloc.
  - intros s1 [Hn1 Hh1]. rewrite decide_True by done. apply wp_ret, Hfail; [done|].
    split; [done|lia].
  - intros s1 [Hn1 Hh1]. rewrite decide_False by (unfold NULL; lia).
    apply wp_bind, wp_store. intros s2 [Hn2 Hh2]. apply wp_ret, Hok; [tauto|].
    split; [lia|]. by rewrite Hh2, Hh1, insert_insert_eq.
Qed.

Lemma wp_ioctl_map dev va md fd Q (s : lib) :
  l_heap s !! va = Some (OVa (VA_IOCTL md)) -> l_heap s !! dev = Some (ODev fd) ->
  (forall err s', err <> 0 -> with_heap s' (l_next s) (l_heap s) -> Q (err, []) s') ->
  (forall addrs s', length addrs = Z.to_nat (va_n_pages (md_range md)) ->
     with_heap s' (l_next s) (l_heap s) -> Q (0, addrs) s') ->
  wp (ioctl_map dev va) Q s.
Proof.
  intros Hv Hd Hfail Hok. apply wp_bind. eapply wp_deref; [done|done|].
  cbv beta iota zeta. match goal with |- wp (if ?b then _ else _) _ _ => destruct b end.
  2:{ by apply wp_ret, Hfail. }
  apply wp_bind. eapply wp_deref; [done|done|]. apply wp_bind, wp_gets.
  apply wp_bind, wp_sys_call. intros s1 [Hn1 Hh1]. case_decide; [by apply wp_ret, Hfail|].
  apply wp_bind, wp_modify. apply wp_ret, Hok; [|done]. by rewrite length_fmap, length_seqZ.
Qed.

Lemma wp_ioctl_unmap dev va md fd Q (s : lib) :
  l_heap s !! va = Some (OVa (VA_IOCTL md)) -> l_heap s !! dev = Some (ODev fd) ->
  (forall s', with_heap s' (l_next s) (l_heap s) -> Q tt s') -> wp (ioctl_unmap dev va) Q s.
Proof.
  intros Hv Hd HQ. apply wp_bind. eapply wp_deref; [done|done|].
  apply wp_bind. eapply wp_deref; [done|done|]. by apply wp_modify, HQ.
Qed.

(** A handle filled for the mapping [m] of [c] and [v]. *)
Definition filled (c : controller) (v : va_object) (h : nvm_dma_t) : Prop :=
  let n := n_ctrl_pages (c_handle c) (va_page_size (va_of v)) (va_n_pages (va_of v)) in
  dma_n_ioaddrs h = n /\ dma_ok h /\ dma_page_size h = ctrl_page_size (c_handle c).

Lemma n_ctrl_pages_nonneg ctrl ps n : 0 < ctrl_page_size ctrl -> 0 <= n_ctrl_pages ctrl ps n.
Proof.
  intros. unfold n_ctrl_pages. apply Z.div_pos; [|lia]. apply wrap_range. lia.
Qed.

Lemma n_ctrl_pages_lt ctrl ps n : 0 < ctrl_page_size ctrl -> n_ctrl_pages ctrl ps n < 2 ^ 64.
Proof.
  intros. unfold n_ctrl_pages. pose proof (wrap_range 64 (ps * n) ltac:(lia)).
  apply Z.div_lt_upper_bound; [done|]. nia.
Qed.

Lemma populate_filled handle c v addrs :
  0 < ctrl_page_size (c_handle c) -> va_ok v -> va_page_size (va_of v) <> 0 ->
  va_n_pages (va_of v) <= Z.of_nat (length addrs) ->
  exists h, populate_handle handle
      (n_ctrl_pages (c_handle c) (va_page_size (va_of v)) (va_n_pages (va_of v)))
      (va_of v) (c_handle c) addrs = Some h /\ filled c v h.
Proof.
  intros Hps [Hvp Hvn] Hne Hlen.
  destruct (populate_handle_spec handle
    (n_ctrl_pages (c_handle c) (va_page_size (va_of v)) (va_n_pages (va_of v)))
    (va_of v) (c_handle c) addrs) as (cg & E & _); try done || lia.
  pose proof (n_ctrl_pages_nonneg (c_handle c) (va_page_size (va_of v)) (va_n_pages (va_of v)) Hps).
  pose proof (n_ctrl_pages_lt (c_handle c) (va_page_size (va_of v)) (va_n_pages (va_of v)) Hps).
  eexists. split; [exact E|]. unfold filled, dma_ok. simpl. rewrite length_fmap, length_seq.
  split; [lia|]. split; [|done]. split; [lia|]. split; [lia|]. apply Forall_fmap, Forall_forall.
  intros i _. apply wrap_range. lia.
Qed.

(** [dma_map] on a fresh container: the heap is unchanged, or the handle is filled. *)
Lemma wp_dma_map k kc md m c v Q (s : lib) :
  l_heap s !! k = Some (OCont kc) -> k_map kc = md -> l_heap s !! md = Some (OMapping m) ->
  l_heap s !! m_ctrl m = Some (OCtrl c) -> l_heap s !! m_va m = Some (OVa v) ->
  k_cap kc = n_ctrl_pages (c_handle c) (va_page_size (va_of v)) (va_n_pages (va_of v)) ->
  0 < ctrl_page_size (c_handle c) -> va_ok v -> va_page_size (va_of v) <> 0 -> is_ioctl v ->
  (c_ops c = OPS_IOCTL -> exists fd, l_heap s !! c_device c = Some (ODev fd)) ->
  0 < l_next s -> l_heap s !! l_next s = None ->
  (forall err s', err <> 0 -> unchanged s s' -> Q err s') ->
  (forall h s', filled c v h -> c_ops c = OPS_IOCTL ->
     with_heap s' (l_next s + 1)
       (<[k := OCont (mk_cont md (k_cap kc) h)]>
          (<[md := OMapping (m_set_unmap m true)]> (l_heap s))) -> Q 0 s') ->
  wp (dma_map k) Q s.
Proof.
  intros Hk Hkm Hm Hc Hv Hcap Hps Hva Hvps Hio Hops Hn Hfresh Hfail Hok. subst md.
  apply wp_bind. eapply wp_deref; [done|done|]. apply wp_bind. eapply wp_deref; [done|done|].
  apply wp_bind. eapply wp_deref; [done|done|].
  destruct (c_ops c); [by apply wp_ret, Hfail|]. destruct (Hops eq_refl) as [fd Hfd].
  destruct v as [va|ioc]; [done|].
  apply wp_bind. eapply wp_deref; [done|done|]. apply wp_bind, wp_malloc.
  { intros s1 [Hn1 Hh1]. rewrite decide_True by done. apply wp_ret, Hfail; [done|].
    split; [done|lia]. }
  intros s1 [Hn1 Hh1]. rewrite decide_False by (unfold NULL; lia).
  assert (m_va m <> l_next s) by kinds. assert (c_device c <> l_next s) by kinds.
  assert (k <> l_next s) by kinds. assert (k_map kc <> l_next s) by kinds.
  apply wp_bind. eapply wp_ioctl_map; [by rewrite Hh1, lookup_insert_ne|by rewrite Hh1, lookup_insert_ne|..].
  - intros err s2 Herr [Hn2 Hh2]. rewrite decide_True by done. apply wp_bind.
    eapply wp_free; [unfold NULL; lia|by rewrite Hh2, Hh1, lookup_insert_eq|done|].
    intros s3 [Hn3 Hh3]. apply wp_ret, Hfail; [done|]. split; [|lia].
    by rewrite Hh3, Hh2, Hh1, delete_insert_id.
  - intros addrs s2 Hlen [Hn2 Hh2]. rewrite decide_False by tauto.
    apply wp_bind, wp_store. intros s3 [Hn3 Hh3].
    destruct (populate_filled (k_handle kc) c (VA_IOCTL ioc) addrs Hps Hva Hvps) as (h & Eh & Hfill).
    { destruct Hva. rewrite Hlen. simpl in *. lia. }
    rewrite Hcap. apply wp_bind. eapply wp_of_option; [exact Eh|].
    apply wp_bind, wp_store. intros s4 [Hn4 Hh4]. apply wp_bind.
    eapply (wp_free _ ORaw); [unfold NULL; lia| |done|].
    { rewrite Hh4, Hh3, Hh2, Hh1. rewrite 2!lookup_insert_ne by congruence. apply lookup_insert_eq. }
    intros s5 [Hn5 Hh5]. apply wp_ret, (Hok h); [done|done|]. split; [lia|].
    rewrite Hh5, Hh4, Hh3, Hh2, Hh1, Hcap.
    rewrite !delete_insert_ne by congruence. by rewrite delete_insert_id.
Qed.
End maps.

(** ** New handles *)

Section dma_init.
Context `{Env}.

(** A new mapping descriptor [m] and container [k] over the range [va], which they now own. *)
Lemma hinv_new_dma ext next h ctrl c va v m mm k kc next' :
  hinv ext next h -> h !! ctrl = Some (OCtrl c) -> h !! va = Some (OVa v) -> ext va = 1 ->
  c_count c < 2 ^ 32 - 1 -> 0 < ctrl_page_size (c_handle c) -> va_ok v ->
  m_count mm = 1 -> m_ctrl mm = ctrl -> m_va mm = va -> (m_unmap mm = true -> c_device c <> NULL) ->
  (m_release mm = RELEASE_MD <-> is_ioctl v) -> (m_unmap mm = true -> is_ioctl v) ->
  m = next -> k = next + 1 -> next + 2 <= next' -> k_map kc = m -> cont_ok kc c v ->
  hinv (fun x => ext x - at_ va x + at_ k x) next'
    (<[k := OCont kc]> (map_heap h ctrl c m mm)).
Proof.
  intros Hinv Hc Hv Hev Hcnt Hps Hva Hm1 Hmc Hmv Hmu Hmr Hmi -> -> Hnext Hkm Hok.
  pose proof (hinv_next _ _ _ Hinv) as Hf1. pose proof (h_next _ _ _ Hinv).
  assert (h !! (next + 1) = None) as Hf2.
  { destruct (h !! (next + 1)) eqn:E; [|done]. apply (h_dom _ _ _ Hinv) in E. lia. }
  assert (ctrl <> va) by kinds. assert (ctrl <> next) by kinds. assert (va <> next) by kinds.
  pose proof (h_ok _ _ _ Hinv _ _ Hc) as (Hc1 & _).
  set (c' := c_set_count c (c_count c + 1)). set (h1 := <[ctrl := OCtrl c']> h).
  assert (hinv (plus_ ext ctrl) next h1) as Hinv1 by (by apply hinv_ctrl_get).
  assert (h1 !! ctrl = Some (OCtrl c')) as Hc' by apply lookup_insert_eq.
  assert (h1 !! va = Some (OVa v)) as Hv' by (by unfold h1; rewrite lookup_insert_ne).
  assert (h1 !! next = None) as Hf1' by (by unfold h1; rewrite lookup_insert_ne).
  assert (hinv (fun x => ext x - at_ va x + at_ next x) (next + 1) (<[next := OMapping mm]> h1)) as Hinv2.
  { eapply hinv_insert; [exact Hinv1|done|lia|lia| |..].
    - simpl. split; [lia|]. rewrite Hmc, Hmv. split; [exists c'; done|]. by exists v.
    - intros x _. rewrite (ptr_in _ [ctrl; va]) by (simpl; by rewrite Hmc, Hmv).
      rewrite in_two by done. simpl weight. rewrite Hm1. unfold plus_. lia.
    - intros x. pose proof (h_ext _ _ _ Hinv x). unfold at_. repeat case_decide; subst; lia. }
  assert (va <> next + 1) by (intros ->; congruence).
  unfold map_heap. fold c'. fold h1.
  eapply (hinv_insert _ (next + 1)); [exact Hinv2| |lia|lia| |..].
  - rewrite lookup_insert_ne by lia. unfold h1. rewrite lookup_insert_ne; [done|].
    intros ->. congruence.
  - simpl. exists mm, c', v. rewrite Hkm, Hmc, Hmv. rewrite lookup_insert_eq.
    rewrite !(lookup_insert_ne _ next) by done. done.
  - intros x _. rewrite (ptr_in _ [next]) by (simpl; by rewrite Hkm). rewrite in_one.
    simpl weight. lia.
  - intros x. pose proof (h_ext _ _ _ Hinv x). unfold at_. repeat case_decide; subst; lia.
Qed.

Lemma filled_cont_ok c v k h :
  filled c v h ->
  cont_ok (mk_cont k (n_ctrl_pages (c_handle c) (va_page_size (va_of v)) (va_n_pages (va_of v))) h) c v.
Proof. intros (Hn & (Hl & _) & Hp). split; [done|]. split; [done|]. by right. Qed.

(** What a successful mapping gives the caller in exchange for the range [va]. *)
Definition dma_post (ext : Z -> Z) (s : lib) (c : controller) (va : Z) (v : va_object)
    (k : Z) (s' : lib) : Prop :=
  lib_inv (fun x => ext x - at_ va x + at_ k x) s' /\ l_heap s !! k = None /\ 0 < k /\
  frame (l_heap s) (l_heap s') /\
  exists kc, l_heap s' !! k = Some (OCont kc) /\ filled c v (k_handle kc).

(** The heap between [create_map] and the end of a mapping function. *)
Lemma map_heap_lookup h ctrl c va v m mm :
  h !! ctrl = Some (OCtrl c) -> h !! va = Some (OVa v) -> h !! m = None ->
  map_heap h ctrl c m mm !! m = Some (OMapping mm) /\
  map_heap h ctrl c m mm !! ctrl = Some (OCtrl (c_set_count c (c_count c + 1))) /\
  map_heap h ctrl c m mm !! va = Some (OVa v) /\
  (forall x, x <> m -> x <> ctrl -> map_heap h ctrl c m mm !! x = h !! x).
Proof.
  intros Hc Hv Hm. assert (ctrl <> m) by kinds. assert (va <> m) by kinds.
  assert (ctrl <> va) by kinds. unfold map_heap. split; [apply lookup_insert_eq|].
  split; [rewrite lookup_insert_ne by congruence; apply lookup_insert_eq|].
  split; [by rewrite !lookup_insert_ne by congruence|]. intros. by rewrite !lookup_insert_ne.
Qed.

Lemma map_heap_frame h ctrl c m mm :
  h !! ctrl = Some (OCtrl c) -> h !! m = None -> frame h (map_heap h ctrl c m mm).
Proof.
  intros Hc Hm. apply frame_fresh; [|done]. eapply frame_insert; [apply frame_refl|done|done].
Qed.

Lemma map_heap_back h ctrl c m mm :
  h !! ctrl = Some (OCtrl c) -> h !! m = None ->
  delete m (<[ctrl := OCtrl (c_set_count (c_set_count c (c_count c + 1)) (c_count c + 1 - 1))]>
    (map_heap h ctrl c m mm)) = h.
Proof.
  intros Hc Hm. assert (ctrl <> m) by kinds. unfold map_heap.
  rewrite insert_insert_ne by congruence. rewrite delete_insert_id.
  - by apply restore_ctrl.
  - rewrite !lookup_insert_ne by congruence. done.
Qed.

Lemma hinv_above ext next h a : hinv ext next h -> next <= a -> h !! a = None.
Proof.
  intros Hinv Ha. destruct (h !! a) eqn:E; [|done]. apply (h_dom _ _ _ Hinv) in E. lia.
Qed.

(** The end of [_nvm_dma_init]: [dma_map] on the new container [m + 1] of the new mapping [m]. *)
Lemma wp_dma_init_tail ext ctrl c va v m Q (s s2 : lib) :
  lib_inv ext s -> l_heap s !! ctrl = Some (OCtrl c) -> l_heap s !! va = Some (OVa v) ->
  ext va = 1 -> c_count c < 2 ^ 32 - 1 -> 0 < ctrl_page_size (c_handle c) -> va_ok v -> is_ioctl v ->
  va_page_size (va_of v) <> 0 -> m = l_next s ->
  let n := n_ctrl_pages (c_handle c) (va_page_size (va_of v)) (va_n_pages (va_of v)) in
  with_heap s2 (m + 1 + 1)
    (<[m + 1 := OCont (mk_cont m n (mk_dma NULL (negb (va_remote (va_of v))) true 0 0 []))]>
       (map_heap (l_heap s) ctrl c m (mk_map 1 ctrl va RELEASE_MD false))) ->
  (forall err s', err <> 0 -> unchanged s s' -> Q (err, NULL) s') ->
  (forall k s', dma_post ext s c va v k s' -> Q (0, k) s') ->
  wp (err ← dma_map (m + 1);
      if decide (err <> 0) then remove_map m;; free (m + 1);; mret (err, NULL)
      else mret (0, m + 1)) Q s2.
Proof.
  intros Hinv Hc Hv Hev Hcnt Hps Hva Hio Hvps -> n [Hn2 Hh2] Hfail Hok. set (m := l_next s) in *.
  pose proof (h_ok _ _ _ Hinv _ _ Hc) as (Hc1 & Hops & Hdev).
  pose proof (h_dom _ _ _ Hinv _ _ Hc) as Hcd. pose proof (h_next _ _ _ Hinv) as Hnx.
  pose proof (hinv_above _ _ _ m Hinv ltac:(lia)) as Hf1.
  pose proof (hinv_above _ _ _ (m + 1) Hinv ltac:(lia)) as Hf2.
  pose proof (hinv_above _ _ _ (m + 1 + 1) Hinv ltac:(lia)) as Hf3.
  set (M0 := mk_map 1 ctrl va RELEASE_MD false) in *.
  destruct (map_heap_lookup _ ctrl c va v m M0 Hc Hv Hf1) as (L1 & L2 & L3 & L4).
  set (h1 := map_heap (l_heap s) ctrl c m M0) in *.
  assert (ctrl <> m) by kinds. assert (ctrl <> m + 1) by kinds. assert (va <> m + 1) by kinds.
  assert (forall x, x <> m + 1 -> l_heap s2 !! x = h1 !! x) as Hl2
    by (intros x Hx; rewrite Hh2; by apply lookup_insert_ne).
  apply wp_bind. eapply (wp_dma_map (m + 1) _ m M0 (c_set_count c (c_count c + 1)) v);
    [rewrite Hh2; apply lookup_insert_eq|done|by rewrite Hl2 by lia|by rewrite Hl2
    |by rewrite Hl2|done|done|done|done|done| |lia| |..].
  - intros Hio'. destruct (Hdev (proj1 Hops Hio')) as [[fd Hfd] _]. exists fd.
    assert (c_device c <> m) by kinds. assert (c_device c <> m + 1) by kinds.
    assert (c_device c <> ctrl) by kinds. simpl. rewrite Hl2 by done. by rewrite L4.
  - rewrite Hn2, Hl2 by lia. rewrite L4 by (lia || kinds). done.
  - intros err s3 Herr [Hh3 Hn3]. rewrite decide_True by done. apply wp_bind.
    eapply (wp_remove_map_more m M0 (c_set_count c (c_count c + 1))); [unfold NULL; lia
      |by rewrite Hh3, Hl2 by lia|unfold NULL; simpl; lia|by simpl; rewrite Hh3, Hl2|simpl; lia|].
    intros s4 [Hn4 Hh4]. apply wp_bind. eapply (wp_free (m + 1)); [unfold NULL; lia
      |rewrite Hh4, Hh3, Hh2, lookup_delete_ne, lookup_insert_ne by (simpl; first [congruence|lia]);
       apply lookup_insert_eq|done|].
    intros s5 [Hn5 Hh5]. apply wp_ret, Hfail; [done|]. split; [|lia].
    rewrite Hh5, Hh4, Hh3, Hh2. simpl. rewrite insert_insert_ne by congruence.
    rewrite delete_insert_ne by lia. rewrite delete_insert_id.
    + by apply map_heap_back.
    + rewrite lookup_delete_ne, lookup_insert_ne by congruence || lia. by rewrite L4 by congruence || lia.
  - intros hd s3 Hfill Hio' [Hn3 Hh3]. rewrite decide_False by tauto. apply wp_ret, Hok.
    split; [|split; [done|split; [lia|split]]].
    + unfold lib_inv. rewrite Hn3, Hh3, Hh2. rewrite (insert_insert_ne _ m) by lia.
      rewrite insert_insert_eq. unfold h1, map_heap at 1. rewrite insert_insert_eq.
      eapply (hinv_new_dma ext m _ ctrl c va v m (m_set_unmap M0 true)); try done || lia.
      * intros _. by apply Hops.
      * by apply filled_cont_ok.
    + rewrite Hh3, Hh2. apply frame_fresh; [|done]. apply frame_fresh; [|done].
      apply frame_fresh; [|done]. by apply map_heap_frame.
    + eexists. rewrite Hh3. split; [apply lookup_insert_eq|done].
Qed.

Lemma wp_dma_init ext ctrl c va v Q (s : lib) :
  lib_inv ext s -> l_heap s !! ctrl = Some (OCtrl c) -> l_heap s !! va = Some (OVa v) ->
  ext va = 1 -> c_count c < 2 ^ 32 - 1 -> 0 < ctrl_page_size (c_handle c) -> va_ok v -> is_ioctl v ->
  (forall err s', err <> 0 -> unchanged s s' -> Q (err, NULL) s') ->
  (forall k s', dma_post ext s c va v k s' -> Q (0, k) s') ->
  wp (_nvm_dma_init ctrl va RELEASE_MD) Q s.
Proof.
  intros Hinv Hc Hv Hev Hcnt Hps Hva Hio Hfail Hok.
  pose proof (h_ok _ _ _ Hinv _ _ Hc) as (Hc1 & _).
  pose proof (h_dom _ _ _ Hinv _ _ Hc) as Hcd. pose proof (h_next _ _ _ Hinv) as Hnx.
  pose proof (hinv_above _ _ _ (l_next s) Hinv ltac:(lia)) as Hf1.
  set (M0 := mk_map 1 ctrl va RELEASE_MD false).
  destruct (map_heap_lookup _ ctrl c va v (l_next s) M0 Hc Hv Hf1) as (L1 & L2 & L3 & _).
  apply wp_bind, wp_create_map with c; [unfold NULL; lia|done|lia|done|done| |].
  { intros err s' Herr Hun. rewrite decide_True by done. by apply wp_ret, Hfail. }
  intros s1 [Hn1 Hh1]. rewrite decide_False by tauto. cbn [snd].
  apply wp_bind, wp_create_container with M0 (c_set_count c (c_count c + 1)) v;
    [rewrite Hh1; exact L1|rewrite Hh1; exact L2|rewrite Hh1; exact L3|done|lia|..].
  - intros err s2 Herr [Hh2 Hn2]. rewrite decide_True by done. apply wp_bind.
    eapply (wp_remove_map_more _ M0 (c_set_count c (c_count c + 1)));
      [unfold NULL; lia|rewrite Hh2, Hh1; exact L1|unfold NULL; simpl; lia
      |rewrite Hh2, Hh1; exact L2|simpl; lia|].
    intros s3 [Hn3 Hh3]. apply wp_ret, Hfail; [done|]. split; [|lia].
    rewrite Hh3, Hh2, Hh1. by apply map_heap_back.
  - intros s2 Hvps Hs2. rewrite decide_False by tauto. cbn [snd]. rewrite Hn1, Hh1 in *.
    by apply (wp_dma_init_tail ext ctrl c va v (l_next s) Q s).
Qed.
End dma_init.

(** ** Releasing a mapping *)

Section release.
Context `{Env}.

(** The heap without the range at [va], and without its buffer if the library allocated it. *)
Definition free_va_heap (va : Z) (v : va_object) (h : gmap Z obj) : gmap Z obj :=
  match v with
  | VA_IOCTL md =>
      if decide (md_type md = MAP_TYPE_API) then delete va (delete (md_buffer md) h) else delete va h
  | VA_PLAIN _ => delete va h
  end.

Lemma wp_call_release release va v Q (s : lib) :
  va <> NULL -> l_heap s !! va = Some (OVa v) -> obj_ok (l_heap s) (OVa v) ->
  (release = RELEASE_MD -> is_ioctl v) -> (release = RELEASE_FREE -> ~ is_ioctl v) ->
  0 < l_next s -> (forall a o, l_heap s !! a = Some o -> 0 < a) ->
  (forall s', with_heap s' (l_next s) (free_va_heap va v (l_heap s)) -> Q tt s') ->
  wp (call_release release va) Q s.
Proof.
  intros Hne Hv Hok Hmd Hfr Hn Hpos HQ. destruct release; simpl.
  { destruct v as [r|md]; [|by destruct (Hfr eq_refl)]. by eapply wp_free. }
  destruct v as [r|md]; [by destruct (Hmd eq_refl)|]. simpl in *.
  apply wp_bind. eapply wp_deref; [done|done|]. cbv beta iota.
  destruct (decide (md_type md = MAP_TYPE_API)) as [Hapi|].
  - specialize (Hok Hapi). assert (va <> md_buffer md) by kinds.
    pose proof (Hpos _ _ Hok). apply wp_bind. eapply wp_free; [unfold NULL; lia|done|done|].
    intros s1 [Hn1 Hh1]. eapply wp_free; [done|by rewrite Hh1, lookup_delete_ne|done|].
    intros s2 Hs2. apply HQ. by rewrite Hn1, Hh1 in Hs2.
  - apply wp_bind, wp_ret. by eapply wp_free.
Qed.

Lemma free_va_lookup va v h x :
  x <> va -> (forall md, v = VA_IOCTL md -> md_type md = MAP_TYPE_API -> x <> md_buffer md) ->
  free_va_heap va v h !! x = h !! x.
Proof.
  intros Hx Hb. unfold free_va_heap. destruct v as [r|md]; [by rewrite lookup_delete_ne|].
  case_decide; rewrite !lookup_delete_ne; try done. intros Heq. by apply (Hb md).
Qed.

(** Objects other than ranges and their buffers survive. *)
Lemma free_va_other va v h x o :
  h !! va = Some (OVa v) -> obj_ok h (OVa v) -> h !! x = Some o ->
  (forall v', o <> OVa v') -> o <> OBuf -> free_va_heap va v h !! x = Some o.
Proof.
  intros Hv Hok Hx Ho1 Ho2. rewrite free_va_lookup; [done| |].
  - intros ->. rewrite Hv in Hx. injection Hx as <-. by eapply Ho1.
  - intros md -> Hapi ->. simpl in Hok. rewrite (Hok Hapi) in Hx. congruence.
Qed.

Lemma free_va_delete va v h x :
  free_va_heap va v (delete x h) = delete x (free_va_heap va v h).
Proof.
  unfold free_va_heap. destruct v as [r|md]; [apply delete_delete|].
  case_decide; [|apply delete_delete].
  by rewrite (delete_delete _ _ x), (delete_delete _ _ x).
Qed.

Lemma put_heap_delete a c h x :
  x <> a -> x <> c_device c -> put_heap a c (delete x h) = delete x (put_heap a c h).
Proof.
  intros Ha Hd. unfold put_heap, release_heap. rewrite lookup_delete_ne by done.
  destruct (decide (c_count c = 1)); [|by rewrite delete_insert_ne].
  destruct (decide (c_device c = NULL)); [apply delete_delete|].
  destruct (h !! c_device c) as [[]|]; try apply delete_delete.
  by rewrite !(delete_delete _ _ x).
Qed.

Definition put_map_heap (md : Z) (m : map_t) (c : controller) (v : va_object) (h : gmap Z obj)
    : gmap Z obj :=
  if decide (m_count m = 1) then delete md (put_heap (m_ctrl m) c (free_va_heap (m_va m) v h))
  else <[md := OMapping (m_set_count m (m_count m - 1))]> h.

(** Releasing an address range that the caller owns. *)
Lemma hinv_free_va ext next h va v :
  hinv ext next h -> h !! va = Some (OVa v) -> ext va = 1 ->
  hinv (minus_ ext va) next (free_va_heap va v h).
Proof.
  intros Hinv Hv He. pose proof (h_ok _ _ _ Hinv _ _ Hv) as Hok. unfold free_va_heap.
  destruct v as [r|md].
  { eapply hinv_delete_one; [done|done|done|done|]. intros x. rewrite (ptr_in _ []), in_nil by done.
    unfold minus_. lia. }
  destruct (decide (md_type md = MAP_TYPE_API)) as [Hapi|Hapi].
  2:{ eapply hinv_delete_one; [done|done|done|done|]. intros x.
      rewrite (ptr_in _ []), in_nil by (simpl; by rewrite decide_False). unfold minus_. lia. }
  simpl in Hok. specialize (Hok Hapi). assert (va <> md_buffer md) by kinds.
  assert (ptrs (OVa (VA_IOCTL md)) = [md_buffer md]) as Hp by (simpl; by rewrite decide_True).
  assert (ext (md_buffer md) = 0) as Eb.
  { eapply hinv_owned; [done|exact Hok|done|exact Hv|]. unfold points. rewrite Hp. left. }
  rewrite delete_delete.
  assert (hinv (fun x => ext x + at_ (md_buffer md) x - at_ va x) next (delete va h)) as Hinv1.
  { eapply hinv_delete_one; [done|done|done|done|]. intros x. rewrite (ptr_in _ _ _ Hp), in_one. lia. }
  eapply hinv_delete_one; [exact Hinv1|by rewrite lookup_delete_ne|done| |].
  - cbv beta. by rewrite Eb, at_eq, at_ne by congruence.
  - intros x. rewrite (ptr_in _ []), in_nil by done. unfold minus_. lia.
Qed.

(** Dropping a reference to a mapping: the last one releases the range and the controller. *)
Lemma hinv_put_map ext next h md m c v :
  hinv ext next h -> h !! md = Some (OMapping m) -> h !! m_ctrl m = Some (OCtrl c) ->
  h !! m_va m = Some (OVa v) -> 1 <= ext md ->
  hinv (minus_ ext md) next (put_map_heap md m c v h).
Proof.
  intros Hinv Hm Hc Hv He. pose proof (h_ok _ _ _ Hinv _ _ Hm) as (Hm1 & Hmc & Hmv).
  pose proof (hinv_weight _ _ _ _ _ Hinv Hm) as Hw. simpl in Hw. unfold put_map_heap.
  destruct (decide (m_count m = 1)) as [H1|H1].
  2:{ eapply hinv_update; [done|done|done| |done| |].
      - split; [simpl; lia|]. done.
      - intros x Hx. simpl. unfold minus_. lia.
      - intros x. pose proof (h_ext _ _ _ Hinv x). unfold minus_, at_. case_decide; subst; lia. }
  pose proof (h_ok _ _ _ Hinv _ _ Hv) as Hvo. pose proof (h_ok _ _ _ Hinv _ _ Hc) as (_ & _ & Hdev).
  assert (md <> m_ctrl m) by kinds. assert (md <> m_va m) by kinds. assert (m_ctrl m <> m_va m) by kinds.
  assert (md <> c_device c).
  { destruct (decide (c_device c = NULL)) as [->|Hne].
    - pose proof (h_dom _ _ _ Hinv _ _ Hm). unfold NULL. lia.
    - destruct (Hdev Hne) as [[fd Hfd] _]. kinds. }
  rewrite <- put_heap_delete, <- free_va_delete by done.
  assert (hinv (fun x => ext x + at_ (m_ctrl m) x + at_ (m_va m) x - at_ md x) next (delete md h)) as Hinv1.
  { eapply hinv_delete_one; [done|done|done|lia|]. intros x.
    rewrite (ptr_in _ [m_ctrl m; m_va m]), in_two by done. lia. }
  assert (hinv (fun x => ext x + at_ (m_ctrl m) x - at_ md x) next
    (free_va_heap (m_va m) v (delete md h))) as Hinv2.
  { assert (ext (m_va m) = 0) as Ev.
    { eapply hinv_owned; [done|exact Hv|done|exact Hm|]. right. left. }
    eapply hinv_eq; [eapply hinv_free_va; [exact Hinv1|by rewrite lookup_delete_ne|]|].
    - cbv beta. rewrite Ev, at_eq, !at_ne by congruence. lia.
    - intros x. unfold minus_. lia. }
  eapply hinv_eq; [eapply hinv_put; [exact Hinv2| |]|].
  - rewrite free_va_delete, lookup_delete_ne by done. by apply free_va_other.
  - cbv beta. rewrite at_eq, at_ne by congruence. pose proof (h_ext _ _ _ Hinv (m_ctrl m)). lia.
  - intros x. unfold minus_. lia.
Qed.

Lemma free_va_insert va v h x o :
  x <> va -> (forall md, v = VA_IOCTL md -> md_type md = MAP_TYPE_API -> x <> md_buffer md) ->
  free_va_heap va v (<[x := o]> h) = <[x := o]> (free_va_heap va v h).
Proof.
  intros Hx Hb. unfold free_va_heap. destruct v as [r|md]; [by rewrite delete_insert_ne|].
  case_decide; rewrite !delete_insert_ne; try done. intros Heq. by apply (Hb md).
Qed.

Lemma put_heap_insert a c h x o :
  x <> a -> x <> c_device c -> x <> ctrl_mm_ptr (c_handle c) ->
  (forall fd, h !! c_device c = Some (ODev fd) -> x <> fd) ->
  put_heap a c (<[x := o]> h) = <[x := o]> (put_heap a c h).
Proof.
  intros Ha Hd Hmm Hfd. unfold put_heap, release_heap. rewrite lookup_insert_ne by done.
  destruct (decide (c_count c = 1)); [|by rewrite insert_insert_ne].
  destruct (decide (c_device c = NULL)); [by rewrite delete_insert_ne|].
  destruct (h !! c_device c) as [[]|]; rewrite ?delete_insert_ne; try done; by apply not_eq_sym, Hfd.
Qed.

(** Removing a mapping descriptor with its reference to the controller. *)
Lemma wp_remove_map md m c Q (s : lib) :
  md <> NULL -> l_heap s !! md = Some (OMapping m) -> m_ctrl m <> NULL ->
  l_heap s !! m_ctrl m = Some (OCtrl c) -> ctrl_ok (l_heap s) c ->
  (forall s', with_heap s' (l_next s) (delete md (put_heap (m_ctrl m) c (l_heap s))) -> Q tt s') ->
  wp (remove_map md) Q s.
Proof.
  intros Hne Hm Hcn Hc Hco HQ. assert (md <> m_ctrl m) by kinds.
  apply wp_bind. eapply wp_deref; [done|done|].
  apply wp_bind, wp_ctrl_put with c; [done..|]. intros s1 [Hn1 Hh1].
  eapply (wp_free md (OMapping m)); [done| |done|intros s2 Hs2; apply HQ; by rewrite Hn1, Hh1 in Hs2].
  rewrite Hh1. destruct Hco as (_ & _ & Hdev). unfold put_heap, release_heap.
  destruct (decide (c_count c = 1)); [|by rewrite lookup_insert_ne].
  rewrite lookup_delete_ne by done. destruct (decide (c_device c = NULL)) as [|Hd]; [done|].
  destruct (Hdev Hd) as (fd & E & Hfo & Hmm). rewrite E. rewrite !lookup_delete_ne by kinds. done.
Qed.

(** The end of [put_map] for the last reference: releasing the range, removing the descriptor. *)
Lemma wp_put_map_release ext md m c v u Q (s s1 : lib) :
  lib_inv ext s -> l_heap s !! md = Some (OMapping m) -> l_heap s !! m_ctrl m = Some (OCtrl c) ->
  l_heap s !! m_va m = Some (OVa v) ->
  with_heap s1 (l_next s) (<[md := OMapping (m_set_count m 0)]> (l_heap s)) ->
  (forall s', with_heap s' (l_next s)
     (delete md (put_heap (m_ctrl m) c (free_va_heap (m_va m) v (l_heap s)))) -> Q tt s') ->
  wp (call_release (m_release m) (m_va m);;
      store md (OMapping (mk_map 0 (m_ctrl m) NULL (m_release m) u));; remove_map md) Q s1.
Proof.
  intros Hinv Hm Hc Hv [Hn1 Hh1] HQ.
  pose proof (h_ok _ _ _ Hinv _ _ Hm) as (_ & _ & (v0 & Ev & _ & Hmr & _)).
  rewrite Hv in Ev. injection Ev as <-. pose proof (h_dom _ _ _ Hinv) as Hdom.
  pose proof (Hdom _ _ Hm). pose proof (Hdom _ _ Hv). pose proof (Hdom _ _ Hc).
  pose proof (h_ok _ _ _ Hinv _ _ Hv) as Hvo. pose proof (hinv_ctrl_ok _ _ _ _ _ Hinv Hc) as Hco.
  assert (md <> m_va m) by kinds. assert (md <> m_ctrl m) by kinds.
  assert (forall md', v = VA_IOCTL md' -> md_type md' = MAP_TYPE_API -> md <> md_buffer md') as Hbuf.
  { intros md' -> Hapi ->. simpl in Hvo. rewrite (Hvo Hapi) in Hm. done. }
  apply wp_bind. eapply wp_call_release with v; [unfold NULL; lia|by rewrite Hh1, lookup_insert_ne| | | |lia| |].
  { destruct v as [r|md']; [done|]. simpl in *. intros Hapi. rewrite Hh1, lookup_insert_ne; [auto|].
    by apply (Hbuf md'). }
  { apply Hmr. }
  { intros Hf Hi. apply Hmr in Hi. congruence. }
  { intros a o. rewrite Hh1. intros [[<- _]|[_ Ha]]%lookup_insert_Some; [lia|]. apply Hdom in Ha. lia. }
  intros s2 [Hn2 Hh2]. apply wp_bind, wp_store. intros s3 [Hn3 Hh3].
  rewrite Hh2, Hh1, free_va_insert, insert_insert_eq in Hh3 by done.
  set (F := free_va_heap (m_va m) v (l_heap s)) in *.
  assert (forall x o, l_heap s !! x = Some o -> (forall v', o <> OVa v') -> o <> OBuf -> x <> md ->
    l_heap s3 !! x = Some o) as Hkeep.
  { intros x o Hx Ho1 Ho2 Hne. rewrite Hh3, lookup_insert_ne by done. by apply free_va_other. }
  eapply (wp_remove_map md _ c); [unfold NULL; lia|rewrite Hh3; apply lookup_insert_eq|unfold NULL; simpl; lia
    |by apply Hkeep| |].
  - eapply ctrl_ok_keep; [exact Hco|]. intros x o Hx Hk. apply Hkeep; try done; destruct o; done || kinds.
  - intros s4 [Hn4 Hh4]. apply HQ. split; [lia|]. rewrite Hh4, Hh3. simpl.
    assert (md <> c_device c).
    { destruct Hco as (_ & _ & Hdev). destruct (decide (c_device c = NULL)) as [->|Hne].
      - unfold NULL. lia.
      - destruct (Hdev Hne) as (fd & Hfd & _). kinds. }
    by rewrite <- !put_heap_delete, delete_insert_eq.
Qed.

Lemma wp_put_map ext md m c v Q (s : lib) :
  lib_inv ext s -> l_heap s !! md = Some (OMapping m) -> l_heap s !! m_ctrl m = Some (OCtrl c) ->
  l_heap s !! m_va m = Some (OVa v) ->
  (forall s', with_heap s' (l_next s) (put_map_heap md m c v (l_heap s)) -> Q tt s') ->
  wp (put_map md) Q s.
Proof.
  intros Hinv Hm Hc Hv HQ. pose proof (h_dom _ _ _ Hinv _ _ Hm).
  pose proof (h_ok _ _ _ Hinv _ _ Hm) as (Hm1 & (c0 & Ec & _ & Hmu) & (v0 & Ev & _ & _ & Hmi)).
  rewrite Hc in Ec. injection Ec as <-. rewrite Hv in Ev. injection Ev as <-.
  assert (md <> m_va m) by kinds. assert (md <> m_ctrl m) by kinds.
  unfold put_map. rewrite decide_False by (unfold NULL; lia).
  apply wp_bind. eapply wp_deref; [done|done|]. cbv zeta.
  rewrite wrap_small by (unfold fits; lia). apply wp_bind, wp_store. intros s1 Hs1.
  unfold put_map_heap in HQ. simpl. destruct (decide (m_count m = 1)) as [Hone|Hone].
  2:{ rewrite decide_False by lia. by apply wp_ret, HQ. }
  rewrite decide_True by lia. replace (m_count m - 1) with 0 in * by lia. apply wp_bind.
  destruct (m_unmap m) eqn:Eu.
  - destruct Hs1 as [Hn1 Hh1].
    apply wp_bind. eapply wp_deref; [by rewrite Hh1, lookup_insert_ne|done|].
    pose proof (hinv_ctrl_ok _ _ _ _ _ Hinv Hc) as (_ & _ & Hdev).
    destruct (Hdev (Hmu eq_refl)) as (fd & Hfd & _). assert (md <> c_device c) by kinds.
    destruct v as [r|md']; [by destruct (Hmi eq_refl)|].
    eapply (wp_ioctl_unmap _ _ md' fd); [by rewrite Hh1, lookup_insert_ne..|].
    intros s2 [Hn2 Hh2]. eapply (wp_put_map_release ext md m c _); [done..| |done]. split; congruence.
  - apply wp_ret. by eapply (wp_put_map_release ext md m c v).
Qed.

Lemma put_map_delete md m c v h x :
  x <> md -> x <> m_ctrl m -> x <> c_device c ->
  put_map_heap md m c v (delete x h) = delete x (put_map_heap md m c v h).
Proof.
  intros Hmd Hc Hd. unfold put_map_heap. case_decide; [|by rewrite delete_insert_ne].
  by rewrite free_va_delete, put_heap_delete, delete_delete.
Qed.

Lemma put_frame a o c h h' :
  frame h h' -> h !! a = Some o -> same o (OCtrl c) -> frame h (put_heap a c h').
Proof.
  intros Hf Ha Hs. unfold put_heap, release_heap. destruct (decide (c_count c = 1)).
  - repeat case_match; repeat apply frame_delete; done.
  - eapply frame_insert; [done|done|]. by destruct o.
Qed.

Lemma put_map_frame md m c v h :
  h !! md = Some (OMapping m) -> h !! m_ctrl m = Some (OCtrl c) -> frame h (put_map_heap md m c v h).
Proof.
  intros Hm Hc. unfold put_map_heap. destruct (decide (m_count m = 1)).
  - eapply frame_delete, put_frame; [|done|done]. unfold free_va_heap.
    repeat case_match; repeat apply frame_delete; apply frame_refl.
  - eapply frame_insert; [apply frame_refl|done|done].
Qed.

(** What is not part of a controller survives its release. *)
Definition not_ctrl (o : obj) : Prop :=
  match o with OCtrl _ | ODev _ | OFd | OMm => False | _ => True end.

Lemma put_heap_keep a c h k o :
  ctrl_ok h c -> h !! a = Some (OCtrl c) -> h !! k = Some o -> not_ctrl o ->
  put_heap a c h !! k = Some o.
Proof.
  intros (_ & _ & Hdev) Ha Hk Ho. unfold put_heap, release_heap.
  assert (forall x ox, h !! x = Some ox -> ~ not_ctrl ox -> x <> k) as Hne.
  { intros x ox Hx Hox Heq. subst x. rewrite Hx in Hk. injection Hk as ->. done. }
  assert (a <> k) by (eapply Hne; [exact Ha|simpl; tauto]).
  destruct (decide (c_count c = 1)); [|by rewrite lookup_insert_ne].
  rewrite lookup_delete_ne by done. destruct (decide (c_device c = NULL)) as [|Hd]; [done|].
  destruct (Hdev Hd) as (fd & E & Hfo & Hmm). rewrite E.
  rewrite !lookup_delete_ne; [done| | |]; (eapply Hne; [eassumption|simpl; tauto]).
Qed.

(** Handles, references and admin queues survive the release of a mapping. *)
Definition not_mapping (o : obj) : Prop :=
  match o with OCont _ | ORef _ | OAdmin _ => True | _ => False end.

Lemma put_map_keep ext next h md m c v k o :
  hinv ext next h -> h !! md = Some (OMapping m) -> h !! m_ctrl m = Some (OCtrl c) ->
  h !! m_va m = Some (OVa v) -> h !! k = Some o -> not_mapping o ->
  put_map_heap md m c v h !! k = Some o.
Proof.
  intros Hinv Hm Hc Hv Hk Ho. unfold put_map_heap.
  pose proof (h_ok _ _ _ Hinv _ _ Hv) as Hvo. pose proof (hinv_ctrl_ok _ _ _ _ _ Hinv Hc) as Hco.
  case_decide; [|by rewrite lookup_insert_ne by (intros ->; by simplify_eq)].
  rewrite lookup_delete_ne by (intros ->; by simplify_eq).
  apply put_heap_keep; [|by apply free_va_other| |by destruct o].
  - eapply ctrl_ok_keep; [done|]. intros x ox Hx Hox. apply free_va_other; try done; intros; by destruct ox.
  - apply free_va_other; try done; intros; by destruct o.
Qed.

(** Removing a container, on heaps. *)
Definition cont_heap (k : Z) (kc : container) (m : map_t) (c : controller) (v : va_object)
    (h : gmap Z obj) : gmap Z obj := delete k (put_map_heap (k_map kc) m c v h).

Lemma wp_remove_container_heap ext k kc m c v Q (s : lib) :
  lib_inv ext s -> l_heap s !! k = Some (OCont kc) -> l_heap s !! k_map kc = Some (OMapping m) ->
  l_heap s !! m_ctrl m = Some (OCtrl c) -> l_heap s !! m_va m = Some (OVa v) ->
  (forall s', with_heap s' (l_next s) (cont_heap k kc m c v (l_heap s)) -> Q tt s') ->
  wp (remove_container k) Q s.
Proof.
  intros Hinv Hk Hm Hc Hv HQ. pose proof (h_dom _ _ _ Hinv _ _ Hk).
  apply wp_bind. eapply wp_deref; [done|done|]. apply wp_bind. eapply wp_put_map; [done..|].
  intros s1 [Hn1 Hh1].
  eapply (wp_free k (OCont kc)); [unfold NULL; lia|rewrite Hh1; by eapply put_map_keep|done|].
  intros s2 [Hn2 Hh2]. apply HQ. split; [lia|]. by rewrite Hh2, Hh1.
Qed.

(** Any object but a controller or a device is not the device of a controller. *)
Lemma not_device ext next h a c x o :
  hinv ext next h -> h !! a = Some (OCtrl c) -> h !! x = Some o -> (forall fd, o <> ODev fd) ->
  x <> c_device c.
Proof.
  intros Hinv Ha Hx Ho. pose proof (hinv_ctrl_ok _ _ _ _ _ Hinv Ha) as (_ & _ & Hdev).
  pose proof (h_dom _ _ _ Hinv _ _ Hx). destruct (decide (c_device c = NULL)) as [->|Hne]; [unfold NULL; lia|].
  destruct (Hdev Hne) as (fd & Hfd & _). intros ->. rewrite Hx in Hfd. injection Hfd as ->. by eapply Ho.
Qed.

Lemma hinv_remove_cont ext next h k kc m c v :
  hinv ext next h -> h !! k = Some (OCont kc) -> h !! k_map kc = Some (OMapping m) ->
  h !! m_ctrl m = Some (OCtrl c) -> h !! m_va m = Some (OVa v) -> ext k = 1 ->
  hinv (minus_ ext k) next (cont_heap k kc m c v h).
Proof.
  intros Hinv Hk Hm Hc Hv He. unfold cont_heap.
  assert (k <> k_map kc) by kinds. assert (k <> m_ctrl m) by kinds. assert (k <> m_va m) by kinds.
  rewrite <- put_map_delete; [|done|done|by eapply not_device].
  assert (hinv (plus_ (minus_ ext k) (k_map kc)) next (delete k h)) as Hinv1.
  { eapply hinv_delete_one; [exact Hinv|done|done|done|]. intros x.
    rewrite (ptr_in _ [k_map kc]), in_one by done. unfold plus_, minus_. lia. }
  eapply hinv_eq; [eapply hinv_put_map; [exact Hinv1|by rewrite lookup_delete_ne..|]|].
  - unfold plus_, minus_. rewrite at_eq, at_ne by done. pose proof (h_ext _ _ _ Hinv (k_map kc)). lia.
  - intros x. unfold plus_, minus_. lia.
Qed.

(** A handle whose one reference is the caller's. *)
Lemma wp_remove_container ext k kc Q (s : lib) :
  lib_inv ext s -> l_heap s !! k = Some (OCont kc) -> ext k = 1 ->
  (forall s', lib_inv (minus_ ext k) s' -> frame (l_heap s) (l_heap s') -> Q tt s') ->
  wp (remove_container k) Q s.
Proof.
  intros Hinv Hk He HQ.
  pose proof (h_ok _ _ _ Hinv _ _ Hk) as (m & c & v & Hm & Hc & Hv & _).
  eapply wp_remove_container_heap; [done..|]. intros s1 [Hn1 Hh1]. apply HQ.
  - unfold lib_inv. rewrite Hn1, Hh1. by apply hinv_remove_cont.
  - rewrite Hh1. by apply frame_delete, put_map_frame.
Qed.
End release.

(** ** References held outside, as a list *)

Definition occ (a : Z) (l : list Z) : Z := Z.of_nat (length (filter (eq a) l)).

Lemma occ_cons a b l : occ a (b :: l) = occ a l + at_ b a.
Proof.
  unfold occ, at_. rewrite filter_cons. repeat case_decide; simpl; lia.
Qed.

Lemma occ_pos a l : a ∈ l -> 1 <= occ a l.
Proof.
  induction l as [|b l IH]; intros Hin; [by apply not_elem_of_nil in Hin|]. rewrite occ_cons.
  apply elem_of_cons in Hin as [->|Hin]; [rewrite at_eq; unfold occ; lia|].
  specialize (IH Hin). unfold at_. case_decide; lia.
Qed.
