(* ===== verification/LibApi.v ===== *)
(** * The interface of libnvm keeps its promises

    What the user gets from each function of nvm_ctrl.h and nvm_dma.h: an error and an unchanged
    library, or a handle that the user owns.  No sequence of calls runs into undefined behaviour,
    and when the user has given back all handles nothing is left allocated. *)
From stdpp Require Import prelude gmap gmultiset list.
From Stdlib Require Import ZArith Lia.
From S2P Require Import Prelude NvmTypes NvmUtil LibState Ctrl Dma LinuxDma DmaSpec LibInv LibProofs.
Local Open Scope Z_scope.

(** ** New DMA handles *)

Section new_handles.
Context `{Env}.

Definition handle_ok (c : controller) (h : nvm_dma_t) : Prop :=
  dma_page_size h = ctrl_page_size (c_handle c) /\ dma_ok h.

(** The result [(err, handle)] of a function that maps memory for [c]. *)
Definition new_dma (ext : Z -> Z) (c : controller) (s : lib) (r : Z * Z) (s' : lib) : Prop :=
  if decide (fst r = 0) then
    lib_inv (plus_ ext (snd r)) s' /\ 0 < snd r /\ l_heap s !! snd r = None /\
    frame (l_heap s) (l_heap s') /\
    exists kc, l_heap s' !! snd r = Some (OCont kc) /\ handle_ok c (k_handle kc)
  else snd r = NULL /\ unchanged s s'.

Lemma new_dma_err ext c s err s' : err <> 0 -> unchanged s s' -> new_dma ext c s (err, NULL) s'.
Proof. intros He Hu. unfold new_dma. simpl. by rewrite decide_False. Qed.

Lemma wp_create_mapping_descriptor page_size type buffer size Q (s : lib) :
  0 < page_size -> 0 < l_next s ->
  (forall err s', err <> 0 -> unchanged s s' -> Q (err, NULL) s') ->
  (forall s' n, n = NVM_PAGE_ALIGN size page_size / page_size -> 0 <= n ->
     with_heap s' (l_next s + 1)
       (<[l_next s := OVa (VA_IOCTL (mk_md type buffer (mk_va false buffer page_size n) 0 0))]>
          (l_heap s)) -> Q (0, l_next s) s') ->
  wp (create_mapping_descriptor page_size type buffer size) Q s.
Proof.
  intros Hps Hn Hfail Hok. unfold create_mapping_descriptor. rewrite decide_False by lia. cbv zeta.
  case_decide; [by apply wp_ret, Hfail|]. apply wp_bind, wp_malloc.
  { intros s1 [Hn1 Hh1]. rewrite decide_True by done. apply wp_ret, Hfail; [done|]. split; [done|lia]. }
  intros s1 [Hn1 Hh1]. rewrite decide_False by (unfold NULL; lia).
  apply wp_bind, wp_store. intros s2 [Hn2 Hh2]. eapply wp_ret, Hok; [done| |].
  - apply Z.div_pos; [|lia]. apply Z.land_nonneg. left. apply wrap_range. lia.
  - split; [lia|]. by rewrite Hh2, Hh1, insert_insert_eq.
Qed.

(** From a mapping descriptor the caller owns to a handle. *)
Lemma wp_init_or_remove ext ctrl c va md Q (s : lib) :
  lib_inv ext s -> l_heap s !! ctrl = Some (OCtrl c) -> l_heap s !! va = Some (OVa (VA_IOCTL md)) ->
  ext va = 1 -> c_count c < 2 ^ 32 - 1 -> 0 < ctrl_page_size (c_handle c) -> va_ok (VA_IOCTL md) ->
  (forall err s', err <> 0 -> l_heap s' = free_va_heap va (VA_IOCTL md) (l_heap s) ->
     l_next s <= l_next s' -> Q (err, NULL) s') ->
  (forall k s', dma_post ext s c va (VA_IOCTL md) k s' -> Q (0, k) s') ->
  wp (init_or_remove ctrl va) Q s.
Proof.
  intros Hinv Hc Hv He Hcnt Hps Hva Hfail Hok. apply wp_bind.
  eapply wp_dma_init; [done|done|done|done|done|done|done|done| |].
  - intros err s1 Herr [Hh1 Hn1]. rewrite decide_True by done. apply wp_bind.
    pose proof (h_dom _ _ _ Hinv) as Hdom. pose proof (Hdom _ _ Hv).
    eapply (wp_call_release RELEASE_MD va (VA_IOCTL md)); [unfold NULL; lia|by rewrite Hh1| |done|done|lia| |].
    + rewrite Hh1. apply (h_ok _ _ _ Hinv _ _ Hv).
    + intros a o. rewrite Hh1. intros Ha%Hdom. lia.
    + intros s2 [Hn2 Hh2]. apply wp_ret, Hfail; [done|congruence|lia].
  - intros k s1 Hp. rewrite decide_False by tauto. by apply wp_ret, Hok.
Qed.

(** The range of a new mapping is freed again, or belongs to the handle. *)
Lemma dma_post_new ext c v va k s0 s s' :
  dma_post (plus_ ext va) s c va v k s' -> frame (l_heap s0) (l_heap s') ->
  (forall a, l_heap s !! a = None -> l_heap s0 !! a = None) ->
  new_dma ext c s0 (0, k) s'.
Proof.
  intros (Hi & Hk & Hpos & _ & kc & Hkc & Hf) Hfr Hs. unfold new_dma. simpl.
  split; [|split; [done|split; [by apply Hs|split; [done|]]]].
  - eapply hinv_eq; [exact Hi|]. intros x. unfold plus_. lia.
  - exists kc. split; [done|]. by destruct Hf as (_ & Hl & Hp).
Qed.

Lemma frame_fresh_l h h' a o : h !! a = None -> frame (<[a := o]> h) h' -> frame h h'.
Proof.
  intros Ha Hf b ob Hb. destruct (decide (b = a)) as [->|Hne]; [by left|].
  pose proof (Hf b ob Hb) as Hx. by rewrite lookup_insert_ne in Hx by done.
Qed.

(** A new object that owns nothing, or the buffer [b] the caller owned. *)
Lemma hinv_new ext next h o :
  hinv ext next h -> obj_ok h o -> weight o = 1 -> ptrs o = [] ->
  hinv (plus_ ext next) (next + 1) (<[next := o]> h).
Proof.
  intros Hinv Hok Hw Hl. pose proof (h_next _ _ _ Hinv). pose proof (hinv_next _ _ _ Hinv) as Hnx.
  eapply hinv_insert; [exact Hinv|done|lia|lia|done| |].
  - intros x _. rewrite Hw, (ptr_in o []), in_nil by done. unfold plus_. lia.
  - intros x. pose proof (h_ext _ _ _ Hinv x). ext_lia.
Qed.

Lemma hinv_new_owner ext next h o b :
  hinv (plus_ ext b) next h -> obj_ok h o -> weight o = 1 -> ptrs o = [b] -> 0 <= ext b ->
  hinv (plus_ ext next) (next + 1) (<[next := o]> h).
Proof.
  intros Hinv Hok Hw Hl Hb. pose proof (h_next _ _ _ Hinv). pose proof (hinv_next _ _ _ Hinv) as Hnx.
  eapply hinv_insert; [exact Hinv|done|lia|lia|done| |].
  - intros x _. rewrite Hw, (ptr_in o [b]), in_one by done. unfold plus_. lia.
  - intros x. pose proof (h_ext _ _ _ Hinv x) as Hx. unfold plus_, at_ in *. repeat case_decide; subst; lia.
Qed.

(** A new descriptor of memory that is not the library's own. *)
Lemma foreign_inv ext md (s s1 : lib) :
  lib_inv ext s -> md_type md <> MAP_TYPE_API ->
  with_heap s1 (l_next s + 1) (<[l_next s := OVa (VA_IOCTL md)]> (l_heap s)) ->
  lib_inv (plus_ ext (l_next s)) s1 /\ plus_ ext (l_next s) (l_next s) = 1 /\
  (forall a o, l_heap s !! a = Some o -> l_heap s1 !! a = Some o) /\
  (forall h', frame (l_heap s1) h' -> frame (l_heap s) h') /\
  (forall a, l_heap s1 !! a = None -> l_heap s !! a = None) /\
  free_va_heap (l_next s) (VA_IOCTL md) (l_heap s1) = l_heap s.
Proof.
  intros Hinv Htype [Hn1 Hh1]. pose proof (h_next _ _ _ Hinv). pose proof (hinv_next _ _ _ Hinv) as Hnx.
  destruct (hinv_fresh _ _ _ _ Hinv ltac:(done) Hnx) as [_ He].
  unfold lib_inv. rewrite Hn1, Hh1. split; [|split; [|split; [|split; [|split]]]].
  - apply hinv_new; [exact Hinv|intros Hapi; by destruct Htype|done|]. simpl. by rewrite decide_False.
  - unfold plus_. rewrite He, at_eq. lia.
  - intros a o Ha. by rewrite lookup_insert_ne by kinds.
  - intros h' Hf. by eapply frame_fresh_l.
  - by intros a [Ha _]%lookup_insert_None.
  - simpl. rewrite decide_False by done. by apply delete_insert_id.
Qed.

(** The handle has an address for each controller page of the [size] bytes. *)
Definition mapped (c : controller) (page_size size : Z) (r : Z * Z) (s' : lib) : Prop :=
  fst r = 0 -> forall kc, l_heap s' !! snd r = Some (OCont kc) ->
  dma_n_ioaddrs (k_handle kc) =
    n_ctrl_pages (c_handle c) page_size (NVM_PAGE_ALIGN size page_size / page_size).

Lemma mapped_err c ps size err s' : err <> 0 -> mapped c ps size (err, NULL) s'.
Proof. intros He H0. by destruct He. Qed.

(** A descriptor of memory that is not the library's own, from its creation to the handle. *)
Lemma wp_map_foreign ext ctrl c page_size type buffer size Q (s : lib) :
  lib_inv ext s -> l_heap s !! ctrl = Some (OCtrl c) -> c_count c < 2 ^ 32 - 1 ->
  0 < ctrl_page_size (c_handle c) -> 0 < page_size -> type <> MAP_TYPE_API ->
  (forall r s', new_dma ext c s r s' -> mapped c page_size size r s' -> Q r s') ->
  wp (r ← create_mapping_descriptor page_size type buffer size;
      if decide (fst r <> 0) then mret (fst r, NULL) else init_or_remove ctrl (snd r)) Q s.
Proof.
  intros Hinv Hc Hcnt Hcps Hps Htype HQ. pose proof (h_next _ _ _ Hinv).
  apply wp_bind, wp_create_mapping_descriptor; [done|done| |].
  { intros err s1 Herr Hun. rewrite decide_True by done.
    apply wp_ret, HQ; [by apply new_dma_err|by apply mapped_err]. }
  intros s1 n En Hn Hs1. rewrite decide_False by tauto. cbn [snd].
  set (md := mk_md type buffer (mk_va false buffer page_size n) 0 0) in *.
  destruct (foreign_inv ext md s s1 Hinv Htype Hs1) as (Hinv1 & He & Hkeep & Hfr & Hnone & Hback).
  destruct Hs1 as [Hn1 Hh1].
  eapply (wp_init_or_remove _ _ c _ md); [exact Hinv1|by apply Hkeep
    |rewrite Hh1; apply lookup_insert_eq|done|done|done| | |].
  - split; simpl; lia.
  - intros err s2 Herr Hh2 Hn2. apply HQ; [|by apply mapped_err]. apply new_dma_err; [done|].
    split; [congruence|lia].
  - intros k s2 Hp. apply HQ; [eapply dma_post_new; [exact Hp| |done]; apply Hfr, Hp|].
    intros _ kc Hkc. destruct Hp as (_ & _ & _ & _ & kc' & Hkc' & Hf & _). simpl in Hkc.
    rewrite Hkc' in Hkc. injection Hkc as <-. simpl in Hf. by rewrite <- En.
Qed.

Lemma wp_nvm_dma_map_host ext ctrl c vaddr size Q (s : lib) :
  lib_inv ext s -> l_heap s !! ctrl = Some (OCtrl c) -> c_count c < 2 ^ 32 - 1 ->
  0 < ctrl_page_size (c_handle c) ->
  (forall r s', new_dma ext c s r s' ->
     mapped c (ctrl_page_size (c_handle c)) (NVM_CTRL_ALIGN (c_handle c) size) r s' -> Q r s') -> wp (nvm_dma_map_host ctrl vaddr size) Q s.
Proof.
  intros Hinv Hc Hcnt Hps HQ. assert (unchanged s s) by (split; [done|lia]).
  apply wp_bind. eapply wp_deref; [done|done|]. cbv zeta.
  case_decide; [by apply wp_ret, HQ; [apply new_dma_err|apply mapped_err]|].
  case_decide; [by apply wp_ret, HQ; [apply new_dma_err|apply mapped_err]|].
  by eapply wp_map_foreign.
Qed.

(** Memory the library allocates: the buffer belongs to the descriptor, the descriptor to the
    mapping. *)
Lemma wp_nvm_dma_create ext ctrl c size Q (s : lib) :
  lib_inv ext s -> l_heap s !! ctrl = Some (OCtrl c) -> c_count c < 2 ^ 32 - 1 ->
  0 < ctrl_page_size (c_handle c) ->
  (forall r s', new_dma ext c s r s' -> Q r s') -> wp (nvm_dma_create ctrl size) Q s.
Proof.
  intros Hinv Hc Hcnt Hps HQ. assert (unchanged s s) by (split; [done|lia]).
  pose proof (h_next _ _ _ Hinv). pose proof (hinv_next _ _ _ Hinv) as Hnx.
  destruct (hinv_fresh _ _ _ _ Hinv ltac:(done) Hnx) as [_ He].
  pose proof (hinv_above _ _ _ (l_next s + 1) Hinv ltac:(lia)) as Hnx1.
  assert (ctrl <> l_next s) by kinds. assert (ctrl <> l_next s + 1) by kinds.
  destruct (hinv_fresh _ _ _ (l_next s + 1) Hinv ltac:(lia) Hnx1) as [_ He1].
  apply wp_bind. eapply wp_deref; [done|done|]. cbv zeta.
  case_decide; [by apply wp_ret, HQ, new_dma_err|]. case_decide; [by apply wp_ret, HQ, new_dma_err|].
  apply wp_bind, wp_bind, wp_sys_call. intros s1 [Hn1 Hh1]. case_decide as Herr.
  { apply wp_ret. rewrite decide_True by done. apply wp_ret, HQ, new_dma_err; [done|]. split; [done|lia]. }
  apply wp_bind, wp_new_obj. intros s2 [Hn2 Hh2]. rewrite Hn1, Hh1 in *. apply wp_ret.
  rewrite decide_False by tauto. cbn [snd].
  assert (lib_inv (plus_ ext (l_next s)) s2) as Hinv2.
  { unfold lib_inv. rewrite Hn2, Hh2. by apply hinv_new. }
  apply wp_bind, wp_create_mapping_descriptor; [done|lia| |].
  { intros err s3 Herr' [Hh3 Hn3]. rewrite decide_True by done. apply wp_bind.
    eapply (wp_free _ OBuf); [unfold NULL; lia|rewrite Hh3, Hh2; apply lookup_insert_eq|done|].
    intros s4 [Hn4 Hh4]. apply wp_ret, HQ, new_dma_err; [done|]. split; [|lia].
    rewrite Hh4, Hh3, Hh2. by apply delete_insert_id. }
  intros s3 n _ Hn [Hn3 Hh3]. rewrite decide_False by tauto. cbn [snd]. rewrite Hn2 in *.
  set (md := mk_md MAP_TYPE_API _ _ _ _) in *.
  eapply (wp_init_or_remove (plus_ ext (l_next s + 1)) _ c _ md); [| | | |done|done| | |].
  - unfold lib_inv. rewrite Hn3, Hh3. eapply hinv_new_owner; [|intros _|done|done|].
    + unfold lib_inv in Hinv2. by rewrite Hn2 in Hinv2.
    + rewrite Hh2. apply lookup_insert_eq.
    + apply (h_ext _ _ _ Hinv).
  - by rewrite Hh3, Hh2, !lookup_insert_ne.
  - rewrite Hh3. apply lookup_insert_eq.
  - unfold plus_. rewrite He1, at_eq. lia.
  - split; simpl; lia.
  - intros err s4 Herr' Hh4 Hn4. apply HQ, new_dma_err; [done|]. split; [|lia].
    rewrite Hh4, Hh3, Hh2. simpl. rewrite delete_delete, delete_insert_id by (by rewrite lookup_insert_ne by lia).
    by apply delete_insert_id.
  - intros k s4 Hp. apply HQ. eapply dma_post_new; [exact Hp| |].
    + destruct Hp as (_ & _ & _ & Hf & _). rewrite Hh3, Hh2 in Hf.
      eapply frame_fresh_l; [exact Hnx|]. eapply frame_fresh_l; [|exact Hf]. by rewrite lookup_insert_ne by lia.
    + intros a. rewrite Hh3, Hh2. by intros [[Ha _]%lookup_insert_None _]%lookup_insert_None.
Qed.

(** ** GPU memory: the dma-buf descriptor is closed on every path *)

Lemma hip_checks_page_size hip devptr size n :
  hip_checks hip devptr size = (0, n) -> 0 < hip_page_size.
Proof.
  unfold hip_checks. destruct (decide (size = 0)); [done|].
  destruct (decide (hip_page_size <= 0)); [done|lia].
Qed.

(** Closing the dma-buf [fd], which the caller owned, after the mapping was made. *)
Lemma new_dma_close ext c fd k (s s1 s2 s3 : lib) :
  lib_inv ext s -> fd = l_next s -> l_heap s1 = <[fd := OFd]> (l_heap s) ->
  new_dma (plus_ ext fd) c s1 (0, k) s2 -> with_heap s3 (l_next s2) (delete fd (l_heap s2)) ->
  l_heap s2 !! fd = Some OFd -> new_dma ext c s (0, k) s3.
Proof.
  intros Hinv -> Hh1 Hnew [Hn3 Hh3] Hfd. unfold new_dma in *. simpl in *.
  destruct Hnew as (Hinv2 & Hk & Hkn & Hf & kc & Hkc & Hok).
  pose proof (hinv_next _ _ _ Hinv) as Hnx. pose proof (h_next _ _ _ Hinv) as Hpos.
  destruct (hinv_fresh _ _ _ _ Hinv Hpos Hnx) as [_ He]. rewrite Hh1 in Hkn, Hf.
  apply lookup_insert_None in Hkn as [Hkn Hne]. unfold lib_inv. rewrite Hn3, Hh3.
  split; [|split; [done|split; [done|split]]].
  - eapply hinv_delete_one; [exact Hinv2|done|done| |].
    + unfold plus_. rewrite He, at_eq, at_ne by done. lia.
    + intros x. rewrite (ptr_in _ []), in_nil by done. unfold plus_. lia.
  - apply frame_delete. by eapply frame_fresh_l.
  - exists kc. by rewrite lookup_delete_ne by done.
Qed.

(** The dma-buf [fd] is still open after the mapping was made. *)
Lemma new_dma_fd ext c fd k (s s' : lib) :
  new_dma (plus_ ext fd) c s (0, k) s' -> (forall x, 0 <= ext x) -> 0 < fd -> l_heap s !! fd = Some OFd ->
  l_heap s' !! fd = Some OFd.
Proof.
  intros Hnew Hx Hpos Hfd. unfold new_dma in Hnew. simpl in Hnew. destruct Hnew as (Hi & _ & _ & Hf & _).
  destruct (frame_held _ _ _ _ fd OFd Hi Hf Hfd) as (o & Ho & Hs); [done| |by destruct o].
  unfold plus_. rewrite at_eq. pose proof (Hx fd). unfold at_. case_decide; lia.
Qed.

Lemma wp_map_device_hip ext hip ctrl c devptr size Q (s : lib) :
  lib_inv ext s -> l_heap s !! ctrl = Some (OCtrl c) -> c_count c < 2 ^ 32 - 1 ->
  0 < ctrl_page_size (c_handle c) ->
  (forall r s', new_dma ext c s r s' -> mapped c hip_page_size size r s' -> Q r s') ->
  wp (map_device_hip hip ctrl devptr size) Q s.
Proof.
  intros Hinv Hc Hcnt Hps HQ. assert (unchanged s s) as Hun by (split; [done|lia]).
  assert (forall e s', e <> 0 -> unchanged s s' -> Q (e, NULL) s') as Hfail
    by (intros; apply HQ; [by apply new_dma_err|by apply mapped_err]).
  pose proof (h_next _ _ _ Hinv). pose proof (hinv_next _ _ _ Hinv) as Hnx.
  unfold map_device_hip. destruct (hip_checks hip devptr size) as [err n] eqn:Ehc.
  case_decide as Herr; [by apply wp_ret, Hfail|].
  assert (err = 0) as -> by (destruct (decide (err = 0)); tauto).
  pose proof (hip_checks_page_size _ _ _ _ Ehc) as Hhps.
  destruct (hip_have_v2 hip); [|by apply wp_ret, Hfail].
  destruct (hip_export hip) as [off|]; [|by apply wp_ret, Hfail].
  apply wp_bind, wp_new_obj. intros s1 [Hn1 Hh1]. set (fd := l_next s) in *.
  assert (forall s', l_heap s' = l_heap s1 -> l_next s1 <= l_next s' -> forall e, e <> 0 ->
    wp (close_dmabuf fd;; mret (e, NULL)) Q s') as Hclose.
  { intros s' Hh Hn e He. apply wp_bind, wp_close_fd; [rewrite Hh, Hh1; apply lookup_insert_eq|].
    intros s'' [Hn'' Hh'']. apply wp_ret, Hfail; [done|]. split; [|lia].
    rewrite Hh'', Hh, Hh1. by apply delete_insert_id. }
  assert (lib_inv (plus_ ext fd) s1) as Hinv1.
  { unfold lib_inv. rewrite Hn1, Hh1. by apply hinv_new. }
  case_decide; [by apply Hclose|].
  apply wp_bind, wp_create_mapping_descriptor; [done|lia| |].
  { intros err s2 Herr' [Hh2 Hn2]. rewrite decide_True by done. by apply Hclose. }
  intros s2 m Em Hm [Hn2 Hh2]. rewrite decide_False by tauto. cbn [snd].
  apply wp_bind. eapply wp_deref; [rewrite Hh2; apply lookup_insert_eq|done|].
  apply wp_bind, wp_store. intros s3 [Hn3 Hh3]. rewrite Hh2, insert_insert_eq in Hh3. simpl in Hh3.
  set (md := mk_md MAP_TYPE_DMABUF devptr _ fd off) in *.
  destruct (foreign_inv (plus_ ext fd) md s1 s3 Hinv1 ltac:(done)) as (Hinv3 & He & Hkeep & Hfr & Hnone & Hback).
  { split; [lia|done]. }
  assert (l_heap s1 !! fd = Some OFd) as Hfd by (rewrite Hh1; apply lookup_insert_eq).
  assert (l_heap s1 !! ctrl = Some (OCtrl c)) as Hc1 by (rewrite Hh1; by rewrite lookup_insert_ne by kinds).
  assert (l_heap s3 !! l_next s1 = Some (OVa (VA_IOCTL md))) as Hmd by (rewrite Hh3; apply lookup_insert_eq).
  apply wp_bind. eapply wp_dma_init; [exact Hinv3|by apply Hkeep|exact Hmd|done|done|done|by split; simpl; lia|done| |].
  - intros e s4 He4 [Hh4 Hn4]. rewrite decide_True by done. apply wp_bind.
    eapply (wp_call_release RELEASE_MD _ (VA_IOCTL md)); [unfold NULL; lia|by rewrite Hh4|done|done|done|lia| |].
    { intros a o. rewrite Hh4. intros Ha%(h_dom _ _ _ Hinv3). lia. }
    intros s5 [Hn5 Hh5]. apply Hclose; [congruence|lia|done].
  - intros k s4 Hp. rewrite decide_False by tauto.
    assert (new_dma (plus_ ext fd) c s1 (0, k) s4) as Hnew.
    { eapply dma_post_new; [exact Hp| |done]. apply Hfr, Hp. }
    assert (l_heap s4 !! fd = Some OFd) as Hfd4 by (eapply new_dma_fd; [exact Hnew|apply (h_ext _ _ _ Hinv)|done|done]).
    apply wp_bind, wp_close_fd; [done|]. intros s5 Hs5. apply wp_ret, HQ; [by eapply new_dma_close|].
    intros _ kc Hkc. destruct Hp as (_ & _ & _ & _ & kc' & Hkc' & Hf & _). destruct Hs5 as [_ Hh5].
    simpl in Hkc. rewrite Hh5 in Hkc. apply lookup_delete_Some in Hkc as [_ Hkc]. rewrite Hkc' in Hkc.
    injection Hkc as <-. simpl in Hf. by rewrite <- Em.
Qed.

(** The pages GPU memory is mapped in. *)
Definition gpu_page_size : Z := match backend with BACKEND_CUDA => 2 ^ 16 | _ => hip_page_size end.

Lemma wp_nvm_dma_map_device ext hip ctrl c devptr size Q (s : lib) :
  lib_inv ext s -> l_heap s !! ctrl = Some (OCtrl c) -> c_count c < 2 ^ 32 - 1 ->
  0 < ctrl_page_size (c_handle c) ->
  (forall r s', new_dma ext c s r s' -> mapped c gpu_page_size size r s' -> Q r s') ->
  wp (nvm_dma_map_device hip ctrl devptr size) Q s.
Proof.
  intros Hinv Hc Hcnt Hps HQ. assert (unchanged s s) by (split; [done|lia]).
  assert (forall e, e <> 0 -> Q (e, NULL) s) as Hfail
    by (intros; apply HQ; [by apply new_dma_err|by apply mapped_err]).
  apply wp_bind. eapply wp_deref; [done|done|]. case_decide; [by apply wp_ret, Hfail|].
  unfold gpu_page_size in HQ. destruct backend.
  - by eapply wp_map_foreign.
  - by eapply wp_map_device_hip.
  - by apply wp_ret, Hfail.
Qed.
End new_handles.

(** ** Addresses the user supplies *)

Section user_addrs.
Context `{Env}.

(** From the range [va], which the caller owns, to the handle. *)
Lemma wp_dma_map_tail ext ctrl c va r addrs Q (s : lib) :
  lib_inv ext s -> l_heap s !! ctrl = Some (OCtrl c) -> c_count c < 2 ^ 32 - 1 ->
  0 < ctrl_page_size (c_handle c) -> l_heap s !! va = Some (OVa (VA_PLAIN r)) -> ext va = 1 ->
  va_ok (VA_PLAIN r) -> va_n_pages r <= Z.of_nat (length addrs) ->
  (forall err s', err <> 0 -> l_heap s' = delete va (l_heap s) -> l_next s <= l_next s' ->
     Q (err, NULL) s') ->
  (forall k s', dma_post ext s c va (VA_PLAIN r) k s' -> Q (0, k) s') ->
  wp (x ← create_map ctrl va RELEASE_FREE;
      if decide (fst x <> 0) then free va;; mret (fst x, NULL)
      else
        let map := snd x in
        x ← create_container map;
        if decide (fst x <> 0) then remove_map map;; free va;; mret (fst x, NULL)
        else
          let container := snd x in
          k ← deref as_cont container;
          c ← deref as_ctrl ctrl;
          h ← of_option (populate_handle (k_handle k) (k_cap k) r (c_handle c) addrs);
          store container (OCont (mk_cont (k_map k) (k_cap k) h));;
          mret (0, container)) Q s.
Proof.
  intros Hinv Hc Hcnt Hps Hv He Hva Hlen Hfail Hok.
  pose proof (h_ok _ _ _ Hinv _ _ Hc) as (Hc1 & _). pose proof (h_dom _ _ _ Hinv _ _ Hv).
  pose proof (h_dom _ _ _ Hinv _ _ Hc). pose proof (h_next _ _ _ Hinv) as Hnx.
  pose proof (hinv_above _ _ _ (l_next s) Hinv ltac:(lia)) as Hf1.
  pose proof (hinv_above _ _ _ (l_next s + 1) Hinv ltac:(lia)) as Hf2.
  set (M0 := mk_map 1 ctrl va RELEASE_FREE false).
  destruct (map_heap_lookup _ ctrl c va _ (l_next s) M0 Hc Hv Hf1) as (L1 & L2 & L3 & L4).
  apply wp_bind, wp_create_map with c; [unfold NULL; lia|done|lia|done|done| |].
  { intros err s1 Herr [Hh1 Hn1]. rewrite decide_True by done. apply wp_bind.
    eapply (wp_free va); [unfold NULL; lia|rewrite Hh1; exact Hv|done|]. intros s2 [Hn2 Hh2].
    apply wp_ret, Hfail; [done|congruence|lia]. }
  intros s1 [Hn1 Hh1]. rewrite decide_False by tauto. cbn [snd].
  apply wp_bind, wp_create_container with M0 (c_set_count c (c_count c + 1)) (VA_PLAIN r);
    [rewrite Hh1; exact L1|rewrite Hh1; exact L2|rewrite Hh1; exact L3|done|lia|..].
  - intros err s2 Herr [Hh2 Hn2]. rewrite decide_True by done. apply wp_bind.
    eapply (wp_remove_map_more _ M0 (c_set_count c (c_count c + 1))); [unfold NULL; lia
      |rewrite Hh2, Hh1; exact L1|unfold NULL; simpl; lia|rewrite Hh2, Hh1; exact L2|simpl; lia|].
    intros s3 [Hn3 Hh3]. rewrite Hh2, Hh1 in Hh3. simpl in Hh3. rewrite map_heap_back in Hh3 by done.
    apply wp_bind. eapply (wp_free va); [unfold NULL; lia|rewrite Hh3; exact Hv|done|].
    intros s4 [Hn4 Hh4]. apply wp_ret, Hfail; [done|congruence|lia].
  - intros s2 Hvps [Hn2 Hh2]. rewrite decide_False by tauto. cbn [snd].
    apply wp_bind. eapply wp_deref; [rewrite Hh2; apply lookup_insert_eq|done|].
    apply wp_bind. eapply wp_deref; [rewrite Hh2, lookup_insert_ne by lia; rewrite Hh1; exact L2|done|].
    destruct (populate_filled (mk_dma NULL (negb (va_remote r)) true 0 0 []) c (VA_PLAIN r) addrs Hps Hva Hvps Hlen)
      as (hd & Eh & Hfill).
    apply wp_bind. eapply wp_of_option; [exact Eh|]. apply wp_bind, wp_store. intros s3 [Hn3 Hh3].
    rewrite Hh2, Hn1, Hh1, insert_insert_eq in Hh3. apply wp_ret. rewrite Hn1. apply Hok.
    split; [|split; [done|split; [lia|split]]].
    + unfold lib_inv. rewrite Hn3, Hn2, Hn1, Hh3.
      eapply (hinv_new_dma ext (l_next s) _ ctrl c va (VA_PLAIN r) _ M0); try done || lia.
      exact (filled_cont_ok c (VA_PLAIN r) (l_next s) hd Hfill).
    + rewrite Hh3. apply frame_fresh; [by apply map_heap_frame|done].
    + eexists. rewrite Hh3. split; [apply lookup_insert_eq|done].
Qed.

Lemma wp_nvm_dma_map ext ctrl c vaddr page_size n_pages ioaddrs Q (s : lib) :
  lib_inv ext s -> l_heap s !! ctrl = Some (OCtrl c) -> c_count c < 2 ^ 32 - 1 ->
  0 < ctrl_page_size (c_handle c) -> 0 <= page_size -> 0 <= n_pages ->
  (forall addrs, ioaddrs = Some addrs -> n_pages <= Z.of_nat (length addrs)) ->
  (forall r s', new_dma ext c s r s' -> Q r s') ->
  wp (nvm_dma_map ctrl vaddr page_size n_pages ioaddrs) Q s.
Proof.
  intros Hinv Hc Hcnt Hps Hpz Hnz Hlen HQ. assert (unchanged s s) by (split; [done|lia]).
  pose proof (h_next _ _ _ Hinv). pose proof (hinv_next _ _ _ Hinv) as Hnx.
  destruct (hinv_fresh _ _ _ _ Hinv ltac:(done) Hnx) as [_ He].
  destruct ioaddrs as [addrs|]; [|by apply wp_ret, HQ, new_dma_err]. specialize (Hlen addrs eq_refl).
  apply wp_bind, wp_malloc.
  { intros s1 [Hn1 Hh1]. rewrite decide_True by done. apply wp_ret, HQ, new_dma_err; [done|]. split; [done|lia]. }
  intros s1 [Hn1 Hh1]. rewrite decide_False by (unfold NULL; lia).
  apply wp_bind, wp_store. intros s2 [Hn2 Hh2]. rewrite Hh1, insert_insert_eq in Hh2.
  eapply (wp_dma_map_tail (plus_ ext (l_next s)) ctrl c); [| |done|done| | |done|done| |].
  - unfold lib_inv. rewrite Hn2, Hn1, Hh2. by apply hinv_new.
  - rewrite Hh2. by rewrite lookup_insert_ne by kinds.
  - rewrite Hh2. apply lookup_insert_eq.
  - unfold plus_. rewrite He, at_eq. lia.
  - intros err s3 Herr Hh3 Hn3. apply HQ, new_dma_err; [done|]. split; [|lia].
    rewrite Hh3, Hh2. by apply delete_insert_id.
  - intros k s3 Hp. apply HQ. eapply dma_post_new; [exact Hp| |].
    + destruct Hp as (_ & _ & _ & Hf & _). rewrite Hh2 in Hf. by eapply frame_fresh_l.
    + intros a. rewrite Hh2. by intros [Ha _]%lookup_insert_None.
Qed.
End user_addrs.

(** ** Sharing a mapping *)

Section sharing.
Context `{Env}.

(** [populate_handle] from another handle of the same mapping copies its bus addresses. *)
Lemma populate_copy handle c v remote vaddr k :
  0 < ctrl_page_size (c_handle c) -> cont_ok k c v ->
  exists cg, populate_handle handle (k_cap k)
    (mk_va remote vaddr (dma_page_size (k_handle k)) (dma_n_ioaddrs (k_handle k)))
    (c_handle c) (dma_ioaddrs (k_handle k)) =
  Some (mk_dma vaddr (dma_local handle) cg (ctrl_page_size (c_handle c))
          (dma_n_ioaddrs (k_handle k)) (u64 <$> dma_ioaddrs (k_handle k))).
Proof.
  intros Hps (Hcap & Hlen & Hk). set (h := k_handle k) in *. set (ps := ctrl_page_size (c_handle c)) in *.
  destruct (decide (dma_n_ioaddrs h = 0)) as [Hz|Hnz].
  { destruct (dma_ioaddrs h); [|simpl in Hlen; lia]. exists true. unfold populate_handle.
    rewrite decide_False by (fold ps; lia). unfold n_ctrl_pages. simpl. rewrite Hz, Z.mul_0_r.
    rewrite wrap_0. by rewrite Z.div_0_l by (fold ps; lia). }
  destruct Hk as [|[Hhp Hn]]; [done|]. rewrite Hhp.
  set (X := va_page_size (va_of v) * va_n_pages (va_of v)) in *.
  assert (dma_n_ioaddrs h * ps <= u64 X) as Hle.
  { rewrite Hn. unfold n_ctrl_pages. fold X ps. rewrite Z.mul_comm. apply Z.mul_div_le. lia. }
  pose proof (wrap_range 64 X ltac:(lia)) as HX.
  assert (n_ctrl_pages (c_handle c) ps (dma_n_ioaddrs h) = dma_n_ioaddrs h) as Hnc.
  { unfold n_ctrl_pages. fold ps. rewrite wrap_small by (unfold fits; nia). rewrite Z.mul_comm.
    apply Z.div_mul. lia. }
  destruct (populate_handle_spec handle (k_cap k) (mk_va remote vaddr ps (dma_n_ioaddrs h))
    (c_handle c) (dma_ioaddrs h)) as (cg & E & _); simpl; try (fold ps; lia).
  exists cg. simpl in E. rewrite Hnc in E. rewrite E. f_equal. f_equal; [fold h; lia|].
  apply list_eq. intros i. rewrite !list_lookup_fmap. fold ps.
  destruct (dma_ioaddrs h !! i) as [a|] eqn:Ea.
  - pose proof (lookup_lt_Some _ _ _ Ea). rewrite lookup_seq_lt by lia. simpl. f_equal. unfold page_addr.
    rewrite (wrap_small 64 (Z.of_nat i * ps)) by (unfold fits; nia).
    rewrite Z.div_mul, Z.mod_mul, Nat2Z.id by lia.
    by rewrite nth_lookup, Ea, Z.add_0_r.
  - apply lookup_ge_None in Ea. rewrite lookup_seq_ge by lia. done.
Qed.

Lemma wp_get_map md m Q (s : lib) :
  md <> NULL -> l_heap s !! md = Some (OMapping m) -> 0 <= m_count m < 2 ^ 32 - 1 ->
  (forall s', with_heap s' (l_next s) (<[md := OMapping (m_set_count m (m_count m + 1))]> (l_heap s)) ->
     Q 0 s') -> wp (get_map md) Q s.
Proof.
  intros Hne Hm Hcnt HQ. unfold get_map. rewrite decide_False by done.
  apply wp_bind. eapply wp_deref; [done|done|]. apply wp_bind, wp_ret. rewrite decide_False by tauto.
  apply wp_bind, wp_store. intros s' Hs. apply wp_ret, HQ.
  by rewrite wrap_small in Hs by (unfold fits; lia).
Qed.

Lemma hinv_get_map ext next h md m :
  hinv ext next h -> h !! md = Some (OMapping m) -> m_count m < 2 ^ 32 - 1 ->
  hinv (plus_ ext md) next (<[md := OMapping (m_set_count m (m_count m + 1))]> h).
Proof.
  intros Hinv Hm Hlt. pose proof (h_ok _ _ _ Hinv _ _ Hm) as (Hc & Hrest).
  eapply hinv_update; [done|done|done| |done| |].
  - split; [simpl; lia|]. done.
  - intros x Hx. simpl. ext_lia.
  - intros x. pose proof (h_ext _ _ _ Hinv x). ext_lia.
Qed.

(** The handle [nvm_dma_remap] makes of [k]. *)
Definition copy_of (k : container) (c : controller) (vaddr : Z) (cg : bool) (local : bool) : container :=
  mk_cont (k_map k) (k_cap k)
    (mk_dma vaddr local cg (ctrl_page_size (c_handle c)) (dma_n_ioaddrs (k_handle k))
       (u64 <$> dma_ioaddrs (k_handle k))).

Lemma copy_cont_ok k c v vaddr cg local : cont_ok k c v -> cont_ok (copy_of k c vaddr cg local) c v.
Proof.
  intros (Hcap & Hlen & Hk). split; [done|]. split; simpl; [by rewrite length_fmap|].
  destruct Hk as [Hz|[Hp Hn]]; [by left|by right].
Qed.

Lemma copy_dma_ok k c v vaddr cg local :
  0 < ctrl_page_size (c_handle c) -> cont_ok k c v -> dma_ok (k_handle (copy_of k c vaddr cg local)).
Proof.
  intros Hps (_ & Hl & Hn). pose proof (n_ctrl_pages_lt (c_handle c) (va_page_size (va_of v)) (va_n_pages (va_of v)) Hps).
  unfold dma_ok. simpl. rewrite length_fmap. split; [done|]. split; [lia|].
  apply Forall_fmap, Forall_forall. intros a _. apply wrap_range. lia.
Qed.

(** Taking and putting back a reference to a mapping. *)
Lemma put_get_map md m c v (h : gmap Z obj) :
  h !! md = Some (OMapping m) -> 1 <= m_count m ->
  put_map_heap md (m_set_count m (m_count m + 1)) c v (<[md := OMapping (m_set_count m (m_count m + 1))]> h) = h.
Proof.
  intros Hm Hcnt. unfold put_map_heap. rewrite decide_False by (simpl; lia). rewrite insert_insert_eq. simpl.
  replace (m_count m + 1 - 1) with (m_count m) by lia. apply insert_id. rewrite Hm. by destruct m.
Qed.

(** [nvm_dma_remap]: an error and nothing changed, or a second handle with the same addresses. *)
Lemma wp_nvm_dma_remap ext other ok m c Q (s : lib) :
  lib_inv ext s -> l_heap s !! other = Some (OCont ok) -> l_heap s !! k_map ok = Some (OMapping m) ->
  l_heap s !! m_ctrl m = Some (OCtrl c) -> m_count m < 2 ^ 32 - 1 ->
  (forall r s', new_dma ext c s r s' ->
     (fst r = 0 -> l_next s <= l_next s' /\ exists vaddr cg local, l_heap s' = <[snd r := OCont (copy_of ok c vaddr cg local)]>
        (<[k_map ok := OMapping (m_set_count m (m_count m + 1))]> (l_heap s))) -> Q r s') ->
  wp (nvm_dma_remap other) Q s.
Proof.
  intros Hinv Hk Hm Hc Hcnt HQ. pose proof (h_ok _ _ _ Hinv _ _ Hk) as (m1 & c1 & v & Em & Ec & Hv & Hco).
  rewrite Hm in Em. injection Em as <-. rewrite Hc in Ec. injection Ec as <-.
  pose proof (h_ok _ _ _ Hinv _ _ Hm) as (Hm1 & (c1 & Ec & Hps & _) & _).
  rewrite Hc in Ec. injection Ec as <-.
  pose proof (h_dom _ _ _ Hinv _ _ Hm) as Hmd. pose proof (h_next _ _ _ Hinv) as Hnx.
  pose proof (hinv_next _ _ _ Hinv) as Hf1.
  set (m' := m_set_count m (m_count m + 1)).
  assert (k_map ok <> m_ctrl m) by kinds. assert (k_map ok <> m_va m) by kinds.
  pose proof (hinv_get_map _ _ _ _ _ Hinv Hm Hcnt) as Hinv1. fold m' in Hinv1.
  set (h1 := <[k_map ok := OMapping m']> (l_heap s)) in *.
  assert (h1 !! k_map ok = Some (OMapping m')) as L1 by apply lookup_insert_eq.
  assert (h1 !! m_ctrl m' = Some (OCtrl c)) as L2 by (by unfold h1; rewrite lookup_insert_ne).
  assert (h1 !! m_va m' = Some (OVa v)) as L3 by (by unfold h1; rewrite lookup_insert_ne).
  apply wp_bind. eapply wp_deref; [done|done|].
  apply wp_bind. eapply wp_get_map; [unfold NULL; lia|exact Hm|lia|]. intros s1 [Hn1 Hh1].
  rewrite decide_False by tauto. fold m' in Hh1. fold h1 in Hh1.
  apply wp_bind, wp_create_container with m' c v; [by rewrite Hh1..|done|lia| |].
  - intros err s2 Herr [Hh2 Hn2]. rewrite decide_True by done. apply wp_bind.
    eapply (wp_put_map (plus_ ext (k_map ok)) (k_map ok) m' c v); [|by rewrite Hh2, Hh1..|].
    { unfold lib_inv. rewrite Hh2, Hh1. apply hinv_mono with (l_next s); [done|lia]. }
    intros s3 [Hn3 Hh3]. apply wp_ret, HQ; [|done]. apply new_dma_err; [done|]. split; [|lia].
    rewrite Hh3, Hh2, Hh1. apply put_get_map; [done|lia].
  - intros s2 Hvps [Hn2 Hh2]. rewrite decide_False by tauto. cbn [snd]. rewrite Hn1, Hh1 in *.
    assert (forall x o, h1 !! x = Some o -> l_heap s2 !! x = Some o) as Hkeep.
    { intros x o Hx. rewrite Hh2. apply lookup_insert_Some. right. split; [|done].
      intros <-. pose proof (hinv_next _ _ _ Hinv1). congruence. }
    apply wp_bind. eapply wp_deref; [by apply Hkeep|done|]. cbv zeta.
    apply wp_bind. eapply wp_deref; [by apply Hkeep|done|].
    apply wp_bind. eapply wp_deref; [by apply Hkeep|done|].
    apply wp_bind. eapply wp_deref; [rewrite Hh2; apply lookup_insert_eq|done|].
    destruct (populate_copy (mk_dma NULL (negb (va_remote (va_of v))) true 0 0 []) c v
      (negb (dma_local (k_handle ok))) (va_vaddr (va_of v)) ok Hps Hco) as (cg & E).
    pose proof Hco as (Hcap & _ & _). rewrite Hcap in E.
    apply wp_bind. eapply wp_of_option; [exact E|]. apply wp_bind, wp_store. intros s3 [Hn3 Hh3].
    rewrite Hh2, insert_insert_eq in Hh3. simpl in Hh3. rewrite <- Hcap in Hh3. apply wp_ret.
    assert (l_heap s3 !! l_next s = Some (OCont (copy_of ok c (va_vaddr (va_of v)) cg (negb (va_remote (va_of v))))))
      as Hnew by (rewrite Hh3; apply lookup_insert_eq).
    apply HQ; [|by intros _; split; [lia|]; eexists _, _, _]. unfold new_dma. simpl. split; [|split; [done|split; [done|split]]].
    + unfold lib_inv. rewrite Hn3, Hn2, Hh3. apply (hinv_new_owner ext _ _ _ (k_map ok)); [done| |done|done|].
      * exists m', c, v. do 3 (split; [done|]). by apply copy_cont_ok.
      * apply (h_ext _ _ _ Hinv).
    + rewrite Hh3. apply frame_fresh; [|done]. eapply frame_insert; [apply frame_refl|done|done].
    + eexists. split; [exact Hnew|]. split; [done|]. by eapply copy_dma_ok.
Qed.
End sharing.

(** ** Controllers *)

Section controllers.
Context `{Env}.

Lemma wp_create_handle dev ops type Q (s : lib) :
  dev <> NULL -> ops <> OPS_NULL -> 0 < l_next s -> l_heap s !! l_next s = None ->
  (forall s', unchanged s s' -> Q NULL s') ->
  (forall s', with_heap s' (l_next s + 1)
     (<[l_next s := OCtrl (mk_controller 1 type dev ops zero_ctrl)]> (l_heap s)) -> Q (l_next s) s') ->
  wp (create_handle dev ops type) Q s.
Proof.
  intros Hdev Hops Hn Hf Hfail Hok. unfold create_handle. rewrite decide_False by tauto.
  apply wp_bind, wp_malloc.
  { intros s1 [Hn1 Hh1]. rewrite decide_True by done. apply wp_ret, Hfail. split; [done|lia]. }
  intros s1 [Hn1 Hh1]. rewrite decide_False by (unfold NULL; lia).
  apply wp_bind, wp_sys_call. intros s2 [Hn2 Hh2]. case_decide.
  - apply wp_bind. eapply (wp_free _ ORaw); [unfold NULL; lia|rewrite Hh2, Hh1; apply lookup_insert_eq|done|].
    intros s3 [Hn3 Hh3]. apply wp_ret, Hfail. split; [|lia].
    rewrite Hh3, Hh2, Hh1. by apply delete_insert_id.
  - apply wp_bind, wp_store. intros s3 [Hn3 Hh3]. apply wp_ret, Hok. split; [lia|].
    by rewrite Hh3, Hh2, Hh1, insert_insert_eq.
Qed.

Lemma wp_set_handle a c h Q (s : lib) :
  l_heap s !! a = Some (OCtrl c) ->
  (forall s', with_heap s' (l_next s)
     (<[a := OCtrl (mk_controller (c_count c) (c_type c) (c_device c) (c_ops c) h)]> (l_heap s)) ->
     Q tt s') -> wp (set_handle a h) Q s.
Proof. intros Ha HQ. apply wp_bind. eapply wp_deref; [done|done|]. by apply wp_store. Qed.

(** [_nvm_ctrl_init] over a mapped BAR0. *)
Lemma wp__nvm_ctrl_init dev ops type mm mm_size Q (s : lib) :
  dev <> NULL -> ops <> OPS_NULL -> 0 < l_next s -> l_heap s !! l_next s = None ->
  l_heap s !! mm = Some OMm ->
  (forall err s', err <> 0 -> unchanged s s' -> Q (err, NULL) s') ->
  (forall h s', 0 < ctrl_page_size h -> ctrl_page_size h = sc_pagesize -> ctrl_mm_ptr h = mm ->
     with_heap s' (l_next s + 1)
     (<[l_next s := OCtrl (mk_controller 1 type dev ops h)]> (l_heap s)) -> Q (0, l_next s) s') ->
  wp (_nvm_ctrl_init dev ops type mm mm_size) Q s.
Proof.
  intros Hdev Hops Hn Hf Hmm Hfail Hok. apply wp_bind, wp_create_handle; [done..| |].
  { intros s1 Hun. rewrite decide_True by done. by apply wp_ret, Hfail. }
  intros s1 [Hn1 Hh1]. rewrite decide_False by (unfold NULL; lia).
  apply wp_bind. eapply wp_set_handle; [rewrite Hh1; apply lookup_insert_eq|].
  intros s2 [Hn2 Hh2]. rewrite Hh1, insert_insert_eq in Hh2. simpl in Hh2.
  assert (forall err, err <> 0 -> wp (remove_handle (l_next s);; mret (err, NULL)) Q s2) as Hrm.
  { intros err Herr. apply wp_bind, wp_bind.
    eapply wp_deref; [rewrite Hh2; apply lookup_insert_eq|done|].
    eapply wp_free; [unfold NULL; lia|rewrite Hh2; apply lookup_insert_eq|done|].
    intros s3 [Hn3 Hh3]. apply wp_ret, Hfail; [done|]. split; [|lia].
    rewrite Hh3, Hh2. by apply delete_insert_id. }
  case_decide; [by apply Hrm|]. cbv zeta. case_decide as Hps; [by apply Hrm|].
  apply wp_bind. unfold read_cap, wp, mbind, M_bind, get.
  rewrite Hh2, lookup_insert_ne, Hmm by kinds. cbn [mret M_ret].
  destruct (decide _); [by apply Hrm|]. apply wp_bind.
  eapply wp_set_handle; [rewrite Hh2; apply lookup_insert_eq|]. intros s3 [Hn3 Hh3].
  rewrite Hh2, insert_insert_eq in Hh3. eapply wp_ret, Hok; [| | |split; [lia|exact Hh3]]; [| |done].
  all: simpl; unfold _nvm_host_page_size in *; destruct (decide (sc_pagesize < 0)); done || lia.
Qed.

(** The objects a new controller brings: its device, descriptor, window and handle. *)
Definition ctrl_heap (n : Z) (c : controller) (h : gmap Z obj) : gmap Z obj :=
  <[n + 3 := OCtrl c]> (<[n + 2 := OMm]> (<[n := ODev (n + 1)]> (<[n + 1 := OFd]> h))).

Lemma hinv_new_ctrl ext n h c :
  hinv ext n h -> c_count c = 1 -> c_device c = n -> ctrl_mm_ptr (c_handle c) = n + 2 ->
  c_ops c = OPS_IOCTL -> hinv (plus_ ext (n + 3)) (n + 3 + 1) (ctrl_heap n c h).
Proof.
  intros Hinv Hc1 Hcd Hcm Hco. pose proof (h_next _ _ _ Hinv) as Hpos.
  pose proof (h_ext _ _ _ Hinv) as Hext.
  pose proof (hinv_above _ _ _ n Hinv ltac:(lia)) as F0.
  pose proof (hinv_above _ _ _ (n + 1) Hinv ltac:(lia)) as F1.
  pose proof (hinv_above _ _ _ (n + 2) Hinv ltac:(lia)) as F2.
  pose proof (hinv_above _ _ _ (n + 3) Hinv ltac:(lia)) as F3. unfold ctrl_heap.
  assert (hinv (plus_ ext (n + 1)) (n + 2) (<[n + 1 := OFd]> h)) as I1.
  { eapply hinv_insert; [exact Hinv|done|lia|lia|done| |].
    - intros x _. rewrite (ptr_in _ []), in_nil by done. unfold plus_. simpl. lia.
    - intros x. specialize (Hext x). ext_lia. }
  assert (hinv (plus_ ext n) (n + 2) (<[n := ODev (n + 1)]> (<[n + 1 := OFd]> h))) as I2.
  { eapply hinv_insert; [exact I1|by rewrite lookup_insert_ne by lia|lia|lia|apply lookup_insert_eq| |].
    - intros x _. rewrite (ptr_in _ [n + 1]), in_one by done. unfold plus_. simpl. lia.
    - intros x. specialize (Hext x). ext_lia. }
  assert (hinv (fun x => ext x + at_ n x + at_ (n + 2) x) (n + 3)
    (<[n + 2 := OMm]> (<[n := ODev (n + 1)]> (<[n + 1 := OFd]> h)))) as I3.
  { eapply hinv_insert; [exact I2|by rewrite !lookup_insert_ne by lia|lia|lia|done| |].
    - intros x _. rewrite (ptr_in _ []), in_nil by done. unfold plus_. simpl. lia.
    - intros x. specialize (Hext x). ext_lia. }
  eapply hinv_insert; [exact I3|by rewrite !lookup_insert_ne by lia|lia|lia| | |].
  - simpl. rewrite Hc1, Hcd, Hcm. split; [lia|]. split; [split; [unfold NULL; lia|done]|].
    intros _. rewrite lookup_insert_eq. split; [|done]. exists (n + 1).
    by rewrite lookup_insert_ne, lookup_insert_eq by lia.
  - intros x _. rewrite (ptr_in _ [n; n + 2]) by (simpl; rewrite decide_False by (rewrite Hcd; unfold NULL; lia); congruence).
    rewrite in_two by lia. simpl. rewrite Hc1. unfold plus_. lia.
  - intros x. specialize (Hext x). ext_lia.
Qed.

(** The result of [nvm_ctrl_init]. *)
Definition new_ctrl (ext : Z -> Z) (s : lib) (r : Z * Z) (s' : lib) : Prop :=
  if decide (fst r = 0) then
    lib_inv (plus_ ext (snd r)) s' /\ 0 < snd r /\ l_heap s !! snd r = None /\
    frame (l_heap s) (l_heap s') /\
    exists c, l_heap s' !! snd r = Some (OCtrl c) /\ 0 < ctrl_page_size (c_handle c) /\
      ctrl_page_size (c_handle c) = sc_pagesize /\ c_device c <> NULL
  else snd r = NULL /\ unchanged s s'.

Lemma new_ctrl_err ext s err s' : err <> 0 -> unchanged s s' -> new_ctrl ext s (err, NULL) s'.
Proof. intros He Hu. unfold new_ctrl. simpl. by rewrite decide_False. Qed.

(** The end of [nvm_ctrl_init], once BAR0 is mapped at [n + 2]. *)
Lemma wp_ctrl_init_tail ext n Q (s s1 : lib) :
  lib_inv ext s -> n = l_next s ->
  with_heap s1 (n + 3) (<[n + 2 := OMm]> (<[n := ODev (n + 1)]> (<[n + 1 := OFd]> (l_heap s)))) ->
  (forall r s', new_ctrl ext s r s' -> Q r s') ->
  wp (r ← _nvm_ctrl_init n OPS_IOCTL DEVICE_TYPE_IOCTL (n + 2) NVM_CTRL_MEM_MINSIZE;
      if decide (fst r <> 0) then
        release_device n (n + 2) NVM_CTRL_MEM_MINSIZE;; mret (fst r, NULL)
      else mret r) Q s1.
Proof.
  intros Hinv Hn [Hn1 Hh1] HQ. pose proof (h_next _ _ _ Hinv) as Hpos. rewrite <- Hn in Hpos.
  assert (forall a, n <= a -> l_heap s !! a = None) as Fr by (intros a Ha; eapply hinv_above; [exact Hinv|lia]).
  assert (l_heap s1 !! (n + 2) = Some OMm) as L2 by (rewrite Hh1; apply lookup_insert_eq).
  assert (l_heap s1 !! n = Some (ODev (n + 1))) as L0
    by (rewrite Hh1, lookup_insert_ne by lia; apply lookup_insert_eq).
  assert (l_heap s1 !! (n + 1) = Some OFd) as L1
    by (rewrite Hh1, !lookup_insert_ne by lia; apply lookup_insert_eq).
  apply wp_bind, wp__nvm_ctrl_init; [unfold NULL; lia|done|lia| |done| |].
  - rewrite Hn1, Hh1, !lookup_insert_ne by lia. apply Fr. lia.
  - intros err s2 Herr [Hh2 Hn2]. rewrite decide_True by done. apply wp_bind.
    eapply wp_release_device; [unfold NULL; lia|by rewrite Hh2..|]. intros s3 [Hn3 Hh3].
    apply wp_ret, HQ, new_ctrl_err; [done|]. split; [|lia]. rewrite Hh3, Hh2, Hh1.
    rewrite delete_insert_id by (rewrite !lookup_insert_ne by lia; apply Fr; lia).
    rewrite delete_delete, delete_insert_id by (rewrite !lookup_insert_ne by lia; apply Fr; lia).
    apply delete_insert_id, Fr. lia.
  - intros h s2 Hps Hsc Hm [Hn2 Hh2]. rewrite decide_False by tauto. apply wp_ret, HQ.
    rewrite Hn1, Hh1 in *. set (c := mk_controller 1 _ _ _ h) in *.
    change (l_heap s2 = ctrl_heap n c (l_heap s)) in Hh2. unfold new_ctrl. simpl.
    split; [|split; [lia|split; [apply Fr; lia|split]]].
    + unfold lib_inv. rewrite Hn2, Hh2. apply hinv_new_ctrl; try done. by rewrite Hn.
    + rewrite Hh2. unfold ctrl_heap. repeat (apply frame_fresh; [|apply Fr; lia]). apply frame_refl.
    + exists c. split; [rewrite Hh2; apply lookup_insert_eq|]. split; [done|]. split; [done|].
      simpl. unfold NULL. lia.
Qed.

(** [dup] and the error path behind it. *)
Lemma wp_dup dev Q K (s : lib) :
  dev <> NULL -> 0 < l_next s -> l_heap s !! dev = Some ORaw ->
  (forall err s', err <> 0 -> with_heap s' (l_next s) (delete dev (l_heap s)) -> Q (err, NULL) s') ->
  (forall s', with_heap s' (l_next s + 1) (<[l_next s := OFd]> (l_heap s)) -> wp (K (l_next s)) Q s') ->
  wp (fd ← dup;
      if decide (fd < 0) then free dev;; errno ← last_errno; mret (errno, NULL) else K fd) Q s.
Proof.
  intros Hdev Hpos Hd Hfail Hok. apply wp_bind, wp_bind. unfold sys_call, wp at 1.
  destruct (decide (sys (l_calls s) = 0)).
  - apply wp_new_obj. intros s1 Hs1. simpl in *. rewrite decide_False by lia. by apply Hok.
  - apply wp_ret. rewrite decide_True by lia. unfold wp, mbind, M_bind, free, last_errno, gets.
    rewrite decide_False by done. unfold mbind, M_bind, get, put, mret, M_ret. cbn. rewrite Hd. cbn.
    rewrite Nat.sub_0_r. by apply Hfail.
Qed.

Lemma wp_mmap Q (s : lib) :
  (forall i, mmap_ok i = true) ->
  (forall s', with_heap s' (l_next s + 1) (<[l_next s := OMm]> (l_heap s)) -> Q (l_next s) s') ->
  wp mmap Q s.
Proof.
  intros Hm HQ. apply wp_bind, wp_gets, wp_bind, wp_sys_call. intros s1 [Hn1 Hh1]. rewrite Hm.
  apply wp_new_obj. intros s2 Hs2. rewrite Hn1, Hh1 in *. by apply HQ.
Qed.

Lemma wp_nvm_ctrl_init ext filedes Q (s : lib) :
  (forall i, mmap_ok i = true) -> lib_inv ext s ->
  (forall r s', new_ctrl ext s r s' -> Q r s') -> wp (nvm_ctrl_init filedes) Q s.
Proof.
  intros Hmmap Hinv HQ. pose proof (h_next _ _ _ Hinv) as Hpos.
  pose proof (hinv_next _ _ _ Hinv) as F0.
  pose proof (hinv_above _ _ _ (l_next s + 1) Hinv ltac:(lia)) as F1.
  apply wp_bind, wp_malloc.
  { intros s1 [Hn1 Hh1]. rewrite decide_True by done.
    apply wp_ret, HQ, new_ctrl_err; [done|]. split; [done|lia]. }
  intros s1 [Hn1 Hh1]. rewrite decide_False by (unfold NULL; lia). set (n := l_next s) in *.
  apply wp_dup; [unfold NULL; lia|lia|rewrite Hh1; apply lookup_insert_eq| |].
  { intros err s2 Herr [Hn2 Hh2]. apply HQ, new_ctrl_err; [done|]. split; [|lia].
    rewrite Hh2, Hh1. by apply delete_insert_id. }
  intros s2 [Hn2 Hh2]. rewrite Hn1, Hh1 in *. apply wp_bind, wp_store. intros s3 [Hn3 Hh3].
  rewrite Hh2, insert_insert_ne, insert_insert_eq, (insert_insert_ne _ (n + 1) n) in Hh3 by lia.
  apply wp_bind, wp_sys_call. intros s4 [Hn4 Hh4]. rewrite Hh3 in Hh4. case_decide as Herr.
  { apply wp_bind, wp_close_fd; [rewrite Hh4, lookup_insert_ne by lia; apply lookup_insert_eq|].
    intros s5 [Hn5 Hh5]. apply wp_bind. eapply (wp_free n (ODev (n + 1))); [unfold NULL; lia| |done|].
    { rewrite Hh5, Hh4, lookup_delete_ne by lia. apply lookup_insert_eq. }
    intros s6 [Hn6 Hh6]. apply wp_ret, HQ, new_ctrl_err; [done|]. split; [|lia].
    rewrite Hh6, Hh5, Hh4, delete_delete.
    rewrite delete_insert_id by (by rewrite lookup_insert_ne by lia). by apply delete_insert_id. }
  apply wp_bind, wp_mmap; [done|]. intros s5 [Hn5 Hh5].
  assert (l_next s4 = n + 2) as E4 by lia. rewrite E4, Hh4 in *.
  rewrite decide_False by (unfold NULL; lia).
  eapply wp_ctrl_init_tail; [exact Hinv|done|split; [lia|exact Hh5]|done].
Qed.

Lemma wp_nvm_ctrl_free ext a c Q (s : lib) :
  lib_inv ext s -> l_heap s !! a = Some (OCtrl c) -> 1 <= ext a ->
  (forall s', lib_inv (minus_ ext a) s' -> frame (l_heap s) (l_heap s') -> Q tt s') ->
  wp (nvm_ctrl_free a) Q s.
Proof.
  intros Hinv Ha He HQ. pose proof (h_dom _ _ _ Hinv _ _ Ha). unfold nvm_ctrl_free.
  rewrite decide_True by (unfold NULL; lia). eapply wp_ctrl_put; [unfold NULL; lia|done| |].
  - by eapply hinv_ctrl_ok.
  - intros s1 [Hn1 Hh1]. apply HQ.
    + unfold lib_inv. rewrite Hn1, Hh1. by apply hinv_put.
    + rewrite Hh1. eapply put_frame; [apply frame_refl|done|done].
Qed.
End controllers.
