(* ===== verification/AqProofs.v ===== *)
(** * Admin queue references keep their objects

    [nvm_aq_create] and [nvm_aq_destroy] of Aq on the invariant of LibInv. *)
From stdpp Require Import prelude gmap gmultiset list.
From Stdlib Require Import ZArith Lia.
From S2P Require Import Prelude NvmTypes NvmUtil NvmQueue LibState Ctrl Dma Aq DmaSpec LibInv LibProofs LibApi.
Local Open Scope Z_scope.

Section refs.
Context `{Env}.

(** ** Getting a reference *)

Lemma wp_ref_get ext ctrl c Q (s : lib) :
  lib_inv ext s -> l_heap s !! ctrl = Some (OCtrl c) -> c_count c < 2 ^ 32 - 1 ->
  (forall err s', err <> 0 -> unchanged s s' -> Q (err, NULL) s') ->
  (forall s', with_heap s' (l_next s + 1) (<[l_next s := ORef (mk_ref ctrl [] NULL None None)]>
     (<[ctrl := OCtrl (c_set_count c (c_count c + 1))]> (l_heap s))) -> Q (0, l_next s) s') ->
  wp (_nvm_ref_get ctrl) Q s.
Proof.
  intros Hinv Hc Hcnt Hfail Hok. pose proof (h_ok _ _ _ Hinv _ _ Hc) as (Hc1 & _).
  pose proof (h_dom _ _ _ Hinv _ _ Hc). pose proof (h_next _ _ _ Hinv).
  pose proof (hinv_next _ _ _ Hinv) as Hf. assert (ctrl <> l_next s) by kinds.
  apply wp_bind, wp_ctrl_get with c; [unfold NULL; lia|done|lia|]. intros s1 [Hn1 Hh1].
  rewrite decide_False by (unfold NULL; lia). apply wp_bind, wp_malloc.
  - intros s2 [Hn2 Hh2]. rewrite decide_True by done.
    apply wp_bind, wp_ctrl_put_more with (c_set_count c (c_count c + 1));
      [unfold NULL; lia|by rewrite Hh2, Hh1, lookup_insert_eq|simpl; lia|].
    intros s3 [Hn3 Hh3]. apply wp_ret, Hfail; [done|].
    split; [|lia]. rewrite Hh3, Hh2, Hh1. by apply restore_ctrl.
  - intros s2 [Hn2 Hh2]. rewrite Hn1 in *.
    rewrite decide_False by (unfold NULL; lia). apply wp_bind, wp_sys_call. intros s3 [Hn3 Hh3].
    case_decide as Herr.
    + apply wp_bind, wp_ctrl_put_more with (c_set_count c (c_count c + 1)); [unfold NULL; lia| |simpl; lia|].
      { by rewrite Hh3, Hh2, Hh1, lookup_insert_ne, lookup_insert_eq. }
      intros s4 [Hn4 Hh4]. apply wp_bind.
      eapply (wp_free _ ORaw); [unfold NULL; lia| |done|].
      { rewrite Hh4, lookup_insert_ne, Hh3, Hh2 by done. apply lookup_insert_eq. }
      intros s5 [Hn5 Hh5]. apply wp_ret, Hfail; [done|]. split; [|lia].
      rewrite Hh5, Hh4, Hh3, Hh2, Hh1. rewrite insert_insert_ne by done.
      rewrite delete_insert_id by (by rewrite !lookup_insert_ne). by apply restore_ctrl.
    + apply wp_bind, wp_store. intros s4 [Hn4 Hh4]. apply wp_ret, Hok.
      split; [lia|]. by rewrite Hh4, Hh3, Hh2, Hh1, insert_insert_eq.
Qed.

Lemma hinv_ref_get ext next h ctrl c :
  hinv ext next h -> h !! ctrl = Some (OCtrl c) -> c_count c < 2 ^ 32 - 1 ->
  hinv (plus_ ext next) (next + 1) (<[next := ORef (mk_ref ctrl [] NULL None None)]>
    (<[ctrl := OCtrl (c_set_count c (c_count c + 1))]> h)).
Proof.
  intros Hinv Hc Hcnt. apply (hinv_new_owner ext next _ _ ctrl); [by apply hinv_ctrl_get| |done|done|].
  - simpl. rewrite lookup_insert_eq. split; [by eexists|]. done.
  - apply (h_ext _ _ _ Hinv).
Qed.

(** ** Removing the admin queue pair *)

Definition admin_heap (adm k : Z) (kc : container) (m : map_t) (c : controller) (v : va_object)
    (h : gmap Z obj) : gmap Z obj := delete adm (cont_heap k kc m c v h).

Lemma wp_remove_admin ext adm a kc m c v Q (s : lib) :
  lib_inv ext s -> l_heap s !! adm = Some (OAdmin a) -> l_heap s !! la_qmem a = Some (OCont kc) ->
  l_heap s !! k_map kc = Some (OMapping m) -> l_heap s !! m_ctrl m = Some (OCtrl c) ->
  l_heap s !! m_va m = Some (OVa v) ->
  (forall s', with_heap s' (l_next s) (admin_heap adm (la_qmem a) kc m c v (l_heap s)) -> Q tt s') ->
  wp (remove_admin adm) Q s.
Proof.
  intros Hinv Ha Hk Hm Hc Hv HQ. pose proof (h_dom _ _ _ Hinv _ _ Ha). pose proof (h_dom _ _ _ Hinv _ _ Hk).
  unfold remove_admin. rewrite decide_True by (unfold NULL; lia).
  apply wp_bind. eapply wp_deref; [done|done|]. unfold nvm_dma_unmap.
  rewrite decide_True by (unfold NULL; lia). apply wp_bind.
  eapply wp_remove_container_heap; [done..|]. intros s1 [Hn1 Hh1].
  eapply (wp_free adm (OAdmin a)); [unfold NULL; lia| |done|].
  - rewrite Hh1. unfold cont_heap. rewrite lookup_delete_ne by kinds. by eapply put_map_keep.
  - intros s2 [Hn2 Hh2]. apply HQ. split; [lia|]. by rewrite Hh2, Hh1.
Qed.

Lemma hinv_remove_admin ext next h adm a kc m c v :
  hinv ext next h -> h !! adm = Some (OAdmin a) -> h !! la_qmem a = Some (OCont kc) ->
  h !! k_map kc = Some (OMapping m) -> h !! m_ctrl m = Some (OCtrl c) ->
  h !! m_va m = Some (OVa v) -> ext adm = 1 ->
  hinv (minus_ ext adm) next (admin_heap adm (la_qmem a) kc m c v h).
Proof.
  intros Hinv Ha Hk Hm Hc Hv He.
  assert (adm <> la_qmem a) by kinds. assert (adm <> k_map kc) by kinds.
  assert (adm <> m_ctrl m) by kinds. assert (adm <> m_va m) by kinds.
  assert (ext (la_qmem a) = 0) as Ek by (eapply hinv_owned; [done|exact Hk|done|exact Ha|left]).
  unfold admin_heap, cont_heap. rewrite delete_delete.
  rewrite <- put_map_delete; [|done|done|by eapply not_device].
  assert (hinv (plus_ (minus_ ext adm) (la_qmem a)) next (delete adm h)) as Hinv1.
  { eapply hinv_delete_one; [exact Hinv|done|done|done|]. intros x.
    rewrite (ptr_in _ [la_qmem a]), in_one by done. unfold plus_, minus_. lia. }
  eapply hinv_eq; [eapply hinv_remove_cont; [exact Hinv1|by rewrite lookup_delete_ne..|]|].
  - unfold plus_, minus_. rewrite at_eq, at_ne, Ek by done. done.
  - intros x. unfold plus_, minus_. lia.
Qed.

Lemma admin_heap_delete adm k kc m c v h x :
  x <> k_map kc -> x <> m_ctrl m -> x <> c_device c ->
  admin_heap adm k kc m c v (delete x h) = delete x (admin_heap adm k kc m c v h).
Proof.
  intros H1 H2 H3. unfold admin_heap, cont_heap. rewrite put_map_delete by done.
  by rewrite (delete_delete _ k x), (delete_delete _ adm x).
Qed.

Lemma admin_heap_frame adm k kc m c v h :
  h !! k_map kc = Some (OMapping m) -> h !! m_ctrl m = Some (OCtrl c) ->
  frame h (admin_heap adm k kc m c v h).
Proof. intros Hm Hc. by do 2 apply frame_delete; apply put_map_frame. Qed.

(** ** Putting a reference *)

(** The end of [_nvm_ref_put]: the controller reference, then the memory. *)
Lemma wp_ref_put_tail ext ref o ctrl c g Q (s : lib) :
  hinv (plus_ ext ctrl) (l_next s) g -> 0 <= ext ctrl -> g !! ref = None -> 0 < ref ->
  g !! ctrl = Some (OCtrl c) -> l_heap s = <[ref := ORef o]> g ->
  (forall s', with_heap s' (l_next s) (put_heap ctrl c g) -> Q tt s') ->
  wp (_nvm_ctrl_put ctrl;; free ref) Q s.
Proof.
  intros Hinv He Hg Hpos Hc Hh HQ. pose proof (hinv_ctrl_ok _ _ _ _ _ Hinv Hc) as Hco.
  pose proof (h_dom _ _ _ Hinv _ _ Hc). assert (ref <> ctrl) by kinds.
  assert (forall x ox, g !! x = Some ox -> l_heap s !! x = Some ox) as Hkeep.
  { intros x ox Hx. rewrite Hh. by rewrite lookup_insert_ne by kinds. }
  assert (ctrl_ok (l_heap s) c) as Hco' by (eapply ctrl_ok_keep; [exact Hco|auto]).
  apply wp_bind, wp_ctrl_put with c; [unfold NULL; lia|by apply Hkeep|done|]. intros s1 [Hn1 Hh1].
  assert (l_heap s !! ref = Some (ORef o)) as Hr by (rewrite Hh; apply lookup_insert_eq).
  eapply (wp_free ref (ORef o)); [unfold NULL; lia| |done|].
  { rewrite Hh1. apply put_heap_keep; [done|by apply Hkeep|done|done]. }
  intros s2 [Hn2 Hh2]. apply HQ. split; [lia|]. rewrite Hh2, Hh1, Hh.
  rewrite <- put_heap_delete; [|done|].
  - by rewrite delete_insert_id.
  - destruct Hco as (_ & _ & Hdev). destruct (decide (c_device c = NULL)) as [->|Hne]; [unfold NULL; lia|].
    destruct (Hdev Hne) as (fd & Hfd & _). kinds.
Qed.

(** The same from a heap where the callback has run. *)
Lemma wp_ref_put_end ext ref r g Q (s s' : lib) :
  lib_inv ext s -> l_heap s !! ref = Some (ORef r) -> frame (l_heap s) g ->
  hinv (plus_ (minus_ ext ref) (ref_ctrl r)) (l_next s') g -> 0 <= minus_ ext ref (ref_ctrl r) ->
  g !! ref = None ->
  l_heap s' = <[ref := ORef (mk_ref (ref_ctrl r) [] (ref_data r) (ref_release r) (ref_stub r))]> g ->
  (forall s'', lib_inv (minus_ ext ref) s'' -> frame (l_heap s) (l_heap s'') -> Q tt s'') ->
  wp (_nvm_ctrl_put (ref_ctrl r);; free ref) Q s'.
Proof.
  intros Hinv Hr Hf Hg He Hnone Hh HQ. pose proof (h_ok _ _ _ Hinv _ _ Hr) as ((c & Hc) & _ & _).
  pose proof (h_dom _ _ _ Hinv _ _ Hr). pose proof (h_dom _ _ _ Hinv _ _ Hc).
  destruct (frame_held _ _ _ _ (ref_ctrl r) _ Hg Hf Hc) as (o & Ho & Hs); [lia| |].
  { unfold plus_. rewrite at_eq. lia. }
  destruct o as [c'| | | | | | | | | |]; try done.
  eapply wp_ref_put_tail; [exact Hg|done|done|lia|done|done|].
  intros s2 [Hn2 Hh2]. apply HQ.
  - unfold lib_inv. rewrite Hn2, Hh2. eapply hinv_eq; [eapply hinv_put; [exact Hg|done|]|].
    + unfold plus_. rewrite at_eq. lia.
    + intros x. unfold plus_, minus_. lia.
  - rewrite Hh2. by eapply put_frame.
Qed.

(** The heap after the callback of a reference that owns its admin queue pair. *)
Lemma hinv_ref_admin ext next h ref r a kc m c v :
  hinv ext next h -> h !! ref = Some (ORef r) -> ext ref = 1 -> ref_release r = Some REMOVE_ADMIN ->
  h !! ref_data r = Some (OAdmin a) -> h !! la_qmem a = Some (OCont kc) ->
  h !! k_map kc = Some (OMapping m) -> h !! m_ctrl m = Some (OCtrl c) -> h !! m_va m = Some (OVa v) ->
  hinv (plus_ (minus_ ext ref) (ref_ctrl r)) next
    (admin_heap (ref_data r) (la_qmem a) kc m c v (delete ref h)).
Proof.
  intros Hinv Hr He Hrel Ha Hk Hm Hc Hv. pose proof (h_ok _ _ _ Hinv _ _ Hr) as ((c0 & Hc0) & _ & _).
  assert (ref_ctrl r <> ref_data r) by kinds.
  assert (hinv (fun x => ext x + ptr_ (ORef r) x - at_ ref x) next (delete ref h)) as Hg0 by (by eapply hinv_delete_one).
  eapply hinv_eq; [eapply (hinv_remove_admin _ _ _ (ref_data r) a kc m c v); [exact Hg0| | | | | |]|].
  1-5: by rewrite lookup_delete_ne by kinds.
  - cbv beta. rewrite (ptr_in _ [ref_ctrl r; ref_data r]) by (simpl; by rewrite decide_True).
    rewrite in_two, at_eq, at_ne, at_ne by kinds || done.
    assert (ext (ref_data r) = 0); [|lia]. eapply hinv_owned; [exact Hinv|exact Ha|done|exact Hr|].
    unfold points. simpl. rewrite decide_True by done. right. left.
  - intros x. unfold plus_, minus_.
    rewrite (ptr_in (ORef r) [ref_ctrl r; ref_data r]) by (simpl; by rewrite decide_True).
    rewrite in_two by done. lia.
Qed.

(** The callback of any other reference does nothing to the library's objects. *)
Lemma wp_other_binding o data Q (s : lib) :
  o <> Some REMOVE_ADMIN -> Q tt s ->
  wp match o with Some f => free_binding f data | None => mret tt end Q s.
Proof. by destruct o as [[]|]. Qed.

(** Destroying a reference whose one owner is the caller. *)
Lemma wp_ref_put ext ref r Q (s : lib) :
  lib_inv ext s -> l_heap s !! ref = Some (ORef r) -> ext ref = 1 ->
  (forall s', lib_inv (minus_ ext ref) s' -> frame (l_heap s) (l_heap s') -> Q tt s') ->
  wp (_nvm_ref_put ref) Q s.
Proof.
  intros Hinv Hr He HQ. pose proof (h_ok _ _ _ Hinv _ _ Hr) as ((c0 & Hc0) & Hst & Hrel).
  pose proof (h_dom _ _ _ Hinv _ _ Hr). assert (ref <> ref_ctrl r) by kinds.
  unfold _nvm_ref_put. rewrite decide_True by (unfold NULL; lia).
  apply wp_bind. eapply wp_deref; [done|done|]. apply wp_bind, wp_store. intros s1 [Hn1 Hh1].
  set (r' := mk_ref _ _ _ _ _) in *.
  assert (lib_inv ext s1) as Hinv1.
  { unfold lib_inv. rewrite Hn1, Hh1. eapply hinv_update; [done|done|done| |done| |].
    - split; [by eexists|]. done.
    - intros x _. simpl. lia.
    - apply (h_ext _ _ _ Hinv). }
  assert (0 <= minus_ ext ref (ref_ctrl r)) as Hx.
  { unfold minus_. rewrite at_ne by congruence. pose proof (h_ext _ _ _ Hinv (ref_ctrl r)). lia. }
  set (g0 := delete ref (l_heap s)).
  assert (hinv (fun x => ext x + ptr_ (ORef r) x - at_ ref x) (l_next s) g0) as Hg0.
  { by eapply hinv_delete_one. }
  destruct (decide (ref_release r = Some REMOVE_ADMIN)) as [Hlocal|Hother].
  - destruct (Hrel Hlocal) as [a Ha]. rewrite Hlocal.
    pose proof (h_ok _ _ _ Hinv _ _ Ha) as (kc & Hk).
    pose proof (h_ok _ _ _ Hinv _ _ Hk) as (m & c & v & Hm & Hc & Hv & _).
    assert (forall x o, l_heap s !! x = Some o -> x <> ref -> l_heap s1 !! x = Some o) as Hkeep.
    { intros x o Hx1 Hne. by rewrite Hh1, lookup_insert_ne. }
    apply wp_bind. eapply (wp_remove_admin ext _ a kc m c v); [done|apply Hkeep; [done|kinds]..|].
    intros s2 [Hn2 Hh2]. set (g := admin_heap (ref_data r) (la_qmem a) kc m c v g0).
    assert (hinv (plus_ (minus_ ext ref) (ref_ctrl r)) (l_next s2) g) as Hg
      by (rewrite Hn2, Hn1; by eapply hinv_ref_admin).
    assert (ref <> k_map kc) by kinds. assert (ref <> m_ctrl m) by kinds.
    assert (ref <> c_device c) by (by eapply (not_device _ _ _ _ _ _ _ Hinv Hc Hr)).
    eapply (wp_ref_put_end ext ref r g); [exact Hinv|done| |exact Hg|done| | |done].
    + unfold g, g0. rewrite admin_heap_delete by done. by apply frame_delete, admin_heap_frame.
    + unfold g, g0. rewrite admin_heap_delete by done. apply lookup_delete_eq.
    + rewrite Hh2. unfold g, g0. fold r'.
      rewrite <- (delete_insert_eq (l_heap s) ref (ORef r')), <- Hh1, admin_heap_delete by done.
      rewrite insert_delete_eq. symmetry. apply insert_id. unfold admin_heap, cont_heap.
      rewrite !lookup_delete_ne by kinds. eapply put_map_keep; [exact Hinv1|apply Hkeep; [done|kinds]..| |done].
      rewrite Hh1. apply lookup_insert_eq.
  - apply wp_bind, wp_other_binding; [done|].
    eapply (wp_ref_put_end ext ref r g0); [exact Hinv|done|by apply frame_delete, frame_refl| |done| | |done].
    + rewrite Hn1. eapply hinv_eq; [exact Hg0|]. intros x. unfold plus_, minus_.
      rewrite (ptr_in _ [ref_ctrl r]), in_one by (simpl; by rewrite decide_False). lia.
    + apply lookup_delete_eq.
    + unfold g0. by rewrite insert_delete_eq.
Qed.

(** ** Creating the admin queue pair *)

(** The heap with a second handle [copy] of the mapping of [wk]. *)
Definition remap_heap (wk : container) (m : map_t) (copy : Z) (kc : container) (h : gmap Z obj)
    : gmap Z obj :=
  <[copy := OCont kc]> (<[k_map wk := OMapping (m_set_count m (m_count m + 1))]> h).

Lemma remap_heap_back wk m cm v copy kc (h : gmap Z obj) :
  h !! k_map wk = Some (OMapping m) -> h !! copy = None -> k_map kc = k_map wk -> 1 <= m_count m ->
  cont_heap copy kc (m_set_count m (m_count m + 1)) cm v (remap_heap wk m copy kc h) = h.
Proof.
  intros Hm Hcopy Hk Hcnt. assert (copy <> k_map wk) by kinds.
  unfold cont_heap, put_map_heap, remap_heap. rewrite Hk, decide_False by (simpl; lia).
  rewrite delete_insert_ne by congruence.
  rewrite delete_insert_id by (by rewrite lookup_insert_ne by congruence).
  rewrite insert_insert_eq. simpl. replace (m_count m + 1 - 1) with (m_count m) by lia.
  apply insert_id. rewrite Hm. by destruct m.
Qed.

(** The lookups of [remap_heap]. *)
Lemma remap_heap_keep wk m copy kc (h : gmap Z obj) x o :
  h !! k_map wk = Some (OMapping m) -> h !! copy = None -> h !! x = Some o ->
  (forall m', o <> OMapping m') -> remap_heap wk m copy kc h !! x = Some o.
Proof.
  intros Hm Hcopy Hx Ho. unfold remap_heap. rewrite lookup_insert_ne by kinds.
  rewrite lookup_insert_ne; [done|]. intros <-. rewrite Hm in Hx. injection Hx as <-. by eapply Ho.
Qed.

Lemma wp_create_admin ext ctrl c window wk m cm v Q (s : lib) :
  lib_inv ext s -> l_heap s !! ctrl = Some (OCtrl c) -> l_heap s !! window = Some (OCont wk) ->
  l_heap s !! k_map wk = Some (OMapping m) -> l_heap s !! m_ctrl m = Some (OCtrl cm) ->
  l_heap s !! m_va m = Some (OVa v) -> m_count m < 2 ^ 32 - 1 ->
  (forall err s', err <> 0 -> unchanged s s' -> Q (err, NULL) s') ->
  (forall adm a kc s', l_heap s !! la_qmem a = None -> l_heap s !! adm = None -> adm <> la_qmem a -> 0 < adm ->
     k_map kc = k_map wk ->
     l_heap s' = <[adm := OAdmin a]> (remap_heap wk m (la_qmem a) kc (l_heap s)) ->
     lib_inv (plus_ ext adm) s' -> Q (0, adm) s') ->
  wp (create_admin ctrl window) Q s.
Proof.
  intros Hinv Hc Hw Hm Hcm Hv Hcnt Hfail Hok. assert (unchanged s s) by (split; [done|lia]).
  pose proof (h_ok _ _ _ Hinv _ _ Hm) as (Hm1 & _ & _).
  pose proof (h_ok _ _ _ Hinv _ _ Hw) as (m1 & c1 & v1 & _ & _ & _ & (_ & Hlen & _)).
  apply wp_bind. eapply wp_deref; [done|done|]. apply wp_bind. eapply wp_deref; [done|done|].
  case_decide; [by apply wp_ret, Hfail|]. case_decide as H2; [by apply wp_ret, Hfail|].
  case_decide; [by apply wp_ret, Hfail|].
  apply wp_bind. eapply (wp_nvm_dma_remap ext window wk m cm); [done..|].
  intros [err copy] s1 Hnew Hcopy. simpl. unfold new_dma in Hnew. simpl in Hnew.
  destruct (decide (err = 0)) as [->|Herr]; [|rewrite decide_True by done; by apply wp_ret, Hfail; [|apply Hnew]].
  rewrite decide_False by tauto. destruct (Hcopy eq_refl) as (Hle & vaddr & cg & local & Hh1). simpl in Hh1.
  set (kc := copy_of wk cm vaddr cg local) in *. fold (remap_heap wk m copy kc (l_heap s)) in Hh1.
  destruct Hnew as (Hinv1 & Hpos & Hnone & _). pose proof (h_next _ _ _ Hinv1) as Hnx.
  pose proof (hinv_next _ _ _ Hinv1) as Hf1.
  assert (l_heap s1 !! copy = Some (OCont kc)) as Hck by (rewrite Hh1; apply lookup_insert_eq).
  pose proof (h_dom _ _ _ Hinv1 _ _ Hck).
  apply wp_bind, wp_malloc.
  - intros s2 [Hn2 Hh2]. rewrite decide_True by done. apply wp_bind. unfold nvm_dma_unmap.
    rewrite decide_True by (unfold NULL; lia).
    eapply (wp_remove_container_heap (plus_ ext copy) copy kc (m_set_count m (m_count m + 1)) cm v).
    + unfold lib_inv. by rewrite Hn2, Hh2.
    + by rewrite Hh2.
    + rewrite Hh2, Hh1. unfold remap_heap. change (k_map kc) with (k_map wk).
      rewrite lookup_insert_ne by kinds. apply lookup_insert_eq.
    + rewrite Hh2, Hh1. by apply remap_heap_keep.
    + rewrite Hh2, Hh1. by apply remap_heap_keep.
    + intros s3 [Hn3 Hh3]. apply wp_ret, Hfail; [done|]. split; [|lia].
      rewrite Hh3, Hh2, Hh1. apply remap_heap_back; [done|done|done|lia].
  - intros s2 [Hn2 Hh2]. rewrite decide_False by (unfold NULL; lia). assert (copy <> l_next s1) by kinds.
    apply wp_bind. eapply wp_deref; [by rewrite Hh2, lookup_insert_ne|done|]. cbv zeta.
    assert (2 <= length (dma_ioaddrs (k_handle wk)))%nat as Hl2 by lia. simpl.
    destruct (dma_ioaddrs (k_handle wk)) as [|a0 [|a1 rest]]; [simpl in Hl2; lia|simpl in Hl2; lia|].
    apply wp_bind. eapply wp_of_option; [reflexivity|]. apply wp_bind. eapply wp_of_option; [reflexivity|].
    apply wp_bind, wp_store. intros s3 [Hn3 Hh3]. rewrite Hh2, insert_insert_eq in Hh3.
    apply wp_ret. set (a := mk_admin _ _ _ _) in *. eapply (Hok (l_next s1) a kc); [done| |done|done|done| |].
    + rewrite Hh1 in Hf1. unfold remap_heap in Hf1. by apply lookup_insert_None in Hf1 as [[Hf1 _]%lookup_insert_None _].
    + by rewrite Hh3, Hh1.
    + unfold lib_inv. rewrite Hn3, Hn2, Hh3. apply (hinv_new_owner ext _ _ _ copy); [done| |done|done|].
      * by exists kc.
      * apply (h_ext _ _ _ Hinv).
Qed.

(** ** nvm_aq_create *)

Definition new_ref (ext : Z -> Z) (ctrl : Z) (s : lib) (r : Z * Z) (s' : lib) : Prop :=
  if decide (fst r = 0) then
    lib_inv (plus_ ext (snd r)) s' /\ frame (l_heap s) (l_heap s') /\
    exists o a, l_heap s' !! snd r = Some (ORef o) /\ ref_stub o = Some EXECUTE_COMMAND /\
      l_heap s' !! ref_data o = Some (OAdmin a) /\ ref_ctrl o = ctrl
  else snd r = NULL /\ unchanged s s'.

Lemma new_ref_err ext ctrl s err s' : err <> 0 -> unchanged s s' -> new_ref ext ctrl s (err, NULL) s'.
Proof. intros He Hu. unfold new_ref. simpl. by rewrite decide_False. Qed.

(** Putting back the reference that was just taken. *)
Lemma wp_ref_put_fresh ext ctrl c ref Q (s s1 : lib) :
  lib_inv ext s -> l_heap s !! ctrl = Some (OCtrl c) -> c_count c < 2 ^ 32 - 1 -> ref = l_next s ->
  l_heap s1 = <[ref := ORef (mk_ref ctrl [] NULL None None)]>
    (<[ctrl := OCtrl (c_set_count c (c_count c + 1))]> (l_heap s)) -> l_next s <= l_next s1 ->
  (forall s', unchanged s s' -> Q tt s') -> wp (_nvm_ref_put ref) Q s1.
Proof.
  intros Hinv Hc Hcnt Href Hh1 Hn1 HQ. pose proof (h_ok _ _ _ Hinv _ _ Hc) as (Hc1 & _).
  pose proof (h_dom _ _ _ Hinv _ _ Hc). pose proof (h_next _ _ _ Hinv).
  pose proof (hinv_next _ _ _ Hinv) as Hf. rewrite <- Href in Hf. assert (ref <> ctrl) by kinds.
  unfold _nvm_ref_put. rewrite decide_True by (unfold NULL; lia).
  apply wp_bind. eapply wp_deref; [rewrite Hh1; apply lookup_insert_eq|done|].
  apply wp_bind, wp_store. intros s2 [Hn2 Hh2]. simpl in Hh2. rewrite Hh1, insert_insert_eq in Hh2.
  apply wp_bind, wp_ret. simpl.
  apply wp_bind, wp_ctrl_put_more with (c_set_count c (c_count c + 1)); [unfold NULL; lia| |simpl; lia|].
  { rewrite Hh2, lookup_insert_ne by done. apply lookup_insert_eq. }
  intros s3 [Hn3 Hh3]. eapply (wp_free ref (ORef (mk_ref ctrl [] NULL None None))); [unfold NULL; lia| |done|].
  { rewrite Hh3, lookup_insert_ne by done. rewrite Hh2. apply lookup_insert_eq. }
  intros s4 [Hn4 Hh4]. apply HQ. split; [|lia]. rewrite Hh4, Hh3, Hh2.
  rewrite insert_insert_ne by congruence. rewrite delete_insert_id by (by rewrite !lookup_insert_ne by congruence).
  by apply restore_ctrl.
Qed.

(** The reference takes over the new admin queue pair. *)
Lemma hinv_bind_admin ext next h ref ctrl c adm a :
  hinv (plus_ (plus_ ext ref) adm) next h -> ext ref = 0 -> 0 <= ext adm ->
  h !! ref = Some (ORef (mk_ref ctrl [] NULL None None)) -> h !! adm = Some (OAdmin a) ->
  h !! ctrl = Some (OCtrl c) -> (forall x, 0 <= ext x) ->
  hinv (plus_ ext ref) next
    (<[ref := ORef (mk_ref ctrl [] adm (Some REMOVE_ADMIN) (Some EXECUTE_COMMAND))]> h).
Proof.
  intros Hinv He He' Hr Ha Hc Hx. assert (ref <> adm) by kinds. assert (ref <> ctrl) by kinds.
  assert (ctrl <> adm) by kinds.
  eapply hinv_replace; [exact Hinv|done|done|done| | | |].
  - unfold plus_. rewrite at_eq, at_ne by done. lia.
  - simpl. rewrite !lookup_delete_ne by done. split; [by eexists|]. split; [done|]. intros _. by eexists.
  - intros x. rewrite (ptr_in _ [ctrl]), in_one by done.
    rewrite (ptr_in _ [ctrl; adm]), in_two by done. unfold plus_. lia.
  - intros x. specialize (Hx x). ext_lia.
Qed.

(** The heap once the reference at [ref] holds the controller. *)
Lemma ref_heap_keep (h : gmap Z obj) ref ctrl c o x ox :
  h !! ctrl = Some (OCtrl c) -> h !! ref = None -> h !! x = Some ox ->
  exists ox', <[ref := o]> (<[ctrl := OCtrl (c_set_count c (c_count c + 1))]> h) !! x = Some ox' /\
    same ox ox' /\ ((forall c', ox <> OCtrl c') -> ox' = ox).
Proof.
  intros Hc Hr Hx. rewrite lookup_insert_ne by kinds. destruct (decide (x = ctrl)) as [->|Hne].
  - rewrite lookup_insert_eq. rewrite Hc in Hx. injection Hx as <-. eexists. split; [done|]. split; [done|].
    intros Hno. by destruct (Hno c).
  - rewrite lookup_insert_ne by done. exists ox. split; [done|]. split; [apply same_refl|done].
Qed.

(** Everything that was there is still there once the admin queue pair is bound. *)
Lemma bind_frame (h : gmap Z obj) ref ctrl c wk m copy kc adm a o0 o1 :
  h !! ref = None -> h !! ctrl = Some (OCtrl c) -> h !! k_map wk = Some (OMapping m) ->
  h !! copy = None -> h !! adm = None ->
  frame h (<[ref := o1]> (<[adm := OAdmin a]> (remap_heap wk m copy kc
    (<[ref := o0]> (<[ctrl := OCtrl (c_set_count c (c_count c + 1))]> h))))).
Proof.
  intros Hr Hc Hm Hcopy Hadm. unfold remap_heap.
  apply frame_fresh; [|done]. apply frame_fresh; [|done]. apply frame_fresh; [|done].
  eapply frame_insert; [|exact Hm|done]. apply frame_fresh; [|done].
  eapply frame_insert; [apply frame_refl|exact Hc|done].
Qed.

Lemma wp_nvm_aq_create ext ctrl c window wk m Q (s : lib) :
  lib_inv ext s -> l_heap s !! ctrl = Some (OCtrl c) -> c_count c < 2 ^ 32 - 1 ->
  l_heap s !! window = Some (OCont wk) -> l_heap s !! k_map wk = Some (OMapping m) ->
  m_count m < 2 ^ 32 - 1 ->
  (forall r s', new_ref ext ctrl s r s' -> Q r s') -> wp (nvm_aq_create ctrl window) Q s.
Proof.
  intros Hinv Hc Hcnt Hw Hm Hmcnt HQ. pose proof (hinv_next _ _ _ Hinv) as Hf.
  pose proof (h_next _ _ _ Hinv) as Hpos. set (ref := l_next s) in *.
  pose proof (h_ok _ _ _ Hinv _ _ Hw) as (m1 & cm & v & Em & Hcm & Hv & _).
  rewrite Hm in Em. injection Em as <-.
  destruct (hinv_fresh _ _ _ ref Hinv Hpos Hf) as [_ Hz].
  apply wp_bind. eapply wp_ref_get; [done..| |].
  { intros err s1 Herr Hun. rewrite decide_True by done. by apply wp_ret, HQ, new_ref_err. }
  intros s1 [Hn1 Hh1]. rewrite decide_False by tauto. cbn [snd]. fold ref in Hh1.
  pose proof (hinv_ref_get ext ref _ ctrl c Hinv Hc Hcnt) as Hi1.
  set (c1 := c_set_count c (c_count c + 1)) in *. set (r0 := mk_ref ctrl [] NULL None None) in *.
  assert (ref <> ctrl) by kinds.
  assert (l_heap s1 !! ref = Some (ORef r0)) as Hr1 by (rewrite Hh1; apply lookup_insert_eq).
  assert (l_heap s1 !! ctrl = Some (OCtrl c1)) as Hc1
    by (rewrite Hh1, lookup_insert_ne by done; apply lookup_insert_eq).
  assert (forall x o, l_heap s !! x = Some o -> (forall c', o <> OCtrl c') -> l_heap s1 !! x = Some o) as Hk1.
  { intros x o Hx Ho. destruct (ref_heap_keep _ ref ctrl c (ORef r0) x o Hc Hf Hx) as (o' & Ho' & _ & Heq).
    rewrite Hh1. unfold c1. rewrite Ho'. by rewrite Heq. }
  destruct (ref_heap_keep _ ref ctrl c (ORef r0) _ _ Hc Hf Hcm) as ([cm1| | | | | | | | | |] & Hcm1 & Hs & _); try done.
  fold c1 in Hcm1. rewrite <- Hh1 in Hcm1.
  apply wp_bind. eapply wp_deref; [exact Hr1|done|]. apply wp_bind.
  eapply (wp_create_admin (plus_ ext ref) ctrl c1 window wk m cm1 v); [|done|by apply Hk1|by apply Hk1|done|by apply Hk1|done| |].
  { unfold lib_inv. by rewrite Hn1, Hh1. }
  - intros err s2 Herr [Hh2 Hn2]. apply wp_bind, wp_store. intros s3 [Hn3 Hh3]. simpl in Hh3.
    rewrite decide_True by done. apply wp_bind. fold r0 in Hh3.
    eapply (wp_ref_put_fresh ext ctrl c ref); [exact Hinv|done|done|done| |lia|].
    + rewrite Hh3, Hh2, Hh1. by rewrite insert_insert_eq.
    + intros s4 Hun. by apply wp_ret, HQ, new_ref_err.
  - intros adm a kc s2 Hq Hadm Hne Hapos Hkk Hh2 Hi2. apply wp_bind, wp_store. intros s3 [Hn3 Hh3].
    rewrite decide_False by tauto. apply wp_bind, wp_store. intros s4 [Hn4 Hh4]. apply wp_ret, HQ.
    rewrite Hh3, insert_insert_eq in Hh4. simpl in Hh4. unfold new_ref. simpl.
    assert (ref <> adm) by kinds.
    assert (forall x o, l_heap s1 !! x = Some o -> (forall m', o <> OMapping m') ->
      l_heap s2 !! x = Some o) as Hk2.
    { intros x o Hx Ho. rewrite Hh2, lookup_insert_ne by kinds.
      apply remap_heap_keep; try done. by apply Hk1. }
    split; [|split].
    + unfold lib_inv. rewrite Hn4, Hn3, Hh4. eapply (hinv_bind_admin ext _ _ ref ctrl c1 adm a); [exact Hi2|done| |..].
      * apply (h_ext _ _ _ Hinv).
      * by apply Hk2.
      * rewrite Hh2. apply lookup_insert_eq.
      * by apply Hk2.
      * apply (h_ext _ _ _ Hinv).
    + assert (forall x, l_heap s1 !! x = None -> l_heap s !! x = None) as Hn.
      { intros x. rewrite Hh1. by intros [[Hx _]%lookup_insert_None _]%lookup_insert_None. }
      rewrite Hh4, Hh2, Hh1. apply bind_frame; auto.
    + eexists _, a. rewrite Hh4. split; [apply lookup_insert_eq|]. split; [done|]. simpl.
      rewrite lookup_insert_ne by done. rewrite Hh2. split; [apply lookup_insert_eq|done].
Qed.
End refs.
