(* ===== verification/LibClient.v ===== *)
(** * A user of libnvm

    A user holds controller handles, DMA handles and admin queue references, calls the functions
    of nvm_ctrl.h, nvm_dma.h and nvm_aq.h in any order with handles it holds, and every allocation, system call or ioctl may fail.  The
    calls are always defined, and after the last handle is given back nothing is left. *)
From stdpp Require Import prelude gmap gmultiset list.
From Stdlib Require Import ZArith Lia.
From S2P Require Import Prelude NvmTypes NvmUtil LibState Ctrl Dma LinuxDma DmaSpec LibInv LibProofs LibApi Aq AqProofs.
Local Open Scope Z_scope.

(** ** Calls *)

Inductive call :=
  | CtrlInit (filedes : Z)
  | CtrlFree (ctrl : Z)
  | DmaMap (ctrl vaddr page_size n_pages : Z) (ioaddrs : option (list Z))
  | DmaMapHost (ctrl vaddr size : Z)
  | DmaCreate (ctrl size : Z)
  | DmaMapDevice (hip : hip_info) (ctrl devptr size : Z)
  | DmaRemap (other : Z)
  | DmaUnmap (handle : Z)
  | AqCreate (ctrl window : Z)
  | AqDestroy (ref : Z).

(** The handles the user has. *)
Record client := mk_client { u_ctrls : list Z; u_dmas : list Z; u_refs : list Z }.

Fixpoint remove1 (a : Z) (l : list Z) : list Z :=
  match l with [] => [] | b :: l => if decide (b = a) then l else b :: remove1 a l end.

Section client.
Context `{Env}.

Definition got_ctrl (u : client) (r : Z * Z) : client :=
  if decide (fst r = 0) then mk_client (snd r :: u_ctrls u) (u_dmas u) (u_refs u) else u.
Definition got_dma (u : client) (r : Z * Z) : client :=
  if decide (fst r = 0) then mk_client (u_ctrls u) (snd r :: u_dmas u) (u_refs u) else u.
Definition got_ref (u : client) (r : Z * Z) : client :=
  if decide (fst r = 0) then mk_client (u_ctrls u) (u_dmas u) (snd r :: u_refs u) else u.

Definition do_call (u : client) (c : call) : M lib client :=
  match c with
  | CtrlInit filedes => r ← nvm_ctrl_init filedes; mret (got_ctrl u r)
  | CtrlFree ctrl => nvm_ctrl_free ctrl;; mret (mk_client (remove1 ctrl (u_ctrls u)) (u_dmas u) (u_refs u))
  | DmaMap ctrl vaddr page_size n_pages ioaddrs =>
      r ← nvm_dma_map ctrl vaddr page_size n_pages ioaddrs; mret (got_dma u r)
  | DmaMapHost ctrl vaddr size => r ← nvm_dma_map_host ctrl vaddr size; mret (got_dma u r)
  | DmaCreate ctrl size => r ← nvm_dma_create ctrl size; mret (got_dma u r)
  | DmaMapDevice hip ctrl devptr size => r ← nvm_dma_map_device hip ctrl devptr size; mret (got_dma u r)
  | DmaRemap other => r ← nvm_dma_remap other; mret (got_dma u r)
  | DmaUnmap handle => nvm_dma_unmap handle;; mret (mk_client (u_ctrls u) (remove1 handle (u_dmas u)) (u_refs u))
  | AqCreate ctrl window => r ← nvm_aq_create ctrl window; mret (got_ref u r)
  | AqDestroy ref => nvm_aq_destroy ref;; mret (mk_client (u_ctrls u) (u_dmas u) (remove1 ref (u_refs u)))
  end.

(** The 32-bit reference counts are not exhausted. *)
Definition ctrl_room (s : lib) (ctrl : Z) : Prop :=
  match l_heap s !! ctrl with Some (OCtrl c) => c_count c < 2 ^ 32 - 1 | _ => True end.
Definition map_room (s : lib) (k : Z) : Prop :=
  match l_heap s !! k with
  | Some (OCont kc) =>
      match l_heap s !! k_map kc with Some (OMapping m) => m_count m < 2 ^ 32 - 1 | _ => True end
  | _ => True
  end.

(** The user calls with handles it has, and passes an address for each page. *)
Definition legal (u : client) (s : lib) (c : call) : Prop :=
  match c with
  | CtrlInit _ => True
  | CtrlFree ctrl => ctrl ∈ u_ctrls u
  | DmaMap ctrl _ page_size n_pages ioaddrs =>
      ctrl ∈ u_ctrls u /\ ctrl_room s ctrl /\ 0 <= page_size /\ 0 <= n_pages /\
      match ioaddrs with Some addrs => n_pages <= Z.of_nat (length addrs) | None => True end
  | DmaMapHost ctrl _ _ | DmaCreate ctrl _ | DmaMapDevice _ ctrl _ _ =>
      ctrl ∈ u_ctrls u /\ ctrl_room s ctrl
  | DmaRemap other => other ∈ u_dmas u /\ map_room s other
  | DmaUnmap handle => handle ∈ u_dmas u
  | AqCreate ctrl window =>
      ctrl ∈ u_ctrls u /\ ctrl_room s ctrl /\ window ∈ u_dmas u /\ map_room s window
  | AqDestroy ref => ref ∈ u_refs u
  end.

#[export] Instance legal_dec u s c : Decision (legal u s c).
Proof.
  destruct c as [| |ctrl v p n [addrs|]| | | | | | |]; simpl; unfold ctrl_room, map_room; try apply _.
  all: repeat case_match; apply _.
Defined.

(** Whether a call asks for a handle. *)
Definition asks (c : call) : bool := match c with CtrlFree _ | DmaUnmap _ | AqDestroy _ => false | _ => true end.

(** A new process: nothing allocated, nothing held. *)
Definition lib_start (next : Z) : lib := mk_lib 0 next ∅ ∅.

Inductive reach : client -> lib -> Prop :=
  | reach_start next : 0 < next -> reach (mk_client [] [] []) (lib_start next)
  | reach_call u s c u' s' :
      reach u s -> legal u s c -> do_call u c s = Some (u', s') -> reach u' s'.

(** ** The invariant *)

Lemma occ_remove1 a b l : a ∈ l -> occ b (remove1 a l) = occ b l - at_ a b.
Proof.
  induction l as [|c l IH]; intros Hin; [by apply not_elem_of_nil in Hin|]. simpl.
  case_decide as Hc; rewrite !occ_cons; [subst; lia|].
  apply elem_of_cons in Hin as [->|Hin]; [done|]. rewrite (IH Hin). lia.
Qed.

Lemma remove1_elem a b l : b ∈ remove1 a l -> b ∈ l.
Proof.
  induction l as [|c l IH]; simpl; [done|]. case_decide; [by right|].
  intros [->|Hb]%elem_of_cons; [left|right; auto].
Qed.

Definition ext_of (u : client) (a : Z) : Z :=
  occ a (u_ctrls u) + occ a (u_dmas u) + occ a (u_refs u).

Lemma ext_of_pos u a : a ∈ u_ctrls u \/ a ∈ u_dmas u \/ a ∈ u_refs u -> 1 <= ext_of u a.
Proof.
  unfold ext_of. intros [Ha|[Ha|Ha]]; apply occ_pos in Ha; unfold occ in *; lia.
Qed.

Definition live_ctrl (s : lib) (a : Z) : Prop :=
  exists c, l_heap s !! a = Some (OCtrl c) /\ 0 < ctrl_page_size (c_handle c).
Definition live_dma (s : lib) (k : Z) : Prop := exists kc, l_heap s !! k = Some (OCont kc).
Definition live_ref (s : lib) (a : Z) : Prop := exists r, l_heap s !! a = Some (ORef r).

Definition api_inv (u : client) (s : lib) : Prop :=
  lib_inv (ext_of u) s /\ (forall a, a ∈ u_ctrls u -> live_ctrl s a) /\
  (forall k, k ∈ u_dmas u -> live_dma s k) /\ (forall r, r ∈ u_refs u -> live_ref s r).

Lemma api_inv_start next : 0 < next -> api_inv (mk_client [] [] []) (lib_start next).
Proof.
  intros Hn. split; [|split; [|split]; intros a Ha; by apply not_elem_of_nil in Ha].
  constructor; simpl; done.
Qed.

(** Held handles stay live across a call. *)
Lemma api_inv_frame u u' s s' :
  api_inv u s -> lib_inv (ext_of u') s' -> frame (l_heap s) (l_heap s') ->
  (forall a, a ∈ u_ctrls u' -> a ∈ u_ctrls u \/ live_ctrl s' a) ->
  (forall k, k ∈ u_dmas u' -> k ∈ u_dmas u \/ live_dma s' k) ->
  (forall r, r ∈ u_refs u' -> r ∈ u_refs u \/ live_ref s' r) -> api_inv u' s'.
Proof.
  intros (Hinv & Hcs & Hds & Hrs) Hinv' Hf Hcs' Hds' Hrs'.
  assert (forall a o, l_heap s !! a = Some o -> 1 <= ext_of u' a ->
    exists o', l_heap s' !! a = Some o' /\ same o o') as Hheld.
  { intros a o Ha He. eapply frame_held; [exact Hinv'|done|done| |done]. apply (h_dom _ _ _ Hinv _ _ Ha). }
  split; [done|]. split; [|split].
  - intros a Ha. destruct (Hcs' a Ha) as [Hold|]; [|done]. destruct (Hcs a Hold) as (c & Hc & Hps).
    destruct (Hheld a _ Hc) as (o & Ho & Hs); [apply ext_of_pos; tauto|].
    destruct o as [c'| | | | | | | | | |]; try done. exists c'. destruct Hs as (-> & _). done.
  - intros k Hk. destruct (Hds' k Hk) as [Hold|]; [|done]. destruct (Hds k Hold) as (kc & Hkc).
    destruct (Hheld k _ Hkc) as (o & Ho & Hs); [apply ext_of_pos; tauto|].
    destruct o; try done. by eexists.
  - intros k Hk. destruct (Hrs' k Hk) as [Hold|]; [|done]. destruct (Hrs k Hold) as (kc & Hkc).
    destruct (Hheld k _ Hkc) as (o & Ho & Hs); [apply ext_of_pos; tauto|].
    destruct o; try done. by eexists.
Qed.

Lemma unchanged_inv u s s' : api_inv u s -> unchanged s s' -> api_inv u s'.
Proof.
  intros (Hinv & Hcs & Hds & Hrs) [Hh Hn]. unfold api_inv, live_ctrl, live_dma, live_ref. rewrite Hh.
  split; [|done]. unfold lib_inv. rewrite Hh. by eapply hinv_mono.
Qed.

(** ** The invariant is kept *)

Lemma api_inv_new_dma u c r s s' :
  api_inv u s -> new_dma (ext_of u) c s r s' -> api_inv (got_dma u r) s'.
Proof.
  intros Hinv Hnew. unfold new_dma, got_dma in *. case_decide; [|by eapply unchanged_inv, Hnew].
  destruct Hnew as (Hi & _ & _ & Hf & kc & Hkc & _). eapply api_inv_frame; [done| |done|by left| |by left].
  - eapply hinv_eq; [exact Hi|]. intros x. unfold ext_of, plus_. simpl. rewrite occ_cons. lia.
  - intros k [->|Hk]%elem_of_cons; [right; by eexists|by left].
Qed.

Lemma api_inv_new_ref u ctrl r s s' :
  api_inv u s -> new_ref (ext_of u) ctrl s r s' -> api_inv (got_ref u r) s'.
Proof.
  intros Hinv Hnew. unfold new_ref, got_ref in *. case_decide; [|by eapply unchanged_inv, Hnew].
  destruct Hnew as (Hi & Hf & o & _ & Ho & _). eapply api_inv_frame; [done| |done|by left|by left|].
  - eapply hinv_eq; [exact Hi|]. intros x. unfold ext_of, plus_. simpl. rewrite occ_cons. lia.
  - intros k [->|Hk]%elem_of_cons; [right; by eexists|by left].
Qed.

Lemma api_inv_new_ctrl u r s s' :
  api_inv u s -> new_ctrl (ext_of u) s r s' -> api_inv (got_ctrl u r) s'.
Proof.
  intros Hinv Hnew. unfold new_ctrl, got_ctrl in *. case_decide; [|by eapply unchanged_inv, Hnew].
  destruct Hnew as (Hi & _ & _ & Hf & c & Hc & Hps & _). eapply api_inv_frame; [done| |done| |by left|by left].
  - eapply hinv_eq; [exact Hi|]. intros x. unfold ext_of, plus_. simpl. rewrite occ_cons. lia.
  - intros k [->|Hk]%elem_of_cons; [right; by eexists|by left].
Qed.

(** What a call does: the invariant holds, and a handle not given means nothing changed. *)
Definition call_post (u : client) (s : lib) (c : call) (u' : client) (s' : lib) : Prop :=
  api_inv u' s' /\ (asks c = true -> u' = u -> l_heap s' = l_heap s).

Lemma call_post_dma u c s (k : call) (m : M lib (Z * Z)) :
  api_inv u s ->
  (forall Q, (forall r s', new_dma (ext_of u) c s r s' -> Q r s') -> wp m Q s) ->
  wp (r ← m; mret (got_dma u r)) (call_post u s k) s.
Proof.
  intros Hinv Hm. apply wp_bind, Hm. intros r s' Hnew. apply wp_ret.
  split; [by eapply api_inv_new_dma|]. intros _ Hu. unfold new_dma, got_dma in *. case_decide.
  - apply (f_equal (length ∘ u_dmas)) in Hu. simpl in Hu. lia.
  - apply Hnew.
Qed.

Lemma call_post_ctrl u s filedes :
  (forall i, mmap_ok i = true) -> api_inv u s ->
  wp (do_call u (CtrlInit filedes)) (call_post u s (CtrlInit filedes)) s.
Proof.
  intros Hmmap Hinv. apply wp_bind. eapply wp_nvm_ctrl_init; [done|apply Hinv|]. intros r s' Hnew.
  apply wp_ret. split; [by eapply api_inv_new_ctrl|]. intros _ Hu. unfold new_ctrl, got_ctrl in *. case_decide.
  - apply (f_equal (length ∘ u_ctrls)) in Hu. simpl in Hu. lia.
  - apply Hnew.
Qed.

Lemma call_post_free u s ctrl :
  api_inv u s -> ctrl ∈ u_ctrls u ->
  wp (do_call u (CtrlFree ctrl)) (call_post u s (CtrlFree ctrl)) s.
Proof.
  intros Hinv Hl. pose proof Hinv as (Hlib & Hcs & _). destruct (Hcs _ Hl) as (c & Hc & _).
  apply wp_bind. eapply wp_nvm_ctrl_free; [done|done|apply ext_of_pos; tauto|].
  intros s' Hi Hf. apply wp_ret. split; [|done]. eapply api_inv_frame; [done| |done| |by left|by left].
  - eapply hinv_eq; [exact Hi|]. intros x. unfold ext_of, minus_. simpl. rewrite occ_remove1 by done. lia.
  - intros a Ha%remove1_elem. by left.
Qed.

(** A held object with one reference is held once. *)
Lemma held_once u s a o :
  api_inv u s -> l_heap s !! a = Some o -> weight o = 1 -> 1 <= ext_of u a -> ext_of u a = 1.
Proof.
  intros (Hlib & _) Ha Hw He. pose proof (hinv_weight _ _ _ _ _ Hlib Ha). lia.
Qed.

Lemma call_post_unmap u s k :
  api_inv u s -> k ∈ u_dmas u -> wp (do_call u (DmaUnmap k)) (call_post u s (DmaUnmap k)) s.
Proof.
  intros Hinv Hl. pose proof Hinv as (Hlib & _ & Hds & _).
  destruct (Hds _ Hl) as (kc & Hkc). pose proof (h_dom _ _ _ Hlib _ _ Hkc).
  simpl. unfold nvm_dma_unmap. rewrite decide_True by (unfold NULL; lia).
  apply wp_bind. eapply wp_remove_container; [done|done|eapply held_once; [done|done|done|apply ext_of_pos; tauto]|].
  intros s' Hi Hf. apply wp_ret. split; [|done]. eapply api_inv_frame; [done| |done|by left| |by left].
  - eapply hinv_eq; [exact Hi|]. intros x. unfold ext_of, minus_. simpl. rewrite occ_remove1 by done. lia.
  - intros a Ha%remove1_elem. by left.
Qed.

Lemma call_post_destroy u s ref :
  api_inv u s -> ref ∈ u_refs u -> wp (do_call u (AqDestroy ref)) (call_post u s (AqDestroy ref)) s.
Proof.
  intros Hinv Hl. pose proof Hinv as (Hlib & _ & _ & Hrs).
  destruct (Hrs _ Hl) as (r & Hr). pose proof (h_dom _ _ _ Hlib _ _ Hr).
  simpl. unfold nvm_aq_destroy. rewrite decide_True by (unfold NULL; lia).
  apply wp_bind. eapply wp_ref_put; [done|done|eapply held_once; [done|done|done|apply ext_of_pos; tauto]|].
  intros s' Hi Hf. apply wp_ret. split; [|done]. eapply api_inv_frame; [done| |done|by left|by left|].
  - eapply hinv_eq; [exact Hi|]. intros x. unfold ext_of, minus_. simpl. rewrite occ_remove1 by done. lia.
  - intros a Ha%remove1_elem. by left.
Qed.

Lemma call_post_create u s ctrl window :
  api_inv u s -> legal u s (AqCreate ctrl window) ->
  wp (do_call u (AqCreate ctrl window)) (call_post u s (AqCreate ctrl window)) s.
Proof.
  intros Hinv (Hin & Hroom & Hw & Hmroom). pose proof Hinv as (Hlib & Hcs & Hds & _).
  destruct (Hcs _ Hin) as (c & Hc & _). destruct (Hds _ Hw) as (wk & Hwk).
  pose proof (h_ok _ _ _ Hlib _ _ Hwk) as (m & cm & v & Hm & _).
  unfold ctrl_room in Hroom. rewrite Hc in Hroom. unfold map_room in Hmroom. rewrite Hwk, Hm in Hmroom.
  apply wp_bind. eapply wp_nvm_aq_create; [done..|]. intros r s' Hnew. apply wp_ret.
  split; [by eapply api_inv_new_ref|]. intros _ Hu. unfold new_ref, got_ref in *. case_decide.
  - apply (f_equal (length ∘ u_refs)) in Hu. simpl in Hu. lia.
  - apply Hnew.
Qed.

Lemma do_call_inv u s c :
  (forall i, mmap_ok i = true) -> api_inv u s -> legal u s c -> wp (do_call u c) (call_post u s c) s.
Proof.
  intros Hmmap Hinv Hl. pose proof Hinv as (Hlib & Hcs & Hds & _).
  assert (forall ctrl, ctrl ∈ u_ctrls u -> ctrl_room s ctrl ->
    exists c, l_heap s !! ctrl = Some (OCtrl c) /\ 0 < ctrl_page_size (c_handle c) /\
      c_count c < 2 ^ 32 - 1) as Hctrl.
  { intros ctrl Hin Hroom. destruct (Hcs _ Hin) as (c' & Hc & Hps). exists c'.
    unfold ctrl_room in Hroom. by rewrite Hc in Hroom. }
  destruct c; simpl in Hl.
  - by apply call_post_ctrl.
  - by apply call_post_free.
  - destruct Hl as (Hin & Hroom & Hps & Hn & Hlen). destruct (Hctrl _ Hin Hroom) as (c & Hc & Hcps & Hcnt).
    eapply (call_post_dma u c); [done|]. intros Q HQ. eapply wp_nvm_dma_map; try done.
    by intros addrs ->.
  - destruct Hl as (Hin & Hroom). destruct (Hctrl _ Hin Hroom) as (c & Hc & Hcps & Hcnt).
    eapply (call_post_dma u c); [done|]. intros Q HQ.
    eapply wp_nvm_dma_map_host; [done..|]. intros r s' Hnew _. by apply HQ.
  - destruct Hl as (Hin & Hroom). destruct (Hctrl _ Hin Hroom) as (c & Hc & Hcps & Hcnt).
    eapply (call_post_dma u c); [done|]. intros Q HQ. by eapply wp_nvm_dma_create.
  - destruct Hl as (Hin & Hroom). destruct (Hctrl _ Hin Hroom) as (c & Hc & Hcps & Hcnt).
    eapply (call_post_dma u c); [done|]. intros Q HQ. eapply wp_nvm_dma_map_device; [done..|]. intros r s' Hr _. by apply HQ.
  - destruct Hl as (Hin & Hroom). destruct (Hds _ Hin) as (kc & Hkc).
    pose proof (h_ok _ _ _ Hlib _ _ Hkc) as (m & c & v & Hm & Hc & Hv & _).
    unfold map_room in Hroom. rewrite Hkc, Hm in Hroom.
    eapply (call_post_dma u c); [done|]. intros Q HQ. by eapply wp_nvm_dma_remap; eauto.
  - by apply call_post_unmap.
  - by apply call_post_create.
  - by apply call_post_destroy.
Qed.

Lemma reach_inv u s : (forall i, mmap_ok i = true) -> reach u s -> api_inv u s.
Proof.
  intros Hmmap Hr. induction Hr as [next Hn|u s c u' s' Hr IH Hl Hc]; [by apply api_inv_start|].
  pose proof (do_call_inv u s c Hmmap IH Hl) as Hwp. unfold wp in Hwp. rewrite Hc in Hwp. apply Hwp.
Qed.

(** ** The properties *)


(** C21: when the user has given back every controller handle, DMA handle and admin queue
    reference, in any order and with any failures but that of mapping the registers, no
    object, descriptor, mapped window or buffer of the library is left. *)
Theorem lib_no_leak s : (forall i, mmap_ok i = true) -> reach (mk_client [] [] []) s -> l_heap s = ∅.
Proof.
  intros Hmmap Hr. destruct (reach_inv _ s Hmmap Hr) as (Hinv & _).
  eapply hinv_no_leak; [exact Hinv|]. done.
Qed.

(** C32: a function that fails to give the handle asked for leaves every object of the library as
    it was: each error path undoes exactly what was done before it.  Mapping the registers is
    assumed to succeed. *)
Theorem lib_failure_undone u s c s' :
  (forall i, mmap_ok i = true) -> reach u s -> legal u s c -> asks c = true ->
  do_call u c s = Some (u, s') -> l_heap s' = l_heap s.
Proof.
  intros Hmmap Hr Hl Ha Hc. pose proof (do_call_inv u s c Hmmap (reach_inv u s Hmmap Hr) Hl) as Hwp.
  unfold wp in Hwp. rewrite Hc in Hwp. by apply Hwp.
Qed.

(** the controller and the address range behind a DMA handle are alive as long as the handle,
    also after the user freed the controller; the handle has an address for each controller page
    of the range. *)
Theorem dma_handle_alive u s k :
  (forall i, mmap_ok i = true) -> reach u s -> k ∈ u_dmas u ->
  exists kc m c v, l_heap s !! k = Some (OCont kc) /\ l_heap s !! k_map kc = Some (OMapping m) /\
    l_heap s !! m_ctrl m = Some (OCtrl c) /\ l_heap s !! m_va m = Some (OVa v) /\
    1 <= c_count c /\ cont_ok kc c v.
Proof.
  intros Hmmap Hr Hk. destruct (reach_inv _ s Hmmap Hr) as (Hinv & _ & Hds & _).
  destruct (Hds k Hk) as (kc & Hkc). pose proof (h_ok _ _ _ Hinv _ _ Hkc) as (m & c & v & Hm & Hc & Hv & Hok).
  exists kc, m, c, v. do 4 (split; [done|]). split; [|done]. apply (h_ok _ _ _ Hinv _ _ Hc).
Qed.

(** [nvm_dma_remap] gives a second handle of the same mapping with the same bus addresses. *)
Theorem remap_same_pages u s other ok k s' :
  (forall i, mmap_ok i = true) -> reach u s -> legal u s (DmaRemap other) ->
  l_heap s !! other = Some (OCont ok) -> nvm_dma_remap other s = Some ((0, k), s') ->
  exists kc, l_heap s' !! k = Some (OCont kc) /\ k_map kc = k_map ok /\
    dma_n_ioaddrs (k_handle kc) = dma_n_ioaddrs (k_handle ok) /\
    dma_ioaddrs (k_handle kc) = u64 <$> dma_ioaddrs (k_handle ok).
Proof.
  intros Hmmap Hr [Hin Hroom] Hk Hc. destruct (reach_inv _ s Hmmap Hr) as (Hinv & _).
  pose proof (h_ok _ _ _ Hinv _ _ Hk) as (m & c & v & Hm & Hcc & Hv & _).
  unfold map_room in Hroom. rewrite Hk, Hm in Hroom.
  pose proof (wp_nvm_dma_remap (ext_of u) other ok m c
    (fun r s' => fst r = 0 -> l_next s <= l_next s' /\ exists vaddr cg local, l_heap s' = <[snd r := OCont (copy_of ok c vaddr cg local)]>
        (<[k_map ok := OMapping (m_set_count m (m_count m + 1))]> (l_heap s))) s Hinv Hk Hm Hcc Hroom) as Hwp.
  unfold wp in Hwp. rewrite Hc in Hwp. destruct Hwp as (_ & vaddr & cg & local & Hnew); [auto|done|].
  simpl in Hnew. eexists. rewrite Hnew. split; [apply lookup_insert_eq|done].
Qed.

(** ** Legal runs *)

Fixpoint run_legal (u : client) (s : lib) (cs : list call) : option (client * lib) :=
  match cs with
  | [] => Some (u, s)
  | c :: cs =>
      if decide (legal u s c) then
        match do_call u c s with Some (u', s') => run_legal u' s' cs | None => None end
      else None
  end.

Lemma run_legal_reach cs u s u' s' : reach u s -> run_legal u s cs = Some (u', s') -> reach u' s'.
Proof.
  revert u s. induction cs as [|c cs IH]; intros u s Hr; simpl; [by intros [= <- <-]|].
  case_decide as Hl; [|done]. destruct (do_call u c s) as [[u1 s1]|] eqn:E; [|done].
  apply IH. by eapply reach_call.
Qed.
End client.

(** ** A machine where nothing fails *)

#[export] Instance good_env : Env := {|
  sys _ := 0; mmap_ok _ := true; cap_reg _ := 0x3ff; sc_pagesize := 4096;
  io_addr _ i := 0x10000 * (i + 1); backend := BACKEND_CUDA;
  uninit := mk_queue 0 0 0 0 0 0 0 0 0 0 false 0 0 0 0 |}.

(** One where the call number [n] fails. *)
Definition bad_env (n : nat) : Env := {|
  sys i := if decide (i = n) then ENOMEM else 0; mmap_ok _ := true; cap_reg _ := 0x3ff; sc_pagesize := 4096;
  io_addr _ i := 0x10000 * (i + 1); backend := BACKEND_CUDA;
  uninit := mk_queue 0 0 0 0 0 0 0 0 0 0 false 0 0 0 0 |}.

(** A controller (4), 20000 bytes allocated for it (8), and the same memory mapped again (10). *)
Definition demo_calls : list call := [CtrlInit 3; DmaCreate 4 20000; DmaRemap 8].

Definition after (E : Env) (cs : list call) : client * lib :=
  match @run_legal E (mk_client [] [] []) (lib_start 1) cs with
  | Some r => r | None => (mk_client [] [] [], lib_start 1)
  end.

Lemma demo_reach (E : Env) cs u s : @run_legal E (mk_client [] [] []) (lib_start 1) cs = Some (u, s) -> @reach E u s.
Proof. intros Hr. eapply (@run_legal_reach E); [|exact Hr]. by apply reach_start. Qed.

(** The demonstration and admin queues (11) in the mapped memory; then the controller is freed
    first, the handles after it and the admin queues last. *)
Definition release_calls : list call :=
  demo_calls ++ [AqCreate 4 8; CtrlFree 4; DmaUnmap 8; DmaUnmap 10; AqDestroy 11].


Lemma lib_no_leak_witness : l_heap (after good_env release_calls).2 = ∅.
Proof.
  apply (lib_no_leak (after good_env release_calls).2); [reflexivity|].
  apply (demo_reach good_env release_calls). vm_compute. reflexivity.
Defined.

(** The tenth system call is the allocation of the handle in [nvm_dma_create]. *)
Lemma lib_failure_undone_witness :
  let E := bad_env 9 in
  let r := after E [CtrlInit 3] in
  exists s', @do_call E r.1 (DmaCreate 4 20000) r.2 = Some (r.1, s') /\ l_heap s' = l_heap r.2.
Proof.
  intros E r.
  exists (match @do_call E r.1 (DmaCreate 4 20000) r.2 with Some (_, s') => s' | None => r.2 end).
  split; [vm_compute; reflexivity|].
  apply (@lib_failure_undone E r.1 r.2 (DmaCreate 4 20000)); [reflexivity| | |reflexivity|].
  - apply (demo_reach E [CtrlInit 3]). vm_compute. reflexivity.
  - apply (bool_decide_unpack _). vm_compute. exact I.
  - vm_compute. reflexivity.
Defined.

Lemma dma_handle_alive_witness :
  let r := after good_env (demo_calls ++ [CtrlFree 4; DmaUnmap 8]) in
  u_ctrls r.1 = [] /\
  exists kc m c v, l_heap r.2 !! 10 = Some (OCont kc) /\ l_heap r.2 !! k_map kc = Some (OMapping m) /\
    l_heap r.2 !! m_ctrl m = Some (OCtrl c) /\ l_heap r.2 !! m_va m = Some (OVa v) /\
    1 <= c_count c /\ cont_ok kc c v.
Proof.
  intros r. split; [vm_compute; reflexivity|].
  apply (dma_handle_alive r.1 r.2 10); [reflexivity| |].
  - apply (demo_reach good_env (demo_calls ++ [CtrlFree 4; DmaUnmap 8])). vm_compute. reflexivity.
  - assert (u_dmas r.1 = [10]) as -> by (vm_compute; reflexivity). left.
Defined.

Lemma remap_same_pages_witness :
  let r := after good_env [CtrlInit 3; DmaCreate 4 20000] in
  exists ok s', l_heap r.2 !! 8 = Some (OCont ok) /\ nvm_dma_remap 8 r.2 = Some ((0, 10), s') /\
  exists kc, l_heap s' !! 10 = Some (OCont kc) /\ k_map kc = k_map ok /\
    dma_n_ioaddrs (k_handle kc) = dma_n_ioaddrs (k_handle ok) /\
    dma_ioaddrs (k_handle kc) = u64 <$> dma_ioaddrs (k_handle ok).
Proof.
  intros r.
  exists (mk_cont 7 5 (mk_dma 5 true false 4096 5 [65536; 131072; 196608; 262144; 327680])).
  exists (match nvm_dma_remap 8 r.2 with Some (_, s') => s' | None => r.2 end).
  split; [vm_compute; reflexivity|]. split; [vm_compute; reflexivity|].
  eapply (remap_same_pages r.1 r.2 8); [reflexivity| | | |].
  - apply (demo_reach good_env [CtrlInit 3; DmaCreate 4 20000]). vm_compute. reflexivity.
  - apply (bool_decide_unpack (legal r.1 r.2 (DmaRemap 8))). vm_compute. exact I.
  - vm_compute. reflexivity.
  - vm_compute. reflexivity.
Defined.

(** A machine where BAR0 cannot be mapped. *)
Definition no_bar_env : Env := {|
  sys _ := 0; mmap_ok _ := false; cap_reg _ := 0x3ff; sc_pagesize := 4096;
  io_addr _ i := 0x10000 * (i + 1); backend := BACKEND_CUDA;
  uninit := mk_queue 0 0 0 0 0 0 0 0 0 0 false 0 0 0 0 |}.

(** [nvm_ctrl_init] compares the result of [mmap] with a null pointer; when [mmap] fails it
    returns [MAP_FAILED], the test does not see it, and the controller's registers are read
    through that pointer. *)
Theorem ctrl_init_map_failed : @nvm_ctrl_init no_bar_env 3 (lib_start 1) = None.
Proof. vm_compute. reflexivity. Qed.

(** A controller whose I/O queues have at most 64 entries (CAP.MQES = 63), and a machine whose
    allocator leaves ones in the memory it returns. *)
Definition small_env : Env := {|
  sys _ := 0; mmap_ok _ := true; cap_reg _ := 63; sc_pagesize := 4096;
  io_addr _ i := 0x10000 * (i + 1); backend := BACKEND_CUDA;
  uninit := mk_queue 1 1 1 1 1 1 1 1 1 1 true 1 1 1 1 |}.

(** [create_admin] does not look at the result of [nvm_queue_clear], which refuses queues
    larger than the I/O queues of the controller.  On a controller with less than 256 entries per
    queue [nvm_aq_create] succeeds, and the admin completion queue descriptor is whatever [malloc]
    left there. *)
Theorem admin_queue_uninitialised :
  let r := @after small_env [CtrlInit 3; DmaCreate 4 8192; AqCreate 4 8] in
  u_refs r.1 = [10] /\
  match l_heap r.2 !! 12 with
  | Some (OAdmin a) => la_acq a = @uninit small_env /\ q_qs (la_asq a) = 64
  | _ => False
  end.
Proof. vm_compute. repeat split; reflexivity. Qed.
