(* ===== verification/Ledger.v ===== *)
(** * What a user of libnvm owns

    A ledger lists the objects a caller has to give back.  [holds n L s] says that libnvm's objects
    are exactly accounted for by the ledger [L] and the pointers between them, and that [n] more
    objects can be allocated before a 32-bit reference count could overflow.  Each function of
    libnvm has one rule: what it takes from the ledger and what it adds. *)
From stdpp Require Import prelude gmap gmultiset list sorting.
From Stdlib Require Import ZArith Lia.
From S2P Require Import Prelude NvmTypes NvmUtil LibState Ctrl Dma LinuxDma Aq DmaSpec LibInv LibProofs LibApi AqProofs.
Local Open Scope Z_scope.

(** ** How many objects a function allocates at most *)

Definition grows {A} (n : Z) (m : M lib A) : Prop :=
  forall s a s', m s = Some (a, s') -> l_next s' <= l_next s + n.

Create HintDb grows discriminated.

Lemma grows_weaken {A} n n' (m : M lib A) : grows n m -> n <= n' -> grows n' m.
Proof. intros Hg Hn s a s' E. apply Hg in E. lia. Qed.

Lemma grows_ret {A} n (a : A) : 0 <= n -> grows n (mret a).
Proof. intros Hn s b s' [= _ ->]. lia. Qed.

Lemma grows_undefined {A} n : grows n (undefined : M lib A).
Proof. intros s a s' [=]. Qed.

Lemma grows_bind {A B} k n (m : M lib A) (f : A -> M lib B) :
  grows k m -> (forall a, grows (n - k) (f a)) -> grows n (m ≫= f).
Proof.
  intros Hm Hf s b s'. unfold mbind, M_bind. destruct (m s) as [[a s1]|] eqn:E; [|done].
  intros E'. apply Hm in E. apply Hf in E'. lia.
Qed.

Lemma grows_get : grows 0 get.
Proof. intros s a s' [= _ ->]. lia. Qed.
Lemma grows_gets {A} (f : lib -> A) : grows 0 (gets f).
Proof. intros s a s' [= _ ->]. lia. Qed.
Lemma grows_of_option {A} (o : option A) : grows 0 (of_option o).
Proof. destruct o; [by apply grows_ret|apply grows_undefined]. Qed.
#[export] Hint Resolve grows_get grows_gets grows_of_option : grows.

Section growth.
Context `{Env}.

Lemma grows_sys_call : grows 0 sys_call.
Proof. intros s a s' [= _ <-]. simpl. lia. Qed.
Lemma grows_new_obj o : grows 1 (new_obj o).
Proof. intros s a s' [= _ <-]. simpl. lia. Qed.
Lemma grows_store a o : grows 0 (store a o).
Proof. intros s b s' [= _ <-]. simpl. lia. Qed.
Lemma grows_deref {V} (proj : obj -> option V) a : grows 0 (deref proj a).
Proof.
  intros s b s'. unfold deref, mbind, M_bind, get.
  destruct (option_bind _ _ proj (l_heap s !! a)) as [v|]; [|intros [=]].
  intros [= _ <-]. lia.
Qed.
Lemma grows_free a : grows 0 (free a).
Proof.
  intros s b s'. unfold free. case_decide; [intros [= _ <-]; lia|].
  unfold mbind, M_bind, get. destruct (l_heap s !! a) as [[]|]; intros Heq; inversion Heq; simpl; lia.
Qed.
Lemma grows_close_fd fd : grows 0 (close_fd fd).
Proof. intros s b s' [= _ <-]. destruct (l_heap s !! fd) as [[]|]; simpl; lia. Qed.
Lemma grows_munmap mm : grows 0 (munmap mm).
Proof. intros s b s' [= _ <-]. destruct (l_heap s !! mm) as [[]|]; simpl; lia. Qed.
Lemma grows_read_cap mm : grows 0 (read_cap mm).
Proof.
  intros s b s'. unfold read_cap, mbind, M_bind, get. destruct (l_heap s !! mm) as [[]|]; try done.
  intros [= _ <-]. lia.
Qed.
Lemma grows_kmaps f : grows 0 (modify (fun s => set_kmaps s (f s))).
Proof. intros s b s' [= _ <-]. simpl. lia. Qed.
End growth.
#[export] Hint Resolve grows_sys_call grows_new_obj grows_store grows_deref grows_free grows_close_fd
  grows_munmap grows_read_cap grows_kmaps : grows.

(** [grow] walks through a function; the bounds of what it calls come from the hints. *)
Ltac grow :=
  intros; cbv beta zeta;
  lazymatch goal with
  | |- grows _ (mret _) => apply grows_ret; lia
  | |- grows _ undefined => apply grows_undefined
  | |- grows _ (if ?b then _ else _) => destruct b; grow
  | |- grows _ (_ ≫= _) =>
      first [ eapply grows_bind; [solve [eauto with grows nocore]|grow]
            | apply (grows_bind 0); [solve [grow]|grow]
            | apply (grows_bind 1); [solve [grow]|grow] ]
  | |- grows _ (match ?x with _ => _ end) => destruct x; grow
  | |- grows _ _ => eapply grows_weaken; [solve [eauto with grows nocore]|lia]
  end.

Section growth_calls.
Context `{Env}.

Lemma grows_malloc : grows 1 malloc.
Proof. unfold malloc. grow. Qed.
Lemma grows_mutex_init : grows 0 _nvm_mutex_init.
Proof. apply grows_sys_call. Qed.
Lemma grows_mutex_lock : grows 0 _nvm_mutex_lock.
Proof. by apply grows_ret. Qed.
Lemma grows_posix_memalign : grows 1 posix_memalign.
Proof. unfold posix_memalign. grow. Qed.
Hint Resolve grows_malloc grows_mutex_init grows_mutex_lock grows_posix_memalign : grows.

Lemma grows_remove_handle a : grows 0 (remove_handle a).
Proof. unfold remove_handle. grow. Qed.
Lemma grows_release_device a b c : grows 0 (release_device a b c).
Proof. unfold release_device. grow. Qed.
Hint Resolve grows_remove_handle grows_release_device : grows.
Lemma grows_ctrl_put a : grows 0 (_nvm_ctrl_put a).
Proof. unfold _nvm_ctrl_put. grow. Qed.
Lemma grows_ctrl_get a : grows 0 (_nvm_ctrl_get a).
Proof. unfold _nvm_ctrl_get. grow. Qed.
Lemma grows_ctrl_free a : grows 0 (nvm_ctrl_free a).
Proof. unfold nvm_ctrl_free. case_decide; [apply grows_ctrl_put|by apply grows_ret]. Qed.
Hint Resolve grows_ctrl_put grows_ctrl_get : grows.
Lemma grows_create_handle dev ops type : grows 1 (create_handle dev ops type).
Proof. unfold create_handle. grow. Qed.
Lemma grows_set_handle a h : grows 0 (set_handle a h).
Proof. unfold set_handle. grow. Qed.
Hint Resolve grows_create_handle grows_set_handle : grows.
Lemma grows__nvm_ctrl_init dev ops type mm size : grows 1 (_nvm_ctrl_init dev ops type mm size).
Proof. unfold _nvm_ctrl_init. grow. Qed.
Lemma grows_mmap : grows 1 mmap.
Proof. unfold mmap. grow. Qed.
Lemma grows_dup : grows 1 dup.
Proof. unfold dup. grow. Qed.
Lemma grows_last_errno : grows 0 last_errno.
Proof. apply grows_gets. Qed.
Hint Resolve grows__nvm_ctrl_init grows_mmap grows_dup grows_last_errno : grows.
Lemma grows_ctrl_init fd : grows 4 (nvm_ctrl_init fd).
Proof. unfold nvm_ctrl_init. grow. Qed.

Lemma grows_remove_md a : grows 0 (remove_mapping_descriptor a).
Proof. unfold remove_mapping_descriptor. grow. Qed.
Lemma grows_ioctl_map dev va : grows 0 (ioctl_map dev va).
Proof. unfold ioctl_map. grow. Qed.
Lemma grows_ioctl_unmap dev va : grows 0 (ioctl_unmap dev va).
Proof. unfold ioctl_unmap. grow. Qed.
Hint Resolve grows_remove_md grows_ioctl_map grows_ioctl_unmap : grows.
Lemma grows_call_release f va : grows 0 (call_release f va).
Proof. destruct f; simpl; [apply grows_free|apply grows_remove_md]. Qed.
Lemma grows_remove_map md : grows 0 (remove_map md).
Proof. unfold remove_map. grow. Qed.
Hint Resolve grows_call_release grows_remove_map : grows.
Lemma grows_put_map md : grows 0 (put_map md).
Proof. unfold put_map. grow. Qed.
Lemma grows_get_map md : grows 0 (get_map md).
Proof. unfold get_map. grow. Qed.
Lemma grows_create_map ctrl va f : grows 1 (create_map ctrl va f).
Proof. unfold create_map. grow. Qed.
Lemma grows_create_container md : grows 1 (create_container md).
Proof. unfold create_container. grow. Qed.
Lemma grows_dma_map k : grows 1 (dma_map k).
Proof. unfold dma_map. grow. Qed.
Hint Resolve grows_put_map grows_get_map grows_create_map grows_create_container grows_dma_map : grows.
Lemma grows_dma_init ctrl va f : grows 3 (_nvm_dma_init ctrl va f).
Proof. unfold _nvm_dma_init. grow. Qed.
Lemma grows_remove_container k : grows 0 (remove_container k).
Proof. unfold remove_container. grow. Qed.
Lemma grows_create_md ps type buffer size : grows 1 (create_mapping_descriptor ps type buffer size).
Proof. unfold create_mapping_descriptor. grow. Qed.
Hint Resolve grows_dma_init grows_remove_container grows_create_md : grows.
Lemma grows_init_or_remove ctrl md : grows 3 (init_or_remove ctrl md).
Proof. unfold init_or_remove. grow. Qed.
Hint Resolve grows_init_or_remove : grows.
Lemma grows_unmap k : grows 0 (nvm_dma_unmap k).
Proof. unfold nvm_dma_unmap. grow. Qed.
Lemma grows_remap k : grows 1 (nvm_dma_remap k).
Proof. unfold nvm_dma_remap. grow. Qed.
Hint Resolve grows_unmap grows_remap : grows.
Lemma grows_map_host ctrl vaddr size : grows 4 (nvm_dma_map_host ctrl vaddr size).
Proof. unfold nvm_dma_map_host. grow. Qed.
Lemma grows_map_device hip ctrl devptr size : grows 5 (nvm_dma_map_device hip ctrl devptr size).
Proof. unfold nvm_dma_map_device, map_device_hip, open_dmabuf, close_dmabuf. grow. Qed.

Lemma grows_remove_admin a : grows 0 (remove_admin a).
Proof. unfold remove_admin. grow. Qed.
Hint Resolve grows_remove_admin : grows.
Lemma grows_free_binding f a : grows 0 (free_binding f a).
Proof. destruct f; simpl; [apply grows_remove_admin|by apply grows_ret]. Qed.
Hint Resolve grows_free_binding : grows.
Lemma grows_ref_put a : grows 0 (_nvm_ref_put a).
Proof. unfold _nvm_ref_put. grow. Qed.
Lemma grows_ref_get a : grows 1 (_nvm_ref_get a).
Proof. unfold _nvm_ref_get. grow. Qed.
Lemma grows_create_admin ctrl window : grows 2 (create_admin ctrl window).
Proof. unfold create_admin. grow. Qed.
Hint Resolve grows_ref_put grows_ref_get grows_create_admin : grows.
Lemma grows_aq_create ctrl window : grows 3 (nvm_aq_create ctrl window).
Proof. unfold nvm_aq_create. grow. Qed.
Lemma grows_aq_destroy a : grows 0 (nvm_aq_destroy a).
Proof. unfold nvm_aq_destroy. grow. Qed.
End growth_calls.

(** ** Ledgers *)

(** A controller, a DMA handle of at least [n] pages, an admin queue reference, a buffer. *)
Inductive res := RCtrl (a : Z) | RDma (n a : Z) | RRef (a : Z) | RBuf (a : Z).

Definition addr (r : res) : Z := match r with RCtrl a | RDma _ a | RRef a | RBuf a => a end.

Definition owed (L : list res) (a : Z) : Z := occ a (addr <$> L).

Lemma owed_cons r L x : owed (r :: L) x = owed L x + at_ (addr r) x.
Proof. apply occ_cons. Qed.

Lemma owed_perm L L' x : L ≡ₚ L' -> owed L x = owed L' x.
Proof. intros Hp. induction Hp; rewrite ?owed_cons; lia. Qed.

Lemma owed_pos r L : r ∈ L -> 1 <= owed L (addr r).
Proof. intros Hr. apply occ_pos, list_elem_of_fmap. eauto. Qed.

Lemma owed_not L a : a ∉ addr <$> L -> owed L a = 0.
Proof.
  unfold owed. induction (addr <$> L) as [|b l IH]; intros Hn; [done|].
  apply not_elem_of_cons in Hn as [Hne Hn]. rewrite occ_cons, at_ne by done. rewrite (IH Hn). lia.
Qed.

Lemma owed_le_1 L a : NoDup (addr <$> L) -> owed L a <= 1.
Proof.
  unfold owed. induction (addr <$> L) as [|b l IH]; intros Hnd; [unfold occ; simpl; lia|].
  apply NoDup_cons in Hnd as [Hb Hnd]. rewrite occ_cons. specialize (IH Hnd).
  unfold at_. case_decide as Ha; [|lia]. subst.
  destruct (decide (occ b l = 0)) as [->|Hne]; [lia|]. exfalso. apply Hb.
  clear -Hne. induction l as [|c l IH]; [done|]. rewrite occ_cons in Hne. unfold at_ in Hne.
  case_decide; [subst; by left|]. right. apply IH. lia.
Qed.

Section ledger.
Context `{Env}.

Definition live (s : lib) (r : res) : Prop :=
  match r with
  | RCtrl a => exists c, l_heap s !! a = Some (OCtrl c) /\ 0 < ctrl_page_size (c_handle c) /\
      ctrl_page_size (c_handle c) = sc_pagesize /\ c_device c <> NULL
  | RDma n a => exists k, l_heap s !! a = Some (OCont k) /\ n <= dma_n_ioaddrs (k_handle k) /\
      dma_page_size (k_handle k) = sc_pagesize /\ dma_ok (k_handle k)
  | RRef a => exists r c, l_heap s !! a = Some (ORef r) /\ ref_stub r = Some EXECUTE_COMMAND /\
      l_heap s !! ref_ctrl r = Some (OCtrl c) /\ 0 < ctrl_page_size (c_handle c) /\ c_device c <> NULL
  | RBuf a => l_heap s !! a = Some OBuf
  end.

Record holds (n : Z) (L : list res) (s : lib) : Prop := {
  ho_inv : lib_inv (owed L) s;
  ho_live : Forall (live s) L;
  ho_nodup : NoDup (addr <$> L);
  ho_room : l_next s + n <= 2 ^ 31;
}.

#[export] Instance holds_proper n : Proper ((≡ₚ) ==> eq ==> iff) (holds n).
Proof.
  assert (forall L L' s, L ≡ₚ L' -> holds n L s -> holds n L' s) as Himp.
  { intros L L' s Hp [Hi Hl Hn Hr]. constructor; [|by rewrite <- Hp..|done].
    eapply hinv_eq; [exact Hi|]. intros x. symmetry. by apply owed_perm. }
  intros L L' Hp s s' ->. split; apply Himp; [done|by symmetry].
Qed.

Lemma holds_weaken n n' L s : holds n L s -> n' <= n -> holds n' L s.
Proof. intros [Hi Hl Hn Hr] Hle. constructor; try done. lia. Qed.

Lemma holds_live n L s r : holds n L s -> r ∈ L -> live s r.
Proof. intros [_ Hl _ _] Hr. by eapply Forall_forall in Hl. Qed.

(** Nothing is left when nothing is owed. *)
Lemma holds_nil n s : holds n [] s -> l_heap s = ∅.
Proof. intros [Hi _ _ _]. by eapply hinv_no_leak. Qed.

Lemma holds_start n next : 0 < next -> next + n <= 2 ^ 31 -> holds n [] (mk_lib 0 next ∅ ∅).
Proof. intros Hn Hr. constructor; [constructor; simpl; done|constructor..|done]. Qed.

(** ** Room in the reference counts *)

Lemma heap_size ext next h : hinv ext next h -> Z.of_nat (size h) <= next - 1.
Proof.
  intros Hinv. pose proof (h_next _ _ _ Hinv) as Hn.
  assert (dom h ⊆ list_to_set (C := gset Z) (seqZ 1 (next - 1))) as Hsub.
  { intros a Ha. apply elem_of_dom in Ha as [o Ho]. apply (h_dom _ _ _ Hinv) in Ho.
    apply elem_of_list_to_set, elem_of_seqZ. lia. }
  apply subseteq_size in Hsub. rewrite size_dom in Hsub.
  rewrite size_list_to_set in Hsub by apply NoDup_seqZ. rewrite length_seqZ in Hsub. lia.
Qed.

Lemma count_size {V} (P : V -> Prop) `{!forall v, Decision (P v)} (m : gmap Z V) :
  count P m <= Z.of_nat (size m).
Proof.
  unfold count. apply inj_le. rewrite <- !(size_dom (D := gset Z)).
  apply subseteq_size, subseteq_dom, map_filter_subseteq.
Qed.

Lemma holds_weight n L s a o : holds n L s -> 0 <= n -> l_heap s !! a = Some o -> weight o < 2 ^ 32 - 1.
Proof.
  intros [Hi _ Hn Hr] H0 Ha. pose proof (h_dom _ _ _ Hi _ _ Ha).
  pose proof (h_refs _ _ _ Hi a ltac:(unfold NULL; lia)) as Hc. unfold wt in Hc. rewrite Ha in Hc.
  pose proof (count_size (points a) (l_heap s)). pose proof (heap_size _ _ _ Hi).
  pose proof (owed_le_1 L a Hn). lia.
Qed.

(** ** Changing the ledger *)

Lemma live_frame L' s s' r :
  lib_inv (owed L') s' -> (forall a o, l_heap s !! a = Some o -> 0 < a) -> frame (l_heap s) (l_heap s') ->
  r ∈ L' -> live s r -> live s' r.
Proof.
  intros Hi Hpos Hf Hr Hl. pose proof (owed_pos r L' Hr) as Ho.
  assert (forall o, l_heap s !! addr r = Some o -> exists o', l_heap s' !! addr r = Some o' /\ same o o') as Hk.
  { intros o Ha. eapply frame_held; [exact Hi|done|done|by eapply Hpos|done]. }
  destruct r as [a|n a|a|a]; simpl in *.
  - destruct Hl as (c & Hc & Hps). destruct (Hk _ Hc) as (o & Ha & Hs). destruct o; try done.
    eexists. split; [done|]. destruct Hs as (-> & -> & _). done.
  - destruct Hl as (k & Hc & Hps). destruct (Hk _ Hc) as (o & Ha & Hs). destruct o; try done.
    simpl in Hs. injection Hs as <-. eauto.
  - destruct Hl as (k & c & Hc & Hst & Hcc & Hps). destruct (Hk _ Hc) as (o & Ha & Hs). destruct o; try done.
    simpl in Hs. injection Hs as <-. destruct (h_ok _ _ _ Hi _ _ Ha) as ((c' & Hc') & _).
    exists k, c'. split; [done|]. split; [done|]. split; [done|].
    destruct (Hf _ _ Hc') as [Hnone|(o & Hoc & Hs)]; [congruence|]. rewrite Hcc in Hoc.
    injection Hoc as <-. by destruct Hs as (-> & -> & _).
  - destruct (Hk _ Hl) as (o & Ha & Hs). by destruct o.
Qed.

Lemma holds_frame n k L L' s s' :
  holds (n + k) L s -> lib_inv (owed L') s' -> frame (l_heap s) (l_heap s') ->
  Forall (fun r => r ∈ L \/ live s' r) L' -> NoDup (addr <$> L') -> l_next s' <= l_next s + k ->
  holds n L' s'.
Proof.
  intros [Hi Hl Hn Hr] Hi' Hf HL Hn' Hk. constructor; [done| |done|lia].
  apply Forall_forall. intros r Hin. eapply Forall_forall in HL; [|exact Hin]. destruct HL as [HrL|]; [|done].
  eapply live_frame; [exact Hi'| |exact Hf|done|by eapply Forall_forall in Hl].
  intros a o Ha. apply (h_dom _ _ _ Hi) in Ha. lia.
Qed.

Lemma holds_unchanged n k L s s' :
  holds (n + k) L s -> unchanged s s' -> l_next s' <= l_next s + k -> holds n L s'.
Proof.
  intros [Hi Hl Hn Hr] [Hh Hle] Hk. constructor; [|by (unfold live in *; rewrite Hh)|done|lia].
  unfold lib_inv. rewrite Hh. by eapply hinv_mono.
Qed.

(** A fresh object with one reference. *)
Lemma holds_new n k L s s' r :
  holds (n + k) L s -> lib_inv (plus_ (owed L) (addr r)) s' -> frame (l_heap s) (l_heap s') ->
  live s' r -> (l_heap s !! addr r = None \/ exists o, l_heap s' !! addr r = Some o /\ weight o = 1) ->
  l_next s' <= l_next s + k -> holds n (r :: L) s'.
Proof.
  intros Hh Hi Hf Hl Hfresh Hk. assert (owed L (addr r) = 0) as H0.
  { pose proof Hh as [HiL _ _ _]. destruct Hfresh as [Hnone|(o & Ho & Hw)].
    - destruct (decide (owed L (addr r) = 0)) as [|Hne]; [done|].
      pose proof (h_ext _ _ _ HiL (addr r)).
      destruct (decide (addr r = NULL)) as [E|HN].
      + destruct (list_elem_of_dec (addr r) (addr <$> L)) as [Hin|Hnin]; [|by rewrite owed_not in Hne].
        apply list_elem_of_fmap in Hin as (r' & E' & Hin). apply (holds_live _ _ _ _ Hh) in Hin.
        destruct r'; simpl in *; [destruct Hin as (? & Hin & _)|destruct Hin as (? & Hin & _)
          |destruct Hin as (? & ? & Hin & _)|]; congruence.
      + pose proof (h_refs _ _ _ HiL (addr r) HN) as Hc. unfold wt in Hc. rewrite Hnone in Hc.
        pose proof (count_nonneg (points (addr r)) (l_heap s)). lia.
    - pose proof (hinv_weight _ _ _ _ _ Hi Ho). unfold plus_ in *. rewrite at_eq in *.
      pose proof (h_ext _ _ _ HiL (addr r)). lia. }
  eapply (holds_frame n k L); [done| |done| | |done].
  - eapply hinv_eq; [exact Hi|]. intros x. apply owed_cons.
  - constructor; [by right|]. apply Forall_forall. by left.
  - apply NoDup_cons. split; [|apply Hh]. intros Hin. apply list_elem_of_fmap in Hin as (r' & E & Hin).
    pose proof (owed_pos _ _ Hin). rewrite <- E in *. lia.
Qed.

(** What is given back leaves the ledger. *)
Lemma holds_drop n L s s' r :
  holds n (r :: L) s -> lib_inv (minus_ (owed (r :: L)) (addr r)) s' ->
  frame (l_heap s) (l_heap s') -> l_next s' <= l_next s + 0 -> holds n L s'.
Proof.
  intros Hh Hi Hf Hk. eapply (holds_frame n 0 (r :: L)); [by rewrite Z.add_0_r| |done| | |done].
  - eapply hinv_eq; [exact Hi|]. intros x. unfold minus_. rewrite owed_cons. lia.
  - apply Forall_forall. intros r' Hr. left. by right.
  - destruct Hh as [_ _ Hn _]. by apply NoDup_cons in Hn as [_ Hn].
Qed.

Lemma holds_owed n r L s : holds n (r :: L) s -> owed (r :: L) (addr r) = 1.
Proof.
  intros [_ _ Hn _]. pose proof (owed_le_1 _ (addr r) Hn). 
  pose proof (owed_pos r (r :: L) ltac:(left)). lia.
Qed.

(** ** The rules *)

Lemma wp_grows {A} k (m : M lib A) Q (s : lib) :
  grows k m -> wp m (fun a s' => l_next s' <= l_next s + k -> Q a s') s -> wp m Q s.
Proof.
  intros Hg. unfold wp. destruct (m s) as [[a s']|] eqn:E; [|done]. intros HQ. apply HQ. by eapply Hg.
Qed.

Lemma ho_ctrl_init n L fd Q (s : lib) :
  (forall i, mmap_ok i = true) -> holds (n + 4) L s ->
  (forall err s', err <> 0 -> holds n L s' -> Q (err, NULL) s') ->
  (forall a s', holds n (RCtrl a :: L) s' -> Q (0, a) s') -> wp (nvm_ctrl_init fd) Q s.
Proof.
  intros Hmmap Hh Herr Hok. eapply wp_grows; [apply grows_ctrl_init|].
  eapply wp_nvm_ctrl_init; [done|apply Hh|]. intros [err a] s' Hnew Hk. unfold new_ctrl in Hnew. simpl in *.
  destruct (decide (err = 0)) as [->|Hne].
  - destruct Hnew as (Hi & _ & Hfr & Hf & Hl). apply Hok. eapply (holds_new n 4 L s s' (RCtrl a)); eauto.
  - destruct Hnew as [-> Hu]. apply Herr; [done|]. by eapply holds_unchanged.
Qed.

Lemma ho_ctrl_free n L a Q (s : lib) :
  holds n (RCtrl a :: L) s -> (forall s', holds n L s' -> Q tt s') -> wp (nvm_ctrl_free a) Q s.
Proof.
  intros Hh HQ. eapply wp_grows; [apply grows_ctrl_free|].
  destruct (holds_live n _ s (RCtrl a) Hh ltac:(left)) as (c & Hc & _).
  pose proof (holds_owed n (RCtrl a) L s Hh) as Ho. simpl in Ho.
  eapply wp_nvm_ctrl_free; [apply Hh|done|lia|].
  intros s' Hi Hf Hk. apply HQ. by eapply (holds_drop n L s s' (RCtrl a)).
Qed.

Lemma new_dma_holds n k L c s r s' m Q :
  holds (n + k) L s -> ctrl_page_size (c_handle c) = sc_pagesize -> new_dma (owed L) c s r s' -> l_next s' <= l_next s + k ->
  (forall kc, fst r = 0 -> l_heap s' !! snd r = Some (OCont kc) -> m <= dma_n_ioaddrs (k_handle kc)) ->
  (forall err, err <> 0 -> holds n L s' -> Q (err, NULL) s') ->
  (forall a, holds n (RDma m a :: L) s' -> Q (0, a) s') -> Q r s' : Prop.
Proof.
  intros Hh Hsc Hnew Hk Hm Herr Hok. unfold new_dma in Hnew. destruct r as [err a]. simpl in *.
  destruct (decide (err = 0)) as [->|Hne].
  - destruct Hnew as (Hi & _ & Hfr & Hf & kc & Hkc & Hps & Hdma). apply Hok.
    eapply (holds_new n k L s s' (RDma m a)); [done|done|done| |by left|done]. exists kc. split; [done|].
    split; [by apply Hm|]. by rewrite Hps.
  - destruct Hnew as [-> Hu]. apply Herr; [done|]. by eapply holds_unchanged.
Qed.

(** The number of pages of a mapping of [m] controller pages. *)
Lemma host_pages c m :
  is_pow2 (ctrl_page_size (c_handle c)) -> 0 <= m -> ctrl_page_size (c_handle c) * (m + 1) < 2 ^ 64 ->
  let ps := ctrl_page_size (c_handle c) in
  let size := NVM_CTRL_ALIGN (c_handle c) (u64 (ps * m)) in
  n_ctrl_pages (c_handle c) ps (NVM_PAGE_ALIGN size ps / ps) = m.
Proof.
  intros Hp Hm Hlt. cbv zeta. set (ps := ctrl_page_size (c_handle c)) in *.
  pose proof (is_pow2_pos _ Hp). assert (0 <= ps * m) by nia.
  assert (NVM_PAGE_ALIGN (ps * m) ps = ps * m) as Ha.
  { rewrite page_align_val by (done || nia). rewrite (Z.mul_comm ps m), cdiv_mul by done. done. }
  rewrite wrap_small by (unfold fits; nia). unfold NVM_CTRL_ALIGN. fold ps.
  rewrite !Ha. unfold n_ctrl_pages. fold ps.
  rewrite (Z.mul_comm ps m), Z.div_mul by lia. rewrite wrap_small by (unfold fits; nia).
  rewrite (Z.mul_comm ps m), Z.div_mul by lia. done.
Qed.

Lemma ho_map_host n L ctrl c vaddr m Q (s : lib) :
  is_pow2 sc_pagesize -> sc_pagesize < 2 ^ 60 -> 0 <= m < 8 -> 0 <= n ->
  holds (n + 4) L s -> RCtrl ctrl ∈ L ->
  l_heap s !! ctrl = Some (OCtrl c) ->
  (forall err s', err <> 0 -> holds n L s' -> Q (err, NULL) s') ->
  (forall a s', holds n (RDma m a :: L) s' -> Q (0, a) s') ->
  wp (nvm_dma_map_host ctrl vaddr (u64 (ctrl_page_size (c_handle c) * m))) Q s.
Proof.
  intros Hp Hlt Hm Hn Hh Hin Hc Herr Hok. eapply wp_grows; [apply grows_map_host|].
  destruct (holds_live _ _ _ _ Hh Hin) as (c' & Hc' & Hps & Hsc & _). rewrite Hc in Hc'. injection Hc' as <-.
  eapply wp_nvm_dma_map_host; [apply Hh|done| |done|].
  { apply (holds_weight (n + 4) L s ctrl (OCtrl c)); [done|lia|done]. }
  intros r s' Hnew Hmap Hk. eapply (new_dma_holds n 4 L c s r s' m Q); [done..| | |]; eauto.
  intros kc H0 Hkc. rewrite (Hmap H0 kc Hkc). rewrite host_pages; [lia|by rewrite Hsc|lia|nia].
Qed.

(** GPU memory is mapped in pages that hold whole controller pages, so the mapping covers it. *)
Lemma gpu_pages c size :
  is_pow2 sc_pagesize -> sc_pagesize <= 2 ^ 16 -> 0 <= size < 2 ^ 63 ->
  ctrl_page_size (c_handle c) = sc_pagesize ->
  cdiv size sc_pagesize <=
    n_ctrl_pages (c_handle c) gpu_page_size (NVM_PAGE_ALIGN size gpu_page_size / gpu_page_size).
Proof.
  intros Hp Hle Hs Hc. pose proof (is_pow2_pos _ Hp).
  assert (is_pow2 gpu_page_size /\ (sc_pagesize | gpu_page_size) /\ gpu_page_size <= 2 ^ 16) as (Hg & [q Hq] & Hg16).
  { unfold gpu_page_size, hip_page_size. destruct backend; [|done..].
    assert (is_pow2 (2 ^ 16)) by (by exists 16). split; [done|]. split; [by apply is_pow2_divide|done]. }
  pose proof (is_pow2_pos _ Hg) as Hg0. pose proof (cdiv_spec size gpu_page_size Hg0) as Hd.
  rewrite page_align_val, Z.div_mul by (done || lia). unfold n_ctrl_pages. rewrite Hc.
  assert (0 <= cdiv size gpu_page_size) by (apply Z.div_pos; lia).
  rewrite wrap_small by (unfold fits; nia).
  replace (gpu_page_size * cdiv size gpu_page_size) with (q * cdiv size gpu_page_size * sc_pagesize) by (rewrite Hq; lia).
  rewrite Z.div_mul by lia. apply cdiv_le; nia.
Qed.

Lemma ho_map_device m n L hip ctrl devptr size Q (s : lib) :
  m <= 0 \/ is_pow2 sc_pagesize /\ sc_pagesize <= 2 ^ 16 /\ 0 <= size < 2 ^ 63 /\ m <= cdiv size sc_pagesize ->
  0 <= n -> holds (n + 5) L s -> RCtrl ctrl ∈ L ->
  (forall err s', err <> 0 -> holds n L s' -> Q (err, NULL) s') ->
  (forall a s', holds n (RDma m a :: L) s' -> Q (0, a) s') ->
  wp (nvm_dma_map_device hip ctrl devptr size) Q s.
Proof.
  intros Hm Hn Hh Hin Herr Hok. eapply wp_grows; [apply grows_map_device|].
  destruct (holds_live _ _ _ _ Hh Hin) as (c & Hc & Hps & Hsc & _).
  eapply wp_nvm_dma_map_device; [apply Hh|done| |done|].
  { apply (holds_weight (n + 5) L s ctrl (OCtrl c)); [done|lia|done]. }
  intros r s' Hnew Hmap Hk. eapply (new_dma_holds n 5 L c s r s' m Q); [done..| | |]; eauto.
  intros kc H0 Hkc. rewrite (Hmap H0 kc Hkc). destruct Hm as [Hm|(Hp & Hle & Hs & Hm)].
  - pose proof (n_ctrl_pages_nonneg (c_handle c) gpu_page_size (NVM_PAGE_ALIGN size gpu_page_size / gpu_page_size) Hps). lia.
  - pose proof (gpu_pages c size Hp Hle Hs Hsc). lia.
Qed.

Lemma ho_unmap n m L a Q (s : lib) :
  holds n (RDma m a :: L) s -> (forall s', holds n L s' -> Q tt s') -> wp (nvm_dma_unmap a) Q s.
Proof.
  intros Hh HQ. eapply wp_grows; [apply grows_unmap|].
  destruct (holds_live n _ s (RDma m a) Hh ltac:(left)) as (k & Hk & _).
  pose proof (holds_owed n (RDma m a) L s Hh) as Ho. simpl in Ho.
  pose proof (h_dom _ _ _ (ho_inv _ _ _ Hh) _ _ Hk). unfold nvm_dma_unmap.
  rewrite decide_True by (unfold NULL; lia).
  eapply wp_remove_container; [apply Hh|done|done|].
  intros s' Hi Hf Hle. apply HQ. by eapply (holds_drop n L s s' (RDma m a)).
Qed.

Lemma ho_aq_create n m L ctrl window Q (s : lib) :
  0 <= n -> holds (n + 3) L s -> RCtrl ctrl ∈ L -> RDma m window ∈ L ->
  (forall err s', err <> 0 -> holds n L s' -> Q (err, NULL) s') ->
  (forall a s', holds n (RRef a :: L) s' -> Q (0, a) s') -> wp (nvm_aq_create ctrl window) Q s.
Proof.
  intros Hn Hh Hin Hw Herr Hok. eapply wp_grows; [apply grows_aq_create|].
  destruct (holds_live _ _ _ _ Hh Hin) as (c & Hc & Hps & _ & Hdev). destruct (holds_live _ _ _ _ Hh Hw) as (k & Hk & _).
  destruct (h_ok _ _ _ (ho_inv _ _ _ Hh) _ _ Hk) as (md & cm & v & Hmd & _).
  eapply wp_nvm_aq_create; [apply Hh|done| |done|done| |].
  { apply (holds_weight (n + 3) L s ctrl (OCtrl c)); [done|lia|done]. }
  { apply (holds_weight (n + 3) L s (k_map k) (OMapping md)); [done|lia|done]. }
  intros [err a] s' Hnew Hle. unfold new_ref in Hnew. simpl in *. destruct (decide (err = 0)) as [->|Hne].
  - destruct Hnew as (Hi & Hf & o & ad & Ho & Hst & _ & Hrc). apply Hok.
    eapply (holds_new n 3 L s s' (RRef a)); [done|done|done| |right; by eexists|done].
    destruct (h_ok _ _ _ Hi _ _ Ho) as ((c' & Hc') & _). exists o, c'. do 3 (split; [done|]).
    rewrite Hrc in Hc'. destruct (Hf _ _ Hc') as [Hnone|(o' & Ho' & Hs)]; [congruence|].
    rewrite Hc in Ho'. injection Ho' as <-. by destruct Hs as (-> & -> & _).
  - destruct Hnew as [-> Hu]. apply Herr; [done|]. by eapply holds_unchanged.
Qed.

Lemma ho_aq_destroy n L a Q (s : lib) :
  holds n (RRef a :: L) s -> (forall s', holds n L s' -> Q tt s') -> wp (nvm_aq_destroy a) Q s.
Proof.
  intros Hh HQ. eapply wp_grows; [apply grows_aq_destroy|].
  destruct (holds_live n _ s (RRef a) Hh ltac:(left)) as (r & c & Hr & _).
  pose proof (holds_owed n (RRef a) L s Hh) as Ho. simpl in Ho.
  pose proof (h_dom _ _ _ (ho_inv _ _ _ Hh) _ _ Hr). unfold nvm_aq_destroy.
  rewrite decide_True by (unfold NULL; lia).
  eapply wp_ref_put; [apply Hh|done|done|].
  intros s' Hi Hf Hle. apply HQ. by eapply (holds_drop n L s s' (RRef a)).
Qed.

Lemma ho_memalign n L Q (s : lib) :
  holds (n + 1) L s -> (forall err s', err <> 0 -> holds n L s' -> Q (err, NULL) s') ->
  (forall a s', a <> NULL -> holds n (RBuf a :: L) s' -> Q (0, a) s') -> wp posix_memalign Q s.
Proof.
  intros Hh Herr Hok. eapply wp_grows; [apply grows_posix_memalign|].
  apply wp_bind, wp_sys_call. intros s1 [Hn1 Hh1]. case_decide.
  - apply wp_ret. intros Hk. apply Herr; [done|]. eapply holds_unchanged; [done| |done]. split; [done|lia].
  - apply wp_bind, wp_new_obj. intros s2 [Hn2 Hh2]. apply wp_ret. intros Hk. rewrite Hn1, Hh1 in *.
    pose proof (ho_inv _ _ _ Hh) as Hi. pose proof (h_next _ _ _ Hi). pose proof (hinv_next _ _ _ Hi) as Hfr.
    apply Hok; [unfold NULL; lia|].
    eapply (holds_new n 1 L s s2 (RBuf (l_next s))); [done| | | |by left|done].
    + unfold lib_inv. rewrite Hn2, Hh2. by apply hinv_new.
    + rewrite Hh2. apply frame_fresh; [apply frame_refl|done].
    + simpl. rewrite Hh2. apply lookup_insert_eq.
Qed.

Lemma ho_free n L a Q (s : lib) :
  holds n (RBuf a :: L) s -> (forall s', holds n L s' -> Q tt s') -> wp (free a) Q s.
Proof.
  intros Hh HQ. eapply wp_grows; [apply grows_free|].
  pose proof (holds_live n _ s (RBuf a) Hh ltac:(left)) as Ha. simpl in Ha.
  pose proof (holds_owed n (RBuf a) L s Hh) as Ho. simpl in Ho.
  pose proof (h_dom _ _ _ (ho_inv _ _ _ Hh) _ _ Ha).
  eapply (wp_free a OBuf); [unfold NULL; lia|done|done|]. intros s' [Hn' Hh'] Hle. apply HQ.
  eapply (holds_drop n L s s' (RBuf a)); [done| | |done].
  - unfold lib_inv. rewrite Hn', Hh'. eapply hinv_delete_one; [apply Hh|done|done|done|].
    intros x. unfold minus_. simpl addr. rewrite (ptr_in OBuf []), in_nil by done. lia.
  - rewrite Hh'. intros b o' Hb. apply lookup_delete_Some in Hb as [_ Hb]. right. exists o'.
    split; [done|apply same_refl].
Qed.
End ledger.
