(* ===== verification/UgdsApi.v ===== *)
(** * A user of uGDS

    The lifetime functions of uGDS proved against the ledger: whatever fails, each of them is
    defined, gives back what it took when it fails, and what the library owns in between is exactly
    what the registered handles and buffers account for. *)
From stdpp Require Import prelude gmap gmultiset list sorting.
From Stdlib Require Import ZArith Lia.
From S2P Require Import Prelude NvmTypes NvmUtil NvmError NvmQueue NvmCmd NvmDevice Admin AdminSpec UgdsTypes.
From S2P Require Import LibState Ctrl Dma LinuxDma Aq Rpc UgdsHandle LibInv LibProofs Ledger.
Local Open Scope Z_scope.
Local Open Scope ugds_scope.

Section api.
Context `{Env} {E : Type} `{Device E, HostMem E}.

(** ** Lifting *)

(** The library's own state is untouched. *)
Definition kept (g g' : ugds E) : Prop :=
  g_driver g' = g_driver g /\ g_handles g' = g_handles g /\ g_next g' = g_next g.

#[export] Instance kept_preorder : PreOrder kept.
Proof.
  split; [by intros g|]. intros g1 g2 g3 (? & ? & ?) (? & ? & ?). repeat split; congruence.
Qed.

Lemma wp_on_lib {A} (m : M lib A) Q (g : ugds E) :
  wp m (fun a l => Q a (g_set_lib g l)) (g_lib g) -> wp (on_lib m) Q g.
Proof. unfold wp, on_lib. by destruct (m (g_lib g)) as [[a l]|]. Qed.

Lemma wp_get {S} (Q : S -> S -> Prop) s : Q s s -> wp get Q s.
Proof. done. Qed.

Lemma kept_lib g l : kept g (g_set_lib g l).
Proof. done. Qed.

Lemma wp_memset ptr n Q (g : ugds E) :
  (forall g', g_lib g' = g_lib g -> kept g g' -> Q tt g') -> wp (memset ptr n) Q g.
Proof. intros HQ. by apply HQ. Qed.

(** ** Admin commands *)

Lemma execute_command_total cmd cpl (st : @adm_st E) :
  exists r st', execute_command cmd cpl st = Some (r, st') /\
    la_qmem (a_admin st') = la_qmem (a_admin st).
Proof.
  unfold execute_command. destruct (nvm_sq_enqueue _) as [[a|] asq]; [|by eexists _, _].
  set (st1 := adm_submit _).
  assert (la_qmem (a_admin st1) = la_qmem (a_admin st)) as Hq.
  { subst st1. unfold adm_submit. by destruct (nvm_sq_submit _) as [[]]. }
  destruct (dequeue_block_returns dev_cpl dev_tick (la_acq (a_admin st1)) (la_timeout (a_admin st)) (a_dev st1))
    as (r & -> & _).
  destruct r as [[[c|] acq] dev]; eexists _, _; (split; [done|]); [|done].
  unfold adm_consume. by destruct (nvm_cq_update _) as [[]].
Qed.

(** Updating the descriptors of an admin queue pair. *)
Lemma holds_admin n L s a ad ad' :
  holds n L s -> l_heap s !! a = Some (OAdmin ad) -> la_qmem ad' = la_qmem ad ->
  holds n L (set_heap s (<[a := OAdmin ad']> (l_heap s))).
Proof.
  intros [Hi Hl Hn Hr] Ha Hq. constructor; [| |done|done].
  - eapply (hinv_update _ _ _ a (OAdmin ad)); [exact Hi|done|done| | | |].
    + simpl. rewrite Hq. apply (h_ok _ _ _ Hi _ _ Ha).
    + simpl. by rewrite Hq.
    + intros x _. simpl. lia.
    + apply (h_ext _ _ _ Hi).
  - eapply Forall_impl; [exact Hl|]. intros r Hr'.
    assert (forall b o, l_heap s !! b = Some o -> (forall x, o <> OAdmin x) ->
      <[a := OAdmin ad']> (l_heap s) !! b = Some o) as Hk.
    { intros b o Hb Ho. rewrite lookup_insert_ne; [done|]. intros <-. rewrite Ha in Hb.
      injection Hb as <-. by eapply Ho. }
    destruct r; simpl in *.
    + destruct Hr' as (c & Hc & Hrest). exists c. split; [by apply Hk|done].
    + destruct Hr' as (c & Hc & Hrest). exists c. split; [by apply Hk|done].
    + destruct Hr' as (r & c & Hc & Hst & Hcc & Hrest). exists r, c.
      split; [by apply Hk|]. split; [done|]. split; [by apply Hk|done].
    + by apply Hk.
Qed.

(** DMA handles are untouched. *)
Definition conts_kept (s s' : lib) : Prop :=
  forall a k, l_heap s !! a = Some (OCont k) -> l_heap s' !! a = Some (OCont k).

Section with_ledger.
Context (n : Z) (L : list res).

Lemma wp_rpc_conts ref cmd cpl Q (g : ugds E) :
  holds n L (g_lib g) -> RRef ref ∈ L ->
  (forall r g', rpc ref cmd cpl g = Some (r, g') -> holds n L (g_lib g') -> kept g g' ->
     conts_kept (g_lib g) (g_lib g') -> Q r g') ->
  wp (rpc ref cmd cpl) Q g.
Proof.
  intros Hh Hin HQ. destruct (holds_live _ _ _ _ Hh Hin) as (r & c & Hr & Hst & Hcc & _).
  destruct (h_ok _ _ _ (ho_inv _ _ _ Hh) _ _ Hr) as (_ & Hrel & Hadm).
  destruct (Hadm (Hrel Hst)) as (ad & Had).
  assert (exists res g', rpc ref cmd cpl g = Some (res, g') /\ holds n L (g_lib g') /\ kept g g' /\
    conts_kept (g_lib g) (g_lib g')) as (res & g' & Erun & Hh' & Hk & Hkc).
  { unfold rpc, on_lib, deref, mbind, M_bind, get, option_bind. rewrite Hr. simpl. rewrite Had. simpl.
    unfold nvm_raw_rpc. rewrite Hst. simpl. unfold mbind, M_bind.
    set (st := mk_adm ad _ _ _).
    destruct (execute_command_total cmd cpl st) as (res & st' & Erun & Hq). rewrite Erun. simpl.
    eexists _, _. split; [done|]. simpl. split; [by eapply holds_admin|]. split; [done|].
    intros b k Hb. simpl. rewrite lookup_insert_ne; [done|]. intros <-. congruence. }
  unfold wp. rewrite Erun. by apply HQ.
Qed.

Lemma wp_rpc ref cmd cpl Q (g : ugds E) :
  holds n L (g_lib g) -> RRef ref ∈ L ->
  (forall r g', holds n L (g_lib g') -> kept g g' -> Q r g') -> wp (rpc ref cmd cpl) Q g.
Proof. intros Hh Hin HQ. eapply wp_rpc_conts; [done|done|]. intros r g' _ Hh' Hk _. by apply HQ. Qed.

(** [admin_wp]: the branches of an admin function, each of which is an error or one command. *)
Lemma wp_cq_delete ref cq Q (g : ugds E) :
  holds n L (g_lib g) -> RRef ref ∈ L ->
  (forall r g', holds n L (g_lib g') -> kept g g' -> Q r g') ->
  wp (nvm_admin_cq_delete (H := admin_of ref) cq) Q g.
Proof.
  intros Hh Hin HQ. unfold nvm_admin_cq_delete. case_decide; [by apply wp_ret, HQ|].
  apply wp_bind, wp_rpc; [done|done|]. intros r g' Hh' Hk. destruct (nvm_ok _); by apply wp_ret, HQ.
Qed.

Lemma wp_sq_delete ref sq cq Q (g : ugds E) :
  holds n L (g_lib g) -> RRef ref ∈ L ->
  (forall r g', holds n L (g_lib g') -> kept g g' -> Q r g') ->
  wp (nvm_admin_sq_delete (H := admin_of ref) sq cq) Q g.
Proof.
  intros Hh Hin HQ. unfold nvm_admin_sq_delete. destruct cq as [cq|]; [|by apply wp_ret, HQ].
  case_decide; [by apply wp_ret, HQ|]. case_decide; [by apply wp_ret, HQ|].
  apply wp_bind, wp_rpc; [done|done|]. intros r g' Hh' Hk. destruct (nvm_ok _); by apply wp_ret, HQ.
Qed.

Lemma wp_num_queues ref a b Q (g : ugds E) :
  holds n L (g_lib g) -> RRef ref ∈ L -> 0 <= a -> 0 <= b ->
  (forall r g', holds n L (g_lib g') -> kept g g' -> 0 <= fst (snd r) -> 0 <= snd (snd r) -> Q r g') ->
  wp (nvm_admin_request_num_queues (H := admin_of ref) a b) Q g.
Proof.
  intros Hh Hin Ha Hb HQ. unfold nvm_admin_request_num_queues. case_decide; [by apply wp_ret, HQ|].
  apply wp_bind, wp_rpc; [done|done|]. intros r g' Hh' Hk. case_decide; [by apply wp_ret, HQ|].
  apply wp_ret, HQ; [done|done|..]; simpl; apply wrap_range; lia.
Qed.

Lemma wp_ref_ctrl ref Q (g : ugds E) :
  holds n L (g_lib g) -> RRef ref ∈ L ->
  (forall c, 0 < ctrl_page_size (c_handle c) ->
     l_heap (g_lib g) !! ctrl_mm_ptr (c_handle c) = Some OMm -> Q c g) ->
  wp (ref_ctrl_of ref) Q g.
Proof.
  intros Hh Hin HQ. destruct (holds_live _ _ _ _ Hh Hin) as (r & c & Hr & Hst & Hcc & Hps & Hdev).
  pose proof (h_dom _ _ _ (ho_inv _ _ _ Hh) _ _ Hr).
  destruct (h_ok _ _ _ (ho_inv _ _ _ Hh) _ _ Hcc) as (_ & _ & Hd). destruct (Hd Hdev) as [_ Hmm].
  apply wp_on_lib, wp_bind. unfold nvm_ctrl_from_aq_ref. rewrite decide_True by (unfold NULL; lia).
  apply wp_bind. eapply wp_deref; [done|done|]. apply wp_ret. eapply wp_deref; [done|done|].
  assert (g_set_lib g (g_lib g) = g) as -> by by destruct g. by apply HQ.
Qed.

(** The first page exists when the queue fits. *)
Lemma queue_size_page0 ctrl k pages qs es m :
  dma_n_ioaddrs k = Z.of_nat (length (dma_ioaddrs k)) -> (forall q, 0 <= pages q) ->
  queue_size ctrl k pages 0 qs es = inr m -> is_Some ((dma_ioaddrs k) @[0]).
Proof.
  intros Hlen Hpos. unfold queue_size. set (q := if decide (qs = 0) then _ else _).
  repeat (case_decide; [done|]). intros _. apply zlookup_is_Some. specialize (Hpos q). lia.
Qed.

Lemma cont_len s k a : holds n L s -> l_heap s !! a = Some (OCont k) ->
  dma_n_ioaddrs (k_handle k) = Z.of_nat (length (dma_ioaddrs (k_handle k))).
Proof. intros Hh Ha. by destruct (h_ok _ _ _ (ho_inv _ _ _ Hh) _ _ Ha) as (? & ? & ? & _ & _ & _ & _ & Hl & _). Qed.

Lemma pages_nonneg c q : 0 < ctrl_page_size (c_handle c) ->
  0 <= NVM_CQ_PAGES (c_handle c) q /\ 0 <= NVM_SQ_PAGES (c_handle c) q.
Proof.
  intros Hp. unfold NVM_CQ_PAGES, NVM_SQ_PAGES.
  assert (forall x, 0 <= u64 x / ctrl_page_size (c_handle c)) as Hd.
  { intros x. apply Z.div_pos; [apply wrap_range; lia|done]. }
  split; [pose proof (Hd (u16 (q - 1) * sizeof_cpl))|pose proof (Hd (u16 (q - 1) * sizeof_cmd))]; lia.
Qed.

Lemma wp_deref_dma m dma Q (g : ugds E) :
  holds n L (g_lib g) -> RDma m dma ∈ L ->
  (forall k, l_heap (g_lib g) !! dma = Some (OCont k) -> m <= dma_n_ioaddrs (k_handle k) ->
     dma_n_ioaddrs (k_handle k) = Z.of_nat (length (dma_ioaddrs (k_handle k))) -> Q k g) ->
  wp (on_lib (deref as_cont dma)) Q g.
Proof.
  intros Hh Hin HQ. destruct (holds_live _ _ _ _ Hh Hin) as (k & Hk & Hm & _).
  apply wp_on_lib. eapply wp_deref; [done|done|].
  assert (g_set_lib g (g_lib g) = g) as -> by by destruct g. apply HQ; [done|done|]. by eapply cont_len.
Qed.

(** A queue as it is after it was created. *)
Record fresh_queue (id : Z) (q : nvm_queue_t) : Prop := {
  fq_wf : queue_wf q;
  fq_qs : q_qs q = UGDS_DEFAULT_QUEUE_DEPTH;
  fq_no : q_no q = id;
  fq_db : q_db q <> NULL;
  fq_last : q_last q = q_tail q;
  fq_empty : sq_count q = 0;
}.

(** Creating a queue: an error, or success and a fresh queue. *)
Definition created (id : Z) (r : Z * option nvm_queue_t) : Prop :=
  nvm_ok (fst r) = true -> exists q, snd r = Some q /\ fresh_queue id q.

Lemma created_err id err o : err <> 0 -> created id (err, o).
Proof. intros He Hok. apply bool_decide_eq_true in Hok. done. Qed.

Lemma clear_fresh queue c cq id local vaddr ioaddr q :
  0 < ctrl_mm_ptr (c_handle c) -> 0 <= id ->
  nvm_queue_clear queue (c_handle c) cq id UGDS_DEFAULT_QUEUE_DEPTH local vaddr ioaddr = (0, q) ->
  fresh_queue id q.
Proof.
  intros Hmm Hid Hc. pose proof (queue_clear_wf _ _ _ _ _ _ _ _ _ Hc) as Hwf. unfold nvm_queue_clear in Hc.
  case_decide; [done|]. injection Hc as <-. constructor; simpl; try done.
  assert (0 <= Z.shiftl 4 (ctrl_dstrd (c_handle c))) by (apply Z.shiftl_nonneg; lia).
  unfold CQ_DBL, SQ_DBL, NULL. destruct cq; nia.
Qed.

(** The part the two functions share, once the arguments were checked. *)
Lemma wp_create_tail ref id c cq k qs mk Q (g : ugds E) :
  holds n L (g_lib g) -> RRef ref ∈ L -> 0 < ctrl_mm_ptr (c_handle c) -> 0 <= id ->
  is_Some ((dma_ioaddrs (k_handle k)) @[0]) -> qs = UGDS_DEFAULT_QUEUE_DEPTH ->
  (forall r g', created id r -> holds n L (g_lib g') -> kept g g' -> Q r g') ->
  wp (ioaddr ← of_option ((dma_ioaddrs (k_handle k)) @[0]);
      let '(err, queue) := nvm_queue_clear uninit (c_handle c) cq id qs (dma_local (k_handle k))
                             (NVM_DMA_OFFSET (k_handle k) 0) ioaddr in
      if decide (err <> 0) then mret (NVM_ERR_PACK None err, None)
      else
        r ← rpc ref (mk queue ioaddr) cpl_zero;
        if nvm_ok (fst r) then mret (NVM_ERR_PACK None 0, Some queue) else mret (fst r, None)) Q g.
Proof.
  intros Hh Hin Hmm Hid [ioaddr Hio] -> HQ. rewrite Hio. apply wp_bind, wp_ret.
  destruct (nvm_queue_clear _ _ _ _ _ _ _ _) as [err queue] eqn:Ec. case_decide as He.
  { apply wp_ret, HQ; [|done|done]. unfold NVM_ERR_PACK. rewrite decide_True by done. by apply created_err. }
  assert (err = 0) as -> by lia. apply clear_fresh in Ec; [|done|done].
  apply wp_bind, wp_rpc; [done|done|]. intros r g' Hh' Hk. destruct (nvm_ok (fst r)) eqn:Eok.
  - apply wp_ret, HQ; [|done|done]. intros _. eauto.
  - apply wp_ret, HQ; [|done|done]. apply created_err. by apply bool_decide_eq_false in Eok.
Qed.

Lemma queue_size_64 ctrl k pages m es qs :
  queue_size ctrl k pages 0 UGDS_DEFAULT_QUEUE_DEPTH es = inr qs -> m = qs -> m = UGDS_DEFAULT_QUEUE_DEPTH.
Proof. intros Hq ->. by eapply queue_size_asked in Hq. Qed.

Lemma wp_cq_create ref id m dma Q (g : ugds E) :
  holds n L (g_lib g) -> RRef ref ∈ L -> RDma m dma ∈ L -> 0 <= id ->
  (forall r g', created id r -> holds n L (g_lib g') -> kept g g' -> Q r g') ->
  wp (cq_create ref id dma) Q g.
Proof.
  intros Hh Hin Hd Hid HQ. apply wp_bind. eapply wp_ref_ctrl; [done|done|]. intros c Hps Hmm.
  apply (h_dom _ _ _ (ho_inv _ _ _ Hh)) in Hmm as [Hmm _].
  apply wp_bind. eapply wp_deref_dma; [done|done|]. intros k _ _ Hlen.
  unfold nvm_admin_cq_create. case_decide; [by apply wp_ret, HQ; [apply created_err|..]|].
  destruct (queue_size _ _ _ _ _ _) as [err|qs] eqn:Eq.
  { apply wp_ret, HQ; [|done|done]. apply queue_size_err in Eq as ->. by apply created_err. }
  apply (wp_create_tail ref id c true k qs (fun queue ioaddr => admin_cq_create cmd_zero queue ioaddr false));
    [done..| |by eapply queue_size_64|done].
  eapply queue_size_page0; [done| |exact Eq]. intros q. by apply pages_nonneg.
Qed.

Lemma wp_sq_create ref cq id m dma Q (g : ugds E) :
  holds n L (g_lib g) -> RRef ref ∈ L -> RDma m dma ∈ L -> 0 <= id ->
  (forall r g', created id r -> holds n L (g_lib g') -> kept g g' -> Q r g') ->
  wp (sq_create ref cq id dma) Q g.
Proof.
  intros Hh Hin Hd Hid HQ. apply wp_bind. eapply wp_ref_ctrl; [done|done|]. intros c Hps Hmm.
  apply (h_dom _ _ _ (ho_inv _ _ _ Hh)) in Hmm as [Hmm _].
  apply wp_bind. eapply wp_deref_dma; [done|done|]. intros k _ _ Hlen.
  unfold nvm_admin_sq_create. case_decide; [by apply wp_ret, HQ; [apply created_err|..]|].
  destruct (queue_size _ _ _ _ _ _) as [err|qs] eqn:Eq.
  { apply wp_ret, HQ; [|done|done]. apply queue_size_err in Eq as ->. by apply created_err. }
  apply (wp_create_tail ref id c false k qs (fun queue ioaddr => admin_sq_create cmd_zero queue cq ioaddr false));
    [done..| |by eapply queue_size_64|done].
  eapply queue_size_page0; [done| |exact Eq]. intros q. by apply pages_nonneg.
Qed.
End with_ledger.

(** ** Identify data *)

(** A page of a DMA handle at the virtual address [ptr] and the bus address [ioaddr]. *)
Definition page_of (s : lib) (ptr ioaddr : Z) : Prop :=
  exists a k i, l_heap s !! a = Some (OCont k) /\ ptr = NVM_DMA_OFFSET (k_handle k) i /\
    (dma_ioaddrs (k_handle k)) @[i] = Some ioaddr.

(** The exponents a controller reports in its Identify data are below the width of the type they
    shift: MDTS below 64, and LBADS of the format in use below 32. *)
Record sane_controllers : Prop := {
  sane_ctrl ref ioaddr cpl (g : ugds E) r g' ptr :
    rpc ref (admin_identify_ctrl cmd_zero ioaddr) cpl g = Some (r, g') -> nvm_ok (fst r) = true ->
    page_of (g_lib g) ptr ioaddr -> mem_byte (g_dev g') (ptr + 77) < 64;
  sane_ns ref ns_id ioaddr cpl (g : ugds E) r g' ptr :
    rpc ref (admin_identify_ns cmd_zero ns_id ioaddr) cpl g = Some (r, g') -> nvm_ok (fst r) = true ->
    page_of (g_lib g) ptr ioaddr ->
    let format_idx := _RB (mem_byte (g_dev g') (ptr + 26)) 3 0 in
    _RB (load_le (H := admin_of ref) g' (ptr + 128 + 4 * format_idx) 4) 23 16 < 32;
}.

Context (Hsane : sane_controllers).

(** A size that is a power of two, or 0 where the product of the code wraps around. *)
Definition xfer_limit (n : Z) : Prop := n = 0 \/ is_pow2 n.
(** A block size: [1 << 31] of type [int] is no power of two as a [size_t]. *)
Definition lba_size (n : Z) : Prop := n < 2 ^ 32 -> is_pow2 n.

Lemma xfer_limit_pow a b : 0 <= b -> xfer_limit (u64 (2 ^ a * 2 ^ b)).
Proof.
  intros Hb. destruct (decide (a < 0)) as [Ha|Ha].
  { left. by rewrite Z.pow_neg_r, Z.mul_0_l, wrap_0. }
  rewrite <- Z.pow_add_r by lia. destruct (decide (a + b < 64)) as [Hlt|Hge].
  - right. exists (a + b). split; [lia|]. apply wrap_small. split; [lia|]. apply Z.pow_lt_mono_r; lia.
  - left. replace (a + b) with (a + b - 64 + 64) by lia. rewrite Z.pow_add_r by lia.
    unfold wrap. apply Z.mod_mul. lia.
Qed.

Lemma lba_size_shift n v : 0 <= n -> int_shift n = Some v -> lba_size v.
Proof.
  intros Hn. unfold int_shift. case_decide as Hge; [done|]. intros [= <-] Hlt.
  destruct (decide (n = 31)) as [->|Hne]; [vm_compute in Hlt; done|].
  assert (2 ^ n < 2 ^ 31) by (apply Z.pow_lt_mono_r; lia). exists n. split; [done|].
  unfold s32. rewrite Z.mod_small by lia. replace (2 ^ n + 2 ^ 31 - 2 ^ 31) with (2 ^ n) by lia.
  apply wrap_small. unfold fits. lia.
Qed.

Lemma wp_ctrl_info n L ref info ptr ioaddr Q (g : ugds E) :
  holds n L (g_lib g) -> RRef ref ∈ L -> page_of (g_lib g) ptr ioaddr ->
  (forall r g', (nvm_ok (fst r) = true -> exists ci, snd r = Some ci /\ xfer_limit (ci_max_data_size ci)) ->
     holds n L (g_lib g') -> kept g g' -> conts_kept (g_lib g) (g_lib g') -> Q r g') ->
  wp (ctrl_info ref info ptr ioaddr) Q g.
Proof.
  intros Hh Hin Hpage HQ. apply wp_bind. eapply wp_ref_ctrl; [done|done|]. intros c Hps Hmm.
  apply wp_bind, wp_get, wp_bind, wp_on_lib. unfold read_cap, wp, mbind, M_bind, get. rewrite Hmm. simpl.
  assert (g_set_lib g (g_lib g) = g) as -> by by destruct g.
  change (wp (nvm_admin_ctrl_info (H := admin_of ref) (c_handle c) (ver_reg (g_dev g) (ctrl_mm_ptr (c_handle c)))
    (cap_reg (ctrl_mm_ptr (c_handle c))) info ptr ioaddr) Q g).
  unfold nvm_admin_ctrl_info. case_decide; [by apply wp_ret, HQ; [| | |intros a k]|].
  apply wp_bind, wp_memset. intros g1 Hl1 Hk1. rewrite <- Hl1 in Hh, Hpage.
  apply wp_bind. eapply wp_rpc_conts; [done|done|]. intros r g2 Erun Hh2 Hk2 Hkc. rewrite Hl1 in Hkc.
  destruct (nvm_ok (fst r)) eqn:Eok.
  - apply wp_bind, wp_get. pose proof (sane_ctrl Hsane _ _ _ _ _ _ _ Erun Eok Hpage) as Hs.
    change (host_byte g2 (ptr + 77)) with (mem_byte (g_dev g2) (ptr + 77)).
    rewrite decide_False by lia. rewrite decide_False by lia. apply wp_ret, HQ; [|done| |done].
    + intros _. eexists. split; [done|]. apply xfer_limit_pow.
      assert (0 <= CAP_MPSMIN (cap_reg (ctrl_mm_ptr (c_handle c)))); [|lia]. by apply rb_nonneg.
    + by transitivity g1.
  - apply wp_ret, HQ; [simpl; congruence|done| |done]. by transitivity g1.
Qed.

Lemma wp_ns_info n L ref info ns_id ptr ioaddr Q (g : ugds E) :
  holds n L (g_lib g) -> RRef ref ∈ L -> page_of (g_lib g) ptr ioaddr ->
  (forall r g', (nvm_ok (fst r) = true -> exists ni, snd r = Some ni /\ lba_size (ni_lba_data_size ni)) ->
     holds n L (g_lib g') -> kept g g' -> Q r g') ->
  wp (ns_info ref info ns_id ptr ioaddr) Q g.
Proof.
  intros Hh Hin Hpage HQ. unfold ns_info, nvm_admin_ns_info. case_decide; [by apply wp_ret, HQ|].
  apply wp_bind, wp_memset. intros g1 Hl1 Hk1. rewrite <- Hl1 in Hh, Hpage.
  apply wp_bind. eapply wp_rpc_conts; [done|done|]. intros r g2 Erun Hh2 Hk2 _.
  destruct (nvm_ok (fst r)) eqn:Eok.
  - apply wp_bind, wp_get. pose proof (sane_ns Hsane _ _ _ _ _ _ _ _ Erun Eok Hpage) as Hs.
    cbv zeta in Hs |- *. change (host_byte g2 (ptr + 26)) with (mem_byte (g_dev g2) (ptr + 26)).
    destruct (int_shift _) as [bs|] eqn:Ebs; [|by unfold int_shift in Ebs; rewrite decide_False in Ebs by lia].
    apply lba_size_shift in Ebs; [|by apply rb_nonneg].
    apply wp_bind, wp_ret, wp_ret, HQ; [by eexists|done|]. by transitivity g1.
  - apply wp_ret, HQ; [simpl; congruence|done|]. by transitivity g1.
Qed.

(** ** Queue pairs *)

Definition dma_res (d : option Z) : list res := match d with Some a => [RDma 1 a] | None => [] end.
Definition buf_res (b : Z) : list res := if decide (b = NULL) then [] else [RBuf b].

(** What a queue pair owns. *)
Definition qp_ledger (qp : IOQueuePair Z) : list res :=
  dma_res (qp_sq_dma qp) ++ dma_res (qp_cq_dma qp) ++ dma_res (qp_prp_dma qp) ++
  buf_res (qp_sq_buf qp) ++ buf_res (qp_cq_buf qp) ++ buf_res (qp_prp_buf qp).

Lemma wp_release_dma n L m d del Q (g : ugds E) :
  holds n (match d with Some a => [RDma m a] | None => [] end ++ L) (g_lib g) ->
  (forall Q' g0, holds n (match d with Some a => [RDma m a] | None => [] end ++ L) (g_lib g0) ->
     (forall g', holds n (match d with Some a => [RDma m a] | None => [] end ++ L) (g_lib g') ->
        kept g0 g' -> Q' tt g') -> wp del Q' g0) ->
  (forall g', holds n L (g_lib g') -> kept g g' -> Q tt g') -> wp (release_dma d del) Q g.
Proof.
  intros Hh Hdel HQ. destruct d as [a|]; simpl in *; [|by apply wp_ret, HQ].
  apply wp_bind, Hdel; [done|]. intros g1 Hh1 Hk1. apply wp_on_lib. eapply ho_unmap; [exact Hh1|].
  intros l Hl. by apply HQ.
Qed.

Lemma wp_free_buf n L b Q (g : ugds E) :
  holds n (buf_res b ++ L) (g_lib g) ->
  (forall g', holds n L (g_lib g') -> kept g g' -> Q tt g') -> wp (on_lib (free b)) Q g.
Proof.
  intros Hh HQ. unfold buf_res in Hh. case_decide as Hb.
  - subst. apply wp_on_lib. unfold free. rewrite decide_True by done. apply wp_ret. by apply HQ.
  - apply wp_on_lib. eapply ho_free; [exact Hh|]. intros l Hl. by apply HQ.
Qed.

Lemma wp_cleanup_qp n L ref qp Q (g : ugds E) :
  holds n (qp_ledger qp ++ L) (g_lib g) -> RRef ref ∈ L ->
  (forall g', holds n L (g_lib g') -> kept g g' -> Q tt g') -> wp (cleanup_qp ref qp) Q g.
Proof.
  intros Hh Hin HQ. unfold qp_ledger in Hh. rewrite <- !app_assoc in Hh.
  apply wp_bind. eapply wp_release_dma; [exact Hh| |].
  { intros Q' g0 Hg0 HQ'. apply wp_bind. eapply wp_sq_delete; [exact Hg0|rewrite !elem_of_app; tauto|].
    intros r g' Hh' Hk. by apply wp_ret, HQ'. }
  intros g1 Hh1 Hk1. apply wp_bind. eapply wp_release_dma; [exact Hh1| |].
  { intros Q' g0 Hg0 HQ'. apply wp_bind. eapply wp_cq_delete; [exact Hg0|rewrite !elem_of_app; tauto|].
    intros r g' Hh' Hk. by apply wp_ret, HQ'. }
  intros g2 Hh2 Hk2. apply wp_bind. eapply wp_release_dma; [exact Hh2| |].
  { intros Q' g0 Hg0 HQ'. by apply wp_ret, HQ'. }
  intros g3 Hh3 Hk3. apply wp_bind. eapply wp_free_buf; [exact Hh3|].
  intros g4 Hh4 Hk4. apply wp_bind. eapply wp_free_buf; [exact Hh4|].
  intros g5 Hh5 Hk5. eapply wp_free_buf; [exact Hh5|]. intros g6 Hh6 Hk6. apply HQ; [done|].
  by rewrite Hk1, Hk2, Hk3, Hk4, Hk5.
Qed.

Lemma wp_cleanup_qps n L ref qps Q (g : ugds E) :
  holds n ((qps ≫= qp_ledger) ++ L) (g_lib g) -> RRef ref ∈ L ->
  (forall g', holds n L (g_lib g') -> kept g g' -> Q tt g') -> wp (cleanup_qps ref qps) Q g.
Proof.
  revert g. induction qps as [|qp qps IH]; intros g Hh Hin HQ; simpl; [by apply wp_ret, HQ|].
  simpl in Hh. rewrite <- app_assoc in Hh. apply wp_bind. eapply wp_cleanup_qp; [exact Hh|rewrite elem_of_app; tauto|].
  intros g1 Hh1 Hk1. apply IH; [done|done|]. intros g2 Hh2 Hk2. apply HQ; [done|]. by rewrite Hk1.
Qed.

(** ** Building queue pairs *)

Context (Hmmap : forall i, mmap_ok i = true) (Hpow : is_pow2 sc_pagesize) (Hpage : sc_pagesize < 2 ^ 60).

Lemma holds_perm n L L' s : holds n L s -> L ≡ₚ L' -> holds n L' s.
Proof. intros Hh Hp. by rewrite <- Hp. Qed.

Lemma wp_host_page n L ctrl Q (g : ugds E) :
  0 <= n -> holds (n + 5) L (g_lib g) -> RCtrl ctrl ∈ L ->
  (forall b d g', holds n (dma_res d ++ buf_res b ++ L) (g_lib g') -> kept g g' ->
     (b = NULL -> d = None) -> Q (b, d) g') ->
  wp (host_page ctrl sc_pagesize) Q g.
Proof.
  intros Hn Hh Hin HQ. apply wp_bind, wp_on_lib. eapply (ho_memalign (n + 4)).
  { eapply holds_weaken; [exact Hh|lia]. }
  { intros err l Herr Hl. cbn [fst snd]. rewrite decide_True by done. apply wp_ret, HQ; [|done|done]. simpl.
    eapply holds_weaken; [exact Hl|lia]. }
  intros b l Hb Hl. cbn [fst snd]. rewrite decide_False by tauto. apply wp_bind, wp_memset. intros g1 Hl1 Hk1.
  simpl in Hl1. rewrite <- Hl1 in Hl. apply wp_bind, wp_on_lib.
  destruct (holds_live _ _ _ (RCtrl ctrl) Hl ltac:(by right)) as (c & Hc & Hps & Hsc & _).
  assert (sc_pagesize = u64 (ctrl_page_size (c_handle c) * 1)) as ->.
  { rewrite Hsc, Z.mul_1_r, wrap_small; [done|]. unfold fits. lia. }
  eapply (ho_map_host n _ ctrl c b 1); [done|done|lia|done|exact Hl|by right|done| |].
  - intros err l' Herr Hl'. simpl. unfold nvm_ok. rewrite bool_decide_false by done. simpl.
    apply wp_ret, HQ; [|done|done]. simpl. unfold buf_res. by rewrite decide_False.
  - intros d l' Hl'. simpl. apply wp_ret, HQ; [|done|done]. simpl. unfold buf_res.
    by rewrite decide_False.
Qed.

(** A complete pair. *)
Record qp_ready (id : Z) (qp : IOQueuePair Z) : Prop := {
  qr_cq : fresh_queue id (qp_cq qp);
  qr_sq : fresh_queue id (qp_sq qp);
  qr_dma : is_Some (qp_sq_dma qp) /\ is_Some (qp_cq_dma qp) /\ is_Some (qp_prp_dma qp);
  qr_buf : qp_sq_buf qp <> NULL /\ qp_cq_buf qp <> NULL /\ qp_prp_buf qp <> NULL;
}.

(** The ledger of a pair whose members are known. *)
Ltac qp_perm Hh :=
  eapply holds_weaken; [eapply holds_perm; [exact Hh|]; unfold qp_ledger; cbn; perm|lia].

Lemma wp_make_qp n L ctrl ref i Q (g : ugds E) :
  0 <= n -> holds (n + 15) L (g_lib g) -> RCtrl ctrl ∈ L -> RRef ref ∈ L ->
  (forall ok qp g', holds n (qp_ledger qp ++ L) (g_lib g') -> kept g g' ->
     (ok = true -> qp_ready (u16 (i + 1)) qp) -> Q (ok, qp) g') ->
  wp (make_qp ctrl ref sc_pagesize i) Q g.
Proof.
  intros Hn Hh Hc Hr HQ. assert (0 <= u16 (i + 1)) by (apply wrap_range; lia).
  apply wp_bind. eapply (wp_host_page (n + 10)); [lia|eapply holds_weaken; [exact Hh|lia]|done|].
  intros cb cd g1 Hh1 Hk1 Hcb. cbn [fst snd]. destruct cd as [cd|].
  2:{ apply wp_ret, HQ; [qp_perm Hh1|done|done]. }
  apply wp_bind. eapply wp_cq_create; [exact Hh1|by rewrite !elem_of_app; tauto|by left|done|].
  intros r g2 Hcr Hh2 Hk2. rewrite Hk2 in Hk1. clear Hk2. destruct (nvm_ok (fst r)) eqn:Eok; simpl.
  2:{ apply wp_bind, wp_on_lib. eapply ho_unmap; [exact Hh2|]. intros l Hl.
      apply wp_ret, HQ; [qp_perm Hl|done|done]. }
  destruct (Hcr Eok) as (cq & -> & Hcq). cbn [default].
  apply wp_bind. eapply (wp_host_page (n + 5)); [lia|eapply holds_weaken; [exact Hh2|lia]
    |by rewrite !elem_of_app; tauto|].
  intros sb sd g3 Hh3 Hk3 Hsb. rewrite Hk3 in Hk1. clear Hk3. cbn [fst snd]. destruct sd as [sd|].
  2:{ apply wp_ret, HQ; [qp_perm Hh3|done|done]. }
  apply wp_bind. eapply wp_sq_create; [exact Hh3|by rewrite !elem_of_app; tauto|by left|done|].
  intros r' g4 Hsr Hh4 Hk4. rewrite Hk4 in Hk1. clear Hk4. destruct (nvm_ok (fst r')) eqn:Eok'; simpl.
  2:{ apply wp_bind, wp_on_lib. eapply ho_unmap; [exact Hh4|]. intros l Hl.
      apply wp_ret, HQ; [qp_perm Hl|done|done]. }
  destruct (Hsr Eok') as (sq & -> & Hsq). cbn [default].
  apply wp_bind. eapply (wp_host_page n); [lia|exact Hh4|by rewrite !elem_of_app; tauto|].
  intros pb pd g5 Hh5 Hk5 Hpb. rewrite Hk5 in Hk1. clear Hk5. cbn [fst snd]. destruct pd as [pd|].
  2:{ apply wp_ret, HQ; [qp_perm Hh5|done|done]. }
  apply wp_ret, HQ; [qp_perm Hh5|done|]. intros _. constructor; simpl; [done|done|eauto|].
  split_and!; intros ->; [by specialize (Hsb eq_refl)|by specialize (Hcb eq_refl)|by specialize (Hpb eq_refl)].
Qed.

Definition qps_ready (qps : list (IOQueuePair Z)) : Prop :=
  forall j qp, qps !! j = Some qp -> qp_ready (Z.of_nat j + 1) qp.

Lemma wp_make_qps k n L ctrl ref i qps Q (g : ugds E) :
  0 <= n -> holds (n + 15 * Z.of_nat k) ((qps ≫= qp_ledger) ++ L) (g_lib g) ->
  RCtrl ctrl ∈ L -> RRef ref ∈ L -> i = Z.of_nat (length qps) -> i + Z.of_nat k < 2 ^ 16 -> qps_ready qps ->
  (forall g', holds n L (g_lib g') -> kept g g' -> Q None g') ->
  (forall qps' g', holds n ((qps' ≫= qp_ledger) ++ L) (g_lib g') -> kept g g' -> qps_ready qps' ->
     length qps' = (length qps + k)%nat -> Q (Some qps') g') ->
  wp (make_qps k ctrl ref sc_pagesize i qps) Q g.
Proof.
  intros Hn. revert i qps g. induction k as [|k IH]; intros i qps g Hh Hc Hr Hi Hlt Hq Hnone Hsome; simpl.
  { apply wp_ret, Hsome; [|done|done|lia]. eapply holds_weaken; [exact Hh|lia]. }
  apply wp_bind. eapply (wp_make_qp (n + 15 * Z.of_nat k)); [lia|eapply holds_weaken; [exact Hh|lia]
    |by rewrite elem_of_app; tauto..|].
  intros ok qp g1 Hh1 Hk1 Hok. destruct ok.
  - assert (u16 (i + 1) = Z.of_nat (length qps) + 1) as Hu by (rewrite wrap_small; unfold fits; lia).
    apply IH; [|done|done| |lia| |..].
    + eapply holds_perm; [exact Hh1|]. rewrite bind_app. simpl. rewrite app_nil_r. perm.
    + rewrite length_app. simpl. lia.
    + intros j qp' [Hj|[Hlen Hj]]%lookup_app_Some; [by apply Hq|].
      apply list_lookup_singleton_Some in Hj as [Hz <-]. rewrite Hu in Hok. replace j with (length qps) by lia. by apply Hok.
    + intros g2 Hh2 Hk2. apply Hnone; [done|]. by rewrite Hk1.
    + intros qps' g2 Hh2 Hk2 Hr2 Hl2. apply Hsome; [done|by rewrite Hk1|done|].
      rewrite length_app in Hl2. simpl in Hl2. lia.
  - apply wp_bind. eapply wp_cleanup_qp; [exact Hh1|by rewrite elem_of_app; tauto|]. intros g2 Hh2 Hk2.
    apply wp_bind. eapply wp_cleanup_qps; [exact Hh2|done|]. intros g3 Hh3 Hk3.
    apply wp_ret, Hnone; [eapply holds_weaken; [exact Hh3|lia]|]. by rewrite Hk1, Hk2.
Qed.

(** ** Registering a handle *)

(** What a handle owns. *)
Definition handle_ledger (hs : HandleState Z Z) : list res :=
  (hs_qps hs ≫= qp_ledger) ++
  [RRef (hs_aq_ref hs)] ++ match hs_aq_dma hs with Some a => [RDma 3 a] | None => [] end ++
  [RBuf (hs_aq_buf hs); RCtrl (hs_ctrl hs)].

(** What holds of a handle, whatever its queues have been used for. *)
Record handle_fixed (hs : HandleState Z Z) : Prop := {
  hf_num : hs_num_qps hs = Z.of_nat (length (hs_qps hs));
  hf_max : hs_num_qps hs <= UGDS_DEFAULT_NUM_QPS;
  hf_dma : is_Some (hs_aq_dma hs);
  hf_ptr : hs_aq_ref hs <> NULL /\ hs_aq_buf hs <> NULL /\ hs_ctrl hs <> NULL;
  hf_ns : hs_ns_id hs = 1;
  hf_limit : xfer_limit (hs_max_transfer_size hs);
  hf_block : lba_size (hs_block_size hs);
  hf_rr : 0 <= hs_rr_counter hs;
}.

(** A handle as it is registered: its queues are new. *)
Record handle_ready (hs : HandleState Z Z) : Prop := {
  hr_fixed : handle_fixed hs;
  hr_qps : qps_ready (hs_qps hs);
}.

(** The outcome of a registration: an error and what there was, or a new handle. *)
Definition registered (fd : option Z) (n : Z) (L : list res) (g : ugds E) (r : uGDSError_t * Z) (g' : ugds E) : Prop :=
  (err (fst r) <> UGDS_SUCCESS /\ kept g g' /\ holds n L (g_lib g')) \/
  exists hs, fst r = UGDS_OK /\ snd r = g_next g /\ handle_ready hs /\ fd = Some (hs_fd hs) /\
    g_handles g' = <[g_next g := hs]> (g_handles g) /\ g_next g' = g_next g + 1 /\
    g_driver g' = mk_driver (drv_initialized (g_driver g))
                    (match drv_default_ctrl (g_driver g) with None => Some (hs_ctrl hs) | o => o end)
                    (drv_buf_registry (g_driver g)) /\
    holds n (handle_ledger hs ++ L) (g_lib g').

Lemma registered_kept fd n L g g1 r g' : kept g g1 -> registered fd n L g1 r g' -> registered fd n L g r g'.
Proof.
  intros Hk [(He & Hk' & Hh)|(hs & Hx)]; [left; split; [done|]; split; [by rewrite Hk|done]|].
  right. exists hs. destruct Hk as (<- & <- & <-). done.
Qed.

Lemma wp_undo_ctrl n m L ctrl fd Q (g : ugds E) :
  m <= n -> holds n (RCtrl ctrl :: L) (g_lib g) -> (forall r g', registered fd m L g r g' -> Q r g') -> wp (undo_ctrl ctrl) Q g.
Proof.
  intros Hm Hh HQ. apply wp_bind, wp_on_lib. eapply ho_ctrl_free; [exact Hh|]. intros l Hl. apply wp_ret, HQ.
  left. split; [done|]. split; [done|]. by eapply holds_weaken.
Qed.

Lemma wp_undo_buf n m L ctrl b fd Q (g : ugds E) :
  m <= n -> holds n (RBuf b :: RCtrl ctrl :: L) (g_lib g) ->
  (forall r g', registered fd m L g r g' -> Q r g') -> wp (undo_buf ctrl b) Q g.
Proof.
  intros Hm Hh HQ. apply wp_bind, wp_on_lib. eapply ho_free; [exact Hh|]. intros l Hl.
  eapply wp_undo_ctrl; [exact Hm|exact Hl|]. intros r g' Hr. apply HQ. by eapply registered_kept.
Qed.

Lemma wp_undo_dma n m L ctrl b d fd Q (g : ugds E) :
  m <= n -> holds n (RDma 3 d :: RBuf b :: RCtrl ctrl :: L) (g_lib g) ->
  (forall r g', registered fd m L g r g' -> Q r g') -> wp (undo_dma ctrl b d) Q g.
Proof.
  intros Hm Hh HQ. apply wp_bind, wp_on_lib. eapply ho_unmap; [exact Hh|]. intros l Hl.
  eapply wp_undo_buf; [exact Hm|exact Hl|]. intros r g' Hr. apply HQ. by eapply registered_kept.
Qed.

Lemma wp_undo_aq n m L ctrl b d ref fd Q (g : ugds E) :
  m <= n -> holds n (RRef ref :: RDma 3 d :: RBuf b :: RCtrl ctrl :: L) (g_lib g) ->
  (forall r g', registered fd m L g r g' -> Q r g') -> wp (undo_aq ctrl b d ref) Q g.
Proof.
  intros Hm Hh HQ. apply wp_bind, wp_on_lib. eapply ho_aq_destroy; [exact Hh|]. intros l Hl.
  eapply wp_undo_dma; [exact Hm|exact Hl|]. intros r g' Hr. apply HQ. by eapply registered_kept.
Qed.

Lemma wp_publish n L hs Q (g : ugds E) :
  holds n (handle_ledger hs ++ L) (g_lib g) -> handle_ready hs ->
  (forall r g', registered (Some (hs_fd hs)) n L g r g' -> Q r g') -> wp (publish hs) Q g.
Proof.
  intros Hh Hr HQ. unfold wp, publish. apply HQ. right. exists hs. simpl.
  destruct (g_driver g) as [i [c|] reg]; done.
Qed.

Lemma holds_nonnull n L s r : holds n L s -> r ∈ L -> addr r <> NULL.
Proof.
  intros Hh Hr. apply (holds_live _ _ _ _ Hh) in Hr.
  assert (forall o, l_heap s !! addr r = Some o -> addr r <> NULL) as Hk.
  { intros o Ho. apply (h_dom _ _ _ (ho_inv _ _ _ Hh)) in Ho. unfold NULL. lia. }
  destruct r; simpl in *; [destruct Hr as (? & Hr & _)|destruct Hr as (? & Hr & _)
    |destruct Hr as (? & ? & Hr & _)|]; eauto.
Qed.

Lemma wp_register_queues n L fd ctrl b d ref info Q (g : ugds E) :
  0 <= n -> holds (n + 240) (RRef ref :: RDma 3 d :: RBuf b :: RCtrl ctrl :: L) (g_lib g) ->
  (forall r g', registered (Some fd) n L g r g' -> Q r g') ->
  wp (register_queues fd ctrl sc_pagesize b d ref info) Q g.
Proof.
  intros Hn Hh HQ. set (L' := RRef ref :: RDma 3 d :: RBuf b :: RCtrl ctrl :: L) in *.
  assert (RRef ref ∈ L') as Hr by left. assert (RCtrl ctrl ∈ L') as Hc by (do 3 right; left).
  assert (forall g1, kept g g1 -> holds (n + 240) L' (g_lib g1) -> wp (undo_aq ctrl b d ref) Q g1) as Hundo.
  { intros g1 Hk Hh1. eapply (wp_undo_aq (n + 240) n L); [lia|exact Hh1|].
    intros r g' Hreg. apply HQ. by eapply registered_kept. }
  apply wp_bind. eapply wp_deref_dma; [exact Hh|right; left|]. intros k Hk Hm Hlen.
  destruct (zlookup_is_Some (dma_ioaddrs (k_handle k)) 2) as [io Hio]; [lia|].
  rewrite Hio. apply wp_bind, wp_ret.
  assert (page_of (g_lib g) (NVM_DMA_OFFSET (k_handle k) 2) io) as Hpg by (by exists d, k, 2).
  apply wp_bind. eapply wp_ctrl_info; [exact Hh|done|done|]. intros r g1 Hsome Hh1 Hk1 Hkc.
  destruct (nvm_ok (fst r)) eqn:Eok; simpl; [|by apply Hundo].
  destruct (Hsome eq_refl) as (ci & -> & Hci). apply wp_bind, wp_ret.
  assert (page_of (g_lib g1) (NVM_DMA_OFFSET (k_handle k) 2) io) as Hpg1 by (exists d, k, 2; auto).
  apply wp_bind. eapply wp_ns_info; [exact Hh1|done|done|]. intros r2 g2 Hsome2 Hh2 Hk2.
  rewrite Hk2 in Hk1. destruct (nvm_ok (fst r2)) eqn:Eok2; simpl; [|by apply Hundo].
  destruct (Hsome2 eq_refl) as (ni & -> & Hni). apply wp_bind, wp_ret.
  apply wp_bind. eapply wp_num_queues; [exact Hh2|done|done|done|]. intros r3 g3 Hh3 Hk3 Hc3 Hs3. rewrite Hk3 in Hk1.
  destruct (nvm_ok (fst r3)) eqn:Eok3; simpl; [|by apply Hundo].
  set (num := Z.min _ UGDS_DEFAULT_NUM_QPS). assert (0 <= num <= 16) by (unfold num, UGDS_DEFAULT_NUM_QPS; lia).
  apply wp_bind. eapply (wp_make_qps _ n L'); [done|eapply holds_weaken; [exact Hh3|lia]|done|done|done|lia|done| |].
  - intros g4 Hh4 Hk4. eapply (wp_undo_aq n n L); [done|exact Hh4|].
    intros r' g' Hreg. apply HQ. eapply registered_kept; [|exact Hreg]. by rewrite Hk1, Hk4.
  - intros qps g4 Hh4 Hk4 Hrdy Hl4. simpl in Hl4.
    assert (ref <> NULL /\ b <> NULL /\ ctrl <> NULL) as Hne.
    { split_and!; [apply (holds_nonnull _ _ _ (RRef ref) Hh)|apply (holds_nonnull _ _ _ (RBuf b) Hh)
        |apply (holds_nonnull _ _ _ (RCtrl ctrl) Hh)]; [done|do 2 right; left|done]. }
    eapply (wp_publish n L); [|constructor; [constructor; simpl; done || (unfold UGDS_DEFAULT_NUM_QPS; lia)|done]|].
    + eapply holds_perm; [exact Hh4|]. unfold handle_ledger, L'. simpl. perm.
    + intros r' g' Hreg. apply HQ. eapply registered_kept; [|exact Hreg]. by rewrite Hk1, Hk4.
Qed.

Lemma not_ok err : err <> 0 -> nvm_ok err = false.
Proof. apply bool_decide_false. Qed.

(** The most objects one registration allocates: the controller (4), the admin queue memory (5), its
    reference (3) and 15 for each of the 16 queue pairs. *)
Definition register_budget : Z := 252.

Lemma registered_err n m L g e g' fd :
  err e <> UGDS_SUCCESS -> kept g g' -> m <= n -> holds n L (g_lib g') -> registered fd m L g (e, NULL) g'.
Proof. intros He Hk Hm Hh. left. split; [done|]. split; [done|]. by eapply holds_weaken. Qed.

Lemma wp_handle_register n L fh_null descr Q (g : ugds E) :
  0 <= n -> holds (n + register_budget) L (g_lib g) ->
  (forall r g', registered (descr_fd <$> descr) n L g r g' -> Q r g') -> wp (uGDSHandleRegister fh_null descr) Q g.
Proof.
  unfold register_budget. intros Hn Hh HQ.
  assert (forall e, err e <> UGDS_SUCCESS -> wp (mret (e, NULL)) Q g) as Hfail.
  { intros e He. apply wp_ret, HQ. eapply (registered_err (n + 252)); [done|done|lia|done]. }
  unfold uGDSHandleRegister. destruct fh_null; [by apply Hfail|]. destruct descr as [descr|]; [|by apply Hfail].
  apply wp_bind, wp_get. destruct (drv_initialized _); simpl; [|by apply Hfail].
  case_decide; [by apply Hfail|]. apply wp_bind, wp_on_lib. eapply (ho_ctrl_init (n + 248)); [done
    |eapply holds_weaken; [exact Hh|lia]| |].
  { intros e l He Hl. cbn [fst snd]. rewrite not_ok by done. simpl. apply wp_ret, HQ.
    eapply (registered_err (n + 248)); [done|done|lia|done]. }
  intros ctrl l Hl. cbn [fst snd]. change (nvm_ok 0) with true. cbn [negb].
  destruct (holds_live _ _ _ (RCtrl ctrl) Hl ltac:(left)) as (c & Hc & Hps & Hsc & _).
  apply wp_bind, wp_on_lib. eapply wp_deref; [done|done|]. cbv zeta.
  apply wp_bind, wp_on_lib. eapply (ho_memalign (n + 247)); [eapply holds_weaken; [exact Hl|lia]| |].
  { intros e l1 He Hl1. cbn [fst snd]. rewrite decide_True by done.
    eapply (wp_undo_ctrl (n + 247) n L); [lia|exact Hl1|]. intros r g' Hr. apply HQ. by eapply registered_kept. }
  intros b l1 Hb Hl1. cbn [fst snd]. rewrite decide_False by tauto. apply wp_bind, wp_memset.
  intros g1 Hg1 Hk1. simpl in Hg1. rewrite <- Hg1 in Hl1.
  destruct (holds_live _ _ _ (RCtrl ctrl) Hl1 ltac:(right; left)) as (c1 & Hc1 & Hps1 & Hsc1 & _).
  rewrite Hsc, <- Hsc1. apply wp_bind, wp_on_lib.
  eapply (ho_map_host (n + 243) _ ctrl c1 b 3); [done|done|lia|lia|eapply holds_weaken; [exact Hl1|lia]
    |right; left|done| |].
  { intros e l2 He Hl2. cbn [fst snd]. rewrite not_ok by done. cbn [negb].
    eapply (wp_undo_buf (n + 243) n L); [lia|exact Hl2|]. intros r g' Hr. apply HQ. by eapply registered_kept. }
  intros d l2 Hl2. cbn [fst snd]. change (nvm_ok 0) with true. cbn [negb].
  apply wp_bind, wp_on_lib. eapply (ho_aq_create (n + 240) 3); [lia|eapply holds_weaken; [exact Hl2|lia]
    |do 2 right; left|left| |].
  { intros e l3 He Hl3. cbn [fst snd]. rewrite not_ok by done. cbn [negb].
    eapply (wp_undo_dma (n + 240) n L); [lia|exact Hl3|]. intros r g' Hr. apply HQ. by eapply registered_kept. }
  intros ref l3 Hl3. cbn [fst snd]. change (nvm_ok 0) with true. cbn [negb]. rewrite Hsc1.
  eapply (wp_register_queues n L); [done|exact Hl3|]. intros r g' Hr. apply HQ. by eapply registered_kept.
Qed.

(** ** Deregistering a handle *)

Lemma wp_handle_deregister n L fh hs Q (g : ugds E) :
  fh <> NULL -> g_handles g !! fh = Some hs -> handle_fixed hs ->
  holds n (handle_ledger hs ++ L) (g_lib g) ->
  (forall g', holds n L (g_lib g') -> g_handles g' = delete fh (g_handles g) -> g_next g' = g_next g ->
     g_driver g' = mk_driver (drv_initialized (g_driver g))
       (if decide (drv_default_ctrl (g_driver g) = Some (hs_ctrl hs)) then None
        else drv_default_ctrl (g_driver g)) (drv_buf_registry (g_driver g)) -> Q tt g') ->
  wp (uGDSHandleDeregister fh) Q g.
Proof.
  intros Hfh Hg [_ _ [d Hd] (Hr & Hb & Hc) _ _ _ _] Hh HQ. unfold uGDSHandleDeregister.
  rewrite decide_False by done. apply wp_bind, wp_get. rewrite Hg. apply wp_bind, wp_ret.
  unfold handle_ledger in Hh. rewrite Hd in *.
  apply wp_bind. eapply (wp_cleanup_qps n ([RRef (hs_aq_ref hs); RDma 3 d; RBuf (hs_aq_buf hs); RCtrl (hs_ctrl hs)] ++ L));
    [|left|].
  { eapply holds_perm; [exact Hh|]. rewrite <- app_assoc. apply Permutation_app; [|done].
    apply bind_Permutation. apply Permutation_rev. }
  intros g1 Hh1 (Hkd & Hkh & Hkn). apply wp_bind, wp_modify. cbv zeta.
  set (g2 := if decide (drv_default_ctrl (g_driver g1) = _) then _ else _).
  assert (g_lib g2 = g_lib g1 /\ g_handles g2 = g_handles g1 /\ g_next g2 = g_next g1) as (Hl2 & Hh2 & Hn2)
    by (subst g2; destruct (decide (drv_default_ctrl (g_driver g1) = _)); split_and!; reflexivity).
  assert (g_driver g2 = mk_driver (drv_initialized (g_driver g))
       (if decide (drv_default_ctrl (g_driver g) = Some (hs_ctrl hs)) then None
        else drv_default_ctrl (g_driver g)) (drv_buf_registry (g_driver g))) as Hd2.
  { subst g2. rewrite Hkd. destruct (decide (drv_default_ctrl (g_driver g) = _)); [done|]. rewrite Hkd. by destruct (g_driver g). }
  clearbody g2. rewrite <- Hl2 in Hh1.
  rewrite (decide_True (P := hs_aq_ref hs <> NULL)) by done. apply wp_bind, wp_on_lib. eapply ho_aq_destroy; [exact Hh1|]. intros l3 Hl3.
  apply wp_bind. eapply (wp_release_dma n _ 3 (Some d)); [exact Hl3| |].
  { intros Q' g0 Hg0 HQ'. by apply wp_ret, HQ'. }
  intros g4 Hh4 (Hkd4 & Hkh4 & Hkn4). apply wp_bind, wp_on_lib. eapply ho_free; [exact Hh4|]. intros l5 Hl5.
  rewrite decide_True by done. apply wp_bind, wp_on_lib. eapply ho_ctrl_free; [exact Hl5|]. intros l6 Hl6.
  apply wp_modify, HQ; simpl in *; [done| | |]; congruence.
Qed.
End api.
