(* ===== verification/UgdsLink.v ===== *)
(** * Transfers on a registered handle

    What UgdsIoSpec.v assumes of a handle and of the mapping functions, proved of the handles that
    [uGDSHandleRegister] makes and of libnvm; so a transfer on the state of the process is
    defined, moves the bytes asked for, and keeps what the process owns. *)
From stdpp Require Import prelude gmap gmultiset list sorting.
From Stdlib Require Import ZArith Lia.
From S2P Require Import Prelude NvmTypes NvmUtil NvmError NvmQueue NvmCmd NvmDevice Admin UgdsTypes UgdsIo UgdsIoSpec.
From S2P Require Import LibState Ctrl Dma LinuxDma Aq Rpc UgdsHandle UgdsRw LibInv LibProofs LibApi Ledger UgdsApi.
Local Open Scope Z_scope.
Local Open Scope ugds_scope.

(** ** libnvm keeps the promises [do_io] relies on *)

Section laws.
Context `{Env} (hip : hip_info) (ctrl : Z) (L : list res).
Context (Hctrl : RCtrl ctrl ∈ L) (Hpow : is_pow2 sc_pagesize) (Hps : sc_pagesize <= 2 ^ 16).

Lemma holds_dma_any n m a L' s : 0 <= m -> holds n (RDma m a :: L') s -> holds n (RDma 0 a :: L') s.
Proof.
  intros Hm [Hi Hl Hn Hr]. constructor; try done. apply Forall_cons in Hl as [(k & Hk & Hle & Hrest) Hl].
  apply Forall_cons. split; [|done]. exists k. split; [done|]. split; [lia|done].
Qed.

Definition lib_laws : DmaLaws (H := lib_dma hip ctrl) lib.
Proof.
  refine (Build_DmaLaws lib (lib_dma hip ctrl) (fun c => ctrl_page_size c = sc_pagesize)
    (fun ds l => holds 0 ((RDma 0 <$> ds) ++ L) l) (fun l => l_next l + 5 <= 2 ^ 31) _ _).
  - intros c ptr size ds l Hc Hh Hroom Hsz. rewrite Hc. simpl. apply wp_bind.
    set (m := cdiv size sc_pagesize).
    eapply (ho_map_device m 0 ((RDma 0 <$> ds) ++ L)).
    + right. split; [done|]. split; [done|]. split; [lia|done].
    + done.
    + destruct Hh as [Hi Hl Hn _]. by constructor.
    + rewrite elem_of_app. by right.
    + intros err l' He Hl. cbn [fst snd]. rewrite decide_True by done. apply wp_ret. left. split; [by left|done].
    + intros a l' Hl. pose proof (holds_nonnull _ _ _ (RDma m a) Hl ltac:(left)) as Hne. simpl in Hne.
      cbn [fst snd]. rewrite decide_False by done.
      destruct (holds_live _ _ _ _ Hl ltac:(left)) as (k & Hk & Hle & _ & Hok).
      apply wp_bind. eapply wp_deref; [done|done|]. apply wp_ret. right. exists a, (k_handle k).
      split; [done|]. split; [|done]. eapply holds_dma_any; [|exact Hl].
      pose proof (cdiv_pos size sc_pagesize (is_pow2_pos _ Hpow)). lia.
  - intros p ds l Hh. simpl. eapply ho_unmap; [exact Hh|]. by intros l' Hl.
Defined.
End laws.

(** ** Handles between transfers *)

(** Everything taken from a submission queue was submitted, and there is a page for PRP lists. *)
Definition qp_alive (qp : IOQueuePair Z) : Prop := sq_ready (qp_sq qp) /\ is_Some (qp_prp_dma qp).

Record handle_alive (hs : HandleState Z Z) : Prop := {
  ha_fixed : handle_fixed hs;
  ha_qps : Forall qp_alive (hs_qps hs);
}.

Lemma fresh_sq_ready id q : fresh_queue id q -> sq_ready q.
Proof. intros [Hwf Hqs _ Hdb Hl _]. constructor; [done| |done|done]. rewrite Hqs. by exists 1024. Qed.

Lemma ready_alive hs : handle_ready hs -> handle_alive hs.
Proof.
  intros [Hf Hq]. constructor; [done|]. apply Forall_lookup. intros j qp Hj.
  destruct (Hq j qp Hj) as [_ Hsq (_ & _ & Hprp) _]. split; [by eapply fresh_sq_ready|done].
Qed.

Section link.
Context `{Env} {E : Type} `{Device E, HostMem E}.
Context (Hpow : is_pow2 sc_pagesize).

(** A handle on which a transfer is defined: it has a queue pair (a controller may grant none),
    a block size the code computes right, and no command needs more than 65536 blocks. *)
Definition usable (hs : HandleState Z Z) : Prop :=
  16 <= sc_pagesize <= 2 ^ 16 /\ 0 < hs_num_qps hs /\ hs_block_size hs < 2 ^ 32 /\
  max_xfer hs sc_pagesize <= 0x10000 * hs_block_size hs.

#[export] Instance usable_dec hs : Decision (usable hs).
Proof. unfold usable. apply _. Defined.

(** *** The pointers of a handle lead to what the ledger lists *)

Section pointers.
Context (n : Z) (L : list res) (l : lib) (Hh : holds n L l).

Lemma dma_at_live m a : RDma m a ∈ L ->
  exists d, dma_at l a = Some d /\ m <= dma_n_ioaddrs d /\ dma_page_size d = sc_pagesize /\ dma_ok d.
Proof.
  intros Ha. destruct (holds_live _ _ _ _ Hh Ha) as (k & Hk & Hrest). exists (k_handle k).
  split; [|done]. unfold dma_at. by rewrite Hk.
Qed.

Lemma dma_opt_at_live m o :
  match o with Some a => [RDma m a] | None => [] end ⊆ L -> is_Some (dma_opt_at l o).
Proof.
  destruct o as [a|]; simpl; [|eauto]. intros Ha.
  destruct (dma_at_live m a) as (d & -> & _); [|simpl; eauto]. apply Ha. left.
Qed.

Lemma ctrl_at_live a : RCtrl a ∈ L -> exists c, ctrl_at l a = Some c /\ ctrl_page_size c = sc_pagesize.
Proof.
  intros Ha. destruct (holds_live _ _ _ _ Hh Ha) as (c & Hc & _ & Hsc & _). exists (c_handle c).
  split; [|done]. unfold ctrl_at. by rewrite Hc.
Qed.

Lemma qp_at_live qp : qp_ledger qp ⊆ L -> qp_alive qp ->
  exists qp', qp_at l qp = Some qp' /\ qp_ok sc_pagesize qp'.
Proof.
  intros HL [Hsq [p Hp]]. unfold qp_ledger in HL. rewrite !list_subseteq_app_iff_l in HL.
  destruct HL as (Hd1 & Hd2 & Hd3 & _). unfold dma_res in *. rewrite Hp in Hd3.
  destruct (dma_opt_at_live 1 _ Hd1) as [sq Esq]. destruct (dma_opt_at_live 1 _ Hd2) as [cq Ecq].
  destruct (dma_at_live 1 p) as (d & Ed & Hle & Hsc & Hlen & _ & Hfit); [apply Hd3; left|].
  unfold qp_at. rewrite Esq, Ecq, Hp. simpl. rewrite Ed. simpl. eexists. split; [done|]. split; [done|].
  simpl. destruct (dma_ioaddrs d) as [|io0 rest] eqn:Eio; [simpl in Hlen; lia|].
  exists d, io0, rest. split; [done|]. split; [done|]. split; [by apply Forall_cons in Hfit as [? _]|]. done.
Qed.

Lemma qps_at_live qps : (qps ≫= qp_ledger) ⊆ L -> Forall qp_alive qps ->
  exists qps', mapM (qp_at l) qps = Some qps' /\ Forall (qp_ok sc_pagesize) qps' /\ length qps' = length qps.
Proof.
  intros HL Hal. assert (Forall (fun qp => exists qp', qp_at l qp = Some qp' /\ qp_ok sc_pagesize qp') qps) as Hall.
  { apply Forall_forall. intros qp Hin. eapply Forall_forall in Hal; [|exact Hin]. apply qp_at_live; [|done].
    intros r Hr. apply HL, list_elem_of_bind. eauto. }
  clear HL Hal. induction Hall as [|qp qps (qp' & Eq & Hok) _ (qps' & IH & Hq & Hlen)]; [by exists []|].
  exists (qp' :: qps'). simpl. rewrite Eq. simpl. rewrite IH. split; [done|]. split; [by constructor|]. simpl. lia.
Qed.

Lemma hs_at_live hs : handle_ledger hs ⊆ L -> handle_alive hs ->
  exists hs', hs_at l hs = Some hs' /\ ctrl_page_size (hs_ctrl hs') = sc_pagesize /\
    Forall (qp_ok sc_pagesize) (hs_qps hs') /\ length (hs_qps hs') = length (hs_qps hs) /\
    hs_ns_id hs' = hs_ns_id hs /\ hs_block_size hs' = hs_block_size hs /\
    hs_max_transfer_size hs' = hs_max_transfer_size hs /\ hs_num_qps hs' = hs_num_qps hs /\
    hs_rr_counter hs' = hs_rr_counter hs.
Proof.
  intros HL [_ Hal]. unfold handle_ledger in HL. rewrite !list_subseteq_app_iff_l in HL.
  destruct HL as (Hq & _ & Ha & Hc). destruct (ctrl_at_live (hs_ctrl hs)) as (c & Ec & Hsc).
  { apply Hc. right. left. }
  destruct (dma_opt_at_live 3 _ Ha) as [aq Eaq]. destruct (qps_at_live _ Hq Hal) as (qps & Eq & Hok & Hlen).
  unfold hs_at. rewrite Ec, Eaq. simpl. rewrite Eq. simpl. by eexists.
Qed.

Lemma registry_at_live reg buf : (forall a, reg !! buf = Some a -> RDma 0 a ∈ L) ->
  exists reg', registry_at l reg buf = Some reg' /\ (forall d, reg' !! buf = Some d -> dma_ok d).
Proof.
  intros Hreg. unfold registry_at. destruct (reg !! buf) as [a|]; [|by exists ∅].
  destruct (dma_at_live 0 a (Hreg a eq_refl)) as (d & -> & _ & _ & Hok). simpl. eexists. split; [done|].
  intros d' Hd. rewrite lookup_singleton_eq in Hd. by injection Hd as <-.
Qed.
End pointers.

(** What the pointers of a usable handle lead to is a world [do_io] works on. *)
Lemma io_at_live n L (g : ugds E) hs buf :
  holds n L (g_lib g) -> handle_ledger hs ⊆ L -> handle_alive hs -> usable hs ->
  (forall a, drv_buf_registry (g_driver g) !! buf = Some a -> RDma 0 a ∈ L) ->
  exists w, io_at g hs buf = Some w /\ world_ok w /\ ctrl_page_size (hs_ctrl (w_hs w)) = sc_pagesize /\
    (forall d, w_registry w !! buf = Some d -> dma_ok d) /\ w_dma w = g_lib g /\
    length (hs_qps (w_hs w)) = length (hs_qps hs) /\ hs_block_size (w_hs w) = hs_block_size hs.
Proof.
  intros Hh HL Hal (Hps & Hn & Hbs & Hx) Hreg. pose proof Hal as [[Hnum Hmax _ _ Hns Hlim Hblk Hrr] _].
  destruct (hs_at_live n L _ Hh hs HL Hal) as (hs' & Ehs & Hsc & Hok & Hlen & Ens & Ebs & Emts & Enum & Err).
  destruct (registry_at_live n L _ Hh _ buf Hreg) as (reg & Ereg & Hd).
  unfold io_at. rewrite Ehs. simpl. rewrite Ereg. simpl. eexists. split; [done|]. simpl.
  split; [|by rewrite Hsc]. unfold UGDS_DEFAULT_NUM_QPS in Hmax.
  constructor; simpl; rewrite ?Hsc, ?Enum, ?Err; try done || lia.
  assert (max_xfer hs' sc_pagesize = max_xfer hs sc_pagesize) as Ex by (unfold max_xfer; by rewrite Emts).
  constructor; rewrite ?Hsc, ?Ebs, ?Ens, ?Emts, ?Hns, ?Ex; try done || lia; by apply Hblk.
Qed.

(** *** What a transfer stores keeps the handle *)

Lemma qps_back_ledger {D} qps (qps' : list (IOQueuePair D)) :
  length qps' = length qps -> zip_with qp_back qps qps' ≫= qp_ledger = qps ≫= qp_ledger.
Proof.
  revert qps'. induction qps as [|qp qps IH]; intros [|qp' qps'] Hlen; try done. simpl in *.
  rewrite IH by lia. done.
Qed.

Lemma qps_back_alive ps qps qps' :
  Forall qp_alive qps -> Forall (qp_ok ps) qps' -> Forall qp_alive (zip_with qp_back qps qps').
Proof.
  intros Hal. revert qps'. induction Hal as [|qp qps [_ Hp] _ IH]; intros qps' Hok; [constructor|].
  destruct Hok as [|qp' qps' [Hsq _] Hok]; [constructor|]. constructor; [by split|]. by apply IH.
Qed.

Lemma io_back_kept hs (w w' : io_world E lib) :
  handle_alive hs -> length (hs_qps (w_hs w)) = length (hs_qps hs) -> world_ok w' -> same_handle w w' ->
  handle_alive (hs_back hs (w_hs w')) /\ handle_ledger (hs_back hs (w_hs w')) = handle_ledger hs.
Proof.
  intros [[Hnum Hmax Hdma Hptr Hns Hlim Hblk _] Hal] Hlen [_ _ _ Hqps Hrr] (_ & qps & rr & Ehs & Hsame).
  apply Forall2_length in Hsame. rewrite Hlen in Hsame.
  assert (length (hs_qps (w_hs w')) = length (hs_qps hs)) as Hlen' by (by rewrite Ehs).
  split; [|unfold handle_ledger; simpl; by rewrite qps_back_ledger].
  constructor; [|by eapply qps_back_alive].
  constructor; simpl; try done. rewrite length_zip_with, Hlen'. lia.
Qed.

(** What is kept by a transfer: everything but the queues of the handle. *)
Definition transferred (g : ugds E) (fh : Z) (hs : HandleState Z Z) (L : list res) (g' : ugds E) : Prop :=
  exists hs', g_handles g' = <[fh := hs']> (g_handles g) /\ g_driver g' = g_driver g /\
    g_next g' = g_next g /\ handle_alive hs' /\ handle_ledger hs' = handle_ledger hs /\
    hs_ctrl hs' = hs_ctrl hs /\ holds 0 L (g_lib g').

Lemma handle_ledger_ctrl hs : RCtrl (hs_ctrl hs) ∈ handle_ledger hs.
Proof. unfold handle_ledger. rewrite !elem_of_app, !elem_of_cons. tauto. Qed.

Lemma wp_handle_io L hip fh hs buf size fo bo opcode Q (g : ugds E) :
  holds 0 L (g_lib g) -> fh <> NULL -> g_handles g !! fh = Some hs ->
  handle_ledger hs ⊆ L -> handle_alive hs -> usable hs ->
  (forall a, drv_buf_registry (g_driver g) !! buf = Some a -> RDma 0 a ∈ L) ->
  fits 7 opcode -> 0 <= size < 2 ^ 63 -> fo < 2 ^ 63 -> bo < 2 ^ 63 -> l_next (g_lib g) + 5 <= 2 ^ 31 ->
  (forall r g', transferred g fh hs L g' -> Q r g') -> wp (handle_io hip fh buf size fo bo opcode) Q g.
Proof.
  intros Hh Hfh Hg HL Hal Hu Hreg Hop Hsz Hfo Hbo Hroom HQ. pose proof Hu as ((_ & Hps) & _).
  destruct (io_at_live 0 L g hs buf Hh HL Hal Hu Hreg) as (w & Ew & Hw & Hsc & Hd & Hdma & Hlen & _).
  unfold handle_io. rewrite decide_False by done. apply wp_bind, wp_get. rewrite Hg. apply wp_bind, wp_ret.
  rewrite Ew. apply wp_bind, wp_ret.
  destruct (do_io_total (H1 := lib_laws hip (hs_ctrl hs) L (HL _ (handle_ledger_ctrl hs)) Hpow Hps)
    w fh buf size fo bo opcode []) as (r & w' & -> & Hds & Hw' & Hsame); try done; [by rewrite Hdma..|].
  apply wp_bind. unfold wp, put. apply HQ.
  destruct (io_back_kept hs w w' Hal Hlen Hw' Hsame) as [Hal' HL']. by eexists.
Qed.
End link.
