(* ===== verification/UgdsClient.v ===== *)
(** * Sequences of uGDS calls

    The invariant of the library's state, kept by every call of the interface in any order and
    under any failure, and what follows from it. *)
From stdpp Require Import prelude gmap gmultiset list sorting.
From Stdlib Require Import ZArith Lia.
From S2P Require Import Prelude NvmTypes NvmUtil NvmError NvmQueue NvmCmd NvmDevice Admin UgdsTypes.
From S2P Require Import UgdsIo UgdsIoSpec LibState Ctrl Dma LinuxDma Aq Rpc UgdsHandle UgdsRw.
From S2P Require Import LibInv LibProofs LibClient Ledger UgdsApi UgdsLink.
Local Open Scope Z_scope.

Inductive ucall :=
  | DriverOpen
  | DriverClose
  | HandleRegister (fh_null : bool) (descr : option uGDSDescr_t)
  | HandleDeregister (fh : Z)
  | BufRegister (hip : hip_info) (bufPtr_base length : Z)
  | BufDeregister (bufPtr_base : Z)
  | Read (hip : hip_info) (fh bufPtr_base size file_offset bufPtr_offset : Z)
  | Write (hip : hip_info) (fh bufPtr_base size file_offset bufPtr_offset : Z).

Section client.
Context `{Env} {E : Type} `{Device E, HostMem E}.

(** The error returned (deregistering a handle returns none), or what a transfer returns. *)
Definition do_ucall (c : ucall) : M (ugds E) (uGDSError_t + Z) :=
  match c with
  | DriverOpen => e ← uGDSDriverOpen; mret (inl e)
  | DriverClose => e ← uGDSDriverClose; mret (inl e)
  | HandleRegister fh_null descr => r ← uGDSHandleRegister fh_null descr; mret (inl (fst r))
  | HandleDeregister fh => uGDSHandleDeregister fh;; mret (inl UGDS_OK)
  | BufRegister hip base length => e ← uGDSBufRegister hip base length; mret (inl e)
  | BufDeregister base => e ← uGDSBufDeregister base; mret (inl e)
  | Read hip fh base size fo bo => n ← handle_io hip fh base size fo bo (io_opcode NVM_IO_READ); mret (inr n)
  | Write hip fh base size fo bo => n ← handle_io hip fh base size fo bo (io_opcode NVM_IO_WRITE); mret (inr n)
  end.

(** Room for the objects a call allocates: fewer than 2^31 were ever allocated. *)
Definition room (g : ugds E) : Prop := l_next (g_lib g) + register_budget <= 2 ^ 31.

(** The arguments of a transfer: the offsets in the range of [off_t], a size below 2^63 (above it
    the length check wraps around), and a null handle or one on which transfers are defined. *)
Definition io_legal (g : ugds E) (fh size file_offset bufPtr_offset : Z) : Prop :=
  room g /\ 0 <= size < 2 ^ 63 /\ file_offset < 2 ^ 63 /\ bufPtr_offset < 2 ^ 63 /\
  (fh = NULL \/ match g_handles g !! fh with Some hs => usable hs | None => False end).

(** A user deregisters what it registered. *)
Definition ulegal (g : ugds E) (c : ucall) : Prop :=
  match c with
  | HandleRegister _ _ | BufRegister _ _ _ => room g
  | HandleDeregister fh => fh = NULL \/ is_Some (g_handles g !! fh)
  | Read _ fh _ size fo bo | Write _ fh _ size fo bo => io_legal g fh size fo bo
  | _ => True
  end.

#[export] Instance io_legal_dec g fh size fo bo : Decision (io_legal g fh size fo bo).
Proof. unfold io_legal, room. destruct (g_handles g !! fh); apply _. Defined.

#[export] Instance ulegal_dec g c : Decision (ulegal g c).
Proof. destruct c; simpl; apply _. Defined.

(** A process that has just started. *)
Definition ugds_start (sqmem : Z -> nvm_cmd_t) (prp : Z -> Z) (e : E) : ugds E :=
  mk_ugds (lib_start 1) sqmem e [] prp [] (mk_driver false None ∅) ∅ 1.

Inductive ureach : ugds E -> Prop :=
  | ureach_start sqmem prp e : ureach (ugds_start sqmem prp e)
  | ureach_call g c r g' : ureach g -> ulegal g c -> do_ucall c g = Some (r, g') -> ureach g'.

(** ** The invariant *)

(** What the registered handles and buffers own. *)
Definition handles_ledger (hs : gmap Z (HandleState Z Z)) : list res :=
  map_to_list hs ≫= (handle_ledger ∘ snd).
Definition bufs_ledger (reg : gmap Z Z) : list res := (RDma 0 ∘ snd) <$> map_to_list reg.
Definition ledger_of (g : ugds E) : list res :=
  handles_ledger (g_handles g) ++ bufs_ledger (drv_buf_registry (g_driver g)).

Record ugds_inv (g : ugds E) : Prop := {
  ui_holds : holds 0 (ledger_of g) (g_lib g);
  ui_next : 0 < g_next g;
  ui_handles : map_Forall (fun fh hs => 0 < fh < g_next g /\ handle_alive hs) (g_handles g);
  ui_default : forall c, drv_default_ctrl (g_driver g) = Some c ->
    exists fh hs, g_handles g !! fh = Some hs /\ hs_ctrl hs = c;
  ui_closed : drv_initialized (g_driver g) = false ->
    drv_default_ctrl (g_driver g) = None /\ drv_buf_registry (g_driver g) = ∅;
}.

Lemma handles_ledger_insert hs fh h :
  hs !! fh = None -> handles_ledger (<[fh := h]> hs) ≡ₚ handle_ledger h ++ handles_ledger hs.
Proof.
  intros Hn. unfold handles_ledger. rewrite (bind_Permutation _ _ _ (map_to_list_insert hs fh h Hn)). done.
Qed.

Lemma handles_ledger_delete hs fh h :
  hs !! fh = Some h -> handles_ledger hs ≡ₚ handle_ledger h ++ handles_ledger (delete fh hs).
Proof.
  intros Hs. rewrite <- (insert_delete_id hs fh h Hs) at 1. apply handles_ledger_insert, lookup_delete_eq.
Qed.

Lemma bufs_ledger_insert reg b d :
  reg !! b = None -> bufs_ledger (<[b := d]> reg) ≡ₚ RDma 0 d :: bufs_ledger reg.
Proof. intros Hn. unfold bufs_ledger. by rewrite (map_to_list_insert reg b d Hn). Qed.

Lemma bufs_ledger_delete reg b d :
  reg !! b = Some d -> bufs_ledger reg ≡ₚ RDma 0 d :: bufs_ledger (delete b reg).
Proof.
  intros Hs. rewrite <- (insert_delete_id reg b d Hs) at 1. apply bufs_ledger_insert, lookup_delete_eq.
Qed.

Lemma ugds_inv_start sqmem prp e : ugds_inv (ugds_start sqmem prp e).
Proof.
  constructor; simpl; try done. apply holds_start; [lia|]. lia.
Qed.

Lemma holds_with_room n L s : holds 0 L s -> l_next s + n <= 2 ^ 31 -> holds n L s.
Proof. intros [Hi Hl Hn _] Hr. by constructor. Qed.

Lemma handles_ledger_ctrl hs fh h : hs !! fh = Some h -> RCtrl (hs_ctrl h) ∈ handles_ledger hs.
Proof.
  intros Hs. rewrite (handles_ledger_delete hs fh h Hs). apply elem_of_app. left.
  unfold handle_ledger. rewrite !elem_of_app, !elem_of_cons. tauto.
Qed.

(** ** Buffers and the driver *)

(** What [uGDSBufRegister] returns and does. *)
Definition buf_registered (n : Z) (g : ugds E) (base len : Z) (e : uGDSError_t) (g' : ugds E) : Prop :=
  let d := g_driver g in
  (e = make_error UGDS_DRIVER_NOT_INITIALIZED /\ g' = g /\
     (drv_initialized d = false \/
      base <> NULL /\ len <> 0 /\ drv_buf_registry d !! base = None /\ drv_default_ctrl d = None)) \/
  (e = make_error UGDS_INVALID_VALUE /\ g' = g /\ drv_initialized d = true /\ (base = NULL \/ len = 0)) \/
  (e = make_error UGDS_MEMORY_ALREADY_REGISTERED /\ g' = g /\ is_Some (drv_buf_registry d !! base)) \/
  (e = make_error UGDS_GPU_MEMORY_PINNING_FAILED /\ kept g g' /\ holds n (ledger_of g) (g_lib g')) \/
  (e = UGDS_OK /\ drv_buf_registry d !! base = None /\ exists a,
     g_driver g' = mk_driver (drv_initialized d) (drv_default_ctrl d) (<[base := a]> (drv_buf_registry d)) /\
     g_handles g' = g_handles g /\ g_next g' = g_next g /\ drv_initialized d = true /\
     holds n (RDma 0 a :: ledger_of g) (g_lib g')).

Lemma wp_buf_register n hip base len Q (g : ugds E) :
  0 <= n -> ugds_inv g -> l_next (g_lib g) + (n + register_budget) <= 2 ^ 31 ->
  (forall e g', buf_registered n g base len e g' -> Q e g') -> wp (uGDSBufRegister hip base len) Q g.
Proof.
  intros Hn [Hh Hnx Hhs Hd Hc] Hroom HQ. unfold register_budget in Hroom. apply wp_bind, wp_get. cbv zeta.
  destruct (drv_initialized (g_driver g)) eqn:Ei; simpl; [|apply wp_ret, HQ; left; rewrite Ei; tauto].
  case_decide as Hargs; [apply wp_ret, HQ; right; left; rewrite Ei; tauto|].
  destruct (drv_buf_registry (g_driver g) !! base) as [a|] eqn:Er.
  { apply wp_ret, HQ. right; right; left. rewrite Er. eauto. }
  destruct (drv_default_ctrl (g_driver g)) as [ctrl|] eqn:Ec.
  2:{ apply wp_ret, HQ. left. rewrite Er, Ec. tauto. }
  destruct (Hd ctrl eq_refl) as (fh & hs & Hfh & <-).
  apply wp_bind, wp_on_lib. eapply (ho_map_device 0 n); [by left|done|apply holds_with_room; [done|lia]
    |apply elem_of_app; left; by eapply handles_ledger_ctrl| |].
  - intros e l He Hl. cbn [fst snd]. rewrite decide_True by tauto. apply wp_ret, HQ.
    right; right; right; left. done.
  - intros a l Hl. cbn [fst snd]. pose proof (holds_nonnull _ _ _ (RDma 0 a) Hl ltac:(left)) as Hne. simpl in Hne.
    rewrite decide_False by tauto. apply wp_bind, wp_modify, wp_ret, HQ.
    right; right; right; right. rewrite Er, Ec, Ei. split; [done|]. split; [done|]. exists a. simpl. by rewrite Ei, Ec.
Qed.

Lemma wp_buf_deregister n base Q (g : ugds E) :
  holds n (ledger_of g) (g_lib g) ->
  (drv_buf_registry (g_driver g) !! base = None \/ drv_initialized (g_driver g) = false ->
     forall e, err e = (if drv_initialized (g_driver g) then UGDS_MEMORY_NOT_REGISTERED else UGDS_DRIVER_NOT_INITIALIZED) ->
       Q e g) ->
  (forall a g', drv_buf_registry (g_driver g) !! base = Some a ->
     drv_initialized (g_driver g) = true ->
     g_driver g' = mk_driver true (drv_default_ctrl (g_driver g)) (delete base (drv_buf_registry (g_driver g))) ->
     g_handles g' = g_handles g -> g_next g' = g_next g ->
     holds n (handles_ledger (g_handles g) ++ bufs_ledger (delete base (drv_buf_registry (g_driver g)))) (g_lib g') ->
     Q UGDS_OK g') ->
  wp (uGDSBufDeregister base) Q g.
Proof.
  intros Hh Herr Hok. apply wp_bind, wp_get. cbv zeta.
  destruct (drv_initialized (g_driver g)) eqn:Ei; simpl; [|apply wp_ret, Herr; [tauto|done]].
  destruct (drv_buf_registry (g_driver g) !! base) as [a|] eqn:Er; [|apply wp_ret, Herr; [tauto|done]].
  apply wp_bind, wp_on_lib. eapply ho_unmap; [|intros l Hl; apply wp_bind, wp_modify, wp_ret; eapply Hok; try done].
  - eapply holds_perm; [exact Hh|]. unfold ledger_of. rewrite (bufs_ledger_delete _ _ _ Er).
    apply perm_skip_app with (a := [RDma 0 a]). done.
  - simpl. by rewrite Ei.
Qed.

Lemma wp_unmap_all n L dmas Q (g : ugds E) :
  holds n ((RDma 0 <$> dmas) ++ L) (g_lib g) ->
  (forall g', holds n L (g_lib g') -> kept g g' -> Q tt g') -> wp (unmap_all dmas) Q g.
Proof.
  revert g. induction dmas as [|d dmas IH]; intros g Hh HQ; simpl; [by apply wp_ret, HQ|].
  apply wp_bind, wp_on_lib. eapply ho_unmap; [exact Hh|]. intros l Hl.
  apply IH; [exact Hl|]. intros g' Hh' Hk. apply HQ; [done|]. exact Hk.
Qed.

Lemma wp_driver_close n Q (g : ugds E) :
  holds n (ledger_of g) (g_lib g) ->
  (drv_initialized (g_driver g) = false -> Q (make_error UGDS_DRIVER_NOT_INITIALIZED) g) ->
  (forall g', drv_initialized (g_driver g) = true -> g_driver g' = mk_driver false None ∅ ->
     g_handles g' = g_handles g -> g_next g' = g_next g ->
     holds n (handles_ledger (g_handles g)) (g_lib g') -> Q UGDS_OK g') ->
  wp uGDSDriverClose Q g.
Proof.
  intros Hh Herr Hok. apply wp_bind, wp_get. cbv zeta.
  destruct (drv_initialized (g_driver g)) eqn:Ei; simpl; [|by apply wp_ret, Herr].
  apply wp_bind. eapply (wp_unmap_all n (handles_ledger (g_handles g))).
  - eapply holds_perm; [exact Hh|]. unfold ledger_of, bufs_ledger.
    rewrite list_fmap_compose. apply Permutation_app_comm.
  - intros g1 Hh1 (Hkd & Hkh & Hkn). apply wp_bind, wp_modify, wp_ret, Hok; try done.
Qed.

(** ** The invariant is kept *)

(** What the theorems rely on outside the library: [mmap] of BAR0 works, the page size of the host
    is a power of two, and Identify data is sane. *)
Record machine_ok : Prop := {
  mo_mmap : forall i, mmap_ok i = true;
  mo_pow : is_pow2 sc_pagesize;
  mo_page : sc_pagesize < 2 ^ 60;
  mo_sane : sane_controllers;
}.

Lemma ugds_inv_kept g g' : ugds_inv g -> kept g g' -> holds 0 (ledger_of g) (g_lib g') -> ugds_inv g'.
Proof.
  intros [Hh Hn Hhs Hd Hc] (Ed & Eh & En) Hh'.
  constructor; rewrite ?Ed, ?Eh, ?En; [|done..]. unfold ledger_of. by rewrite Ed, Eh.
Qed.

Lemma ugds_inv_registered fd n g r g' :
  0 <= n -> ugds_inv g -> registered fd n (ledger_of g) g r g' -> ugds_inv g' \/ drv_initialized (g_driver g) = false.
Proof.
  intros Hn0 Hinv [(_ & Hk & Hh)|(hs & _ & _ & Hr & _ & Eh & En & Ed & Hh)];
    (eapply (holds_weaken _ 0) in Hh; [|done]); [left; by eapply ugds_inv_kept|].
  destruct (drv_initialized (g_driver g)) eqn:Ei; [left|by right]. pose proof Hinv as [_ Hn Hhs Hd _].
  assert (g_handles g !! g_next g = None) as Hnone.
  { destruct (g_handles g !! g_next g) as [h|] eqn:E'; [|done]. apply Hhs in E' as [? _]. lia. }
  constructor; rewrite ?Eh, ?En, ?Ed; simpl; [|lia| | |done].
  - unfold ledger_of. rewrite Eh, Ed. simpl. rewrite handles_ledger_insert by done. by rewrite <- app_assoc.
  - apply map_Forall_insert; [done|]. split; [split; [lia|by apply ready_alive]|].
    eapply map_Forall_impl; [exact Hhs|]. intros fh h [? ?]. split; [lia|done].
  - intros c Hc. destruct (drv_default_ctrl (g_driver g)) as [c'|] eqn:Edc.
    + destruct (Hd c Hc) as (fh & h & Hfh & Hh'). exists fh, h. split; [|done].
      rewrite lookup_insert_ne; [done|]. intros <-. congruence.
    + injection Hc as <-. exists (g_next g), hs. split; [apply lookup_insert_eq|done].
Qed.

(** A handle can only be registered while the driver is open. *)
Lemma register_needs_open g fh_null descr r g' :
  uGDSHandleRegister fh_null descr g = Some (r, g') -> drv_initialized (g_driver g) = false -> g' = g.
Proof.
  unfold uGDSHandleRegister. destruct fh_null, descr as [d|]; try by intros [= _ <-].
  unfold mbind, M_bind, get. intros Hrun Hi. rewrite Hi in Hrun. by injection Hrun as _ <-.
Qed.

Lemma ugds_inv_deregistered g fh hs g' :
  ugds_inv g -> g_handles g !! fh = Some hs ->
  holds 0 (handles_ledger (delete fh (g_handles g)) ++ bufs_ledger (drv_buf_registry (g_driver g))) (g_lib g') ->
  g_handles g' = delete fh (g_handles g) -> g_next g' = g_next g ->
  g_driver g' = mk_driver (drv_initialized (g_driver g))
       (if decide (drv_default_ctrl (g_driver g) = Some (hs_ctrl hs)) then None
        else drv_default_ctrl (g_driver g)) (drv_buf_registry (g_driver g)) -> ugds_inv g'.
Proof.
  intros [_ Hn Hhs Hd Hc] Hfh Hh Eh En Ed. constructor; rewrite ?Eh, ?En, ?Ed; simpl; [|done| | |].
  - unfold ledger_of. by rewrite Eh, Ed.
  - by apply map_Forall_delete.
  - intros c Hdc. destruct (decide _) as [|Hne]; [done|].
    destruct (Hd c Hdc) as (fh' & h & Hfh' & <-). exists fh', h. split; [|done].
    rewrite lookup_delete_ne; [done|]. intros <-. rewrite Hfh in Hfh'. injection Hfh' as <-. by destruct Hne.
  - intros Hi. destruct (Hc Hi) as [Hdef Hreg]. rewrite Hdef. split; [by case_decide|done].
Qed.

(** A transfer changes nothing but the queues of its handle. *)
Lemma ugds_inv_transferred g fh hs g' :
  ugds_inv g -> g_handles g !! fh = Some hs -> transferred g fh hs (ledger_of g) g' -> ugds_inv g'.
Proof.
  intros [Hh Hn Hhs Hd Hc] Hfh (hs' & Eh & Ed & En & Hal & EL & Ec & Hh').
  constructor; rewrite ?Ed, ?En, ?Eh; try done.
  - unfold ledger_of. rewrite Eh, Ed. eapply holds_perm; [exact Hh'|]. unfold ledger_of.
    apply Permutation_app; [|done]. rewrite (handles_ledger_delete _ _ _ Hfh), <- insert_delete_eq.
    rewrite handles_ledger_insert by apply lookup_delete_eq. by rewrite EL.
  - apply map_Forall_insert_2; [|done]. split; [by eapply Hhs|done].
  - intros c Hdc. destruct (Hd c Hdc) as (fh' & h & Hfh' & <-). destruct (decide (fh' = fh)) as [->|Hne].
    + exists fh, hs'. rewrite lookup_insert_eq. split; [done|]. rewrite Hfh in Hfh'. by injection Hfh' as <-.
    + exists fh', h. by rewrite lookup_insert_ne.
Qed.

Lemma handle_in_ledger g fh hs : g_handles g !! fh = Some hs -> handle_ledger hs ⊆ ledger_of g.
Proof.
  intros Hfh r Hr. apply elem_of_app. left. rewrite (handles_ledger_delete _ _ _ Hfh). apply elem_of_app. by left.
Qed.

Lemma buf_in_ledger g buf a : drv_buf_registry (g_driver g) !! buf = Some a -> RDma 0 a ∈ ledger_of g.
Proof. intros Hb. apply elem_of_app. right. rewrite (bufs_ledger_delete _ _ _ Hb). left. Qed.

Lemma wp_io_call g hip fh buf size fo bo opcode :
  is_pow2 sc_pagesize -> ugds_inv g -> io_legal g fh size fo bo -> fits 7 opcode ->
  wp (n ← handle_io hip fh buf size fo bo opcode; mret (inr (A := uGDSError_t) n)) (fun _ g' => ugds_inv g') g.
Proof.
  intros Hpow Hinv (Hroom & Hsz & Hfo & Hbo & Hfh) Hop. pose proof Hinv as [Hh _ Hhs _ _]. apply wp_bind.
  destruct (decide (fh = NULL)) as [->|Hne]; [by apply wp_ret, wp_ret|]. destruct Hfh as [|Hu]; [done|].
  destruct (g_handles g !! fh) as [hs|] eqn:Eh; [|done]. unfold room, register_budget in Hroom.
  eapply wp_handle_io; [done|exact Hh|done|exact Eh|by eapply handle_in_ledger|by apply (Hhs fh)|done
    |by intros a; apply buf_in_ledger|done|done|done|done|lia|].
  intros r g' Ht. apply wp_ret. by eapply ugds_inv_transferred.
Qed.

Lemma do_ucall_inv g c :
  machine_ok -> ugds_inv g -> ulegal g c -> wp (do_ucall c) (fun _ g' => ugds_inv g') g.
Proof.
  intros [Hm Hpw Hpg Hs] Hinv Hl. pose proof Hinv as [Hh Hn Hhs Hd Hc]. destruct c; simpl in *.
  - apply wp_bind, wp_bind, wp_get. cbv zeta. destruct (drv_initialized (g_driver g)) eqn:Ei; [by apply wp_ret, wp_ret|].
    apply wp_bind. unfold wp, put. apply wp_ret, wp_ret. constructor; simpl; done.
  - apply wp_bind, (wp_driver_close 0); [done|by intros; apply wp_ret|]. intros g' Hi Ed Eh En Hh'. apply wp_ret.
    constructor; rewrite ?Ed, ?Eh, ?En; simpl; [|done..].
    unfold ledger_of. rewrite Ed, Eh. simpl. unfold bufs_ledger at 1. rewrite map_to_list_empty. simpl. by rewrite app_nil_r.
  - apply wp_bind. assert (forall r g', registered (descr_fd <$> descr) 0 (ledger_of g) g r g' ->
      uGDSHandleRegister fh_null descr g = Some (r, g') -> ugds_inv g') as Hreg.
    { intros r g' Hr Hrun. destruct (ugds_inv_registered _ 0 g r g' ltac:(done) Hinv Hr) as [|Hi]; [done|].
      by rewrite (register_needs_open _ _ _ _ _ Hrun Hi). }
    pose proof (wp_handle_register Hs Hm Hpw Hpg 0 (ledger_of g) fh_null descr
      (fun r g' => registered (descr_fd <$> descr) 0 (ledger_of g) g r g') g ltac:(done) (holds_with_room _ _ _ Hh Hl) ltac:(done)) as Hwp.
    unfold wp in *. destruct (uGDSHandleRegister fh_null descr g) as [[r g']|] eqn:Hrun; [|done]. by eapply Hreg.
  - apply wp_bind. destruct Hl as [->|[hs Hfh]]; [by apply wp_ret|].
    destruct (Hhs _ _ Hfh) as [Hpos [Hr _]]. eapply wp_handle_deregister; [unfold NULL; lia|done|done| |].
    + eapply holds_perm; [exact Hh|]. unfold ledger_of. rewrite (handles_ledger_delete _ _ _ Hfh), <- app_assoc. done.
    + intros g' Hh' Eh En Ed. apply wp_ret. by eapply ugds_inv_deregistered.
  - apply wp_bind, (wp_buf_register 0); [done|done|done|]. intros e g' Hr. apply wp_ret.
    destruct Hr as [(_ & -> & _)|[(_ & -> & _)|[(_ & -> & _)|[(_ & Hk & Hh')|(_ & Hno & a & Ed & Eh & En & Ei & Hh')]]]];
      [done|done|done|by eapply ugds_inv_kept|].
    constructor; rewrite ?Ed, ?Eh, ?En; simpl; [|done..|by rewrite Ei].
    unfold ledger_of. rewrite Ed, Eh. simpl. eapply holds_perm; [exact Hh'|]. unfold ledger_of.
    rewrite (bufs_ledger_insert _ _ _ Hno). perm.
  - apply wp_bind, (wp_buf_deregister 0); [done|by intros _ e _; apply wp_ret|]. intros a g' Er Ei Ed Eh En Hh'. apply wp_ret.
    constructor; rewrite ?Ed, ?Eh, ?En; simpl; [|done..]. unfold ledger_of. by rewrite Ed, Eh.
  - by apply wp_io_call.
  - by apply wp_io_call.
Qed.

Lemma ureach_inv g : machine_ok -> ureach g -> ugds_inv g.
Proof.
  intros Hm Hr. induction Hr as [sqmem prp e|g c r g' Hr IH Hl Hc]; [apply ugds_inv_start|].
  pose proof (do_ucall_inv g c Hm IH Hl) as Hwp. unfold wp in Hwp. by rewrite Hc in Hwp.
Qed.

(** ** The bytes of a transfer *)

(** A request on a registered buffer that [do_io] does not refuse; [d] describes the buffer. *)
Record request_fits (hs : HandleState Z Z) (d : nvm_dma_t) (buf size fo bo : Z) : Prop := {
  rf_buf : buf <> NULL;
  rf_size : size <> 0 /\ size mod hs_block_size hs = 0;
  rf_file : 0 <= fo /\ fo mod hs_block_size hs = 0;
  rf_offset : 0 <= bo /\ bo mod sc_pagesize = 0;
  rf_len : bo / sc_pagesize + cdiv size sc_pagesize <= dma_n_ioaddrs d;
}.

Lemma handle_io_moves g hip fh hs buf a d size fo bo opcode :
  is_pow2 sc_pagesize -> ugds_inv g -> io_legal g fh size fo bo -> fh <> NULL ->
  g_handles g !! fh = Some hs -> drv_buf_registry (g_driver g) !! buf = Some a ->
  dma_at (g_lib g) a = Some d -> request_fits hs d buf size fo bo -> fits 7 opcode ->
  exists w r w', io_at g hs buf = Some w /\
    handle_io hip fh buf size fo bo opcode g = Some (r, io_back g fh hs w') /\
    io_post w (dma_ioaddrs d) (bo / sc_pagesize) opcode size fo r w'.
Proof.
  intros Hpow [Hh _ Hhs _ _] (_ & Hsz & Hfo & Hbo & Hu) Hne Hfh Hreg Hd [Hbuf [Hs0 Hsm] [Hf0 Hfm] [Hb0 Hbm] Hlen] Hop.
  rewrite Hfh in Hu. destruct Hu as [|Hu]; [done|].
  destruct (io_at_live Hpow 0 _ g hs buf Hh (handle_in_ledger _ _ _ Hfh) (proj2 (Hhs _ _ Hfh)) Hu)
    as (w & Ew & Hw & Hsc & Hok & _ & _ & Ebs); [intros b; apply buf_in_ledger|].
  assert (w_registry w !! buf = Some d) as Hwr.
  { unfold io_at in Ew. destruct (hs_at _ hs); [|done]. simpl in Ew. unfold registry_at in Ew.
    rewrite Hreg in Ew. simpl in Ew. rewrite Hd in Ew. injection Ew as <-. apply lookup_singleton_eq. }
  destruct (registered_run (H0 := lib_dma hip (hs_ctrl hs)) w fh buf size fo bo opcode d)
    as (r & w' & Hrun & Hp & _); rewrite ?Hsc; try done || (by apply Hok).
  { apply bad_args_false; [apply Hw|]. by rewrite Ebs. }
  exists w, r, w'. split; [done|]. rewrite Hsc in Hp. split; [|done].
  unfold handle_io. rewrite decide_False by done. unfold mbind, M_bind, get.
  rewrite Hfh. cbn [of_option]. unfold mret, M_ret. rewrite Ew. cbn [of_option]. unfold mret, M_ret. by rewrite Hrun.
Qed.

(** ** The properties *)



(** C12: [uGDSHandleRegister] either fails, leaves handles, registry and default controller as they
    were and keeps nothing it allocated, or gives a new handle with as many queue pairs as it
    reports (at most 16), the [i]-th of which has a fresh, empty submission and completion queue of
    64 entries with the identifier [i + 1], memory for both and a page for its PRP list. *)
Theorem handle_register_spec g fh_null descr :
  machine_ok -> ureach g -> ulegal g (HandleRegister fh_null descr) ->
  exists r g', uGDSHandleRegister fh_null descr g = Some (r, g') /\ registered (descr_fd <$> descr) 0 (ledger_of g) g r g'.
Proof.
  intros Hm Hr Hl. destruct (ureach_inv g Hm Hr) as [Hh _ _ _ _]. destruct Hm as [Hm Hpw Hpg Hs].
  pose proof (wp_handle_register Hs Hm Hpw Hpg 0 (ledger_of g) fh_null descr
    (fun r g' => registered (descr_fd <$> descr) 0 (ledger_of g) g r g') g ltac:(done) (holds_with_room _ _ _ Hh Hl) ltac:(done)) as Hwp.
  unfold wp in Hwp. destruct (uGDSHandleRegister fh_null descr g) as [[r g']|]; [eauto|done].
Qed.

(** C11: in any process that opened the driver, registered a handle and a buffer and did anything
    else in between, a read or write that fits the buffer goes to the addresses libnvm got for the
    buffer when it was registered: the commands submitted move, in order and nothing else, the
    first [n] bytes of the request between the namespace and the buffer, and [n] is the whole
    request when the call returns its size. *)
Theorem ugds_transfer g (rd : bool) hip fh hs buf a d size fo bo :
  machine_ok -> ureach g -> io_legal g fh size fo bo -> fh <> NULL ->
  g_handles g !! fh = Some hs -> drv_buf_registry (g_driver g) !! buf = Some a ->
  dma_at (g_lib g) a = Some d -> request_fits hs d buf size fo bo ->
  exists w r w', io_at g hs buf = Some w /\
    do_ucall ((if rd then Read else Write) hip fh buf size fo bo) g = Some (inr r, io_back g fh hs w') /\
    io_post w (dma_ioaddrs d) (bo / sc_pagesize) (io_opcode (if rd then NVM_IO_READ else NVM_IO_WRITE))
      size fo r w'.
Proof.
  intros Hm Hr Hl Hne Hfh Hreg Hd Hrq.
  destruct (handle_io_moves g hip fh hs buf a d size fo bo (io_opcode (if rd then NVM_IO_READ else NVM_IO_WRITE)))
    as (w & r & w' & Ew & Hrun & Hp); try done; [apply Hm|by apply ureach_inv|by destruct rd|].
  exists w, r, w'. split; [done|]. split; [|done]. destruct rd; cbn [do_ucall]; unfold mbind, M_bind; by rewrite Hrun.
Qed.

(** [uGDSBufRegister] returns the documented error on each refusal, and then leaves the library
    as it was; it enters a mapping made by the default controller in the registry otherwise. *)
Theorem buf_register_spec g hip base len :
  machine_ok -> ureach g -> ulegal g (BufRegister hip base len) ->
  exists e g', uGDSBufRegister hip base len g = Some (e, g') /\ buf_registered 0 g base len e g'.
Proof.
  intros Hm Hr Hl. pose proof (wp_buf_register 0 hip base len (buf_registered 0 g base len) g ltac:(done) (ureach_inv g Hm Hr) Hl
    ltac:(done)) as Hwp.
  unfold wp in Hwp. destruct (uGDSBufRegister hip base len g) as [[e g']|]; [eauto|done].
Qed.

(** the default controller is always the controller of a registered handle and alive, so that
    [uGDSBufRegister] never maps through a dangling pointer. *)
Theorem default_ctrl_alive g c :
  machine_ok -> ureach g -> drv_default_ctrl (g_driver g) = Some c ->
  (exists fh hs, g_handles g !! fh = Some hs /\ hs_ctrl hs = c) /\
  exists ct, l_heap (g_lib g) !! c = Some (OCtrl ct) /\ 1 <= c_count ct.
Proof.
  intros Hm Hr Hc. destruct (ureach_inv g Hm Hr) as [Hh _ _ Hd _].
  destruct (Hd c Hc) as (fh & hs & Hfh & <-). split; [eauto|].
  destruct (holds_live _ _ _ (RCtrl (hs_ctrl hs)) Hh) as (ct & Hct & _).
  { apply elem_of_app. left. by eapply handles_ledger_ctrl. }
  exists ct. split; [done|]. apply (h_ok _ _ _ (ho_inv _ _ _ Hh) _ _ Hct).
Qed.
End client.
