(* ===== verification/UgdsTests.v ===== *)
(** * The functional tests of return codes (src/test/functional)

    The helpers of test_utils.h and the four test programs that check what the calls of uGDS
    return, as programs on the model of the process.  A program ends with a verdict: it passes,
    fails at one of its checks, or is called without arguments.  [open] of the device file,
    [cudaMalloc] and what the GPU runtime says about memory are parameters. *)
From stdpp Require Import prelude gmap gmultiset list strings.
From Stdlib Require Import ZArith Lia Ascii.
From S2P Require Import Prelude CString NvmTypes NvmUtil NvmError NvmQueue NvmCmd NvmDevice Admin UgdsTypes.
From S2P Require Import UgdsIo UgdsIoSpec LibState Ctrl Dma LinuxDma Aq Rpc UgdsHandle UgdsRw.
From S2P Require Import LibInv LibProofs LibClient Ledger UgdsApi UgdsLink UgdsClient.
Local Open Scope Z_scope.

Inductive verdict := PASS | FAIL (msg : string) | USAGE.
(** What [main] returns. *)
Definition exit_code (v : verdict) : Z := match v with PASS => 0 | _ => 1 end.

(** [g_dev_path] and [g_gpu_id]; the name of the program comes first. *)
Definition parse_args (argv : list (list ascii)) : option (option (list ascii * Z)) :=
  match argv with
  | [] | [_] => Some None
  | _ :: path :: rest => gpu ← match rest with [] => Some 0 | id :: _ => atoi id end; Some (Some (path, gpu))
  end.

Section tests.
Context `{Env} {E : Type} `{Device E, HostMem E}.

(** The process: the library, the descriptors and the device memory the program holds, and how
    often it asked for them. *)
Record testing := mk_testing {
  t_ugds : ugds E; t_fds : list Z; t_opens : nat; t_mem : list Z; t_allocs : nat }.

(** A program, which may end early with a verdict. *)
Definition prog (A : Type) : Type := M testing (A + verdict).
#[export] Instance prog_ret : MRet prog := fun _ a s => Some (inl a, s).
#[export] Instance prog_bind : MBind prog := fun _ _ f m s =>
  match m s with
  | Some (inl a, s) => f a s
  | Some (inr v, s) => Some (inr v, s)
  | None => None
  end.

Definition stop {A} (v : verdict) : prog A := fun s => Some (inr v, s).
Definition call {A} (m : M (ugds E) A) : prog A := fun s =>
  match m (t_ugds s) with
  | Some (a, g) => Some (inl a, mk_testing g (t_fds s) (t_opens s) (t_mem s) (t_allocs s))
  | None => None
  end.
Definition crash_unless {A} (o : option A) : prog A := fun s => match o with Some a => Some (inl a, s) | None => None end.
Definition ugds_of : prog (ugds E) := fun s => Some (inl (t_ugds s), s).

(** What the system gives: a descriptor or a negative number, device memory or a null pointer. *)
Context (dev_open cuda_malloc : nat -> Z) (hip : hip_info).

Definition open_dev : prog Z := fun s =>
  let fd := dev_open (t_opens s) in
  Some (inl fd, mk_testing (t_ugds s) (if decide (fd < 0) then t_fds s else fd :: t_fds s) (S (t_opens s)) (t_mem s) (t_allocs s)).
Definition close_fd (fd : Z) : prog unit := fun s =>
  Some (inl tt, mk_testing (t_ugds s) (filter (fun x => x <> fd) (t_fds s)) (t_opens s) (t_mem s) (t_allocs s)).
Definition cudaMalloc : prog Z := fun s =>
  let p := cuda_malloc (t_allocs s) in
  Some (inl p, mk_testing (t_ugds s) (t_fds s) (t_opens s) (if decide (p = NULL) then t_mem s else p :: t_mem s) (S (t_allocs s))).
Definition cudaFree (p : Z) : prog unit := fun s =>
  Some (inl tt, mk_testing (t_ugds s) (t_fds s) (t_opens s) (filter (fun x => x <> p) (t_mem s)) (t_allocs s)).

(** ** test_utils.h *)

Definition TEST_FAIL {A} (msg : string) : prog A := stop (FAIL msg).
Definition ASSERT_OK (st : uGDSError_t) (msg : string) : prog unit :=
  if decide (err st = UGDS_SUCCESS) then mret tt else TEST_FAIL msg.
Definition ASSERT_ERR (st : uGDSError_t) (expected : uGDSOpError) (msg : string) : prog unit :=
  if decide (err st = expected) then mret tt else TEST_FAIL msg.

Definition open_handle : prog Z :=
  fd ← open_dev;
  if decide (fd < 0) then mret NULL
  else
    r ← call (uGDSHandleRegister false (Some (mk_descr UGDS_HANDLE_TYPE_OPAQUE_FD fd)));
    if decide (err (fst r) <> UGDS_SUCCESS) then close_fd fd;; mret NULL
    else mret (snd r).

(** The first member of the handle. *)
Definition get_handle_fd (fh : Z) : prog Z :=
  if decide (fh = NULL) then mret (-1)
  else g ← ugds_of; crash_unless (hs_fd <$> g_handles g !! fh).

Definition close_handle (fh : Z) : prog unit :=
  if decide (fh = NULL) then mret tt
  else
    fd ← get_handle_fd fh;
    call (uGDSHandleDeregister fh);;
    if decide (0 <= fd) then close_fd fd else mret tt.

(** ** The programs *)

(** What every [main] begins with; the result of [cudaSetDevice] is not looked at. *)
Definition test_main (argv : list (list ascii)) (test : prog verdict) : prog verdict :=
  args ← crash_unless (parse_args argv);
  match args with None => mret USAGE | Some _ => test end.

(** test_driver_lifecycle.cu *)
Definition test_driver_lifecycle : prog verdict :=
  st ← call uGDSDriverOpen;
  ASSERT_OK st "first DriverOpen";;
  st ← call uGDSDriverOpen;
  (if decide (err st <> UGDS_SUCCESS /\ err st <> UGDS_DRIVER_ALREADY_OPEN) then TEST_FAIL "second DriverOpen" else mret tt);;
  st ← call uGDSDriverClose;
  ASSERT_OK st "first DriverClose";;
  st ← call uGDSDriverClose;
  ASSERT_ERR st UGDS_DRIVER_NOT_INITIALIZED "second DriverClose";;
  st ← call uGDSDriverOpen;
  ASSERT_OK st "reopen DriverOpen";;
  _ ← call uGDSDriverClose;
  mret PASS.

(** test_handle_register.cu *)
Definition test_handle_register : prog verdict :=
  st ← call uGDSDriverOpen;
  ASSERT_OK st "DriverOpen";;
  fd ← open_dev;
  (if decide (fd < 0) then TEST_FAIL "open failed" else mret tt);;
  let descr := mk_descr UGDS_HANDLE_TYPE_OPAQUE_FD fd in
  r ← call (uGDSHandleRegister false (Some descr));
  ASSERT_OK (fst r) "HandleRegister";;
  call (uGDSHandleDeregister (snd r));;
  r ← call (uGDSHandleRegister false (Some descr));
  ASSERT_OK (fst r) "HandleRegister after deregister";;
  call (uGDSHandleDeregister (snd r));;
  close_fd fd;;
  r ← call (uGDSHandleRegister true (Some descr));
  ASSERT_ERR (fst r) UGDS_INVALID_VALUE "nullptr fh";;
  r ← call (uGDSHandleRegister false None);
  ASSERT_ERR (fst r) UGDS_INVALID_VALUE "nullptr descr";;
  fd ← open_dev;
  (if decide (fd < 0) then TEST_FAIL "open failed for win32 test" else mret tt);;
  r ← call (uGDSHandleRegister false (Some (mk_descr UGDS_HANDLE_TYPE_OPAQUE_WIN32 fd)));
  ASSERT_ERR (fst r) UGDS_INVALID_FILE_TYPE "WIN32 handle type";;
  close_fd fd;;
  call (uGDSHandleDeregister NULL);;
  _ ← call uGDSDriverClose;
  mret PASS.

(** test_buf_register.cu *)
Definition test_buf_register : prog verdict :=
  st ← call uGDSDriverOpen;
  ASSERT_OK st "DriverOpen";;
  fh ← open_handle;
  (if decide (fh = NULL) then TEST_FAIL "open_handle failed" else mret tt);;
  d_buf ← cudaMalloc;
  (if decide (d_buf = NULL) then TEST_FAIL "cudaMalloc failed" else mret tt);;
  st ← call (uGDSBufRegister hip d_buf 65536);
  ASSERT_OK st "BufRegister";;
  st ← call (uGDSBufRegister hip d_buf 65536);
  ASSERT_ERR st UGDS_MEMORY_ALREADY_REGISTERED "double BufRegister";;
  st ← call (uGDSBufDeregister d_buf);
  ASSERT_OK st "BufDeregister";;
  st ← call (uGDSBufDeregister d_buf);
  ASSERT_ERR st UGDS_MEMORY_NOT_REGISTERED "double BufDeregister";;
  st ← call (uGDSBufRegister hip d_buf 65536);
  ASSERT_OK st "re-register after deregister";;
  _ ← call (uGDSBufDeregister d_buf);
  st ← call (uGDSBufRegister hip NULL 65536);
  ASSERT_ERR st UGDS_INVALID_VALUE "null ptr BufRegister";;
  st ← call (uGDSBufRegister hip d_buf 0);
  ASSERT_ERR st UGDS_INVALID_VALUE "zero length BufRegister";;
  cudaFree d_buf;;
  close_handle fh;;
  _ ← call uGDSDriverClose;
  mret PASS.

(** test_alignment_errors.cu *)
Definition expect_einval (fh buf size file_offset : Z) (msg : string) : prog unit :=
  ret ← call (handle_io hip fh buf size file_offset 0 (io_opcode NVM_IO_READ));
  if decide (ret <> - EINVAL) then TEST_FAIL msg else mret tt.

Definition test_alignment_errors : prog verdict :=
  st ← call uGDSDriverOpen;
  ASSERT_OK st "DriverOpen";;
  fh ← open_handle;
  (if decide (fh = NULL) then TEST_FAIL "open_handle failed" else mret tt);;
  d_buf ← cudaMalloc;
  (if decide (d_buf = NULL) then TEST_FAIL "cudaMalloc failed" else mret tt);;
  st ← call (uGDSBufRegister hip d_buf 65536);
  ASSERT_OK st "BufRegister";;
  expect_einval fh d_buf 4096 100 "unaligned offset";;
  expect_einval fh d_buf 100 0 "unaligned size";;
  expect_einval fh d_buf 0 0 "zero size";;
  expect_einval fh NULL 4096 0 "null buffer";;
  expect_einval fh d_buf 4096 (-1) "negative offset";;
  _ ← call (uGDSBufDeregister d_buf);
  cudaFree d_buf;;
  close_handle fh;;
  _ ← call uGDSDriverClose;
  mret PASS.
End tests.
