(* ===== verification/UgdsTestsSpec.v ===== *)
(** * The functional tests pass

    Each of the programs of UgdsTests.v, in a process that has just started and whatever the
    system calls, the allocations and the controller answer, passes and gives everything back, or
    fails where it sets itself up: none of the return codes it checks is ever a different one. *)
From stdpp Require Import prelude gmap gmultiset list strings.
From Stdlib Require Import ZArith Lia.
From S2P Require Import Prelude CString NvmTypes NvmUtil NvmError NvmQueue NvmCmd NvmDevice Admin UgdsTypes.
From S2P Require Import UgdsIo UgdsIoSpec LibState Ctrl Dma LinuxDma Aq Rpc UgdsHandle UgdsRw.
From S2P Require Import LibInv LibProofs LibClient Ledger UgdsApi UgdsLink UgdsClient UgdsTests.
Local Open Scope Z_scope.

Section spec.
Context `{Env} {E : Type} `{Device E, HostMem E}.
Context (Hm : machine_ok (E := E)).

(** ** The states a test goes through *)

(** No handle and no buffer. *)
Record at_rest (n : Z) (is_open : bool) (g : ugds E) : Prop := {
  ar_holds : holds n [] (g_lib g);
  ar_handles : g_handles g = ∅;
  ar_driver : g_driver g = mk_driver is_open None ∅;
  ar_next : 0 < g_next g;
}.

(** One handle, and buffers. *)
Record with_handle (n fh : Z) (hs : HandleState Z Z) (reg : gmap Z Z) (g : ugds E) : Prop := {
  wh_holds : holds n (handle_ledger hs ++ bufs_ledger reg) (g_lib g);
  wh_handles : g_handles g = {[fh := hs]};
  wh_driver : g_driver g = mk_driver true (Some (hs_ctrl hs)) reg;
  wh_ready : handle_ready hs;
  wh_next : 0 < fh < g_next g;
}.

Lemma rest_start sqmem prp e : at_rest (2 ^ 31 - 1) false (ugds_start sqmem prp e).
Proof. constructor; [|done..]. apply holds_start; simpl; lia. Qed.

Lemma handle_ledger_of n fh hs reg g : with_handle n fh hs reg g -> ledger_of g ≡ₚ handle_ledger hs ++ bufs_ledger reg.
Proof.
  intros []. unfold ledger_of. rewrite wh_handles0, wh_driver0. simpl. unfold handles_ledger.
  rewrite map_to_list_singleton. simpl. by rewrite app_nil_r.
Qed.

Lemma with_handle_inv n fh hs reg g : 0 <= n -> with_handle n fh hs reg g -> ugds_inv g.
Proof.
  intros Hn Hg. pose proof (handle_ledger_of _ _ _ _ _ Hg) as HL. destruct Hg. constructor.
  - rewrite HL. by eapply holds_weaken.
  - lia.
  - rewrite wh_handles0. apply map_Forall_singleton. split; [done|by apply ready_alive].
  - intros c. rewrite wh_driver0. simpl. intros [= <-]. exists fh, hs. rewrite wh_handles0. by rewrite lookup_singleton_eq.
  - by rewrite wh_driver0.
Qed.

(** ** Opening and closing *)

Lemma rest_open n b g : at_rest n b g -> wp uGDSDriverOpen (fun e g' => e = UGDS_OK /\ at_rest n true g') g.
Proof.
  intros [Hh Hhs Hd Hn]. apply wp_bind, wp_get. rewrite Hd. simpl. destruct b.
  - apply wp_ret. by split.
  - apply wp_bind. unfold wp, put. apply wp_ret. split; [done|]. by constructor.
Qed.

Lemma rest_close n b g : at_rest n b g ->
  wp uGDSDriverClose (fun e g' => err e = (if b then UGDS_SUCCESS else UGDS_DRIVER_NOT_INITIALIZED) /\ at_rest n false g') g.
Proof.
  intros [Hh Hhs Hd Hn]. apply wp_bind, wp_get. rewrite Hd. destruct b; simpl.
  - rewrite map_to_list_empty. simpl. apply wp_bind, wp_ret, wp_bind, wp_modify, wp_ret. split; [done|]. by constructor.
  - apply wp_ret. split; [done|]. by constructor.
Qed.

(** ** Handles *)

(** The handle that registering the descriptor [fd] gives. *)
Definition comes_from (fd : Z) (g : ugds E) (hs : HandleState Z Z) : Prop :=
  exists r g', uGDSHandleRegister false (Some (mk_descr UGDS_HANDLE_TYPE_OPAQUE_FD fd)) g = Some (r, g') /\
    err (fst r) = UGDS_SUCCESS /\ g_handles g' !! snd r = Some hs.

Lemma wp_run {S A} (m : M S A) Q s : wp m Q s -> wp m (fun a s' => Q a s' /\ m s = Some (a, s')) s.
Proof. unfold wp. by destruct (m s) as [[a s']|]. Qed.

Lemma rest_register n fd g : 0 <= n -> at_rest (n + register_budget) true g ->
  wp (uGDSHandleRegister false (Some (mk_descr UGDS_HANDLE_TYPE_OPAQUE_FD fd))) (fun r g' =>
    err (fst r) <> UGDS_SUCCESS /\ at_rest n true g' \/
    err (fst r) = UGDS_SUCCESS /\ exists hs, hs_fd hs = fd /\ comes_from fd g hs /\ with_handle n (snd r) hs ∅ g') g.
Proof.
  intros Hn [Hh Hhs Hd Hnx]. destruct Hm as [Hmm Hpw Hpg Hs].
  eapply wp_mono; [apply wp_run, (wp_handle_register Hs Hmm Hpw Hpg n []); [done|exact Hh|intros r g' Hr; exact Hr]|].
  intros r g' [[(He & (Ed & Eh & En) & Hh')|(hs & He & Hr & Hrdy & Hfd & Eh & En & Ed & Hh')] Hrun].
  - left. split; [done|]. constructor; [done|by rewrite Eh|by rewrite Ed|by rewrite En].
  - right. rewrite He. split; [done|]. exists hs. split; [by injection Hfd|]. split.
    { exists r, g'. split; [done|]. rewrite He, Hr, Eh. split; [done|]. apply lookup_insert_eq. }
    rewrite Hr. constructor.
    + unfold bufs_ledger. by rewrite map_to_list_empty.
    + by rewrite Eh, Hhs.
    + by rewrite Ed, Hd.
    + done.
    + lia.
Qed.

Lemma handle_deregister n fh hs g : with_handle n fh hs ∅ g ->
  wp (uGDSHandleDeregister fh) (fun _ g' => at_rest n true g') g.
Proof.
  intros [Hh Hhs Hd [Hf _] Hnx]. eapply (wp_handle_deregister n []); [unfold NULL; lia|by rewrite Hhs, lookup_singleton_eq|done| |].
  - unfold bufs_ledger in Hh. by rewrite map_to_list_empty in Hh.
  - intros g' Hh' Eh En Ed. constructor; [done| | |lia].
    + by rewrite Eh, Hhs, delete_singleton_eq.
    + rewrite Ed, Hd. simpl. by rewrite decide_True.
Qed.

(** ** Buffers *)

Lemma buf_register_new n fh hs reg hip base len g :
  0 <= n -> with_handle (n + register_budget) fh hs reg g -> reg !! base = None -> base <> NULL -> len <> 0 ->
  wp (uGDSBufRegister hip base len) (fun e g' =>
    err e <> UGDS_SUCCESS /\ with_handle n fh hs reg g' \/
    err e = UGDS_SUCCESS /\ exists a, with_handle n fh hs (<[base := a]> reg) g') g.
Proof.
  intros Hn Hg Hb Hbase Hlen. assert (0 <= n + register_budget) as Hn' by (unfold register_budget; lia).
  pose proof (handle_ledger_of _ _ _ _ _ Hg) as HL. pose proof Hg as [Hh Hhs Hd Hr Hnx].
  eapply (wp_buf_register n); [done|by eapply with_handle_inv|apply Hh|].
  intros e g' Hreg. unfold buf_registered in Hreg. rewrite Hd in Hreg. simpl in Hreg.
  destruct Hreg as [(_ & _ & [?|(_ & _ & _ & ?)])|[(_ & _ & _ & [?|?])|[(_ & _ & [? ?])|[(-> & (Ed & Eh & En) & Hh')
    |(-> & _ & a & Ed & Eh & En & _ & Hh')]]]]; try done; [congruence| |].
  - left. split; [done|]. rewrite HL in Hh'. constructor; rewrite ?Eh, ?Ed, ?En; done.
  - right. split; [done|]. exists a. rewrite HL in Hh'. constructor; rewrite ?Eh, ?Ed, ?En; try done.
    eapply holds_perm; [exact Hh'|]. rewrite (bufs_ledger_insert _ _ _ Hb). perm.
Qed.

(** The refusals read no more than the driver's state. *)
Lemma buf_register_refused n fh hs reg hip base len g : with_handle n fh hs reg g ->
  base = NULL \/ len = 0 \/ is_Some (reg !! base) ->
  wp (uGDSBufRegister hip base len) (fun e g' => g' = g /\
    err e = if decide (base = NULL \/ len = 0) then UGDS_INVALID_VALUE else UGDS_MEMORY_ALREADY_REGISTERED) g.
Proof.
  intros [Hh Hhs Hd Hr Hnx] Hcase. apply wp_bind, wp_get. rewrite Hd. simpl. case_decide as Hargs; [by apply wp_ret|].
  destruct Hcase as [?|[?|[a ->]]]; [tauto|tauto|]. by apply wp_ret.
Qed.

Lemma buf_deregister_ok n fh hs reg base a g : with_handle n fh hs reg g -> reg !! base = Some a ->
  wp (uGDSBufDeregister base) (fun e g' => err e = UGDS_SUCCESS /\ with_handle n fh hs (delete base reg) g') g.
Proof.
  intros Hg Hb. pose proof (handle_ledger_of _ _ _ _ _ Hg) as HL. pose proof Hg as [Hh Hhs Hd Hr Hnx].
  eapply (wp_buf_deregister n); [by rewrite HL|rewrite Hd; simpl; intros [?|?]; congruence|].
  rewrite Hd. simpl. intros a' g' _ _ Ed Eh En Hh'. split; [done|]. constructor; rewrite ?Eh, ?Ed, ?En; try done.
  rewrite Hhs in Hh'. unfold handles_ledger in Hh'. rewrite map_to_list_singleton in Hh'. simpl in Hh'.
  by rewrite app_nil_r in Hh'.
Qed.

Lemma buf_deregister_none n fh hs reg base g : with_handle n fh hs reg g -> reg !! base = None ->
  wp (uGDSBufDeregister base) (fun e g' => err e = UGDS_MEMORY_NOT_REGISTERED /\ g' = g) g.
Proof.
  intros [Hh Hhs Hd Hr Hnx] Hb. apply wp_bind, wp_get. rewrite Hd. simpl. rewrite Hb. by apply wp_ret.
Qed.

(** ** Refused transfers *)

(** What is read through the pointers of a handle is what is stored back. *)
Lemma qp_back_at l qp qp' : qp_at l qp = Some qp' -> qp_back qp qp' = qp.
Proof.
  unfold qp_at. destruct (dma_opt_at l (qp_sq_dma qp)); simpl; [|done].
  destruct (dma_opt_at l (qp_cq_dma qp)); simpl; [|done]. destruct (dma_opt_at l (qp_prp_dma qp)); simpl; [|done].
  intros [= <-]. by destruct qp.
Qed.

Lemma hs_back_at l hs hs' : hs_at l hs = Some hs' -> hs_back hs hs' = hs.
Proof.
  unfold hs_at. destruct (ctrl_at l (hs_ctrl hs)); simpl; [|done]. destruct (dma_opt_at l (hs_aq_dma hs)); simpl; [|done].
  destruct (mapM (qp_at l) (hs_qps hs)) as [qps|] eqn:Eq; simpl; [|done]. intros [= <-]. unfold hs_back. simpl.
  assert (zip_with qp_back (hs_qps hs) qps = hs_qps hs) as ->; [|by destruct hs].
  apply mapM_Some in Eq. induction Eq as [|qp qp' l1 l2 Hqp _ IH]; simpl; [done|]. by rewrite (qp_back_at _ _ _ Hqp), IH.
Qed.

Lemma io_back_at (g : ugds E) fh hs buf w : g_handles g !! fh = Some hs -> io_at g hs buf = Some w -> io_back g fh hs w = g.
Proof.
  intros Hfh. unfold io_at. destruct (hs_at (g_lib g) hs) as [hs'|] eqn:Eh; simpl; [|done].
  destruct (registry_at _ _ _); simpl; [|done]. intros [= <-]. unfold io_back. simpl.
  rewrite (hs_back_at _ _ _ Eh), insert_id by done. by destruct g.
Qed.

Lemma refused_read n fh hs reg hip buf size fo opcode g :
  with_handle n fh hs reg g -> 0 <= n ->
  buf = NULL \/ size = 0 \/ fo < 0 \/ fo mod hs_block_size hs <> 0 \/ size mod hs_block_size hs <> 0 ->
  wp (handle_io hip fh buf size fo 0 opcode) (fun r g' => r = - EINVAL /\ g' = g) g.
Proof.
  intros Hg Hn Hbad. pose proof (with_handle_inv _ _ _ _ _ Hn Hg) as Hinv. pose proof Hinv as [HhL _ _ _ _].
  pose proof Hg as [Hh Hhs Hd Hr Hnx].
  assert (g_handles g !! fh = Some hs) as Hfh by (by rewrite Hhs, lookup_singleton_eq).
  destruct (hs_at_live 0 _ _ HhL hs (handle_in_ledger _ _ _ Hfh) (ready_alive _ Hr))
    as (hs' & Ehs & _ & _ & _ & _ & Ebs & _).
  destruct (registry_at_live 0 _ _ HhL (drv_buf_registry (g_driver g)) buf) as (reg' & Ereg & _).
  { intros a. apply buf_in_ledger. }
  unfold handle_io. rewrite decide_False by (unfold NULL; lia). apply wp_bind, wp_get. rewrite Hfh. apply wp_bind, wp_ret.
  assert (exists w, io_at g hs buf = Some w /\ hs_block_size (w_hs w) = hs_block_size hs) as (w & Ew & Eb).
  { unfold io_at. rewrite Ehs. simpl. rewrite Ereg. simpl. eexists. split; [done|]. done. }
  rewrite Ew. apply wp_bind, wp_ret. unfold do_io.
  assert (bad_args fh buf size fo 0 (w_hs w) = true) as ->.
  { unfold bad_args. rewrite Eb, !orb_true_iff, !bool_decide_eq_true. tauto. }
  apply wp_bind. unfold wp, put. apply wp_ret. split; [done|]. by eapply io_back_at.
Qed.

(** ** Programs *)

Context (dev_open cuda_malloc : nat -> Z) (hip : hip_info).

Section wpt.
Context (V : verdict -> testing (E := E) -> Prop).

(** The program goes on with [Q] or ends with a verdict in [V]. *)
Definition wpt {A} (m : prog A) (Q : A -> testing -> Prop) (s : testing) : Prop :=
  match m s with Some (inl a, s') => Q a s' | Some (inr v, s') => V v s' | None => False end.

Lemma wpt_bind {A B} (m : prog A) (f : A -> prog B) Q s : wpt m (fun a => wpt (f a) Q) s -> wpt (m ≫= f) Q s.
Proof. unfold wpt, mbind, prog_bind. by destruct (m s) as [[[a|v] s']|]. Qed.

Lemma wpt_ret {A} (a : A) (Q : A -> testing -> Prop) s : Q a s -> wpt (mret a) Q s.
Proof. done. Qed.

Lemma wpt_call {A} (m : M (ugds E) A) P (Q : A -> testing -> Prop) s :
  wp m P (t_ugds s) ->
  (forall a g, P a g -> Q a (mk_testing g (t_fds s) (t_opens s) (t_mem s) (t_allocs s))) -> wpt (call m) Q s.
Proof. unfold wp, wpt, call. destruct (m (t_ugds s)) as [[a g]|]; [auto|done]. Qed.

Lemma wpt_assert_ok st msg (Q : unit -> testing -> Prop) s :
  (err st = UGDS_SUCCESS -> Q tt s) -> (err st <> UGDS_SUCCESS -> V (FAIL msg) s) -> wpt (ASSERT_OK st msg) Q s.
Proof. intros Hok Hf. unfold ASSERT_OK. case_decide; [by apply wpt_ret, Hok|by apply Hf]. Qed.

Lemma wpt_assert_err st e msg (Q : unit -> testing -> Prop) s : err st = e -> Q tt s -> wpt (ASSERT_ERR st e msg) Q s.
Proof. intros He HQ. unfold ASSERT_ERR. rewrite decide_True by done. by apply wpt_ret. Qed.

Lemma wpt_unless (P : Prop) `{!Decision P} msg (Q : unit -> testing -> Prop) s :
  (P -> V (FAIL msg) s) -> (~ P -> Q tt s) -> wpt (if decide P then TEST_FAIL msg else mret tt) Q s.
Proof. intros Hf HQ. case_decide; [by apply Hf|by apply wpt_ret, HQ]. Qed.

(** What the test helpers do. *)
Lemma wpt_open_handle n (Q : Z -> testing -> Prop) s :
  0 <= n -> at_rest (n + register_budget) true (t_ugds s) ->
  (forall s', Q NULL s') ->
  (forall fh hs g, 0 <= hs_fd hs -> comes_from (dev_open (t_opens s)) (t_ugds s) hs -> with_handle n fh hs ∅ g ->
     Q fh (mk_testing g (hs_fd hs :: t_fds s) (S (t_opens s)) (t_mem s) (t_allocs s))) ->
  wpt (open_handle dev_open) Q s.
Proof.
  intros Hn Hr Hnull Hok. unfold open_handle. apply wpt_bind. unfold open_dev at 1, wpt at 1.
  set (fd := dev_open (t_opens s)). case_decide as Hfd; [by apply wpt_ret|]. apply wpt_bind.
  eapply wpt_call; [by apply rest_register|]. simpl. intros r g [[He Hg]|[He (hs & Ef & Hfrom & Hg)]].
  - rewrite decide_True by done. apply wpt_bind. unfold wpt at 1, close_fd. by apply wpt_ret.
  - rewrite decide_False by tauto. apply wpt_ret. rewrite <- Ef. apply Hok; [lia|exact Hfrom|exact Hg].
Qed.

Lemma wpt_close_handle n fh hs (Q : unit -> testing -> Prop) s :
  with_handle n fh hs ∅ (t_ugds s) -> 0 <= hs_fd hs ->
  (forall g, at_rest n true g ->
     Q tt (mk_testing g (filter (fun x => x <> hs_fd hs) (t_fds s)) (t_opens s) (t_mem s) (t_allocs s))) ->
  wpt (close_handle fh) Q s.
Proof.
  intros Hg Hfd HQ. pose proof Hg as [_ Hhs _ _ Hnx]. unfold close_handle, get_handle_fd.
  rewrite decide_False by (unfold NULL; lia). apply wpt_bind. rewrite decide_False by (unfold NULL; lia).
  apply wpt_bind. unfold wpt at 1, ugds_of. unfold wpt at 1, crash_unless. rewrite Hhs, lookup_singleton_eq. simpl.
  apply wpt_bind. eapply wpt_call; [by apply (handle_deregister n fh hs)|]. intros [] g Hg'. rewrite decide_True by done.
  unfold wpt, close_fd. simpl. by apply HQ.
Qed.
End wpt.

(** How a test ends. *)
Definition ends_with (m : prog verdict) (s : testing (E := E)) (v : verdict) (s' : testing) : Prop :=
  m s = Some (inl v, s') \/ m s = Some (inr v, s').

(** Nothing is left. *)
Definition all_returned (s : testing (E := E)) : Prop :=
  l_heap (g_lib (t_ugds s)) = ∅ /\ g_handles (t_ugds s) = ∅ /\ t_fds s = [] /\ t_mem s = [].

Definition good_end (setup : list string) (v : verdict) (s : testing) : Prop :=
  v = PASS /\ all_returned s \/ exists msg, msg ∈ setup /\ v = FAIL msg.

Lemma wpt_ends setup m s : wpt (good_end setup) m (good_end setup) s -> exists v s', ends_with m s v s' /\ good_end setup v s'.
Proof. unfold wpt, ends_with. destruct (m s) as [[[v|v] s']|]; [eauto..|done]. Qed.

Lemma rest_good n setup g b opens allocs : at_rest n b g -> good_end setup PASS (mk_testing g [] opens [] allocs).
Proof. intros [Hh Hhs _ _]. left. split; [done|]. split_and!; [by eapply holds_nil|done|done|done]. Qed.

(** A process that has just started a test. *)
Definition test_start (sqmem : Z -> nvm_cmd_t) (prp : Z -> Z) (e : E) : testing :=
  mk_testing (ugds_start sqmem prp e) [] 0 [] 0.

(** [pcall lem]: a call whose specification is [lem]; [pfail]: the end of a test at its set-up. *)
Ltac pcall lem := apply wpt_bind; eapply wpt_call; [eapply lem; done || eassumption|]; cbn [t_ugds t_fds t_opens t_mem t_allocs fst snd].
Ltac pfail := right; eexists; (split; [|reflexivity]); set_solver.

Lemma rest_weaken n n' b g : n' <= n -> at_rest n b g -> at_rest n' b g.
Proof. intros Hn []. constructor; [|done..]. by eapply holds_weaken. Qed.

Lemma rest_start_at n sqmem prp e : n < 2 ^ 31 -> at_rest n false (ugds_start sqmem prp e).
Proof. intros Hn. eapply rest_weaken; [|apply rest_start]. lia. Qed.

(** The driver can be opened twice, closed once, and opened again. *)
Theorem driver_lifecycle_passes sqmem prp e :
  exists v s', ends_with test_driver_lifecycle (test_start sqmem prp e) v s' /\ good_end [] v s'.
Proof.
  apply wpt_ends. pose proof (rest_start_at 0 sqmem prp e ltac:(lia)) as Hg. unfold test_driver_lifecycle.
  pcall (rest_open 0). intros st g1 [-> Hg1]. apply wpt_bind, wpt_assert_ok; [intros _|done].
  pcall (rest_open 0). intros st g2 [-> Hg2]. apply wpt_bind, wpt_unless; [by intros [[] _]|intros _].
  pcall (rest_close 0). intros st g3 [He Hg3]. apply wpt_bind, wpt_assert_ok; [intros _|by rewrite He].
  pcall (rest_close 0). intros st' g4 [He4 Hg4]. apply wpt_bind, wpt_assert_err; [done|].
  pcall (rest_open 0). intros st'' g5 [-> Hg5]. apply wpt_bind, wpt_assert_ok; [intros _|done].
  pcall (rest_close 0). intros st'' g6 [_ Hg6]. apply wpt_ret. by eapply rest_good.
Qed.

(** Opening the device in a test. *)
Lemma wpt_open_dev V (Q : Z -> testing -> Prop) s :
  Q (dev_open (t_opens s)) (mk_testing (t_ugds s)
    (if decide (dev_open (t_opens s) < 0) then t_fds s else dev_open (t_opens s) :: t_fds s) (S (t_opens s)) (t_mem s) (t_allocs s)) ->
  wpt V (open_dev dev_open) Q s.
Proof. done. Qed.

Lemma wpt_close_fd V fd (Q : unit -> testing -> Prop) s :
  Q tt (mk_testing (t_ugds s) (filter (fun x => x <> fd) (t_fds s)) (t_opens s) (t_mem s) (t_allocs s)) ->
  wpt V (close_fd fd) Q s.
Proof. done. Qed.

Lemma filter_single (x : Z) : filter (fun y => y <> x) [x] = [].
Proof. by rewrite filter_cons_False by tauto. Qed.

(** The refusals of [uGDSHandleRegister] in the test. *)
Lemma register_refused n b fh_null descr g : at_rest n b g ->
  fh_null = true \/ descr = None \/ (b = true /\ exists fd, descr = Some (mk_descr UGDS_HANDLE_TYPE_OPAQUE_WIN32 fd)) ->
  wp (uGDSHandleRegister fh_null descr) (fun r g' => g' = g /\
    err (fst r) = if decide (fh_null = true \/ descr = None) then UGDS_INVALID_VALUE else UGDS_INVALID_FILE_TYPE) g.
Proof.
  intros [_ _ Hd _] Hcase. unfold uGDSHandleRegister. destruct fh_null; [by apply wp_ret|].
  destruct descr as [d|]; [|by apply wp_ret]. destruct Hcase as [|[|[-> [fd [= ->]]]]]; [done..|].
  apply wp_bind, wp_get. rewrite Hd. simpl. by apply wp_ret.
Qed.

(** Registering twice on one descriptor, and what is refused. *)
Theorem handle_register_passes sqmem prp e :
  exists v s', ends_with (test_handle_register dev_open) (test_start sqmem prp e) v s' /\
    good_end ["open failed"; "HandleRegister"; "HandleRegister after deregister"; "open failed for win32 test"] v s'.
Proof.
  apply wpt_ends. unfold test_handle_register.
  pose proof (rest_start_at (0 + register_budget + register_budget) sqmem prp e ltac:(unfold register_budget; lia)) as Hg.
  pcall (rest_open (0 + register_budget + register_budget)). intros st g1 [-> Hg1]. apply wpt_bind, wpt_assert_ok; [intros _|done].
  apply wpt_bind, wpt_open_dev. cbn [t_ugds t_fds t_opens t_mem t_allocs]. set (fd := dev_open 0).
  apply wpt_bind, wpt_unless; [intros _; pfail|intros Hfd]. rewrite decide_False by done.
  pcall (rest_register (0 + register_budget)). intros r g2 Hg2. apply wpt_bind, wpt_assert_ok; [intros He2|intros _; pfail].
  destruct Hg2 as [[? _]|[_ (hs & _ & _ & Hg2)]]; [done|].
  pcall (handle_deregister (0 + register_budget)). intros [] g3 Hg3.
  pcall (rest_register 0). intros r' g4 Hg4. apply wpt_bind, wpt_assert_ok; [intros He4|intros _; pfail].
  destruct Hg4 as [[? _]|[_ (hs' & _ & _ & Hg4)]]; [done|].
  pcall (handle_deregister 0). intros [] g5 Hg5. apply wpt_bind, wpt_close_fd.
  cbn [t_ugds t_fds t_opens t_mem t_allocs]. rewrite filter_single.
  apply wpt_bind. eapply wpt_call; [eapply register_refused; [exact Hg5|by left]|]. intros r6 g6 [-> He6].
  apply wpt_bind, wpt_assert_err; [done|].
  apply wpt_bind. eapply wpt_call; [eapply register_refused; [exact Hg5|by right; left]|]. intros r7 g7 [-> He7].
  apply wpt_bind, wpt_assert_err; [done|].
  apply wpt_bind, wpt_open_dev. cbn [t_ugds t_fds t_opens t_mem t_allocs]. set (fd2 := dev_open 1).
  apply wpt_bind, wpt_unless; [intros _; pfail|intros Hfd2]. rewrite decide_False by done.
  apply wpt_bind. eapply wpt_call; [eapply register_refused; [exact Hg5|right; right; eauto]|]. intros r8 g8 [-> He8].
  apply wpt_bind, wpt_assert_err; [done|]. apply wpt_bind, wpt_close_fd.
  cbn [t_ugds t_fds t_opens t_mem t_allocs]. rewrite filter_single.
  apply wpt_bind. eapply (wpt_call _ _ (fun _ g => g = g5)); [done|]. intros [] g9 ->.
  pcall (rest_close 0). intros st9 g10 [_ Hg10]. apply wpt_ret. by eapply rest_good.
Qed.

(** The library after [uGDSDriverOpen]. *)
Definition opened (sqmem : Z -> nvm_cmd_t) (prp : Z -> Z) (e : E) : ugds E :=
  g_set_driver (ugds_start sqmem prp e) (mk_driver true None ∅).

(** Two tests begin with the driver, a handle and a registered buffer. *)
Lemma wpt_setup V n k (Q : verdict -> testing -> Prop) sqmem prp e :
  0 <= n -> n + register_budget + register_budget < 2 ^ 31 ->
  (forall msg s, msg ∈ ["open_handle failed"; "cudaMalloc failed"; "BufRegister"] -> V (FAIL msg) s) ->
  (forall fh hs a g, let d := cuda_malloc 0 in 0 <= hs_fd hs -> comes_from (dev_open 0) (opened sqmem prp e) hs -> d <> NULL -> with_handle n fh hs {[d := a]} g ->
     wpt V (k fh d) Q (mk_testing g [hs_fd hs] 1 [d] 1)) ->
  wpt V (st ← call uGDSDriverOpen;
    ASSERT_OK st "DriverOpen";;
    fh ← open_handle dev_open;
    (if decide (fh = NULL) then TEST_FAIL "open_handle failed" else mret tt);;
    d_buf ← cudaMalloc cuda_malloc;
    (if decide (d_buf = NULL) then TEST_FAIL "cudaMalloc failed" else mret tt);;
    st ← call (uGDSBufRegister hip d_buf 65536);
    ASSERT_OK st "BufRegister";;
    k fh d_buf) Q (test_start sqmem prp e).
Proof.
  intros Hn Hlt Hfail Hk. set (n2 := n + register_budget + register_budget) in *.
  pose proof (rest_start_at n2 sqmem prp e Hlt) as Hg.
  assert (0 <= n + register_budget) as Hn1 by (unfold register_budget; lia).
  apply wpt_bind. eapply (wpt_call _ _ (fun st g => st = UGDS_OK /\ g = opened sqmem prp e)); [split; reflexivity|]. intros st g1 [-> ->].
  assert (at_rest n2 true (opened sqmem prp e)) as Hg1
    by (constructor; [exact (ar_holds _ _ _ Hg)|reflexivity|reflexivity|exact (ar_next _ _ _ Hg)]).
  apply wpt_bind, wpt_assert_ok; [intros _|done].
  apply wpt_bind, (wpt_open_handle _ (n + register_budget)); [done|exact Hg1| |].
  { intros s'. apply wpt_bind, wpt_unless; [intros _; apply Hfail; set_solver|by intros []]. }
  intros fh hs g2 Hfd Hfrom Hg2. apply wpt_bind, wpt_unless; [intros _; apply Hfail; set_solver|intros _].
  cbn [t_ugds t_fds t_opens t_mem t_allocs].
  apply wpt_bind. unfold wpt at 1, cudaMalloc. cbn [t_ugds t_fds t_opens t_mem t_allocs].
  apply wpt_bind, wpt_unless; [intros _; apply Hfail; set_solver|intros Hd]. rewrite decide_False by done.
  apply wpt_bind. eapply wpt_call; [eapply (buf_register_new n); [done|exact Hg2|done|done|done]|].
  intros st g3 Hg3. cbn [t_ugds t_fds t_opens t_mem t_allocs].
  apply wpt_bind, wpt_assert_ok; [intros He|intros _; apply Hfail; set_solver].
  destruct Hg3 as [[? _]|[_ [a Hg3]]]; [done|]. by eapply Hk.
Qed.

(** The end of both. *)
Lemma wpt_teardown n setup fh hs d g opens allocs :
  with_handle n fh hs ∅ g -> 0 <= hs_fd hs ->
  wpt (good_end setup) (cudaFree d;; close_handle fh;; _ ← call uGDSDriverClose; mret PASS) (good_end setup)
    (mk_testing g [hs_fd hs] opens [d] allocs).
Proof.
  intros Hg Hfd. apply wpt_bind. unfold wpt at 1, cudaFree. cbn [t_ugds t_fds t_opens t_mem t_allocs]. rewrite filter_single.
  apply wpt_bind. eapply (wpt_close_handle _ n fh hs); [exact Hg|done|]. intros g1 Hg1.
  cbn [t_ugds t_fds t_opens t_mem t_allocs]. rewrite filter_single.
  pcall (rest_close n). intros st g2 [_ Hg2]. apply wpt_ret. by eapply rest_good.
Qed.

(** A buffer is registered once, deregistered once, and can be registered again; a null pointer
    and a length of zero are refused. *)
Theorem buf_register_passes sqmem prp e :
  exists v s', ends_with (test_buf_register dev_open cuda_malloc hip) (test_start sqmem prp e) v s' /\
    good_end ["open_handle failed"; "cudaMalloc failed"; "BufRegister"; "re-register after deregister"] v s'.
Proof.
  apply wpt_ends, (wpt_setup _ (0 + register_budget)); [by unfold register_budget|by unfold register_budget| |].
  { intros msg s Hin. right. exists msg. split; [set_solver|done]. }
  intros fh hs a g d Hfd _ Hd Hg.
  assert (Hone : forall x : Z, delete d ({[d := x]} : gmap Z Z) = ∅) by (intros x; apply delete_singleton_eq).
  assert (Hin : forall x : Z, ({[d := x]} : gmap Z Z) !! d = Some x) by (intros x; apply lookup_singleton_eq).
  apply wpt_bind. eapply wpt_call; [eapply (buf_register_refused _ _ _ _ hip d 65536); [exact Hg|rewrite Hin; eauto]|].
  intros st1 g1 [-> He1]. apply wpt_bind, wpt_assert_err; [by rewrite He1, decide_False by (intros [?|?]; done)|].
  apply wpt_bind. eapply wpt_call; [eapply (buf_deregister_ok _ _ _ _ d a); [exact Hg|done]|].
  intros st2 g2 [He2 Hg2]. rewrite Hone in Hg2. apply wpt_bind, wpt_assert_ok; [intros _|by rewrite He2].
  apply wpt_bind. eapply wpt_call; [eapply (buf_deregister_none _ _ _ _ d); [exact Hg2|done]|].
  intros st3 g3 [He3 ->]. apply wpt_bind, wpt_assert_err; [done|].
  apply wpt_bind. eapply wpt_call; [eapply (buf_register_new 0 _ _ _ hip d 65536); [done|exact Hg2|done|done|done]|].
  intros st4 g4 Hg4. apply wpt_bind, wpt_assert_ok; [intros He4|intros _; pfail].
  destruct Hg4 as [[? _]|[_ [b Hg4]]]; [done|]. cbn [t_ugds t_fds t_opens t_mem t_allocs].
  apply wpt_bind. eapply wpt_call; [eapply (buf_deregister_ok _ _ _ _ d b); [exact Hg4|apply Hin]|].
  intros st5 g5 [_ Hg5]. change (<[d:=b]> ∅) with ({[d := b]} : gmap Z Z) in Hg5. rewrite Hone in Hg5.
  apply wpt_bind. eapply wpt_call; [eapply (buf_register_refused _ _ _ _ hip NULL 65536); [exact Hg5|by left]|].
  intros st6 g6 [-> He6]. apply wpt_bind, wpt_assert_err; [done|].
  apply wpt_bind. eapply wpt_call; [eapply (buf_register_refused _ _ _ _ hip d 0); [exact Hg5|by right; left]|].
  intros st7 g7 [-> He7]. apply wpt_bind, wpt_assert_err; [by rewrite He7, decide_True by (by right)|].
  by eapply wpt_teardown.
Qed.

(** ** Alignment *)

(** No block size a controller may report divides 100. *)
Lemma block_not_100 b : lba_size b -> 8 <= b -> 100 mod b <> 0.
Proof.
  intros Hl Hb. destruct (decide (b < 2 ^ 32)) as [Hlt|Hge]; [|rewrite Z.mod_small by lia; done].
  destruct (Hl Hlt) as (k & Hk & ->). intros Hmod. apply Z.mod_divide in Hmod; [|lia].
  assert (8 | 100) as Hd.
  { etrans; [|exact Hmod]. exists (2 ^ (k - 3)). change 8 with (2 ^ 3). rewrite <- Z.pow_add_r; [f_equal; lia| |lia].
    destruct (decide (k < 3)); [|lia]. assert (2 ^ k <= 2 ^ 2) by (apply Z.pow_le_mono_r; lia). lia. }
  destruct Hd as [q Hq]. lia.
Qed.

Lemma wpt_expect_einval V n fh hs reg buf size fo msg (Q : unit -> testing -> Prop) s :
  with_handle n fh hs reg (t_ugds s) -> 0 <= n ->
  buf = NULL \/ size = 0 \/ fo < 0 \/ fo mod hs_block_size hs <> 0 \/ size mod hs_block_size hs <> 0 ->
  Q tt s -> wpt V (expect_einval hip fh buf size fo msg) Q s.
Proof.
  intros Hg Hn Hbad HQ. apply wpt_bind. eapply wpt_call; [by eapply refused_read|]. intros r g [-> ->].
  rewrite decide_False by tauto. apply wpt_ret. by destruct s.
Qed.

(** The program that reads with a bad offset, size or buffer: with blocks of 8 bytes or more
    (the specification asks for at least 512), and whatever else the system and the controller do,
    every check of a return code holds, and the program that passes has given everything back. *)
Theorem alignment_errors_pass sqmem prp e :
  (forall hs, comes_from (dev_open 0) (opened sqmem prp e) hs -> 8 <= hs_block_size hs) ->
  exists v s', ends_with (test_alignment_errors dev_open cuda_malloc hip) (test_start sqmem prp e) v s' /\
    good_end ["open_handle failed"; "cudaMalloc failed"; "BufRegister"] v s'.
Proof.
  intros Hblocks. apply wpt_ends, (wpt_setup _ 0); [done|by unfold register_budget| |].
  { intros msg s Hin. right. by exists msg. }
  intros fh hs a g d Hfd Hfrom Hd Hg.
  assert (100 mod hs_block_size hs <> 0) as H100 by (apply block_not_100; [apply Hg|by apply Hblocks]).
  apply wpt_bind. eapply wpt_expect_einval; [exact Hg|done|tauto|].
  apply wpt_bind. eapply wpt_expect_einval; [exact Hg|done|tauto|].
  apply wpt_bind. eapply wpt_expect_einval; [exact Hg|done|tauto|].
  apply wpt_bind. eapply wpt_expect_einval; [exact Hg|done|tauto|].
  apply wpt_bind. eapply wpt_expect_einval; [exact Hg|done|right; right; left; lia|].
  apply wpt_bind. eapply wpt_call; [eapply (buf_deregister_ok _ _ _ _ d a); [exact Hg|apply lookup_singleton_eq]|].
  intros st g1 [_ Hg1]. rewrite delete_singleton_eq in Hg1. by eapply wpt_teardown.
Qed.

End spec.
