(* ===== verification/UgdsCases.v ===== *)
(** * uGDS on concrete machines

    Controllers that answer at once, a machine where nothing fails and one where a given call
    fails, and the theorems of UgdsClient applied to them. *)
From stdpp Require Import prelude gmap gmultiset list.
From Stdlib Require Import ZArith Lia.
From S2P Require Import Prelude NvmTypes NvmUtil NvmError NvmQueue NvmCmd NvmDevice Admin UgdsTypes.
From S2P Require Import LibState Ctrl Dma LinuxDma Aq Rpc UgdsHandle UgdsRw UgdsIo UgdsIoSpec.
From S2P Require Import LibInv LibProofs LibClient Ledger UgdsApi UgdsLink UgdsClient.
Local Open Scope Z_scope.

(** Controllers that complete every command at once and successfully with [dword0] in the
    completion, and write zeroes as Identify data. *)
Record quick := mk_quick { dword0 : Z }.

#[export] Instance quick_device : Device quick := {|
  dev_cpl e _ := mk_cpl [dword0 e; 0; 0; 2 ^ 16];
  dev_tick e := e;
  dev_sq_doorbell _ _ _ _ e := e;
  dev_cq_doorbell _ _ e := e;
|}.

#[export] Instance quick_mem : HostMem quick := {|
  mem_byte _ _ := 0; mem_clear _ _ e := e; ver_reg _ _ := 0x10300 |}.

Lemma quick_sane : sane_controllers (E := quick).
Proof. constructor; intros; vm_compute; reflexivity. Qed.

Lemma good_machine : @machine_ok good_env quick _ _.
Proof. constructor; [done|by exists 12|done|apply quick_sane]. Qed.
Lemma bad_machine n : @machine_ok (bad_env n) quick _ _.
Proof. constructor; [done|by exists 12|done|apply quick_sane]. Qed.

(** Running legal calls. *)
Fixpoint urun (env : Env) (g : ugds quick) (cs : list ucall) : option (ugds quick) :=
  match cs with
  | [] => Some g
  | c :: cs =>
      if decide (@ulegal env quick g c) then
        match @do_ucall env quick _ _ c g with Some (_, g') => urun env g' cs | None => None end
      else None
  end.

Lemma urun_reach env cs g g' : @ureach env quick _ _ g -> urun env g cs = Some g' -> @ureach env quick _ _ g'.
Proof.
  revert g. induction cs as [|c cs IH]; intros g Hr; simpl; [by intros [= <-]|].
  case_decide as Hl; [|done]. destruct (do_ucall c g) as [[r g1]|] eqn:Ec; [|done].
  apply IH. by eapply ureach_call.
Qed.

Definition start : ugds quick := ugds_start (fun _ => cmd_zero) (fun _ => 0) (mk_quick 0).
Definition no_hip : hip_info := mk_hip false None false None.
Definition fd3 : option uGDSDescr_t := Some (mk_descr UGDS_HANDLE_TYPE_OPAQUE_FD 3).

Definition session : list ucall :=
  [DriverOpen; HandleRegister false fd3; BufRegister no_hip 0x7f0000 65536].
Definition after_session (env : Env) : ugds quick := default start (urun env start session).

Lemma session_reach : @ureach good_env quick _ _ (after_session good_env).
Proof. apply (urun_reach good_env session start); [constructor|]. vm_compute. reflexivity. Qed.


(** Two transfers, one on the registered buffer and one on memory mapped for it; then everything
    is given back: the buffer by closing the driver, the handle after it. *)
Definition whole_session : list ucall :=
  session ++ [Write no_hip 1 0x7f0000 4096 0 0; Read no_hip 1 0x900000 8192 512 0; DriverClose; HandleDeregister 1].


(** The twenty-first system call fails. *)
Lemma handle_register_spec_witness :
  let g := default start (urun (bad_env 20) start [DriverOpen]) in
  exists r g', @uGDSHandleRegister (bad_env 20) quick _ _ false fd3 g = Some (r, g') /\
    err (fst r) = UGDS_INTERNAL_ERROR /\ kept g g' /\ l_heap (g_lib g') = ∅.
Proof.
  intros g.
  destruct (@handle_register_spec (bad_env 20) quick _ _ g false fd3) as (r & g' & Hrun & Hreg).
  - apply bad_machine.
  - apply (urun_reach (bad_env 20) [DriverOpen] start); [constructor|]. vm_compute. reflexivity.
  - vm_compute. discriminate.
  - exists r, g'. split; [exact Hrun|].
    assert (option_map (fun x => err (fst (fst x))) (@uGDSHandleRegister (bad_env 20) quick _ _ false fd3 g)
      = Some UGDS_INTERNAL_ERROR) as He by (vm_compute; reflexivity).
    rewrite Hrun in He. injection He as He. split; [exact He|].
    destruct Hreg as [(_ & Hk & Hh)|(hs & Hok & _)]; [|rewrite Hok in He; discriminate He].
    split; [exact Hk|]. exact (holds_nil 0 (g_lib g') Hh).
Defined.

Lemma buf_register_spec_witness :
  exists e g', @uGDSBufRegister good_env quick no_hip 0x7f0000 4096 (after_session good_env) = Some (e, g') /\
    e = make_error UGDS_MEMORY_ALREADY_REGISTERED.
Proof.
  destruct (@buf_register_spec good_env quick _ _ (after_session good_env) no_hip 0x7f0000 4096)
    as (e & g' & Hrun & _).
  - apply good_machine.
  - apply session_reach.
  - vm_compute. discriminate.
  - exists e, g'. split; [exact Hrun|].
    assert (option_map fst (@uGDSBufRegister good_env quick no_hip 0x7f0000 4096 (after_session good_env))
      = Some (make_error UGDS_MEMORY_ALREADY_REGISTERED)) as He by (vm_compute; reflexivity).
    rewrite Hrun in He. by injection He.
Defined.

Lemma default_ctrl_alive_witness :
  (exists fh hs, g_handles (after_session good_env) !! fh = Some hs /\ hs_ctrl hs = 4) /\
  exists ct, l_heap (g_lib (after_session good_env)) !! 4 = Some (OCtrl ct) /\ 1 <= c_count ct.
Proof.
  apply (@default_ctrl_alive good_env quick _ _ (after_session good_env) 4).
  - apply good_machine.
  - apply session_reach.
  - vm_compute. reflexivity.
Defined.

(** A read of 8 KiB at byte 512 of the namespace into the buffer from its second page on. *)
Definition the_handle : HandleState Z Z :=
  match g_handles (after_session good_env) !! 1 with
  | Some hs => hs
  | None => mk_hs 0 0 0 None 0 zero_ctrl_info (mk_ns_info 0 0 0 0 0 0) 0 0 0 0 0 [] 0
  end.
Definition the_buffer : Z := default 0 (drv_buf_registry (g_driver (after_session good_env)) !! 0x7f0000).
Definition the_dma : nvm_dma_t :=
  default (mk_dma 0 false false 0 0 []) (dma_at (g_lib (after_session good_env)) the_buffer).

Lemma ugds_transfer_witness :
  exists w r w', @io_at quick (after_session good_env) the_handle 0x7f0000 = Some w /\
    @do_ucall good_env quick _ _ (Read no_hip 1 0x7f0000 8192 512 4096) (after_session good_env) =
      Some (inr r, io_back (after_session good_env) 1 the_handle w') /\
    io_post w (dma_ioaddrs the_dma) 1 2 8192 512 r w'.
Proof.
  apply (@ugds_transfer good_env quick _ _ (after_session good_env) true no_hip 1 the_handle 0x7f0000 the_buffer
    the_dma 8192 512 4096).
  - apply good_machine.
  - apply session_reach.
  - eapply (@bool_decide_unpack _ (@io_legal_dec good_env quick _ _ _ _ _)). vm_compute. exact I.
  - discriminate.
  - vm_compute. reflexivity.
  - vm_compute. reflexivity.
  - vm_compute. reflexivity.
  - constructor; vm_compute; repeat split; discriminate.
Defined.

(** The controller of this session completes the read; its block size is 1 and its transfer limit
    4 KiB, so there are two commands of 4096 blocks. *)
Example session_read :
  match @do_ucall good_env quick _ _ (Read no_hip 1 0x7f0000 8192 512 4096) (after_session good_env) with
  | Some (inr r, g') =>
      r = 8192 /\
      match hs_qps the_handle with
      | [qp] => (fun ev => let c := event_cmd (qp_sq qp) ev in (cmd_slba c, cmd_nlb c, Some (cmd_prp1 c))) <$> g_io g' =
                  [(512, 4096, dma_ioaddrs the_dma !! 1%nat); (4608, 4096, dma_ioaddrs the_dma !! 2%nat)]
      | _ => False
      end
  | _ => False
  end.
Proof. vm_compute. split; reflexivity. Qed.

(** ** What the code does not expect *)

Definition fresh_open (e : quick) : ugds quick :=
  default start (urun good_env (ugds_start (fun _ => cmd_zero) (fun _ => 0) e) [DriverOpen]).

(** a controller that grants 65536 queues (0xffff, counted from 0) makes the 16-bit counts
    wrap to 0: the handle is registered without any queue pair, and the first transfer divides by
    the number of queue pairs. *)
Theorem handle_without_queues :
  match @uGDSHandleRegister good_env quick _ _ false fd3 (fresh_open (mk_quick 0xffffffff)) with
  | Some ((e, fh), g) => e = UGDS_OK /\ option_map hs_num_qps (g_handles g !! fh) = Some 0
  | None => False
  end.
Proof. vm_compute. split; reflexivity. Qed.

(** deregistering the handle whose controller is the default one forgets the default
    controller although another handle is registered: buffers can no longer be registered, with an
    error that says the driver is not initialised. *)
Theorem default_ctrl_forgotten :
  match urun good_env start [DriverOpen; HandleRegister false fd3; HandleRegister false fd3; HandleDeregister 1] with
  | Some g => size (g_handles g) = 1%nat /\ drv_initialized (g_driver g) = true /\
      option_map fst (@uGDSBufRegister good_env quick no_hip 0x7f0000 65536 g) =
        Some (make_error UGDS_DRIVER_NOT_INITIALIZED)
  | None => False
  end.
Proof. vm_compute. repeat split; reflexivity. Qed.
