(* ===== verification/UgdsTestsCases.v ===== *)
(** * The functional tests on concrete machines

    The tests of UgdsTests.v run on a machine where everything works and on machines where a
    system call fails. *)
From stdpp Require Import prelude gmap gmultiset list strings.
From Stdlib Require Import ZArith Lia Ascii.
From S2P Require Import Prelude CString NvmTypes NvmUtil NvmError NvmQueue NvmCmd NvmDevice Admin UgdsTypes.
From S2P Require Import UgdsIo UgdsIoSpec LibState Ctrl Dma LinuxDma Aq Rpc UgdsHandle UgdsRw.
From S2P Require Import LibInv LibProofs LibClient Ledger UgdsApi UgdsLink UgdsClient UgdsTests UgdsTestsSpec UgdsCases.
Local Open Scope Z_scope.

(** A controller that completes every command at once, with 9 in every byte of its Identify data:
    blocks of 512 bytes. *)
Inductive nines := mk_nines.

#[export] Instance nines_device : Device nines := {|
  dev_cpl _ _ := mk_cpl [0; 0; 0; 2 ^ 16];
  dev_tick e := e;
  dev_sq_doorbell _ _ _ _ e := e;
  dev_cq_doorbell _ _ e := e;
|}.
#[export] Instance nines_mem : HostMem nines := {| mem_byte _ _ := 9; mem_clear _ _ e := e; ver_reg _ _ := 0x10300 |}.

Lemma nines_machine (env : Env) :
  (forall i, mmap_ok i = true) -> sc_pagesize = 4096 -> @machine_ok env nines _ _.
Proof.
  intros Hmm Hps. constructor; [done|rewrite Hps; by exists 12|by rewrite Hps|].
  constructor; intros; vm_compute; reflexivity.
Qed.

Definition open3 (n : nat) : Z := 3.
Definition malloc_at (n : nat) : Z := 0x7f0000.
Definition no_cmds (a : Z) : nvm_cmd_t := cmd_zero.
Definition no_prp (a : Z) : Z := 0.

(** The verdict of a test in a process that has just started. *)
Definition verdict_of (env : Env) (test : prog (E := nines) verdict) : option verdict :=
  match test (test_start no_cmds no_prp mk_nines) with
  | Some (inl v, _) | Some (inr v, _) => Some v
  | None => None
  end.

Lemma nines_blocks hs :
  @comes_from good_env nines _ _ 3 (opened no_cmds no_prp mk_nines) hs -> 8 <= hs_block_size hs.
Proof.
  intros (r & g' & Hrun & _ & Hh).
  assert (option_map (fun x => hs_block_size <$> g_handles (snd x) !! snd (fst x))
    (@uGDSHandleRegister good_env nines _ _ false (Some (mk_descr UGDS_HANDLE_TYPE_OPAQUE_FD 3)) (opened no_cmds no_prp mk_nines))
    = Some (Some 512)) as Hc by (vm_compute; reflexivity).
  rewrite Hrun in Hc. simpl in Hc. rewrite Hh in Hc. simpl in Hc. injection Hc as ->. lia.
Qed.


(** On the good machine all of them pass. *)
Theorem tests_pass_here :
  verdict_of good_env (@test_driver_lifecycle nines) = Some PASS /\
  verdict_of good_env (@test_handle_register good_env nines _ _ open3) = Some PASS /\
  verdict_of good_env (@test_buf_register good_env nines _ _ open3 malloc_at no_hip) = Some PASS /\
  verdict_of good_env (@test_alignment_errors good_env nines _ _ open3 malloc_at no_hip) = Some PASS.
Proof. split_and!; vm_compute; reflexivity. Qed.

(** A failing system call is reported, and so is an unreadable argument list. *)
Theorem tests_report_failures :
  verdict_of (bad_env 20) (@test_alignment_errors (bad_env 20) nines _ _ open3 malloc_at no_hip) = Some (FAIL "open_handle failed") /\
  verdict_of good_env (@test_buf_register good_env nines _ _ (fun _ => -1) malloc_at no_hip) = Some (FAIL "open_handle failed") /\
  verdict_of good_env (test_main [["t"%char]] (@test_driver_lifecycle nines)) = Some USAGE.
Proof. split_and!; vm_compute; reflexivity. Qed.
