(* ===== verification/UgdsTyping.v ===== *)
(** * Pointers lead where their types say

    The C structs declare what each of their pointers leads to.  In every state a program using
    the library can reach, each pointer in libnvm's heap, in the registered handles and in the
    driver's state leads to a live object of the declared type. *)
From stdpp Require Import prelude gmap gmultiset list.
From Stdlib Require Import ZArith Lia.
From S2P Require Import Prelude NvmTypes NvmUtil NvmError NvmQueue NvmCmd NvmDevice Admin UgdsTypes.
From S2P Require Import UgdsIo LibState Ctrl Dma LinuxDma Aq Rpc UgdsHandle UgdsRw.
From S2P Require Import LibInv LibProofs LibClient Ledger UgdsApi UgdsLink UgdsClient UgdsCases.
Local Open Scope Z_scope.

(** ** Types *)

Inductive ctype :=
  | TController | TMap | TContainer | TVaRange | TDevice | TReference | TLocalAdmin
  | TFd                  (* an open file *)
  | TRegisters           (* the mapped registers *)
  | TBuffer.             (* memory of posix_memalign *)

(** Memory just allocated has no type yet. *)
Definition type_of (o : obj) : option ctype :=
  match o with
  | OCtrl _ => Some TController
  | OMapping _ => Some TMap
  | OCont _ => Some TContainer
  | OVa _ => Some TVaRange
  | ODev _ => Some TDevice
  | ORef _ => Some TReference
  | OAdmin _ => Some TLocalAdmin
  | OFd => Some TFd
  | OMm => Some TRegisters
  | OBuf => Some TBuffer
  | ORaw => None
  end.

(** The pointers of an object and their types.  A controller made from registers the user mapped
    has neither a device nor registers of its own; the buffer of a mapping is the library's own
    only for MAP_TYPE_API; [data] of a reference is typed by its release function. *)
Definition members (o : obj) : list (Z * ctype) :=
  match o with
  | OCtrl c =>
      if decide (c_device c = NULL) then [] else [(c_device c, TDevice); (ctrl_mm_ptr (c_handle c), TRegisters)]
  | OMapping m => [(m_ctrl m, TController); (m_va m, TVaRange)]
  | OCont k => [(k_map k, TMap)]
  | OVa (VA_IOCTL md) => if decide (md_type md = MAP_TYPE_API) then [(md_buffer md, TBuffer)] else []
  | ODev fd => [(fd, TFd)]
  | ORef r =>
      (ref_ctrl r, TController) ::
        if decide (ref_release r = Some REMOVE_ADMIN) then [(ref_data r, TLocalAdmin)] else []
  | OAdmin a => [(la_qmem a, TContainer)]
  | _ => []
  end.

Definition nullable (p : option Z) (ty : ctype) : list (Z * ctype) :=
  match p with Some a => [(a, ty)] | None => [] end.
Definition buffer (a : Z) : list (Z * ctype) := if decide (a = NULL) then [] else [(a, TBuffer)].

Definition qp_members (qp : IOQueuePair Z) : list (Z * ctype) :=
  nullable (qp_sq_dma qp) TContainer ++ nullable (qp_cq_dma qp) TContainer ++ nullable (qp_prp_dma qp) TContainer ++
  buffer (qp_sq_buf qp) ++ buffer (qp_cq_buf qp) ++ buffer (qp_prp_buf qp).

Definition handle_members (hs : HandleState Z Z) : list (Z * ctype) :=
  [(hs_ctrl hs, TController); (hs_aq_ref hs, TReference); (hs_aq_buf hs, TBuffer)] ++
  nullable (hs_aq_dma hs) TContainer ++ (hs_qps hs ≫= qp_members).

Definition driver_members (d : DriverState Z Z) : list (Z * ctype) :=
  nullable (drv_default_ctrl d) TController ++ ((fun x => (x.2, TContainer)) <$> map_to_list (drv_buf_registry d)).

Definition has_type (h : gmap Z obj) (p : Z * ctype) : Prop := exists o, h !! p.1 = Some o /\ type_of o = Some p.2.

Record well_typed {E} (g : ugds E) : Prop := {
  wt_heap : forall a o, l_heap (g_lib g) !! a = Some o -> Forall (has_type (l_heap (g_lib g))) (members o);
  wt_handles : forall fh hs, g_handles g !! fh = Some hs -> Forall (has_type (l_heap (g_lib g))) (handle_members hs);
  wt_driver : Forall (has_type (l_heap (g_lib g))) (driver_members (g_driver g));
}.

(** ** From ownership to types *)

Lemma obj_ok_typed h o : obj_ok h o -> Forall (has_type h) (members o).
Proof.
  destruct o as [c|m|k|[va|md]|fd| | | | |r|a]; simpl; try by constructor.
  - intros (_ & _ & Hd). case_decide as Hn; [constructor|]. destruct (Hd Hn) as [[fd Hfd] Hmm].
    repeat constructor; by eexists.
  - intros (_ & (c & Hc & _) & (v & Hv & _)). repeat constructor; by eexists.
  - intros (m & c & v & Hm & _). repeat constructor. by eexists.
  - intros Hb. case_decide as Ht; [|constructor]. repeat constructor. eexists. split; [by apply Hb|done].
  - intros Hf. repeat constructor. by eexists.
  - intros ([c Hc] & _ & Ha). constructor; [by eexists|]. case_decide as Hr; [|constructor].
    destruct (Ha Hr) as [x Hx]. repeat constructor. by eexists.
  - intros [k Hk]. repeat constructor. by eexists.
Qed.

Section typing.
Context `{Env} {E : Type} `{Device E, HostMem E}.

Definition res_type (r : res) : Z * ctype :=
  match r with
  | RCtrl a => (a, TController) | RDma _ a => (a, TContainer) | RRef a => (a, TReference) | RBuf a => (a, TBuffer)
  end.

Lemma live_typed s r : live s r -> has_type (l_heap s) (res_type r).
Proof.
  destruct r; simpl; [intros (c & ? & _)|intros (k & ? & _)|intros (r & c & ? & _)|intros ?]; by eexists.
Qed.

Lemma nullable_res n d : nullable d TContainer = res_type <$> match d with Some a => [RDma n a] | None => [] end.
Proof. by destruct d. Qed.
Lemma buffer_res b : buffer b = res_type <$> buf_res b.
Proof. unfold buffer, buf_res. by case_decide. Qed.

(** The typed pointers of a handle are what it owns. *)
Lemma qp_members_res qp : qp_members qp = res_type <$> qp_ledger qp.
Proof.
  unfold qp_members, qp_ledger, dma_res. rewrite !fmap_app, !buffer_res, !(nullable_res 1). done.
Qed.

Lemma qps_members_res qps : qps ≫= qp_members = res_type <$> (qps ≫= qp_ledger).
Proof. induction qps as [|qp qps IH]; [done|]. cbn. by rewrite fmap_app, <- qp_members_res, <- IH. Qed.

Lemma handle_members_res hs : handle_members hs ≡ₚ res_type <$> handle_ledger hs.
Proof.
  unfold handle_members, handle_ledger. rewrite !fmap_app, <- qps_members_res, <- (nullable_res 3). simpl. perm.
Qed.

Lemma ledger_typed n L (l : lib) rs : holds n L l -> rs ⊆ L -> Forall (has_type (l_heap l)) (res_type <$> rs).
Proof.
  intros Hh HL. apply Forall_fmap, Forall_forall. intros r Hr. apply live_typed. by eapply holds_live, HL.
Qed.

(** C10: in every state a program can reach, every pointer in libnvm's heap, in every registered
    handle and its queue pairs, in the registry of buffers and in the driver's default controller
    leads to a live object of the type it is declared with. *)
Theorem ugds_well_typed (g : ugds E) : machine_ok -> ureach g -> well_typed g.
Proof.
  intros Hm Hr. destruct (ureach_inv g Hm Hr) as [Hh _ _ Hd _]. constructor.
  - intros a o Ha. apply obj_ok_typed. by apply (h_ok _ _ _ (ho_inv _ _ _ Hh) _ _ Ha).
  - intros fh hs Hfh. rewrite handle_members_res. eapply ledger_typed; [exact Hh|]. by eapply handle_in_ledger.
  - unfold driver_members. apply Forall_app. split.
    + destruct (drv_default_ctrl (g_driver g)) as [c|] eqn:Hc; [|constructor].
      destruct (Hd c eq_refl) as (fh & hs & Hfh & <-).
      apply (ledger_typed _ _ _ [RCtrl (hs_ctrl hs)] Hh). intros r ->%list_elem_of_singleton.
      apply elem_of_app. left. by eapply handles_ledger_ctrl.
    + apply (ledger_typed _ _ _ (bufs_ledger (drv_buf_registry (g_driver g)))) in Hh; [|set_solver].
      unfold bufs_ledger in Hh. by rewrite <- list_fmap_compose in Hh.
Qed.
End typing.

(** After the session of UgdsCases.v: a controller, a handle with its queues and a buffer. *)
Lemma ugds_well_typed_witness : well_typed (after_session good_env).
Proof. apply (@ugds_well_typed good_env quick _ _ (after_session good_env)); [apply good_machine|apply session_reach]. Defined.
