(* ===== verification/DrvList.v ===== *)
(** * The lists of the kernel module (src/drv/list.h and list.c)

    Intrusive circular doubly linked lists.  A [struct list] starts with its head node and the
    structs that are kept in lists start with their node, so one address stands for the struct
    and for its node.  The second half shows that the three operations on pointers implement
    insertion at the end and removal on sequences, and that following [list_next] from the head
    visits exactly the sequence. *)
From stdpp Require Import prelude gmap list.
From Stdlib Require Import ZArith Lia.
From S2P Require Import Prelude NvmTypes.
Local Open Scope Z_scope.

Record list_node := mk_node { n_list : Z; n_next : Z; n_prev : Z }.

(** The nodes in memory, and the spin locks of the [struct list]s ([true]: held). *)
Record kmem := mk_kmem { k_nodes : gmap Z list_node; k_locks : gmap Z bool }.

Definition node_at (p : Z) : M kmem list_node := s ← get; of_option (k_nodes s !! p).
Definition put_node (p : Z) (n : list_node) : M kmem unit :=
  modify (fun s => mk_kmem (<[p := n]> (k_nodes s)) (k_locks s)).

(** [p->list = v], [p->next = v] and [p->prev = v]. *)
Definition set_list (p v : Z) : M kmem unit :=
  n ← node_at p; put_node p (mk_node v (n_next n) (n_prev n)).
Definition set_next (p v : Z) : M kmem unit :=
  n ← node_at p; put_node p (mk_node (n_list n) v (n_prev n)).
Definition set_prev (p v : Z) : M kmem unit :=
  n ← node_at p; put_node p (mk_node (n_list n) (n_next n) v).

(** Taking a lock that is held would never return: it is not defined here. *)
Definition spin_lock_init (l : Z) : M kmem unit :=
  modify (fun s => mk_kmem (k_nodes s) (<[l := false]> (k_locks s))).
Definition spin_lock (l : Z) : M kmem unit :=
  s ← get;
  match k_locks s !! l with
  | Some false => put (mk_kmem (k_nodes s) (<[l := true]> (k_locks s)))
  | _ => undefined
  end.
Definition spin_unlock (l : Z) : M kmem unit :=
  s ← get;
  match k_locks s !! l with
  | Some true => put (mk_kmem (k_nodes s) (<[l := false]> (k_locks s)))
  | _ => undefined
  end.

(** [&list->head]: the head is the first member. *)
Definition list_head (list : Z) : Z := list.

Definition list_node_init (element : Z) : M kmem unit :=
  set_list element NULL;; set_next element NULL;; set_prev element NULL.

Definition list_next (current : Z) : M kmem Z :=
  n ← node_at current;
  mret (if decide (n_next n <> list_head (n_list n)) then n_next n else NULL).

Definition list_init (list : Z) : M kmem unit :=
  set_list (list_head list) list;;
  set_prev (list_head list) (list_head list);;
  set_next (list_head list) (list_head list);;
  spin_lock_init list.

(** What [list_remove] does to an element that is in a list. *)
Definition list_unlink (element : Z) : M kmem unit :=
  e ← node_at element; spin_lock (n_list e);;
  e ← node_at element; set_next (n_prev e) (n_next e);;
  e ← node_at element; set_prev (n_next e) (n_prev e);;
  e ← node_at element; spin_unlock (n_list e);;
  set_list element NULL;;
  set_next element NULL;;
  set_prev element NULL.

Definition list_remove (element : Z) : M kmem unit :=
  if decide (element = NULL) then mret tt
  else
    e ← node_at element;
    if decide (n_list e <> NULL /\ element <> list_head (n_list e)) then list_unlink element
    else mret tt.

Definition list_insert (list element : Z) : M kmem unit :=
  spin_lock list;;
  head ← node_at (list_head list);
  let last := n_prev head in
  set_next last element;;
  set_list element list;;
  set_prev element last;;
  set_next element (list_head list);;
  set_prev (list_head list) element;;
  spin_unlock list.

(** ** Fields *)

Definition lst (m : gmap Z list_node) (p : Z) : option Z := n_list <$> m !! p.
Definition nxt (m : gmap Z list_node) (p : Z) : option Z := n_next <$> m !! p.
Definition prv (m : gmap Z list_node) (p : Z) : option Z := n_prev <$> m !! p.

(** [p] and [q] are neighbours. *)
Definition link (m : gmap Z list_node) (p q : Z) : Prop := nxt m p = Some q /\ prv m q = Some p.

(** From [a] over the nodes [xs] to [b]. *)
Fixpoint path (m : gmap Z list_node) (a : Z) (xs : list Z) (b : Z) : Prop :=
  match xs with
  | [] => link m a b
  | x :: xs => link m a x /\ path m x xs b
  end.

Lemma path_app m a xs y ys b : path m a (xs ++ y :: ys) b <-> path m a xs y /\ path m y ys b.
Proof. revert a. induction xs as [|x xs IH]; intros a; simpl; [done|]. rewrite IH. tauto. Qed.

(** The ring of [l] with the elements [xs]. *)
Record ring (m : gmap Z list_node) (l : Z) (xs : list Z) : Prop := {
  ring_nodup : NoDup (l :: xs);
  ring_null : NULL ∉ l :: xs;
  ring_lst : forall x, x ∈ l :: xs -> lst m x = Some l;
  ring_path : path m l xs l;
}.

(** [ls] gives the elements of every list; no lock is held. *)
Record lists (m : kmem) (ls : gmap Z (list Z)) : Prop := {
  lists_ring : forall l xs, ls !! l = Some xs -> ring (k_nodes m) l xs;
  lists_lock : forall l xs, ls !! l = Some xs -> k_locks m !! l = Some false;
}.

(** ** What the operations do to the fields *)

Lemma wp_node_at p n Q s : k_nodes s !! p = Some n -> Q n s -> wp (node_at p) Q s.
Proof. intros Hp HQ. unfold node_at, wp, mbind, M_bind, get. by rewrite Hp. Qed.

Lemma wp_set_list p v n (Q : unit -> kmem -> Prop) s :
  k_nodes s !! p = Some n ->
  Q tt (mk_kmem (<[p := mk_node v (n_next n) (n_prev n)]> (k_nodes s)) (k_locks s)) ->
  wp (set_list p v) Q s.
Proof. intros Hp HQ. apply wp_bind, (wp_node_at p n); [done|]. by apply wp_modify. Qed.

Lemma wp_set_next p v n (Q : unit -> kmem -> Prop) s :
  k_nodes s !! p = Some n ->
  Q tt (mk_kmem (<[p := mk_node (n_list n) v (n_prev n)]> (k_nodes s)) (k_locks s)) ->
  wp (set_next p v) Q s.
Proof. intros Hp HQ. apply wp_bind, (wp_node_at p n); [done|]. by apply wp_modify. Qed.

Lemma wp_set_prev p v n (Q : unit -> kmem -> Prop) s :
  k_nodes s !! p = Some n ->
  Q tt (mk_kmem (<[p := mk_node (n_list n) (n_next n) v]> (k_nodes s)) (k_locks s)) ->
  wp (set_prev p v) Q s.
Proof. intros Hp HQ. apply wp_bind, (wp_node_at p n); [done|]. by apply wp_modify. Qed.

Lemma wp_spin_lock l (Q : unit -> kmem -> Prop) s :
  k_locks s !! l = Some false -> Q tt (mk_kmem (k_nodes s) (<[l := true]> (k_locks s))) ->
  wp (spin_lock l) Q s.
Proof. intros Hl HQ. unfold spin_lock, wp, mbind, M_bind, get. by rewrite Hl. Qed.

Lemma wp_spin_unlock l (Q : unit -> kmem -> Prop) s :
  k_locks s !! l = Some true -> Q tt (mk_kmem (k_nodes s) (<[l := false]> (k_locks s))) ->
  wp (spin_unlock l) Q s.
Proof. intros Hl HQ. unfold spin_unlock, wp, mbind, M_bind, get. by rewrite Hl. Qed.

(** One step of the code above; the node read is found by looking it up. *)
Ltac node_lookup :=
  cbn [k_nodes k_locks n_list n_next n_prev] in *; unfold list_head in *; simplify_map_eq; try reflexivity; try eassumption.
Ltac node_step :=
  first
    [ eapply wp_spin_lock; [by node_lookup|]
    | eapply wp_spin_unlock; [by node_lookup|]
    | eapply wp_set_list; [node_lookup|]
    | eapply wp_set_next; [node_lookup|]
    | eapply wp_set_prev; [node_lookup|]
    | eapply wp_node_at; [node_lookup|]
    | apply wp_bind ].

Ltac node_cases :=
  repeat match goal with
  | |- context [decide (?a = ?b)] => destruct (decide (a = b))
  | |- context [<[?a := _]> _ !! ?b] =>
      lazymatch a with
      | b => rewrite lookup_insert_eq
      | _ => destruct (decide (a = b)); [subst; rewrite lookup_insert_eq | rewrite lookup_insert_ne by done]
      end
  end; simplify_eq/=; simplify_option_eq; try congruence.

(** The fields after [list_insert l e], where [z] was the last node. *)
Definition inserted (m m' : kmem) (l e z : Z) : Prop :=
  k_locks m' = k_locks m /\
  (forall p, lst (k_nodes m') p = if decide (p = e) then Some l else lst (k_nodes m) p) /\
  (forall p, nxt (k_nodes m') p =
     if decide (p = e) then Some l else if decide (p = z) then Some e else nxt (k_nodes m) p) /\
  (forall p, prv (k_nodes m') p =
     if decide (p = l) then Some e else if decide (p = e) then Some z else prv (k_nodes m) p).

Lemma wp_list_insert_fields s l e z :
  k_locks s !! l = Some false -> prv (k_nodes s) l = Some z ->
  is_Some (k_nodes s !! z) -> is_Some (k_nodes s !! e) -> e <> l -> e <> z ->
  wp (list_insert l e) (fun _ s' => inserted s s' l e z) s.
Proof.
  intros Hk Hz [nz Hnz] [ne Hne] Hel Hez. unfold prv in Hz.
  destruct (k_nodes s !! l) as [nl|] eqn:Hnl; [|done]. simplify_eq/=.
  unfold list_insert, list_head. destruct (decide (n_prev nl = l)) as [E|E].
  all: repeat (cbv zeta; node_step).
  all: unfold inserted, lst, nxt, prv; cbn [k_nodes k_locks n_list n_next n_prev]; split_and!.
  all: try (rewrite insert_insert_eq, insert_id by done; done).
  all: intros p; node_cases.
Qed.

(** The fields after an element [e] between [a] and [b] was taken out. *)
Definition unlinked (m m' : kmem) (a e b : Z) : Prop :=
  k_locks m' = k_locks m /\
  (forall p, lst (k_nodes m') p = if decide (p = e) then Some NULL else lst (k_nodes m) p) /\
  (forall p, nxt (k_nodes m') p =
     if decide (p = e) then Some NULL else if decide (p = a) then Some b else nxt (k_nodes m) p) /\
  (forall p, prv (k_nodes m') p =
     if decide (p = e) then Some NULL else if decide (p = b) then Some a else prv (k_nodes m) p).

Lemma wp_list_unlink_fields s l a e b :
  k_locks s !! l = Some false -> lst (k_nodes s) e = Some l ->
  link (k_nodes s) a e -> link (k_nodes s) e b -> a <> e -> b <> e ->
  wp (list_unlink e) (fun _ s' => unlinked s s' a e b) s.
Proof.
  intros Hk Hl [Ha Hae] [Heb Hb] Ne1 Ne2. unfold lst, nxt, prv in *.
  destruct (k_nodes s !! e) as [ne|] eqn:Hne; [|done]. destruct ne as [nel nen nep].
  destruct (k_nodes s !! a) as [na|] eqn:Hna; [|done].
  destruct (k_nodes s !! b) as [nb|] eqn:Hnb; [|done]. injection Hl as ->. injection Hae as ->. injection Heb as ->.
  unfold list_unlink. destruct (decide (a = b)) as [->|E].
  all: repeat node_step.
  all: unfold unlinked, lst, nxt, prv; cbn [k_nodes k_locks n_list n_next n_prev]; split_and!.
  all: try (rewrite insert_insert_eq, insert_id by done; done).
  all: intros p; node_cases.
Qed.

(** ** The operations on sequences *)

Lemma link_next_inj m p q q' : link m p q -> nxt m p = Some q' -> q = q'.
Proof. intros [H _] H'. congruence. Qed.
Lemma link_prev_inj m p p' q : link m p q -> prv m q = Some p' -> p = p'.
Proof. intros [_ H] H'. congruence. Qed.

(** A path is kept by a change that keeps each of its links. *)
Lemma path_keep m m' (P Q : Z -> Prop) a xs b :
  (forall p q, link m p q -> P p -> Q q -> link m' p q) ->
  path m a xs b -> P a -> Forall P xs -> Forall Q xs -> Q b -> path m' a xs b.
Proof.
  intros Hk. revert a. induction xs as [|x xs IH]; intros a; simpl.
  - eauto.
  - intros [Hl Hp] Ha HP HQ Hb. apply Forall_cons in HP as [??]. apply Forall_cons in HQ as [??].
    eauto.
Qed.

(** The last node of a path. *)
Lemma path_last m l xs b : path m l xs b -> exists z, prv m b = Some z /\ nxt m z = Some b /\ z ∈ l :: xs.
Proof.
  revert l. induction xs as [|x xs IH]; intros l; simpl.
  - intros [Hn Hp]. exists l. split_and!; [done..|by left].
  - intros [_ Hp]. destruct (IH _ Hp) as (z & ? & ? & ?). exists z. split_and!; [done..|by right].
Qed.

Lemma ring_insert m m' l xs e z :
  inserted m m' l e z -> ring (k_nodes m) l xs -> prv (k_nodes m) l = Some z ->
  e ∉ l :: xs -> e <> NULL -> ring (k_nodes m') l (xs ++ [e]).
Proof.
  intros (_ & Hlst & Hnxt & Hprv) [Hnd Hnull Hls Hp] Hz He He0.
  destruct (path_last _ _ _ _ Hp) as (z' & Hz' & Hlast & Hin). simplify_eq.
  assert (z <> e) by (intros ->; done). assert (l <> e) by (intros ->; apply He; by left).
  split.
  - rewrite app_comm_cons. apply NoDup_app. split_and!; [done| |apply NoDup_singleton].
    intros x Hx ->%list_elem_of_singleton. done.
  - rewrite app_comm_cons, elem_of_app, list_elem_of_singleton. intros [?|?]; [done|congruence].
  - intros x. rewrite app_comm_cons, elem_of_app, list_elem_of_singleton, Hlst.
    intros [Hx| ->]; case_decide; subst; auto; done.
  - destruct (decide (xs = [])) as [->|Hxs].
    + simpl in *. destruct Hp as [Hp1 Hp2]. simplify_eq. unfold link. rewrite !Hnxt, !Hprv.
      repeat case_decide; simplify_eq; done.
    + destruct (exists_last Hxs) as (us & w & ->). rewrite <- app_assoc. simpl.
      apply path_app in Hp as [Hus Hw]. apply path_app.
      destruct Hw as [Hwn Hwp]. assert (w = z) as -> by congruence.
      assert (~ l ∈ us ++ [z]) as Hlus by (intros Hx; apply NoDup_cons in Hnd; tauto).
      assert (~ e ∈ us) by (intros Hx; apply He; right; apply elem_of_app; auto).
      apply NoDup_cons_1_2, NoDup_app in Hnd as (_ & Hzus & _).
      split; [|cbn [path]; unfold link; rewrite !Hnxt, !Hprv; repeat case_decide; simplify_eq; done].
      apply (path_keep (k_nodes m) _ (fun p => p <> e) (fun q => q <> l /\ q <> e)); [|exact Hus|..].
      * intros p q Hl Hpe [Hql Hqe]. unfold link. rewrite Hnxt, Hprv.
        assert (p <> z) by (intros ->; apply Hql; by eapply link_next_inj).
        rewrite !decide_False by done. done.
      * done.
      * apply Forall_forall. set_solver.
      * apply Forall_forall. set_solver.
      * set_solver.
Qed.

(** A path that does not meet [e] stays, and one through [e] becomes shorter. *)
Lemma unlinked_link m m' a e b p q :
  unlinked m m' a e b -> prv (k_nodes m) e = Some a -> nxt (k_nodes m) e = Some b ->
  nxt (k_nodes m) a = Some e -> prv (k_nodes m) b = Some e ->
  link (k_nodes m) p q -> p <> e -> q <> e -> link (k_nodes m') p q.
Proof.
  intros (_ & _ & Hn & Hp) Ha Hb Ha' Hb' [Hpn Hqp] ??. unfold link. rewrite Hn, Hp.
  rewrite !decide_False by congruence. done.
Qed.

Lemma unlinked_path m m' a e b p us vs q :
  unlinked m m' a e b -> link (k_nodes m) a e -> link (k_nodes m) e b ->
  path (k_nodes m) p us e -> path (k_nodes m) e vs q -> e ∉ p :: us ++ vs -> e <> q ->
  path (k_nodes m') p (us ++ vs) q.
Proof.
  intros Hu [Ha Ha'] [Hb Hb'] Hp Hq He Heq.
  pose proof (fun p q => unlinked_link m m' a e b p q Hu Ha' Hb Ha Hb') as Hkeep.
  revert p Hp He. induction us as [|u us IH]; intros p Hp He; cbn [app path] in *.
  - destruct Hu as (_ & _ & Hn & Hpv).
    assert (p = a) as -> by (by eapply link_prev_inj).
    assert (a <> e) by set_solver.
    assert (link (k_nodes m') a b) as Hab.
    { unfold link. rewrite Hn, Hpv. assert (b <> e).
      { destruct vs as [|v vs]; simpl in Hq; [|destruct Hq as [Hq _]].
        all: pose proof (link_next_inj _ _ _ _ Hq Hb) as ->; set_solver. }
      repeat case_decide; done. }
    destruct vs as [|v vs]; simpl in Hq.
    + by rewrite (link_next_inj _ _ _ _ Hq Hb).
    + destruct Hq as [Hv Hq]. rewrite (link_next_inj _ _ _ _ Hv Hb) in *.
      split; [done|].
      apply (path_keep (k_nodes m) _ (fun p => p <> e) (fun q => q <> e)); [|exact Hq|..].
      all: try apply Forall_forall; set_solver.
  - destruct Hp as [Hl Hp]. split; [apply Hkeep; set_solver|]. apply IH; [done|]. set_solver.
Qed.

Lemma ring_unlink m m' a e b l us vs :
  unlinked m m' a e b -> link (k_nodes m) a e -> link (k_nodes m) e b ->
  ring (k_nodes m) l (us ++ e :: vs) -> ring (k_nodes m') l (us ++ vs).
Proof.
  intros Hu Ha Hb [Hnd Hnull Hls Hp]. apply path_app in Hp as [Hp Hq].
  assert (e ∉ l :: us ++ vs).
  { rewrite app_comm_cons in *. apply NoDup_app in Hnd as (_ & Hd & [Hv _]%NoDup_cons).
    rewrite elem_of_app. intros [He|He]; [apply (Hd e He); by left|done]. }
  split.
  - revert Hnd. rewrite !app_comm_cons, <- Permutation_middle. by intros [_ ?]%NoDup_cons.
  - set_solver.
  - intros x Hx. destruct Hu as (_ & Hlst & _). rewrite Hlst.
    rewrite decide_False by set_solver. apply Hls. set_solver.
  - eapply unlinked_path; eauto. set_solver.
Qed.

(** The fields of [p] are the same in [m] and [m']. *)
Definition same_fields (m m' : gmap Z list_node) (p : Z) : Prop :=
  lst m' p = lst m p /\ nxt m' p = nxt m p /\ prv m' p = prv m p.

Lemma ring_frame m m' l xs :
  (forall p, p ∈ l :: xs -> same_fields m m' p) -> ring m l xs -> ring m' l xs.
Proof.
  intros He [Hnd Hnull Hls Hp]. split; [done..| |].
  - intros x Hx. destruct (He x Hx) as [-> _]. by apply Hls.
  - apply (path_keep m _ (.∈ l :: xs) (.∈ l :: xs)); [|exact Hp|..].
    + intros p q [??] (_ & Hn & _)%He (_ & _ & Hv)%He. unfold link. by rewrite Hn, Hv.
    + by left.
    + apply Forall_forall. by right.
    + apply Forall_forall. by right.
    + by left.
Qed.

Lemma lists_other m ls l xs l' xs' p :
  lists m ls -> ls !! l = Some xs -> ls !! l' = Some xs' -> l <> l' -> p ∈ l' :: xs' ->
  p ∉ l :: xs.
Proof.
  intros HL Hl Hl' Hne Hp' Hp. pose proof (ring_lst _ _ _ (lists_ring _ _ HL _ _ Hl) _ Hp).
  pose proof (ring_lst _ _ _ (lists_ring _ _ HL _ _ Hl') _ Hp'). congruence.
Qed.

Lemma lists_lst m ls l xs p :
  lists m ls -> ls !! l = Some xs -> p ∈ l :: xs -> lst (k_nodes m) p = Some l /\ l <> NULL.
Proof.
  intros HL Hl Hp. pose proof (lists_ring _ _ HL _ _ Hl) as Hr. split; [by apply (ring_lst _ _ _ Hr)|].
  intros E. apply (ring_null _ _ _ Hr). rewrite E. by left.
Qed.

Lemma lists_update m m' ls l xs xs' :
  lists m ls -> ls !! l = Some xs -> k_locks m' = k_locks m -> ring (k_nodes m') l xs' ->
  (forall p l', lst (k_nodes m) p = Some l' -> l' <> l -> l' <> NULL ->
     same_fields (k_nodes m) (k_nodes m') p) ->
  lists m' (<[l := xs']> ls).
Proof.
  intros HL Hl Hlk Hr Hk. split; intros l' ys; rewrite lookup_insert_Some; rewrite ?Hlk.
  - intros [[<- <-]|[Hne Hys]]; [done|]. eapply ring_frame; [|by eapply lists_ring].
    intros p Hp. destruct (lists_lst _ _ _ _ _ HL Hys Hp). eauto.
  - intros [[<- <-]|[Hne Hys]]; by eapply lists_lock.
Qed.

(** Insertion puts a node that is in no list at the end. *)
Lemma wp_list_insert m ls l xs e :
  lists m ls -> ls !! l = Some xs -> lst (k_nodes m) e = Some NULL -> e <> NULL ->
  wp (list_insert l e) (fun _ m' => lists m' (<[l := xs ++ [e]]> ls) /\
    forall p, p <> e -> lst (k_nodes m') p = lst (k_nodes m) p) m.
Proof.
  intros HL Hl He He0. pose proof (lists_ring _ _ HL _ _ Hl) as Hr.
  destruct (path_last _ _ _ _ (ring_path _ _ _ Hr)) as (z & Hz & _ & Hzin).
  destruct (lists_lst _ _ _ _ _ HL Hl Hzin) as [Hzl Hl0].
  assert (e ∉ l :: xs) as Hel.
  { intros Hin. destruct (lists_lst _ _ _ _ _ HL Hl Hin). congruence. }
  eapply wp_mono.
  { apply (wp_list_insert_fields m l e z); try done.
    - by eapply lists_lock.
    - unfold lst in Hzl. by destruct (_ !! z).
    - unfold lst in He. by destruct (_ !! e).
    - intros ->. apply Hel. by left.
    - by intros ->. }
  intros [] m' Hi. split.
  - eapply lists_update; [done..|apply Hi|by eapply ring_insert|].
    intros p l' Hp Hne Hnz. destruct Hi as (_ & Hls & Hn & Hv). unfold same_fields.
    rewrite Hls, Hn, Hv.
    pose proof (lists_lst _ _ _ _ l HL Hl ltac:(by left)) as [Hll _].
    repeat case_decide; simplify_eq; done.
  - intros p Hp. destruct Hi as (_ & -> & _). by rewrite decide_False.
Qed.

(** The neighbours of an element. *)
Lemma ring_around m l us e vs :
  ring m l (us ++ e :: vs) ->
  exists a b, link m a e /\ link m e b /\ l <> e /\ a <> e /\ b <> e /\
    a ∈ l :: us ++ e :: vs /\ b ∈ l :: us ++ e :: vs.
Proof.
  intros Hr. pose proof (ring_path _ _ _ Hr) as [Hp Hq]%path_app.
  destruct (path_last _ _ _ _ Hp) as (a & Ha & Ha' & Hain).
  assert (exists b, link m e b /\ (b = l \/ b ∈ vs)) as (b & Hb & Hbin).
  { destruct vs as [|v vs]; [exists l; auto|exists v; destruct Hq; split; [done|right; by left]]. }
  pose proof (ring_nodup _ _ _ Hr) as Hnd. rewrite app_comm_cons in Hnd.
  apply NoDup_app in Hnd as (_ & Hd & [Hev _]%NoDup_cons).
  exists a, b. split_and!; try done.
  - intros ->. apply (Hd e); by left.
  - intros ->. apply (Hd e); [done|by left].
  - destruct Hbin as [->|?]; intros ->; [apply (Hd e); by left|done].
  - rewrite app_comm_cons, elem_of_app. by left.
  - set_solver.
Qed.

(** Removal takes out just the element. *)
Lemma wp_list_remove m ls l us e vs :
  lists m ls -> ls !! l = Some (us ++ e :: vs) ->
  wp (list_remove e) (fun _ m' => lists m' (<[l := us ++ vs]> ls) /\
    lst (k_nodes m') e = Some NULL /\ forall p, p <> e -> lst (k_nodes m') p = lst (k_nodes m) p) m.
Proof.
  intros HL Hl. pose proof (lists_ring _ _ HL _ _ Hl) as Hr.
  assert (e ∈ l :: us ++ e :: vs) as Hin by set_solver.
  destruct (lists_lst _ _ _ _ _ HL Hl Hin) as [He Hl0].
  destruct (ring_around _ _ _ _ _ Hr) as (a & b & Ha & Hb & Hle & Hae & Hbe & Hain & Hbin).
  unfold list_remove. rewrite decide_False by (intros ->; by apply (ring_null _ _ _ Hr)).
  pose proof He as Hn. unfold lst in Hn. destruct (k_nodes m !! e) as [n|] eqn:Hne; [|done].
  simplify_eq/=. apply wp_bind, (wp_node_at e n); [done|]. rewrite decide_True by done.
  eapply wp_mono.
  { apply (wp_list_unlink_fields m (n_list n) a e b); try done. by eapply lists_lock. }
  intros [] m' Hu. split_and!.
  - eapply lists_update; [done..|apply Hu|by eapply ring_unlink|].
    intros p l' Hpl Hne' Hnz. destruct Hu as (_ & Hls & Hnx & Hpv). unfold same_fields.
    rewrite Hls, Hnx, Hpv.
    pose proof (lists_lst _ _ _ _ _ HL Hl Hain) as [? _].
    pose proof (lists_lst _ _ _ _ _ HL Hl Hbin) as [? _].
    rewrite !decide_False by congruence. done.
  - destruct Hu as (_ & -> & _). by rewrite decide_True.
  - intros p Hpe. destruct Hu as (_ & -> & _). by rewrite decide_False.
Qed.

(** Removing a node that is in no list does nothing. *)
Lemma wp_list_remove_free m e (Q : unit -> kmem -> Prop) :
  lst (k_nodes m) e = Some NULL -> Q tt m -> wp (list_remove e) Q m.
Proof.
  intros He HQ. unfold list_remove. case_decide; [done|]. unfold lst in He.
  destruct (k_nodes m !! e) as [n|] eqn:Hn; [|done]. simplify_eq/=.
  apply wp_bind, (wp_node_at e n); [done|]. rewrite decide_False by tauto. done.
Qed.

(** Initialising a node that is in no list. *)
Lemma wp_list_node_init m ls e n :
  lists m ls -> k_nodes m !! e = Some n -> (forall l xs, ls !! l = Some xs -> e ∉ l :: xs) ->
  wp (list_node_init e) (fun _ m' => lists m' ls /\ lst (k_nodes m') e = Some NULL /\
    forall p, p <> e -> lst (k_nodes m') p = lst (k_nodes m) p) m.
Proof.
  intros HL Hn He. unfold list_node_init. repeat node_step. unfold lst.
  cbn [k_nodes k_locks n_list n_next n_prev]. rewrite !insert_insert_eq. split_and!.
  - split; cbn [k_nodes k_locks]; [|by apply lists_lock].
    intros l xs Hl. eapply ring_frame; [|by eapply lists_ring]. intros p Hp.
    assert (p <> e) by (intros ->; by apply (He _ _ Hl)).
    unfold same_fields, lst, nxt, prv. by rewrite lookup_insert_ne.
  - by rewrite lookup_insert_eq.
  - intros p Hp. by rewrite lookup_insert_ne.
Qed.

(** Following [list_next] gives the node after it, and [NULL] at the end. *)
Lemma wp_list_next m l p vs (Q : Z -> kmem -> Prop) :
  lst (k_nodes m) p = Some l -> path (k_nodes m) p vs l -> l ∉ vs ->
  Q (default NULL (head vs)) m -> wp (list_next p) Q m.
Proof.
  intros Hl Hp Hvs HQ. unfold lst in Hl. destruct (k_nodes m !! p) as [n|] eqn:Hn; [|done].
  injection Hl as Hl. apply wp_bind, (wp_node_at p n); [done|]. apply wp_ret.
  unfold list_head. rewrite Hl.
  assert (n_next n = default l (head vs)) as ->.
  { destruct vs as [|v vs]; [destruct Hp as [Hx _]|destruct Hp as [[Hx _] _]].
    all: unfold nxt in Hx; rewrite Hn in Hx; by injection Hx. }
  destruct vs as [|v vs]; simpl in *; [by rewrite decide_False by tauto|].
  rewrite decide_True; [done|]. set_solver.
Qed.

Lemma wp_list_first m ls l xs (Q : Z -> kmem -> Prop) :
  lists m ls -> ls !! l = Some xs -> Q (default NULL (head xs)) m -> wp (list_next l) Q m.
Proof.
  intros HL Hl HQ. pose proof (lists_ring _ _ HL _ _ Hl) as Hr.
  eapply wp_list_next; [| |by apply NoDup_cons, (ring_nodup _ _ _ Hr)|exact HQ].
  - apply (ring_lst _ _ _ Hr). by left.
  - apply (ring_path _ _ _ Hr).
Qed.

Lemma wp_list_after m ls l us p vs (Q : Z -> kmem -> Prop) :
  lists m ls -> ls !! l = Some (us ++ p :: vs) -> Q (default NULL (head vs)) m ->
  wp (list_next p) Q m.
Proof.
  intros HL Hl HQ. pose proof (lists_ring _ _ HL _ _ Hl) as Hr.
  eapply (wp_list_next _ l); [| | |exact HQ].
  - apply (ring_lst _ _ _ Hr). set_solver.
  - by pose proof (ring_path _ _ _ Hr) as [_ ?]%path_app.
  - pose proof (ring_nodup _ _ _ Hr) as [Hx _]%NoDup_cons. set_solver.
Qed.

(** Setting up the lists of the module. *)
Lemma wp_list_init m ls l n :
  lists m ls -> k_nodes m !! l = Some n -> l <> NULL ->
  (forall l' xs, ls !! l' = Some xs -> l ∉ l' :: xs) ->
  wp (list_init l) (fun _ m' => lists m' (<[l := []]> ls) /\
    forall p, p <> l -> k_nodes m' !! p = k_nodes m !! p) m.
Proof.
  intros HL Hn H0 Hl. unfold list_init. repeat node_step. apply wp_modify.
  unfold list_head. cbn [k_nodes k_locks n_list n_next n_prev]. rewrite !insert_insert_eq. split.
  - split; cbn [k_nodes k_locks]; intros l' xs; rewrite lookup_insert_Some.
    + intros [[<- <-]|[Hne Hx]].
      * split; [apply NoDup_singleton|set_solver| |].
        -- intros x ->%list_elem_of_singleton. unfold lst. by rewrite lookup_insert_eq.
        -- split; unfold nxt, prv; by rewrite lookup_insert_eq.
      * eapply ring_frame; [|by eapply lists_ring]. intros p Hp.
        assert (l <> p) by (intros ->; by eapply Hl).
        unfold same_fields, lst, nxt, prv. by rewrite lookup_insert_ne.
    + intros [[<- <-]|[Hne Hx]]; [by rewrite lookup_insert_eq|].
      rewrite lookup_insert_ne by done. by eapply lists_lock.
  - intros p Hp. by rewrite lookup_insert_ne.
Qed.

(** Memory that is in no list can come and go. *)
Lemma lists_alloc m ls p n :
  lists m ls -> k_nodes m !! p = None -> lists (mk_kmem (<[p := n]> (k_nodes m)) (k_locks m)) ls.
Proof.
  intros HL Hp. split; cbn [k_nodes k_locks]; [|by apply lists_lock].
  intros l xs Hl. eapply ring_frame; [|by eapply lists_ring]. intros q Hq.
  assert (p <> q).
  { intros ->. destruct (lists_lst _ _ _ _ _ HL Hl Hq) as [E _]. unfold lst in E. by rewrite Hp in E. }
  unfold same_fields, lst, nxt, prv. by rewrite lookup_insert_ne.
Qed.

Lemma lists_dealloc m ls p :
  lists m ls -> lst (k_nodes m) p = Some NULL ->
  lists (mk_kmem (delete p (k_nodes m)) (k_locks m)) ls.
Proof.
  intros HL Hp. split; cbn [k_nodes k_locks]; [|by apply lists_lock].
  intros l xs Hl. eapply ring_frame; [|by eapply lists_ring]. intros q Hq.
  assert (p <> q) by (intros ->; destruct (lists_lst _ _ _ _ _ HL Hl Hq); congruence).
  unfold same_fields, lst, nxt, prv. by rewrite lookup_delete_ne.
Qed.

(** ** Histories

    A user of the lists inserts nodes that are in no list and removes any node.  The
    specification is a finite map of sequences. *)

Inductive list_op := Insert (list element : Z) | Remove (element : Z).

Definition do_list_op (o : list_op) : M kmem unit :=
  match o with Insert l e => list_insert l e | Remove e => list_remove e end.

Fixpoint do_list_ops (os : list list_op) : M kmem unit :=
  match os with [] => mret tt | o :: os => do_list_op o;; do_list_ops os end.

Definition spec_list_op (o : list_op) (ls : gmap Z (list Z)) : gmap Z (list Z) :=
  match o with
  | Insert l e => alter (fun xs => xs ++ [e]) l ls
  | Remove e => filter (fun x => x <> e) <$> ls
  end.

Definition list_op_ok (ps : list Z) (o : list_op) (ls : gmap Z (list Z)) : Prop :=
  match o with
  | Insert l e => is_Some (ls !! l) /\ e ∈ ps /\ map_Forall (fun _ xs => e ∉ xs) ls
  | Remove e => e ∈ ps
  end.

Fixpoint list_ops_ok (ps : list Z) (os : list list_op) (ls : gmap Z (list Z)) : Prop :=
  match os with
  | [] => True
  | o :: os => list_op_ok ps o ls /\ list_ops_ok ps os (spec_list_op o ls)
  end.

#[export] Instance list_op_ok_dec ps o ls : Decision (list_op_ok ps o ls).
Proof. destruct o; simpl; apply _. Defined.
#[export] Instance list_ops_ok_dec ps os ls : Decision (list_ops_ok ps os ls).
Proof. revert ls. induction os; intros ls; simpl; apply _. Defined.

(** The elements from [p] on, by [list_next]. *)
Fixpoint list_walk (fuel : nat) (p : Z) : M kmem (list Z) :=
  match fuel with
  | O => undefined
  | S fuel =>
      q ← list_next p;
      if decide (q = NULL) then mret [] else qs ← list_walk fuel q; mret (q :: qs)
  end.

Definition list_elems (l : Z) : M kmem (list Z) := s ← get; list_walk (S (size (k_nodes s))) l.

(** The nodes [ps] are allocated, none is a head, and each is in a list or in none. *)
Definition nodes_ok (ps : list Z) (m : kmem) (ls : gmap Z (list Z)) : Prop :=
  lists m ls /\
  forall p, p ∈ ps -> p <> NULL /\ ls !! p = None /\
    (lst (k_nodes m) p = Some NULL \/ exists l xs, ls !! l = Some xs /\ p ∈ xs).

Lemma nodes_free ps m ls p :
  nodes_ok ps m ls -> p ∈ ps -> map_Forall (fun _ xs => p ∉ xs) ls -> lst (k_nodes m) p = Some NULL.
Proof.
  intros [HL Hps] Hp Hf. destruct (Hps p Hp) as (_ & _ & [?|(l & xs & Hl & Hin)]); [done|].
  by destruct (Hf _ _ Hl).
Qed.

(** Filtering every sequence is removing from the one that has the element. *)
Lemma spec_remove_in m ls l us e vs :
  lists m ls -> ls !! l = Some (us ++ e :: vs) -> spec_list_op (Remove e) ls = <[l := us ++ vs]> ls.
Proof.
  intros HL Hl. apply map_eq. intros l'. simpl. rewrite lookup_fmap.
  destruct (decide (l = l')) as [<-|Hne].
  - rewrite lookup_insert_eq, Hl. simpl. f_equal.
    pose proof (ring_nodup _ _ _ (lists_ring _ _ HL _ _ Hl)) as [_ Hnd]%NoDup_cons.
    rewrite filter_app, filter_cons_False by (intros Hx; by apply Hx).
    apply NoDup_app in Hnd as (_ & Hd & [Hev _]%NoDup_cons).
    rewrite !filter_all; [done| |]; intros x Hx ->; [done|]. apply (Hd e); [done|by left].
  - rewrite lookup_insert_ne by done. destruct (ls !! l') as [xs|] eqn:E; [|done]. simpl. f_equal.
    apply filter_all. intros x Hx ->.
    apply (lists_other _ _ _ _ _ _ e HL Hl E Hne); [by right|]. set_solver.
Qed.

Lemma spec_remove_out ls e :
  map_Forall (fun _ xs => e ∉ xs) ls -> spec_list_op (Remove e) ls = ls.
Proof.
  intros Hf. simpl. rewrite <- (map_fmap_id ls) at 2. apply map_fmap_ext. intros l xs Hl. simpl.
  apply filter_all. intros x Hx ->. by apply (Hf _ _ Hl).
Qed.

Lemma wp_do_insert ps l e m ls :
  nodes_ok ps m ls -> list_op_ok ps (Insert l e) ls ->
  wp (list_insert l e) (fun _ m' => nodes_ok ps m' (spec_list_op (Insert l e) ls)) m.
Proof.
  intros Hok ([xs Hl] & He & Hf). pose proof Hok as [HL Hps].
  eapply wp_mono; [apply (wp_list_insert m ls l xs e); [done..|by eapply nodes_free|by apply Hps]|].
  intros _ m' [HL' Hlst]. simpl. rewrite alter_alt, Hl. split; [done|]. intros p Hp.
  destruct (Hps p Hp) as (? & Hpn & Hin). split_and!; [done|rewrite lookup_insert_ne by congruence; done|].
  destruct (decide (p = e)) as [->|Hne].
  - right. exists l, (xs ++ [e]). rewrite lookup_insert_eq. set_solver.
  - rewrite Hlst by done. destruct Hin as [?|(l' & ys & Hys & Hy)]; [by left|right].
    destruct (decide (l = l')) as [<-|?].
    + exists l, (xs ++ [e]). rewrite lookup_insert_eq. simplify_eq. set_solver.
    + exists l', ys. by rewrite lookup_insert_ne.
Qed.

Lemma wp_do_remove ps e m ls :
  nodes_ok ps m ls -> e ∈ ps ->
  wp (list_remove e) (fun _ m' => nodes_ok ps m' (spec_list_op (Remove e) ls)) m.
Proof.
  intros Hok He. pose proof Hok as [HL Hps].
  destruct (Hps e He) as (_ & _ & [Hfree|(l & xs & Hl & Hin)]).
  - apply wp_list_remove_free; [done|]. rewrite spec_remove_out; [done|].
    intros l xs Hl Hin. destruct (lists_lst _ _ _ _ e HL Hl); [by right|congruence].
  - apply list_elem_of_split in Hin as (us & vs & ->).
    eapply wp_mono; [by apply (wp_list_remove m ls l us e vs)|]. intros _ m' (HL' & Hnull & Hlst).
    rewrite (spec_remove_in m ls l us e vs HL Hl). split; [done|]. intros p Hp.
    destruct (Hps p Hp) as (? & Hpn & Hin).
    split_and!; [done|rewrite lookup_insert_ne by congruence; done|].
    destruct (decide (p = e)) as [->|Hne]; [by left|]. rewrite Hlst by done.
    destruct Hin as [?|(l' & ys & Hys & Hy)]; [by left|right].
    destruct (decide (l = l')) as [<-|?].
    + exists l, (us ++ vs). rewrite lookup_insert_eq. simplify_eq. split; [done|].
      apply elem_of_app in Hy as [?|[?|?]%elem_of_cons]; [set_solver|done|set_solver].
    + exists l', ys. by rewrite lookup_insert_ne.
Qed.

Lemma wp_do_list_ops ps os m ls :
  nodes_ok ps m ls -> list_ops_ok ps os ls ->
  wp (do_list_ops os) (fun _ m' => nodes_ok ps m' (foldl (flip spec_list_op) ls os)) m.
Proof.
  revert m ls. induction os as [|o os IH]; intros m ls Hok; simpl; [done|]. intros [Ho Hos].
  apply wp_bind, (wp_mono _ (fun _ m' => nodes_ok ps m' (spec_list_op o ls))).
  - destruct o; [by apply wp_do_insert|by apply wp_do_remove].
  - intros [] m' Hm'. by apply IH.
Qed.

(** The walk needs no more steps than there are nodes. *)
Lemma wp_list_walk m l p vs fuel :
  (forall x, x ∈ p :: vs -> lst (k_nodes m) x = Some l) -> NULL ∉ vs -> path (k_nodes m) p vs l ->
  l ∉ vs -> (length vs < fuel)%nat -> wp (list_walk fuel p) (fun r m' => r = vs /\ m' = m) m.
Proof.
  revert p fuel. induction vs as [|v vs IH]; intros p [|fuel] Hls H0 Hp Hl Hf; simpl in Hf; try lia.
  - apply wp_bind. eapply wp_list_next; [by apply Hls; left|done|done|]. done.
  - apply wp_bind. eapply wp_list_next; [by apply Hls; left|done|done|]. simpl.
    rewrite decide_False by set_solver. apply wp_bind. destruct Hp as [_ Hp].
    eapply wp_mono; [apply IH|]; [set_solver|set_solver|done|set_solver|lia|].
    by intros r m' [-> ->].
Qed.

Lemma ring_length m l xs : ring m l xs -> (length xs < size m)%nat.
Proof.
  intros Hr. pose proof (ring_nodup _ _ _ Hr) as Hnd.
  assert (list_to_set (l :: xs) ⊆@{gset Z} dom m) as Hsub.
  { intros x Hx%elem_of_list_to_set. pose proof (ring_lst _ _ _ Hr x Hx) as Hl. unfold lst in Hl.
    apply elem_of_dom. by destruct (m !! x). }
  apply subseteq_size in Hsub. rewrite size_list_to_set, size_dom in Hsub by done. simpl in Hsub. lia.
Qed.

Lemma wp_list_elems m ls l xs :
  lists m ls -> ls !! l = Some xs -> wp (list_elems l) (fun r m' => r = xs /\ m' = m) m.
Proof.
  intros HL Hl. pose proof (lists_ring _ _ HL _ _ Hl) as Hr. apply wp_bind, wp_gets.
  pose proof (ring_length _ _ _ Hr). pose proof (ring_nodup _ _ _ Hr) as [? _]%NoDup_cons.
  pose proof (ring_null _ _ _ Hr). apply (wp_list_walk m l).
  - apply (ring_lst _ _ _ Hr).
  - set_solver.
  - apply (ring_path _ _ _ Hr).
  - done.
  - lia.
Qed.

(** C29: any sequence of insertions of free nodes and of removals is defined (it takes and gives
    back the locks and never follows a stray pointer) and does to the pointers what it does to
    sequences: afterwards walking each list with [list_next] visits, in order, the elements that
    were inserted into it and not removed. *)
Theorem list_ops_refine ps os m ls :
  nodes_ok ps m ls -> list_ops_ok ps os ls ->
  wp (do_list_ops os) (fun _ m' =>
    forall l xs, foldl (flip spec_list_op) ls os !! l = Some xs ->
      wp (list_elems l) (fun r m'' => r = xs /\ m'' = m') m') m.
Proof.
  intros Hok Hos. eapply wp_mono; [by apply (wp_do_list_ops ps os m ls)|].
  intros _ m' [HL _] l xs Hl. by eapply wp_list_elems.
Qed.
