(* ===== verification/DrvSg.v ===== *)
(** * Flattening a scatter-gather table (src/drv/map.c, [sg_flatten_to_addrs])

    The reference is a function that cuts the concatenation of the table's entries into pages,
    each of which has to lie inside one entry; the loops over entries and pages compute exactly
    this. *)
From stdpp Require Import prelude list.
From Stdlib Require Import ZArith Lia.
From S2P Require Import Prelude NvmTypes.
Local Open Scope Z_scope.

(** An entry of the table as the device sees it: [sg_dma_address] (u64) and [sg_dma_len]
    (unsigned int). *)
Record scatterlist := mk_sg { sg_dma_address : Z; sg_dma_len : Z }.

(** [addrs[i] = a]; writing outside the array is undefined. *)
Definition array_set (addrs : list Z) (i a : Z) : option (list Z) :=
  if decide (0 <= i < Z.of_nat (length addrs)) then Some (<[Z.to_nat i := a]> addrs) else None.

(** The inner loop; it runs at most once for each page still expected, which is the fuel. *)
Fixpoint sg_fill (fuel : nat) (expected_pages ctrl_page_size addr len : Z) (addrs : list Z) (page_idx : Z)
    : option (list Z * Z * Z) :=
  if decide (ctrl_page_size <= len /\ page_idx < expected_pages) then
    match fuel with
    | O => None
    | S fuel =>
        addrs ← array_set addrs page_idx addr;
        sg_fill fuel expected_pages ctrl_page_size (u64 (addr + ctrl_page_size))
          (u32 (len - ctrl_page_size)) addrs (page_idx + 1)
    end
  else Some (addrs, page_idx, len).

(** The loop over the entries: the error, the array and the number of pages found. *)
Fixpoint sg_entries (sgl : list scatterlist) (expected_pages ctrl_page_size remaining_offset : Z)
    (addrs : list Z) (page_idx : Z) : option (Z * list Z * Z) :=
  match sgl with
  | [] => Some (0, addrs, page_idx)
  | sg :: sgl =>
      let addr := sg_dma_address sg in
      let len := sg_dma_len sg in
      if decide (0 < remaining_offset /\ len <= remaining_offset) then
        sg_entries sgl expected_pages ctrl_page_size (u64 (remaining_offset - len)) addrs page_idx
      else
        let '(addr, len, remaining_offset) :=
          if decide (0 < remaining_offset)
          then (u64 (addr + remaining_offset), u32 (len - remaining_offset), 0)
          else (addr, len, remaining_offset) in
        '(addrs, page_idx, len) ←
          sg_fill (Z.to_nat (expected_pages - page_idx)) expected_pages ctrl_page_size addr len addrs page_idx;
        if decide (0 < len /\ page_idx < expected_pages) then Some (- EINVAL, addrs, page_idx)
        else if decide (expected_pages <= page_idx) then Some (0, addrs, page_idx)
        else sg_entries sgl expected_pages ctrl_page_size remaining_offset addrs page_idx
  end.

(** The result and the array. *)
Definition sg_flatten_to_addrs (sgt : list scatterlist) (addrs : list Z)
    (expected_pages ctrl_page_size hsa_offset : Z) : option (Z * list Z) :=
  '(err, addrs, page_idx) ← sg_entries sgt expected_pages ctrl_page_size hsa_offset addrs 0;
  if decide (err <> 0) then Some (err, addrs)
  else if decide (page_idx <> expected_pages) then Some (- EINVAL, addrs)
  else Some (0, addrs).

(** ** The reference *)

(** The bus address of the page of [ps] bytes at [off] in the concatenation of the entries, if
    it lies inside one entry. *)
Fixpoint sg_page (sgl : list scatterlist) (ps off : Z) : option Z :=
  match sgl with
  | [] => None
  | sg :: sgl =>
      if decide (off < sg_dma_len sg) then
        if decide (off + ps <= sg_dma_len sg) then Some (sg_dma_address sg + off) else None
      else sg_page sgl ps (off - sg_dma_len sg)
  end.

(** [n] consecutive pages from [off]. *)
Fixpoint sg_pages (sgl : list scatterlist) (ps off : Z) (n : nat) : option (list Z) :=
  match n with
  | O => Some []
  | S n => a ← sg_page sgl ps off; l ← sg_pages sgl ps (off + ps) n; Some (a :: l)
  end.

(** What the DMA layer guarantees of an entry. *)
Definition sg_ok (sg : scatterlist) : Prop :=
  fits 32 (sg_dma_len sg) /\ 0 <= sg_dma_address sg /\ sg_dma_address sg + sg_dma_len sg < 2 ^ 64.

Lemma sg_pages_skip sg sgl ps off n :
  0 < ps -> sg_dma_len sg <= off -> sg_pages (sg :: sgl) ps off n = sg_pages sgl ps (off - sg_dma_len sg) n.
Proof.
  intros Hps. revert off. induction n as [|n IH]; intros off Hoff; cbn [sg_pages sg_page]; [done|].
  rewrite decide_False by lia. rewrite IH by lia.
  replace (off + ps - sg_dma_len sg) with (off - sg_dma_len sg + ps) by lia. done.
Qed.

Lemma sg_pages_length sgl ps off n l : sg_pages sgl ps off n = Some l -> length l = n.
Proof.
  revert off l. induction n as [|n IH]; intros off l; cbn [sg_pages]; [by intros [= <-]|].
  destruct (sg_page _ _ _); [|done]. simpl. destruct (sg_pages _ _ _ n) eqn:E; [|done].
  intros [= <-]. simpl. by rewrite (IH _ _ E).
Qed.

Lemma array_set_snoc pre x post a :
  array_set (pre ++ x :: post) (Z.of_nat (length pre)) a = Some (pre ++ a :: post).
Proof.
  unfold array_set. rewrite decide_True by (rewrite length_app; simpl; lia).
  rewrite Nat2Z.id. f_equal. rewrite insert_app_r_alt by lia. by rewrite Nat.sub_diag.
Qed.

(** The inner loop from offset [off] of the entry, with [n] pages to go: it writes some pages
    [w] and stops [off'] bytes into the entry, where no whole page is left unless it has all. *)
Lemma sg_fill_spec sg sgl ps n off pre post :
  0 < ps -> sg_ok sg -> 0 <= off <= sg_dma_len sg -> (n <= length post)%nat ->
  exists w off' n',
    sg_fill n (Z.of_nat (length pre + n)) ps (sg_dma_address sg + off) (sg_dma_len sg - off)
      (pre ++ post) (Z.of_nat (length pre)) =
      Some (pre ++ w ++ drop (length w) post, Z.of_nat (length pre + length w), sg_dma_len sg - off') /\
    n = (length w + n')%nat /\ off <= off' <= sg_dma_len sg /\
    (n' = O \/ sg_dma_len sg < off' + ps) /\
    sg_pages (sg :: sgl) ps off n = app w <$> sg_pages (sg :: sgl) ps off' n'.
Proof.
  intros Hps Hsg. revert off pre post. induction n as [|n IH]; intros off pre post Hoff Hn.
  - exists [], off, O. cbn [sg_fill length app]. rewrite decide_False by lia. rewrite drop_0.
    split_and!; [do 2 f_equal; f_equal; lia|done|lia|lia|by left|done].
  - destruct (decide (off + ps <= sg_dma_len sg)) as [Hle|Hgt].
    + destruct post as [|x post]; [simpl in Hn; lia|]. simpl in Hn.
      cbn [sg_fill]. rewrite decide_True by lia. rewrite array_set_snoc. cbn [mbind option_bind].
      destruct (IH (off + ps) (pre ++ [sg_dma_address sg + off]) post) as (w & off' & n' & E & -> & Ho & Hn' & Hs);
        [lia|lia|].
      exists ((sg_dma_address sg + off) :: w), off', n'. cbn [length]. destruct Hsg as (Hlen & Ha & Hal).
      unfold fits in Hlen. rewrite (wrap_small 64), (wrap_small 32) by (unfold fits; lia).
      rewrite length_app in E. simpl in E. rewrite <- app_assoc in E. cbn [app] in E.
      split_and!; [|lia|lia|lia|done|].
      * rewrite <- app_assoc in E. cbn [app drop] in *.
        transitivity (sg_fill (length w + n') (Z.of_nat (length pre + 1 + (length w + n'))) ps
          (sg_dma_address sg + (off + ps)) (sg_dma_len sg - (off + ps))
          (pre ++ sg_dma_address sg + off :: post) (Z.of_nat (length pre + 1))); [f_equal; lia|].
        rewrite E. do 3 f_equal. lia.
      * cbn [sg_pages sg_page]. rewrite !decide_True by lia. cbn [mbind option_bind]. rewrite Hs.
        by destruct (sg_pages (sg :: sgl) ps off' n').
    + exists [], off, (S n). cbn [sg_fill length app]. rewrite decide_False by lia. rewrite drop_0.
      split_and!; [do 2 f_equal; f_equal; lia|done|lia|lia|right; lia|].
      by destruct (sg_pages _ _ _ _).
Qed.

(** The loop over the entries, with the pages [pre] already found. *)
Lemma sg_entries_spec sgl ps n off pre post :
  0 < ps -> Forall sg_ok sgl -> 0 <= off < 2 ^ 64 -> (n <= length post)%nat ->
  exists err addrs idx,
    sg_entries sgl (Z.of_nat (length pre + n)) ps off (pre ++ post) (Z.of_nat (length pre)) =
      Some (err, addrs, idx) /\ length addrs = length (pre ++ post) /\
    match sg_pages sgl ps off n with
    | Some l => (err = 0 /\ idx = Z.of_nat (length pre + n) /\ addrs = pre ++ l ++ drop n post)
    | None => (err = 0 /\ idx <> Z.of_nat (length pre + n)) \/ err = - EINVAL
    end.
Proof.
  intros Hps Hok. revert n off pre post. induction Hok as [|sg sgl Hsg Hok IH]; intros n off pre post Hoff Hn.
  - exists 0, (pre ++ post), (Z.of_nat (length pre)). split_and!; [done..|].
    destruct n; simpl; [split_and!; [done|lia|by rewrite drop_0]|left; split; [done|lia]].
  - cbn [sg_entries]. pose proof Hsg as (Hlen & Ha & Hal). unfold fits in Hlen.
    destruct (decide (0 < off /\ sg_dma_len sg <= off)) as [Hskip|Hin].
    { rewrite wrap_small by (unfold fits; lia).
      destruct (IH n (off - sg_dma_len sg) pre post) as (err & addrs & idx & E & Hl & Hm); [lia|done|].
      exists err, addrs, idx. rewrite E, sg_pages_skip by lia. done. }
    assert (exists addr len, (if decide (0 < off) then (u64 (sg_dma_address sg + off), u32 (sg_dma_len sg - off), 0)
              else (sg_dma_address sg, sg_dma_len sg, off)) = (addr, len, 0) /\
            addr = sg_dma_address sg + off /\ len = sg_dma_len sg - off) as (addr & len & -> & -> & ->).
    { case_decide; [|replace off with 0 by lia; eauto with lia].
      rewrite !wrap_small by (unfold fits; lia). eauto. }
    replace (Z.to_nat (Z.of_nat (length pre + n) - Z.of_nat (length pre))) with n by lia.
    destruct (sg_fill_spec sg sgl ps n off pre post) as (w & off' & n' & -> & -> & Ho & Hn' & ->);
      [done|done|lia|done|]. cbn [mbind option_bind].
    rewrite length_app in *.
    assert (length w <= length post)%nat by lia.
    destruct (decide (n' = O)) as [->|Hn0].
    + exists 0, (pre ++ w ++ drop (length w) post), (Z.of_nat (length pre + length w)).
      rewrite decide_False, decide_True by lia. rewrite Nat.add_0_r.
      split_and!; [done|rewrite !length_app, length_drop; lia|]. simpl. rewrite app_nil_r. done.
    + destruct Hn' as [?|Hn']; [done|]. destruct (decide (off' = sg_dma_len sg)) as [->|Hne].
      * rewrite !decide_False by lia.
        destruct (IH n' 0 (pre ++ w) (drop (length w) post)) as (err & addrs & idx & E & Hl & Hm);
          [lia|rewrite length_drop; lia|].
        rewrite <- app_assoc, length_app, <- Nat.add_assoc in *. exists err, addrs, idx.
        split_and!; [done|rewrite Hl, !length_app, length_drop; lia|].
        rewrite sg_pages_skip by lia. rewrite Z.sub_diag.
        destruct (sg_pages sgl ps 0 n') as [l|]; simpl; [|done].
        destruct Hm as (-> & -> & ->). by rewrite drop_drop, <- !app_assoc.
      * exists (- EINVAL), (pre ++ w ++ drop (length w) post), (Z.of_nat (length pre + length w)).
        rewrite decide_True by lia. split_and!; [done|rewrite !length_app, length_drop; lia|].
        destruct n' as [|n']; [done|]. cbn [sg_pages sg_page].
        rewrite decide_True, decide_False by lia. by right.
Qed.

(** The loops compute the reference. *)
Lemma sg_flatten_pages sgt addrs n ps hsa_offset :
  0 < ps -> Forall sg_ok sgt -> fits 64 hsa_offset -> (n <= length addrs)%nat ->
  match sg_pages sgt ps hsa_offset n with
  | Some l => sg_flatten_to_addrs sgt addrs (Z.of_nat n) ps hsa_offset = Some (0, l ++ drop n addrs)
  | None => exists addrs', length addrs' = length addrs /\
      sg_flatten_to_addrs sgt addrs (Z.of_nat n) ps hsa_offset = Some (- EINVAL, addrs')
  end.
Proof.
  intros Hps Hok Hoff Hn. unfold sg_flatten_to_addrs.
  destruct (sg_entries_spec sgt ps n hsa_offset [] addrs) as (err & addrs' & idx & E & Hl & Hm);
    [done..|]. cbn [length app Nat.add] in *. change (Z.of_nat 0) with 0 in E.
  rewrite E. cbn [mbind option_bind].
  destruct (sg_pages sgt ps hsa_offset n) as [l|].
  - destruct Hm as (-> & -> & ->). by rewrite !decide_False by lia.
  - exists addrs'. split; [done|]. destruct Hm as [[-> Hidx]| ->]; [|done].
    by rewrite decide_False, decide_True by (done || lia).
Qed.

(** The bus address of the byte at [off] in the concatenation of the entries. *)
Fixpoint sg_byte (sgl : list scatterlist) (off : Z) : option Z :=
  match sgl with
  | [] => None
  | sg :: sgl =>
      if decide (off < sg_dma_len sg) then Some (sg_dma_address sg + off)
      else sg_byte sgl (off - sg_dma_len sg)
  end.

(** A page is a run of bytes with consecutive bus addresses. *)
Lemma sg_page_byte sgl ps off a k :
  0 <= k < ps -> sg_page sgl ps off = Some a -> sg_byte sgl (off + k) = Some (a + k).
Proof.
  intros Hk. revert off. induction sgl as [|sg sgl IH]; intros off; cbn [sg_page sg_byte]; [done|].
  case_decide; [case_decide; [|done]|].
  - intros [= <-]. rewrite decide_True by lia. f_equal. lia.
  - rewrite decide_False by lia. intros Hp%IH. rewrite <- Hp. f_equal. lia.
Qed.

Lemma sg_pages_lookup sgl ps off n l i a :
  sg_pages sgl ps off n = Some l -> l !! i = Some a -> sg_page sgl ps (off + Z.of_nat i * ps) = Some a.
Proof.
  revert off l i. induction n as [|n IH]; intros off l i; cbn [sg_pages]; [by intros [= <-]|].
  destruct (sg_page sgl ps off) as [b|] eqn:Eb; [|done]. cbn [mbind option_bind].
  destruct (sg_pages sgl ps (off + ps) n) as [r|] eqn:Er; [|done]. intros [= <-].
  destruct i as [|i]; simpl.
  - intros [= <-]. rewrite <- Eb. f_equal. lia.
  - intros Hi. rewrite <- (IH _ _ _ Er Hi). f_equal. lia.
Qed.

Lemma sg_pages_none sgl ps off n :
  sg_pages sgl ps off n = None ->
  exists i, (i < n)%nat /\ sg_page sgl ps (off + Z.of_nat i * ps) = None.
Proof.
  revert off. induction n as [|n IH]; intros off; cbn [sg_pages]; [done|].
  destruct (sg_page sgl ps off) as [b|] eqn:Eb; cbn [mbind option_bind].
  - destruct (sg_pages sgl ps (off + ps) n) eqn:Er; [done|]. intros _.
    destruct (IH _ Er) as (i & Hi & E). exists (S i). split; [lia|]. rewrite <- E. f_equal. lia.
  - intros _. exists O. split; [lia|]. rewrite <- Eb. f_equal. lia.
Qed.

(** C28: [sg_flatten_to_addrs] always returns and never writes outside the array.  If it returns 0,
    every byte of every one of the [n] pages from [hsa_offset] on has the bus address the array
    gives it, and the rest of the array is unchanged.  Otherwise it returns -EINVAL, and one of
    the pages does not lie inside an entry of the table (or is beyond its end). *)
Theorem sg_flatten_spec sgt addrs n ps hsa_offset :
  0 < ps -> Forall sg_ok sgt -> fits 64 hsa_offset -> (n <= length addrs)%nat ->
  exists err addrs', sg_flatten_to_addrs sgt addrs (Z.of_nat n) ps hsa_offset = Some (err, addrs') /\
    length addrs' = length addrs /\
    ((err = 0 /\ drop n addrs' = drop n addrs /\
      forall i k, (i < n)%nat -> 0 <= k < ps -> exists a, addrs' !! i = Some a /\
        sg_byte sgt (hsa_offset + Z.of_nat i * ps + k) = Some (a + k)) \/
     (err = - EINVAL /\
      exists i, (i < n)%nat /\ sg_page sgt ps (hsa_offset + Z.of_nat i * ps) = None)).
Proof.
  intros Hps Hok Hoff Hn. pose proof (sg_flatten_pages sgt addrs n ps hsa_offset Hps Hok Hoff Hn) as Hf.
  destruct (sg_pages sgt ps hsa_offset n) as [l|] eqn:El.
  - pose proof (sg_pages_length _ _ _ _ _ El) as Hl.
    exists 0, (l ++ drop n addrs). split_and!; [done|rewrite length_app, length_drop; lia|].
    left. split_and!; [done|by rewrite drop_app_length' by done|]. intros i k Hi Hk.
    destruct (lookup_lt_is_Some_2 l i) as [a Ha]; [lia|]. exists a.
    rewrite lookup_app_l by lia. split; [done|]. apply sg_page_byte with (ps := ps); [done|].
    by eapply sg_pages_lookup.
  - destruct Hf as (addrs' & Hl & E). exists (- EINVAL), addrs'. split_and!; [done..|].
    right. split; [done|]. by apply sg_pages_none.
Qed.
