(* ===== verification/DrvTest.v ===== *)
(** * The module's unit tests (src/drv/test/sg_flatten_test.c)

    The KUnit suite of [sg_flatten_to_addrs]: building the synthetic tables with their cleanup
    actions, the nine cases, and running a case to its end.  KUnit itself is a parameter: whether
    its allocations succeed. *)
From stdpp Require Import prelude list.
From Stdlib Require Import ZArith Lia.
From S2P Require Import Prelude NvmTypes DrvSg.
Local Open Scope Z_scope.

Definition PAGE : Z := 4096.

(** A running test: the expectations that failed, whether an assertion aborted it, the scatterlists
    allocated and not freed, and the cleanup actions registered. *)
Record kunit := mk_kunit { k_failed : nat; k_aborted : bool; k_live : Z; k_actions : nat }.

(** What the kernel gives a test. *)
Record kunit_env := mk_kunit_env {
  kzalloc_ok : bool;         (* kunit_kzalloc *)
  sg_alloc_ret : Z;          (* sg_alloc_table *)
  add_action_ret : Z;        (* kunit_add_action_or_reset *)
}.

Section test.
Context (env : kunit_env).

(** [KUNIT_EXPECT_EQ]: the test goes on. *)
Definition expect_eq (x y : Z) : M kunit unit :=
  modify (fun t => if decide (x = y) then t
                   else mk_kunit (S (k_failed t)) (k_aborted t) (k_live t) (k_actions t)).

(** [KUNIT_ASSERT_EQ]: the thread of the test ends. *)
Definition assert_eq (x y : Z) : M kunit bool :=
  if decide (x = y) then mret true
  else modify (fun t => mk_kunit (S (k_failed t)) true (k_live t) (k_actions t));; mret false.

Definition free_sg_table : M kunit unit :=
  modify (fun t => mk_kunit (k_failed t) (k_aborted t) (k_live t - 1) (k_actions t)).

(** The entries are written by [for_each_sg]. *)
Fixpoint fill_sg_table (i : Z) (lengths : list Z) : list scatterlist :=
  match lengths with
  | [] => []
  | len :: lengths => mk_sg (u64 (0x10000000 + i * PAGE * 4)) len :: fill_sg_table (i + 1) lengths
  end.

(** [None] after an assertion.  [sg_alloc_table] writes to the table it is given, and
    [kunit_add_action_or_reset] runs the action when it cannot register it. *)
Definition build_sg_table (lengths : list Z) : M kunit (option (list scatterlist)) :=
  if negb (kzalloc_ok env) then undefined
  else
    (if decide (sg_alloc_ret env = 0)
     then modify (fun t => mk_kunit (k_failed t) (k_aborted t) (k_live t + 1) (k_actions t)) else mret tt);;
    ok ← assert_eq (sg_alloc_ret env) 0;
    if negb ok then mret None
    else
      (if decide (add_action_ret env = 0)
       then modify (fun t => mk_kunit (k_failed t) (k_aborted t) (k_live t) (S (k_actions t)))
       else free_sg_table);;
      ok ← assert_eq (add_action_ret env) 0;
      mret (if (ok : bool) then Some (fill_sg_table 0 lengths) else None).

(** The common shape of the cases: the table, the array and the call, what it has to return, and
    what the array has to hold from its first entry on. *)
Definition expect_addrs (addrs expected : list Z) : M kunit unit :=
  (fix go (i : nat) (expected : list Z) :=
     match expected with
     | [] => mret tt
     | x :: expected => a ← of_option (addrs !! i); expect_eq a x;; go (S i) expected
     end) O expected.

Definition flatten_case (lengths : list Z) (n_pages hsa_offset ret : Z) (expected : list Z) : M kunit unit :=
  sgt ← build_sg_table lengths;
  match sgt with
  | None => mret tt
  | Some sgt =>
      r ← of_option (sg_flatten_to_addrs sgt (replicate (Z.to_nat n_pages) 0) n_pages PAGE hsa_offset);
      expect_eq (fst r) ret;;
      expect_addrs (snd r) expected
  end.

Definition BASE : Z := 0x10000000.

Definition test_page_aligned : M kunit unit :=
  flatten_case [2 * PAGE; 2 * PAGE] 4 0 0 [BASE; BASE + PAGE; BASE + 4 * PAGE; BASE + 5 * PAGE].
Definition test_residual_fail : M kunit unit :=
  flatten_case [2 * PAGE; PAGE + 512] 4 0 (- EINVAL) [].
Definition test_residual_ignored_when_full : M kunit unit :=
  flatten_case [2 * PAGE; PAGE + 512] 3 0 0 [].
Definition test_residual_at_first_entry : M kunit unit :=
  flatten_case [2048; 6144] 2 0 (- EINVAL) [].
Definition test_offset_consumption : M kunit unit :=
  flatten_case [2 * PAGE; 2 * PAGE] 3 PAGE 0 [BASE + PAGE; BASE + 4 * PAGE; BASE + 5 * PAGE].
Definition test_offset_spans_entry : M kunit unit :=
  flatten_case [PAGE; 2 * PAGE] 2 PAGE 0 [BASE + 4 * PAGE; BASE + 5 * PAGE].
Definition test_exact_page_multiple : M kunit unit :=
  flatten_case [PAGE; PAGE; PAGE] 3 0 0 [BASE; BASE + 4 * PAGE; BASE + 8 * PAGE].
Definition test_offset_too_large : M kunit unit :=
  flatten_case [PAGE] 1 (2 * PAGE) (- EINVAL) [].
Definition test_empty_sg : M kunit unit :=
  flatten_case [0] 1 0 (- EINVAL) [].

Definition sg_flatten_test_cases : list (M kunit unit) :=
  [test_page_aligned; test_residual_fail; test_residual_ignored_when_full; test_residual_at_first_entry;
   test_offset_consumption; test_offset_spans_entry; test_exact_page_multiple; test_offset_too_large;
   test_empty_sg].

(** A case and then its cleanup actions. *)
Fixpoint run_actions (n : nat) : M kunit unit :=
  match n with O => mret tt | S n => free_sg_table;; run_actions n end.
Definition run_case (test : M kunit unit) : M kunit unit :=
  test;; t ← get; run_actions (k_actions t).

Definition fresh_test : kunit := mk_kunit 0 false 0 0.

(** ** What the suite says *)

Lemma run_actions_run n t :
  run_actions n t = Some (tt, mk_kunit (k_failed t) (k_aborted t) (k_live t - Z.of_nat n) (k_actions t)).
Proof.
  revert t. induction n as [|n IH]; intros t; cbn [run_actions]; [destruct t; simpl; by rewrite Z.sub_0_r|].
  unfold mbind, M_bind at 1. cbn. rewrite IH. cbn [k_failed k_aborted k_live k_actions].
  by replace (k_live t - Z.of_nat (S n)) with (k_live t - 1 - Z.of_nat n) by lia.
Qed.

(** Every case ends, and frees its table whatever fails; it passes when the allocations
    succeed, and is aborted with one failed assertion otherwise. *)
Theorem kunit_cases_pass test : test ∈ sg_flatten_test_cases -> kzalloc_ok env = true ->
  exists t, run_case test fresh_test = Some (tt, t) /\ k_live t = 0 /\
    k_aborted t = negb (bool_decide (sg_alloc_ret env = 0 /\ add_action_ret env = 0)) /\
    k_failed t = if k_aborted t then 1%nat else 0%nat.
Proof.
  intros Hin Hk. unfold run_case.
  assert (exists t, test fresh_test = Some (tt, t) /\ k_live t = Z.of_nat (k_actions t) /\
    k_aborted t = negb (bool_decide (sg_alloc_ret env = 0 /\ add_action_ret env = 0)) /\
    k_failed t = if k_aborted t then 1%nat else 0%nat) as (t & Ht & Hl & Ha & Hf).
  { repeat (apply elem_of_cons in Hin as [->|Hin]); [..|by apply elem_of_nil in Hin].
    all: unfold test_page_aligned, test_residual_fail, test_residual_ignored_when_full, test_residual_at_first_entry,
      test_offset_consumption, test_offset_spans_entry, test_exact_page_multiple, test_offset_too_large, test_empty_sg,
      flatten_case, build_sg_table, assert_eq; rewrite Hk; simpl.
    all: destruct (decide (sg_alloc_ret env = 0)) as [E1|E1], (decide (add_action_ret env = 0)) as [E2|E2].
    all: rewrite ?bool_decide_true, ?bool_decide_false by tauto.
    all: eexists; split; [reflexivity|]; done. }
  unfold mbind, M_bind at 1. rewrite Ht. unfold mbind, M_bind at 1. cbn [get]. rewrite run_actions_run.
  eexists. split; [done|]. simpl. split_and!; [lia|done|done].
Qed.

(** The pointer of [kunit_kzalloc] is not checked: without memory every case writes to NULL. *)
Theorem kunit_kzalloc_unchecked test : test ∈ sg_flatten_test_cases -> kzalloc_ok env = false -> run_case test fresh_test = None.
Proof.
  intros Hin Hk. repeat (apply elem_of_cons in Hin as [->|Hin]); [..|by apply elem_of_nil in Hin].
  all: unfold run_case, test_page_aligned, test_residual_fail, test_residual_ignored_when_full, test_residual_at_first_entry,
      test_offset_consumption, test_offset_spans_entry, test_exact_page_multiple, test_offset_too_large, test_empty_sg,
      flatten_case, build_sg_table; by rewrite Hk.
Qed.
End test.
