(* ===== verification/DrvState.v ===== *)
(** * The state of the kernel module

    The structs of src/drv/ctrl.h, map.h, map.c and ioctl.h, the memory the module allocates, what it holds of
    other kernel subsystems, and the kernel itself: the result of every fallible call comes from
    the class [Kernel].

    [None] is undefined behaviour: a dangling or null pointer, an index outside an array, or a
    call that breaks the contract of a kernel function, such as releasing what is not held. *)
From stdpp Require Import prelude gmap list.
From Stdlib Require Import ZArith Lia.
From S2P Require Import Prelude NvmTypes DrvList DrvSg.
Local Open Scope Z_scope.

(** [struct ctrl]; its list node is kept with the other nodes, its embedded [cdev] is known by the
    address of the [ctrl], and the name, which only appears in messages and as the name of the
    device file, is left out. *)
Record ctrl := mk_ctrl {
  ct_pdev : Z;            (* struct pci_dev* *)
  ct_number : Z;          (* int *)
  ct_rdev : Z;            (* dev_t *)
  ct_cls : Z;             (* struct class* *)
  ct_chrdev : Z;          (* struct device* *)
}.

Inductive release := RELEASE_USER_PAGES | RELEASE_GPU_MEMORY | RELEASE_DMABUF_MEMORY.

#[export] Instance release_eq_dec : EqDecision release.
Proof. solve_decision. Defined.

(** [struct map]; [mp_addrs] has as many cells as were allocated. *)
Record kmap := mk_kmap {
  mp_owner : Z;           (* struct task_struct* *)
  mp_vaddr : Z;           (* u64 *)
  mp_ctrl_list : Z;       (* struct list* *)
  mp_pdev : Z;            (* struct pci_dev* *)
  mp_page_size : Z;       (* unsigned long *)
  mp_data : Z;            (* void* *)
  mp_release : option release;
  mp_n_addrs : Z;         (* unsigned long *)
  mp_invalid : Z;         (* atomic_t *)
  mp_addrs : list Z;      (* uint64_t[] *)
}.

(** Assignments to its members. *)
Definition mp_set_page_size (m : kmap) (v : Z) : kmap :=
  mk_kmap (mp_owner m) (mp_vaddr m) (mp_ctrl_list m) (mp_pdev m) v (mp_data m) (mp_release m)
    (mp_n_addrs m) (mp_invalid m) (mp_addrs m).
Definition mp_set_ctrl_list (m : kmap) (v : Z) : kmap :=
  mk_kmap (mp_owner m) (mp_vaddr m) v (mp_pdev m) (mp_page_size m) (mp_data m) (mp_release m)
    (mp_n_addrs m) (mp_invalid m) (mp_addrs m).
Definition mp_set_data (m : kmap) (d : Z) (r : option release) : kmap :=
  mk_kmap (mp_owner m) (mp_vaddr m) (mp_ctrl_list m) (mp_pdev m) (mp_page_size m) d r
    (mp_n_addrs m) (mp_invalid m) (mp_addrs m).
Definition mp_set_n_addrs (m : kmap) (v : Z) : kmap :=
  mk_kmap (mp_owner m) (mp_vaddr m) (mp_ctrl_list m) (mp_pdev m) (mp_page_size m) (mp_data m)
    (mp_release m) v (mp_invalid m) (mp_addrs m).
Definition mp_set_invalid (m : kmap) (v : Z) : kmap :=
  mk_kmap (mp_owner m) (mp_vaddr m) (mp_ctrl_list m) (mp_pdev m) (mp_page_size m) (mp_data m)
    (mp_release m) (mp_n_addrs m) v (mp_addrs m).
Definition mp_set_addrs (m : kmap) (v : list Z) : kmap :=
  mk_kmap (mp_owner m) (mp_vaddr m) (mp_ctrl_list m) (mp_pdev m) (mp_page_size m) (mp_data m)
    (mp_release m) (mp_n_addrs m) (mp_invalid m) v.

(** The layout of [struct map] on a 64-bit machine: [offsetof(addrs)] and [sizeof]. *)
Definition offsetof_addrs : Z := 96.
Definition sizeof_map : Z := 104.

Record gpu_region := mk_gd { gd_pages : Z; gd_mappings : Z }.
Record dmabuf_region := mk_dr { dr_dmabuf : Z; dr_attachment : Z; dr_sgt : Z }.

Record nvm_ioctl_map := mk_request { vaddr_start : Z; n_pages : Z; ioaddrs : Z }.
Record nvm_ioctl_dmabuf := mk_dreq {
  gpu_ptr : Z; dmabuf_fd : Z; dmabuf_offset : Z; dmabuf_size : Z; ioaddrs_capacity : Z; dmabuf_ioaddrs : Z }.

(** What a pointer of the module leads to. *)
Inductive kobj :=
  | KCtrl (c : ctrl)
  | KMap (m : kmap)
  | KPages (pages : list Z)              (* struct page*[] *)
  | KGpu (gd : gpu_region)
  | KMappings (mappings : list Z)        (* nvidia_p2p_dma_mapping_t*[] *)
  | KDmabuf (dr : dmabuf_region).

(** What the module holds of other subsystems. *)
Inductive kres :=
  | RPage (page : Z)                     (* a reference from get_user_pages *)
  | RDma (pdev addr : Z)                 (* dma_map_page *)
  | RP2pPages (vaddr table : Z)          (* nvidia_p2p_get_pages *)
  | RP2pMapping (pdev table mapping : Z) (* nvidia_p2p_dma_map_pages *)
  | RDmabuf (dmabuf : Z)                 (* dma_buf_get *)
  | RAttach (dmabuf attachment : Z)      (* dma_buf_dynamic_attach *)
  | RResv (dmabuf : Z)                   (* dma_resv_lock *)
  | RPin (attachment : Z)                (* dma_buf_pin *)
  | RSgt (attachment sgt : Z)            (* dma_buf_map_attachment *)
  | RRegion (pdev : Z)                   (* pci_request_region *)
  | REnabled (pdev : Z)                  (* pci_enable_device *)
  | RCdev (ctrl : Z)                     (* cdev_add *)
  | RDevice (rdev : Z)                   (* device_create *)
  | RChrdevs (first : Z)                 (* alloc_chrdev_region *)
  | RClass (cls : Z)                     (* class_create *)
  | RDriver.                             (* pci_register_driver *)

#[export] Instance kres_eq_dec : EqDecision kres.
Proof. solve_decision. Defined.

(** The static variables of pci.c that are not lists, and the memory of the calling process. *)
Record kvars := mk_vars {
  v_dev_first : Z;
  v_dev_class : Z;
  v_curr_ctrls : Z;       (* int *)
  v_user : gmap Z Z;      (* 64-bit words of user memory *)
}.

(** [d_objs] also says which memory comes from vmalloc. *)
Record drv := mk_drv {
  d_mem : kmem;
  d_objs : gmap Z (bool * kobj);
  d_next : Z;             (* next address the allocator hands out *)
  d_calls : nat;          (* fallible calls made *)
  d_res : list kres;
  d_vars : kvars;
}.

(** The three lists are static variables. *)
Definition ctrl_list : Z := 1.
Definition host_list : Z := 2.
Definition device_list : Z := 3.

(** The kernel.  The first argument of a function is the number of the call. *)
Class Kernel := {
  kcall : nat -> Z;                            (* a call that returns 0 or an error *)
  kalloc : nat -> Z -> bool;                   (* whether an allocation of a size succeeds *)
  kvm : nat -> Z -> bool;                      (* whether kvmalloc falls back to vmalloc *)
  junk_node : list_node;                       (* what fresh memory holds *)
  junk : Z;
  get_user_pages : nat -> Z -> Z -> Z + list Z;
  dma_map_page : nat -> Z -> Z -> option Z;    (* [None]: dma_mapping_error *)
  p2p_get_pages : nat -> Z -> Z -> Z + Z;
  p2p_entries : Z -> Z;                        (* entries of a page table *)
  p2p_dma_map : nat -> Z -> Z -> Z + Z;
  p2p_addresses : Z -> list Z;                 (* dma_addresses of a mapping *)
  dma_buf_get : nat -> Z -> Z;                 (* a pointer or a negative error, as in C *)
  dma_buf_attach : nat -> Z -> Z -> Z;
  dma_buf_map : nat -> Z -> Z;
  sgt_entries : Z -> list scatterlist;         (* entries of a mapped table *)
  move_notified : nat -> bool;                 (* whether the exporter calls move_notify *)
  user_map : nat -> Z -> option nvm_ioctl_map; (* copy_from_user; [None]: a fault *)
  user_dmabuf : nat -> Z -> option nvm_ioctl_dmabuf;
  user_addr : nat -> Z -> option Z;
  user_fault : nat -> bool;                    (* whether copy_to_user fails *)
  kpointer : nat -> Z;                         (* class_create, device_create: a pointer or an error *)
  chrdev_first : nat -> Z;                     (* the first number alloc_chrdev_region gives *)
  bar_start : Z -> Z;                          (* pci_resource_start(pdev, 0) *)
  bar_len : Z -> Z;                            (* pci_resource_len(pdev, 0) *)
  page_shift : Z;                              (* PAGE_SHIFT *)
  max_ctrls_param : Z;                         (* the module parameter max_num_ctrls *)
  build_hip : bool;                            (* _HIP rather than _CUDA is defined *)
}.

Definition IS_ERR (p : Z) : Prop := p < 0.
#[export] Instance IS_ERR_dec p : Decision (IS_ERR p).
Proof. unfold IS_ERR. apply _. Defined.

Section state.
Context `{Kernel}.

Definition PAGE_SIZE : Z := 2 ^ page_shift.

Definition on_mem {A} (m : M kmem A) : M drv A := fun s =>
  match m (d_mem s) with
  | Some (a, k) => Some (a, mk_drv k (d_objs s) (d_next s) (d_calls s) (d_res s) (d_vars s))
  | None => None
  end.

(** The number of the next call. *)
Definition tick : M drv nat := fun s =>
  Some (d_calls s, mk_drv (d_mem s) (d_objs s) (d_next s) (S (d_calls s)) (d_res s) (d_vars s)).

Definition set_objs (objs : gmap Z (bool * kobj)) : M drv unit :=
  modify (fun s => mk_drv (d_mem s) objs (d_next s) (d_calls s) (d_res s) (d_vars s)).
Definition set_res (res : list kres) : M drv unit :=
  modify (fun s => mk_drv (d_mem s) (d_objs s) (d_next s) (d_calls s) res (d_vars s)).
Definition set_vars (v : kvars) : M drv unit :=
  modify (fun s => mk_drv (d_mem s) (d_objs s) (d_next s) (d_calls s) (d_res s) v).
Definition set_curr_ctrls (n : Z) : M drv unit :=
  v ← gets d_vars; set_vars (mk_vars (v_dev_first v) (v_dev_class v) n (v_user v)).

(** ** Memory *)

(** A struct with a list node in it has a node at its address. *)
Definition has_node (o : kobj) : bool := match o with KCtrl _ | KMap _ => true | _ => false end.

Definition new_kobj (vm : bool) (o : kobj) : M drv Z := fun s =>
  let a := d_next s in
  let k := d_mem s in
  Some (a, mk_drv (if has_node o then mk_kmem (<[a := junk_node]> (k_nodes k)) (k_locks k) else k)
             (<[a := (vm, o)]> (d_objs s)) (a + 1) (d_calls s) (d_res s) (d_vars s)).

Definition kmalloc (size : Z) (o : kobj) : M drv Z :=
  n ← tick; if kalloc n size then new_kobj false o else mret NULL.
Definition kvmalloc (size : Z) (o : kobj) : M drv Z :=
  n ← tick; if kalloc n size then new_kobj (kvm n size) o else mret NULL.

Definition free_obj (a : Z) : M drv unit :=
  modify (fun s => mk_drv (mk_kmem (delete a (k_nodes (d_mem s))) (k_locks (d_mem s)))
                     (delete a (d_objs s)) (d_next s) (d_calls s) (d_res s) (d_vars s)).

(** [kfree] takes what kmalloc gave, [kvfree] either kind. *)
Definition kfree (a : Z) : M drv unit :=
  if decide (a = NULL) then mret tt
  else
    s ← get;
    match d_objs s !! a with
    | Some (false, _) => free_obj a
    | _ => undefined
    end.
Definition kvfree (a : Z) : M drv unit :=
  if decide (a = NULL) then mret tt
  else
    s ← get;
    match d_objs s !! a with
    | Some _ => free_obj a
    | None => undefined
    end.

Definition kload {V} (proj : kobj -> option V) (a : Z) : M drv V :=
  s ← get; of_option ('(_, o) ← d_objs s !! a; proj o).
Definition kstore (a : Z) (o : kobj) : M drv unit :=
  s ← get;
  match d_objs s !! a with
  | Some (vm, _) => set_objs (<[a := (vm, o)]> (d_objs s))
  | None => undefined
  end.

Definition as_ctrl (o : kobj) : option ctrl := match o with KCtrl c => Some c | _ => None end.
Definition as_kmap (o : kobj) : option kmap := match o with KMap m => Some m | _ => None end.
Definition as_pages (o : kobj) : option (list Z) := match o with KPages l => Some l | _ => None end.
Definition as_gpu (o : kobj) : option gpu_region := match o with KGpu g => Some g | _ => None end.
Definition as_mappings (o : kobj) : option (list Z) := match o with KMappings l => Some l | _ => None end.
Definition as_dmabuf (o : kobj) : option dmabuf_region := match o with KDmabuf d => Some d | _ => None end.

(** ** Resources *)

Definition acquire (r : kres) : M drv unit := s ← get; set_res (r :: d_res s).

Fixpoint take_out (r : kres) (l : list kres) : option (list kres) :=
  match l with
  | [] => None
  | x :: l => if decide (x = r) then Some l else cons x <$> take_out r l
  end.
Definition give_back (r : kres) : M drv unit :=
  s ← get;
  match take_out r (d_res s) with Some l => set_res l | None => undefined end.

(** A lock that must not be held, and must be held. *)
Definition dma_resv_lock (dmabuf : Z) : M drv unit :=
  s ← get; if decide (RResv dmabuf ∈ d_res s) then undefined else acquire (RResv dmabuf).
Definition dma_resv_unlock (dmabuf : Z) : M drv unit := give_back (RResv dmabuf).
Definition resv_held (dmabuf : Z) : M drv unit :=
  s ← get; if decide (RResv dmabuf ∈ d_res s) then mret tt else undefined.

(** ** Loops *)

(** [for (i = i0; i < i0 + n; ++i) body]. *)
Fixpoint for_range (n : nat) (i : Z) (body : Z -> M drv unit) : M drv unit :=
  match n with O => mret tt | S n => body i;; for_range n (i + 1) body end.

(** The first element of a list from [element] on that passes the test, or [NULL]. *)
Fixpoint find_from (fuel : nat) (test : Z -> M drv bool) (element : Z) : M drv Z :=
  match fuel with
  | O => undefined
  | S fuel =>
      if decide (element = NULL) then mret NULL
      else
        found ← test element;
        if (found : bool) then mret element
        else next ← on_mem (list_next element); find_from fuel test next
  end.

(** A list has fewer elements than there are nodes. *)
Definition list_fuel : M drv nat := s ← get; mret (S (size (k_nodes (d_mem s)))).
Definition find_in (list : Z) (test : Z -> M drv bool) : M drv Z :=
  fuel ← list_fuel; element ← on_mem (list_next (list_head list)); find_from fuel test element.

(** [copy_to_user] of an array of 64-bit words: whether it failed. *)
Fixpoint write_words (m : gmap Z Z) (p : Z) (l : list Z) : gmap Z Z :=
  match l with [] => m | x :: l => write_words (<[p := x]> m) (p + 8) l end.
Definition copy_to_user (p : Z) (l : list Z) : M drv bool :=
  n ← tick;
  if user_fault n then mret true
  else
    v ← gets d_vars;
    set_vars (mk_vars (v_dev_first v) (v_dev_class v) (v_curr_ctrls v) (write_words (v_user v) p l));;
    mret false.
End state.
