(* ===== verification/DrvMap.v ===== *)
(** * Controllers and mappings of the kernel module (src/drv/ctrl.c and map.c) *)
From stdpp Require Import prelude gmap list.
From Stdlib Require Import ZArith Lia.
From S2P Require Import Prelude NvmTypes DrvList DrvSg DrvState.
Local Open Scope Z_scope.

(** ** ctrl.c *)
Section ctrl.
Context `{Kernel}.

Definition sizeof_ctrl : Z := 272.

(** dev_t: 12 bits of major and 20 bits of minor number. *)
Definition MAJOR (dev : Z) : Z := Z.shiftr dev 20.
Definition MINOR (dev : Z) : Z := Z.land dev (2 ^ 20 - 1).
Definition MKDEV (ma mi : Z) : Z := Z.lor (Z.shiftl ma 20) mi.

Definition ctrl_get (list cls pdev number : Z) : M drv Z :=
  ctrl ← kmalloc sizeof_ctrl (KCtrl (mk_ctrl junk junk junk junk junk));
  if decide (ctrl = NULL) then mret (- ENOMEM)
  else
    on_mem (list_node_init ctrl);;
    kstore ctrl (KCtrl (mk_ctrl pdev number 0 cls NULL));;
    on_mem (list_insert list ctrl);;
    mret ctrl.

Definition ctrl_chrdev_remove (ctrl : Z) : M drv unit :=
  c ← kload as_ctrl ctrl;
  if decide (ct_chrdev c <> NULL) then
    give_back (RDevice (ct_rdev c));;
    give_back (RCdev ctrl);;
    kstore ctrl (KCtrl (mk_ctrl (ct_pdev c) (ct_number c) (ct_rdev c) (ct_cls c) NULL))
  else mret tt.

Definition ctrl_put (ctrl : Z) : M drv unit :=
  if decide (ctrl <> NULL) then
    on_mem (list_remove ctrl);;
    ctrl_chrdev_remove ctrl;;
    kfree ctrl
  else mret tt.

Definition ctrl_find_by_pci_dev (list pdev : Z) : M drv Z :=
  find_in list (fun element =>
    c ← kload as_ctrl element; mret (bool_decide (ct_pdev c = pdev))).

(** [i_cdev] is the [cdev] of the inode, known by the address of its [struct ctrl]. *)
Definition ctrl_find_by_inode (list i_cdev : Z) : M drv Z :=
  find_in list (fun element =>
    _ ← kload as_ctrl element; mret (bool_decide (element = i_cdev))).

Definition ctrl_chrdev_create (ctrl first : Z) : M drv Z :=
  c ← kload as_ctrl ctrl;
  if decide (ct_chrdev c <> NULL) then mret 0
  else
    let rdev := MKDEV (MAJOR first) (MINOR first + ct_number c) in
    kstore ctrl (KCtrl (mk_ctrl (ct_pdev c) (ct_number c) rdev (ct_cls c) (ct_chrdev c)));;
    n ← tick;                                          (* cdev_add *)
    if decide (kcall n <> 0) then mret (kcall n)
    else
      acquire (RCdev ctrl);;
      n ← tick;                                        (* device_create *)
      if decide (IS_ERR (kpointer n)) then
        give_back (RCdev ctrl);;
        mret (kpointer n)
      else
        acquire (RDevice rdev);;
        kstore ctrl (KCtrl (mk_ctrl (ct_pdev c) (ct_number c) rdev (ct_cls c) (kpointer n)));;
        mret 0.
End ctrl.

(** ** map.c: descriptors *)
Section map.
Context `{Kernel}.

Definition GPU_PAGE_SHIFT : Z := 16.
Definition GPU_PAGE_SIZE : Z := 2 ^ GPU_PAGE_SHIFT.
Definition GPU_PAGE_MASK : Z := u64 (Z.lnot (GPU_PAGE_SIZE - 1)).
Definition PAGE_MASK : Z := u64 (Z.lnot (PAGE_SIZE - 1)).
Definition max_num_ctrls : Z := 64.

(** [current] is the calling task.  The size of the allocation is computed in 64 bits; an
    allocation of [size] bytes has room for [(size - offsetof(addrs)) / 8] addresses. *)
Definition create_descriptor (current ctrl vaddr n_pages : Z) : M drv Z :=
  let size := u64 (sizeof_map + u64 (u64 (n_pages - 1) * 8)) in
  let room := Z.to_nat ((size - offsetof_addrs) / 8) in
  map ← kvmalloc size (KMap (mk_kmap junk junk junk junk junk junk None junk junk (replicate room junk)));
  if decide (map = NULL) then mret (- ENOMEM)
  else if decide (size < offsetof_addrs) then undefined         (* the struct does not fit *)
  else
    on_mem (list_node_init map);;
    c ← kload as_ctrl ctrl;
    (* for (i = 0; i < n_addrs; ++i) addrs[i] = 0 *)
    if decide (n_pages <= Z.of_nat room) then
      kstore map (KMap (mk_kmap current vaddr junk (ct_pdev c) 0 NULL None n_pages 0
                          (replicate (Z.to_nat n_pages) 0 ++ replicate (room - Z.to_nat n_pages) junk)));;
      mret map
    else undefined.

(** ** map.c: host memory *)

Definition release_user_pages (map : Z) : M drv unit :=
  m ← kload as_kmap map;
  for_range (Z.to_nat (mp_n_addrs m)) 0 (fun i =>
    m ← kload as_kmap map;
    addr ← of_option (zlookup (mp_addrs m) i);
    give_back (RDma (mp_pdev m) addr));;
  for_range (Z.to_nat (mp_n_addrs m)) 0 (fun i =>
    m ← kload as_kmap map;
    pages ← kload as_pages (mp_data m);
    page ← of_option (zlookup pages i);
    give_back (RPage page));;
  kvfree (mp_data m);;
  m ← kload as_kmap map;
  kstore map (KMap (mp_set_data m NULL (mp_release m))).

(** What [dma_map_page] returns for a page it cannot map, and the error for it. *)
Definition DMA_MAPPING_ERROR : Z := 2 ^ 64 - 1.
Definition dma_mapping_error : Z := - ENOMEM.

(** The loop over the pages from [i] on. *)
Fixpoint dma_map_pages (map : Z) (pages : list Z) (i : Z) : M drv Z :=
  match pages with
  | [] => mret 0
  | page :: pages =>
      m ← kload as_kmap map;
      n ← tick;
      match dma_map_page n (mp_pdev m) page with
      | Some addr =>
          acquire (RDma (mp_pdev m) addr);;
          addrs ← of_option (array_set (mp_addrs m) i addr);
          kstore map (KMap (mp_set_addrs m addrs));;
          dma_map_pages map pages (i + 1)
      | None =>
          addrs ← of_option (array_set (mp_addrs m) i DMA_MAPPING_ERROR);
          kstore map (KMap (mp_set_addrs m addrs));;
          mret dma_mapping_error
      end
  end.

(** [get_user_pages] takes a reference to each page it returns. *)
Fixpoint acquire_pages (pages : list Z) : M drv unit :=
  match pages with [] => mret tt | page :: pages => acquire (RPage page);; acquire_pages pages end.

Definition map_user_pages (map : Z) : M drv Z :=
  m ← kload as_kmap map;
  let n_addrs := Z.to_nat (mp_n_addrs m) in
  pages ← kvmalloc (mp_n_addrs m * 8) (KPages (replicate n_addrs NULL));
  if decide (pages = NULL) then mret (- ENOMEM)
  else
    n ← tick;
    let '(retval, got) :=
      match get_user_pages n (mp_vaddr m) (mp_n_addrs m) with
      | inl err => (err, [])
      | inr l => (Z.of_nat (length (take n_addrs l)), take n_addrs l)
      end in
    acquire_pages got;;
    kstore pages (KPages (got ++ replicate (n_addrs - length got) NULL));;
    if decide (retval <= 0) then kfree pages;; mret retval
    else
      let m := mp_set_n_addrs m retval in
      let m := mp_set_page_size m PAGE_SIZE in
      let m := mp_set_data m pages (Some RELEASE_USER_PAGES) in
      kstore map (KMap m);;
      dma_map_pages map got 0.

(** ** map.c: CUDA *)

(** The loop of [release_gpu_memory] and [force_release_gpu_memory] over the controllers. *)
Fixpoint unmap_gpu (fuel : nat) (gd element j : Z) : M drv unit :=
  match fuel with
  | O => undefined
  | S fuel =>
      if decide (element = NULL) then mret tt
      else
        c ← kload as_ctrl element;
        g ← kload as_gpu gd;
        mappings ← kload as_mappings (gd_mappings g);
        mapping ← of_option (zlookup mappings j);
        j ← (if decide (mapping <> NULL) then
               give_back (RP2pMapping (ct_pdev c) (gd_pages g) mapping);; mret (j + 1)
             else mret j);
        next ← on_mem (list_next element);
        unmap_gpu fuel gd next j
  end.

(** Their common part; [put] releases the page table. *)
Definition release_gpu (put : Z -> M drv unit) (map : Z) : M drv unit :=
  m ← kload as_kmap map;
  let gd := mp_data m in
  if decide (gd <> NULL) then
    g ← kload as_gpu gd;
    (if decide (gd_mappings g <> NULL) then
       fuel ← list_fuel;
       element ← on_mem (list_next (list_head (mp_ctrl_list m)));
       unmap_gpu fuel gd element 0;;
       kfree (gd_mappings g)
     else mret tt);;
    (if decide (gd_pages g <> NULL) then put (gd_pages g) else mret tt);;
    kfree gd;;
    kstore map (KMap (mp_set_data m NULL (mp_release m)))
  else mret tt.

(** [nvidia_p2p_put_pages(0, 0, map->vaddr, gd->pages)]. *)
Definition release_gpu_memory (map : Z) : M drv unit :=
  release_gpu (fun table =>
    m ← kload as_kmap map; give_back (RP2pPages (mp_vaddr m) table)) map.

(** The loop of [map_gpu_memory] over the controllers. *)
Fixpoint map_gpu (fuel : nat) (map gd element j : Z) : M drv Z :=
  match fuel with
  | O => undefined
  | S fuel =>
      if decide (element = NULL) then mret 0
      else
        c ← kload as_ctrl element;
        g ← kload as_gpu gd;
        n ← tick;
        match p2p_dma_map n (ct_pdev c) (gd_pages g) with
        | inl err => mret err
        | inr mapping =>
            acquire (RP2pMapping (ct_pdev c) (gd_pages g) mapping);;
            mappings ← kload as_mappings (gd_mappings g);
            mappings ← of_option (array_set mappings j mapping);
            kstore (gd_mappings g) (KMappings mappings);;
            m ← kload as_kmap map;
            (if decide (j + 1 = 1) then
               (* for (i = 0; i < n_addrs; ++i) addrs[i] = mappings[0]->dma_addresses[i] *)
               if decide (mp_n_addrs m <= Z.of_nat (length (p2p_addresses mapping)) /\
                          mp_n_addrs m <= Z.of_nat (length (mp_addrs m))) then
                 kstore map (KMap (mp_set_addrs m
                   (take (Z.to_nat (mp_n_addrs m)) (p2p_addresses mapping) ++
                    drop (Z.to_nat (mp_n_addrs m)) (mp_addrs m))))
               else undefined
             else mret tt);;
            next ← on_mem (list_next element);
            map_gpu fuel map gd next (j + 1)
        end
  end.

Definition map_gpu_memory (map list : Z) : M drv Z :=
  gd ← kmalloc 16 (KGpu (mk_gd junk junk));
  if decide (gd = NULL) then mret (- ENOMEM)
  else
    mappings ← kmalloc (8 * max_num_ctrls) (KMappings (replicate (Z.to_nat max_num_ctrls) junk));
    if decide (mappings = NULL) then kfree gd;; mret (- ENOMEM)
    else
      kstore mappings (KMappings (replicate (Z.to_nat max_num_ctrls) NULL));;
      kstore gd (KGpu (mk_gd NULL mappings));;
      m ← kload as_kmap map;
      let m := mp_set_data (mp_set_page_size m GPU_PAGE_SIZE) gd (Some RELEASE_GPU_MEMORY) in
      kstore map (KMap m);;
      n ← tick;
      match p2p_get_pages n (mp_vaddr m) (u64 (GPU_PAGE_SIZE * mp_n_addrs m)) with
      | inl err => mret err
      | inr table =>
          acquire (RP2pPages (mp_vaddr m) table);;
          kstore gd (KGpu (mk_gd table mappings));;
          fuel ← list_fuel;
          element ← on_mem (list_next (list_head list));
          err ← map_gpu fuel map gd element 0;
          if decide (err <> 0) then mret err
          else
            m ← kload as_kmap map;
            kstore map (KMap (mp_set_n_addrs m (p2p_entries table)));;
            mret 0
      end.

(** ** map.c: HIP *)

(** The exporter's notification, with the map it was attached for. *)
Definition ugds_dmabuf_move_notify (map : Z) : M drv unit :=
  if decide (map <> NULL) then
    m ← kload as_kmap map; kstore map (KMap (mp_set_invalid m 1))
  else mret tt.

(** [dma_buf_pin], [dma_buf_map_attachment] and their opposites need the reservation lock. *)
Definition unmap_attachment (dr : dmabuf_region) : M drv unit :=
  resv_held (dr_dmabuf dr);; give_back (RSgt (dr_attachment dr) (dr_sgt dr)).
Definition unpin (dr : dmabuf_region) : M drv unit :=
  resv_held (dr_dmabuf dr);; give_back (RPin (dr_attachment dr)).

Definition release_dmabuf_memory (map : Z) : M drv unit :=
  m ← kload as_kmap map;
  let data := mp_data m in
  if decide (data <> NULL) then
    dr ← kload as_dmabuf data;
    (if decide (dr_sgt dr <> NULL) then
       dma_resv_lock (dr_dmabuf dr);;
       unmap_attachment dr;;
       unpin dr;;
       dma_resv_unlock (dr_dmabuf dr)
     else mret tt);;
    (if decide (dr_attachment dr <> NULL) then give_back (RAttach (dr_dmabuf dr) (dr_attachment dr)) else mret tt);;
    (if decide (dr_dmabuf dr <> NULL) then give_back (RDmabuf (dr_dmabuf dr)) else mret tt);;
    kfree data;;
    kstore map (KMap (mp_set_data m NULL (mp_release m)))
  else mret tt.

(** The end of [map_dmabuf_memory], once the attachment is mapped. *)
Definition finish_dmabuf (map data hsa_offset expected_pages : Z) : M drv Z :=
  m ← kload as_kmap map;
  kstore map (KMap (mp_set_data (mp_set_page_size m PAGE_SIZE) data (Some RELEASE_DMABUF_MEMORY)));;
  dr ← kload as_dmabuf data;
  m ← kload as_kmap map;
  '(err, addrs) ← of_option
    (sg_flatten_to_addrs (sgt_entries (dr_sgt dr)) (mp_addrs m) expected_pages PAGE_SIZE hsa_offset);
  kstore map (KMap (mp_set_addrs m addrs));;
  if decide (err <> 0) then
    dma_resv_lock (dr_dmabuf dr);;
    unmap_attachment dr;;
    unpin dr;;
    dma_resv_unlock (dr_dmabuf dr);;
    give_back (RAttach (dr_dmabuf dr) (dr_attachment dr));;
    give_back (RDmabuf (dr_dmabuf dr));;
    kfree data;;
    m ← kload as_kmap map;
    kstore map (KMap (mp_set_data m NULL (mp_release m)));;
    mret err
  else mret 0.

(** The second half, from [dma_buf_pin] on. *)
Definition pin_dmabuf (map data hsa_offset expected_pages : Z) : M drv Z :=
  dr ← kload as_dmabuf data;
  dma_resv_lock (dr_dmabuf dr);;
  resv_held (dr_dmabuf dr);;
  n ← tick;                                            (* dma_buf_pin *)
  let err := kcall n in
  (if decide (err = 0) then acquire (RPin (dr_attachment dr)) else mret tt);;
  dma_resv_unlock (dr_dmabuf dr);;
  if decide (err <> 0) then
    give_back (RAttach (dr_dmabuf dr) (dr_attachment dr));;
    give_back (RDmabuf (dr_dmabuf dr));;
    kfree data;;
    mret err
  else
    dma_resv_lock (dr_dmabuf dr);;
    resv_held (dr_dmabuf dr);;
    n ← tick;
    let sgt := dma_buf_map n (dr_attachment dr) in
    (if decide (IS_ERR sgt) then mret tt else acquire (RSgt (dr_attachment dr) sgt));;
    kstore data (KDmabuf (mk_dr (dr_dmabuf dr) (dr_attachment dr) sgt));;
    dma_resv_unlock (dr_dmabuf dr);;
    if decide (IS_ERR sgt) then
      dma_resv_lock (dr_dmabuf dr);;
      unpin dr;;
      dma_resv_unlock (dr_dmabuf dr);;
      give_back (RAttach (dr_dmabuf dr) (dr_attachment dr));;
      give_back (RDmabuf (dr_dmabuf dr));;
      kfree data;;
      mret sgt
    else finish_dmabuf map data hsa_offset expected_pages.

(** After a failed [dma_buf_get] or [dma_buf_dynamic_attach] the error is read out of the region
    that has just been freed. *)
Definition map_dmabuf_memory (map dmabuf_fd hsa_offset expected_pages ioaddrs_capacity : Z) : M drv Z :=
  if decide (expected_pages > ioaddrs_capacity) then mret (- EOVERFLOW)
  else
    data ← kmalloc 24 (KDmabuf (mk_dr junk junk junk));
    if decide (data = NULL) then mret (- ENOMEM)
    else
      n ← tick;
      let dmabuf := dma_buf_get n dmabuf_fd in
      kstore data (KDmabuf (mk_dr dmabuf junk junk));;
      if decide (IS_ERR dmabuf) then
        kfree data;;
        dr ← kload as_dmabuf data; mret (dr_dmabuf dr)
      else
        acquire (RDmabuf dmabuf);;
        m ← kload as_kmap map;
        n ← tick;
        let attachment := dma_buf_attach n dmabuf (mp_pdev m) in
        kstore data (KDmabuf (mk_dr dmabuf attachment junk));;
        if decide (IS_ERR attachment) then
          give_back (RDmabuf dmabuf);;
          kfree data;;
          dr ← kload as_dmabuf data; mret (dr_attachment dr)
        else
          acquire (RAttach dmabuf attachment);;
          pin_dmabuf map data hsa_offset expected_pages.

(** ** map.c: all kinds of memory *)

(** [map->release(map)]. *)
Definition map_release (r : release) (map : Z) : M drv unit :=
  match r with
  | RELEASE_USER_PAGES => release_user_pages map
  | RELEASE_GPU_MEMORY => release_gpu_memory map
  | RELEASE_DMABUF_MEMORY => release_dmabuf_memory map
  end.

Definition unmap_and_release (map : Z) : M drv unit :=
  on_mem (list_remove map);;
  m ← kload as_kmap map;
  (match mp_release m with
   | Some r => if decide (mp_data m <> NULL) then map_release r map else mret tt
   | None => mret tt
   end);;
  kvfree map.

(** The NVIDIA driver reclaims the memory; [nvidia_p2p_free_page_table] instead of
    [nvidia_p2p_put_pages]. *)
Definition force_release_gpu_memory (map : Z) : M drv unit :=
  release_gpu (fun table =>
    m ← kload as_kmap map; give_back (RP2pPages (mp_vaddr m) table)) map;;
  unmap_and_release map.

Definition map_find (current list vaddr : Z) : M drv Z :=
  find_in list (fun element =>
    m ← kload as_kmap element;
    mret (bool_decide (mp_owner m = current /\ mp_page_size m > 0 /\
            mp_vaddr m = Z.land vaddr (u64 (Z.lnot (mp_page_size m - 1)))))).

(** The common end of the three functions below: an error without a descriptor, or a descriptor
    and the error of mapping its memory. *)
Definition insert_or_release (list md err : Z) : M drv Z :=
  if decide (err <> 0) then unmap_and_release md;; mret err
  else on_mem (list_insert list md);; mret md.
Definition insert_new (list : Z) (r : Z + Z * Z) : M drv Z :=
  match r with inl e => mret e | inr (md, err) => insert_or_release list md err end.

(** Everything before the list is touched. *)
Definition new_user_map (current ctrl vaddr n_pages : Z) : M drv (Z + Z * Z) :=
  if decide (n_pages < 1) then mret (inl (- EINVAL))
  else
    md ← create_descriptor current ctrl (Z.land vaddr PAGE_MASK) n_pages;
    if decide (IS_ERR md) then mret (inl md)
    else
      m ← kload as_kmap md;
      kstore md (KMap (mp_set_page_size m PAGE_SIZE));;
      err ← map_user_pages md;
      mret (inr (md, err)).

Definition new_device_map (current ctrl vaddr n_pages ctrl_list : Z) : M drv (Z + Z * Z) :=
  if decide (n_pages < 1) then mret (inl (- EINVAL))
  else
    md ← create_descriptor current ctrl (Z.land vaddr GPU_PAGE_MASK) n_pages;
    if decide (IS_ERR md) then mret (inl md)
    else
      m ← kload as_kmap md;
      kstore md (KMap (mp_set_ctrl_list (mp_set_page_size m GPU_PAGE_SIZE) ctrl_list));;
      err ← map_gpu_memory md ctrl_list;
      mret (inr (md, err)).

Definition new_dmabuf_map (current ctrl gpu_ptr dmabuf_fd dmabuf_offset n_pages ioaddrs_capacity : Z)
    : M drv (Z + Z * Z) :=
  if decide (n_pages < 1) then mret (inl (- EINVAL))
  else
    md ← create_descriptor current ctrl gpu_ptr n_pages;
    if decide (IS_ERR md) then mret (inl md)
    else
      m ← kload as_kmap md;
      kstore md (KMap (mp_set_page_size m PAGE_SIZE));;
      err ← map_dmabuf_memory md dmabuf_fd dmabuf_offset n_pages ioaddrs_capacity;
      mret (inr (md, err)).

Definition map_userspace (current list ctrl vaddr n_pages : Z) : M drv Z :=
  r ← new_user_map current ctrl vaddr n_pages; insert_new list r.

Definition map_device_memory (current list ctrl vaddr n_pages ctrl_list : Z) : M drv Z :=
  r ← new_device_map current ctrl vaddr n_pages ctrl_list; insert_new list r.

Definition map_dmabuf (current list ctrl gpu_ptr dmabuf_fd dmabuf_offset n_pages ioaddrs_capacity : Z) : M drv Z :=
  r ← new_dmabuf_map current ctrl gpu_ptr dmabuf_fd dmabuf_offset n_pages ioaddrs_capacity; insert_new list r.
End map.
