(* ===== verification/DrvPci.v ===== *)
(** * The entry points of the kernel module (src/drv/pci.c)

    The ioctl and mmap handlers of the device files, probing and removing controllers, loading
    and unloading. *)
From stdpp Require Import prelude gmap list.
From Stdlib Require Import ZArith Lia.
From S2P Require Import Prelude NvmTypes DrvList DrvSg DrvState DrvMap.
Local Open Scope Z_scope.

(** _IOW and _IOWR of asm-generic/ioctl.h, and the commands of ioctl.h. *)
Definition _IOC (dir type nr size : Z) : Z :=
  Z.lor (Z.lor (Z.shiftl dir 30) (Z.shiftl size 16)) (Z.lor (Z.shiftl type 8) nr).
Definition NVM_IOCTL_TYPE : Z := 0x80.
Definition NVM_MAP_HOST_MEMORY : Z := _IOC 1 NVM_IOCTL_TYPE 1 24.
Definition NVM_MAP_DEVICE_MEMORY : Z := _IOC 1 NVM_IOCTL_TYPE 2 24.
Definition NVM_UNMAP_MEMORY : Z := _IOC 1 NVM_IOCTL_TYPE 3 8.
Definition NVM_MAP_DMABUF_MEMORY : Z := _IOC 3 NVM_IOCTL_TYPE 4 48.

Section pci.
Context `{Kernel}.

(** The result, and what [vm_iomap_memory] is asked to map: where and how many bytes. *)
Definition mmap_registers (i_cdev vm_start vm_end : Z) : M drv (Z * option (Z * Z)) :=
  ctrl ← ctrl_find_by_inode ctrl_list i_cdev;
  if decide (ctrl = NULL) then mret (- EBADF, None)
  else
    c ← kload as_ctrl ctrl;
    if decide (u64 (vm_end - vm_start) > bar_len (ct_pdev c)) then mret (- EINVAL, None)
    else
      n ← tick;
      mret (kcall n, Some (bar_start (ct_pdev c), u64 (vm_end - vm_start))).

(** ** map_ioctl *)

(** Copying the addresses of a new mapping to the user. *)
Definition copy_addrs (p map : Z) : M drv bool :=
  m ← kload as_kmap map;
  if decide (mp_n_addrs m <= Z.of_nat (length (mp_addrs m)))
  then copy_to_user p (take (Z.to_nat (mp_n_addrs m)) (mp_addrs m))
  else undefined.

(** The end of NVM_MAP_HOST_MEMORY and NVM_MAP_DEVICE_MEMORY: [map] is a pointer or an error. *)
Definition reply (p map : Z) : M drv Z :=
  if decide (~ IS_ERR map /\ map <> NULL) then
    fault ← copy_addrs p map;
    mret (if (fault : bool) then - EFAULT else 0)
  else mret map.

Definition ioctl_map_host (current ctrl arg : Z) : M drv Z :=
  n ← tick;
  match user_map n arg with
  | None => mret (- EFAULT)
  | Some request =>
      map ← map_userspace current host_list ctrl (vaddr_start request) (n_pages request);
      reply (ioaddrs request) map
  end.

Definition ioctl_map_device (current ctrl arg : Z) : M drv Z :=
  n ← tick;
  match user_map n arg with
  | None => mret (- EFAULT)
  | Some request =>
      map ← map_device_memory current device_list ctrl (vaddr_start request) (n_pages request) ctrl_list;
      reply (ioaddrs request) map
  end.

(** The checks of NVM_MAP_DMABUF_MEMORY. *)
Definition dmabuf_bad (dreq : nvm_ioctl_dmabuf) : bool :=
  bool_decide (dmabuf_size dreq = 0 \/ dmabuf_size dreq mod PAGE_SIZE <> 0) ||
  bool_decide (gpu_ptr dreq = 0 \/ gpu_ptr dreq mod PAGE_SIZE <> 0) ||
  bool_decide (dmabuf_ioaddrs dreq = 0 \/ ioaddrs_capacity dreq = 0) ||
  bool_decide (dmabuf_offset dreq <> 0 /\ dmabuf_offset dreq mod PAGE_SIZE <> 0) ||
  bool_decide (dmabuf_fd dreq < 0).

Definition reply_dmabuf (dreq : nvm_ioctl_dmabuf) (map : Z) : M drv Z :=
  if decide (~ IS_ERR map /\ map <> NULL) then
    n ← tick;
    (if move_notified n then ugds_dmabuf_move_notify map else mret tt);;
    m ← kload as_kmap map;
    if decide (mp_invalid m <> 0) then unmap_and_release map;; mret (- EIO)
    else if decide (mp_n_addrs m > ioaddrs_capacity dreq) then unmap_and_release map;; mret (- EOVERFLOW)
    else
      fault ← copy_addrs (dmabuf_ioaddrs dreq) map;
      if (fault : bool) then unmap_and_release map;; mret (- EFAULT) else mret 0
  else mret map.

Definition ioctl_map_dmabuf (current ctrl arg : Z) : M drv Z :=
  n ← tick;
  match user_dmabuf n arg with
  | None => mret (- EFAULT)
  | Some dreq =>
      if dmabuf_bad dreq then mret (- EINVAL)
      else
        map ← map_dmabuf current device_list ctrl (gpu_ptr dreq) (dmabuf_fd dreq) (dmabuf_offset dreq)
                (dmabuf_size dreq / PAGE_SIZE) (ioaddrs_capacity dreq);
        reply_dmabuf dreq map
  end.

Definition ioctl_unmap_memory (current arg : Z) : M drv Z :=
  n ← tick;
  match user_addr n arg with
  | None => mret (- EFAULT)
  | Some addr =>
      map ← map_find current host_list addr;
      if decide (map <> NULL) then unmap_and_release map;; mret 0
      else
        map ← map_find current device_list addr;
        if decide (map <> NULL) then unmap_and_release map;; mret 0
        else mret (- EINVAL)
  end.

Definition map_ioctl (current i_cdev cmd arg : Z) : M drv Z :=
  ctrl ← ctrl_find_by_inode ctrl_list i_cdev;
  if decide (ctrl = NULL) then mret (- EBADF)
  else if decide (cmd = NVM_MAP_HOST_MEMORY) then ioctl_map_host current ctrl arg
  else if decide (cmd = NVM_MAP_DEVICE_MEMORY /\ build_hip = false) then ioctl_map_device current ctrl arg
  else if decide (cmd = NVM_MAP_DMABUF_MEMORY /\ build_hip = true) then ioctl_map_dmabuf current ctrl arg
  else if decide (cmd = NVM_UNMAP_MEMORY) then ioctl_unmap_memory current arg
  else mret (- EINVAL).

(** ** Controllers *)

(** [pci_disable_device], [pci_release_region] and [ctrl_put], the way every failure ends. *)
Definition undo_enabled (dev ctrl : Z) : M drv unit :=
  give_back (REnabled dev);; give_back (RRegion dev);; ctrl_put ctrl.

(** [pci_set_master] and [pci_clear_master] cannot fail and hold nothing. *)
Definition add_pci_dev (dev : Z) : M drv Z :=
  v ← gets d_vars;
  if decide (v_curr_ctrls v >= max_ctrls_param) then mret 0
  else
    ctrl ← ctrl_get ctrl_list (v_dev_class v) dev (v_curr_ctrls v);
    if decide (IS_ERR ctrl) then mret ctrl
    else
      n ← tick;                                        (* pci_request_region *)
      if decide (kcall n <> 0) then ctrl_put ctrl;; mret (kcall n)
      else
        acquire (RRegion dev);;
        n ← tick;                                      (* pci_enable_device *)
        if decide (kcall n < 0) then give_back (RRegion dev);; ctrl_put ctrl;; mret (kcall n)
        else
          acquire (REnabled dev);;
          err ← ctrl_chrdev_create ctrl (v_dev_first v);
          if decide (err <> 0) then undo_enabled dev ctrl;; mret err
          else
            n ← tick;                                  (* dma_set_mask_and_coherent, 64 bits *)
            failed ← (if decide (kcall n <> 0)
                      then n ← tick; mret (bool_decide (kcall n <> 0))     (* 32 bits *)
                      else mret false);
            if (failed : bool) then undo_enabled dev ctrl;; mret (- EIO)
            else
              v ← gets d_vars;
              set_curr_ctrls (v_curr_ctrls v + 1);;
              mret 0.

Definition remove_pci_dev (dev : Z) : M drv unit :=
  if decide (dev = NULL) then mret tt
  else
    v ← gets d_vars;
    set_curr_ctrls (v_curr_ctrls v - 1);;
    ctrl ← ctrl_find_by_pci_dev ctrl_list dev;
    ctrl_put ctrl;;
    give_back (RRegion dev);;
    give_back (REnabled dev).

(** ** Loading and unloading *)

(** The number of mappings released; the fuel is the number of nodes. *)
Fixpoint clear_maps (fuel : nat) (list i : Z) : M drv Z :=
  ptr ← on_mem (list_next (list_head list));
  if decide (ptr = NULL) then mret i
  else
    match fuel with
    | O => undefined
    | S fuel => unmap_and_release ptr;; clear_maps fuel list (u64 (i + 1))
    end.
Definition clear_map_list (list : Z) : M drv Z := fuel ← list_fuel; clear_maps fuel list 0.

Definition ugds_drv_entry : M drv Z :=
  on_mem (list_init ctrl_list);;
  on_mem (list_init host_list);;
  on_mem (list_init device_list);;
  n ← tick;                                            (* alloc_chrdev_region *)
  if decide (kcall n < 0) then mret (kcall n)
  else
    let first := chrdev_first n in
    acquire (RChrdevs first);;
    v ← gets d_vars;
    set_vars (mk_vars first (v_dev_class v) (v_curr_ctrls v) (v_user v));;
    n ← tick;                                          (* class_create *)
    let cls := kpointer n in
    set_vars (mk_vars first cls (v_curr_ctrls v) (v_user v));;
    if decide (IS_ERR cls) then give_back (RChrdevs first);; mret cls
    else
      acquire (RClass cls);;
      n ← tick;                                        (* pci_register_driver *)
      if decide (kcall n <> 0) then
        give_back (RClass cls);;
        give_back (RChrdevs first);;
        mret (kcall n)
      else acquire RDriver;; mret 0.

(** [pci_unregister_driver] calls [remove_pci_dev] for every device in [bound]: those the driver
    accepted, in the order of the PCI core. *)
Fixpoint remove_all (bound : list Z) : M drv unit :=
  match bound with [] => mret tt | dev :: bound => remove_pci_dev dev;; remove_all bound end.

Definition ugds_drv_exit (bound : list Z) : M drv unit :=
  clear_map_list device_list;;
  clear_map_list host_list;;
  remove_all bound;;
  give_back RDriver;;
  v ← gets d_vars;
  give_back (RClass (v_dev_class v));;
  give_back (RChrdevs (v_dev_first v)).
End pci.
