(* ===== verification/DrvOwn.v ===== *)
(** * Ownership in the kernel module

    [st v ls F O R s]: in [s] the lists are [ls], the nodes [F] are initialised and in no list, the
    allocated memory is exactly [O] and what is held of other subsystems is exactly [R], both up
    to the order.  The rules say how the primitives of DrvState.v change these; ownership of a
    part is a part of [O] and [R], so no rule has a frame condition. *)
From stdpp Require Import prelude gmap list.
From Stdlib Require Import ZArith Lia.
From S2P Require Import Prelude NvmTypes DrvList DrvSg DrvState.
Local Open Scope Z_scope.

Abbreviation cell := (Z * (bool * kobj))%type.

Record st (v : kvars) (ls : gmap Z (list Z)) (F : list Z) (O : list cell) (R : list kres) (s : drv) : Prop := {
  st_vars : d_vars s = v;
  st_lists : lists (d_mem s) ls;
  st_free : forall a, a ∈ F -> lst (k_nodes (d_mem s)) a = Some NULL;
  st_objs : map_to_list (d_objs s) ≡ₚ O;
  st_res : d_res s ≡ₚ R;
  st_nodes : forall a vm o, d_objs s !! a = Some (vm, o) ->
    is_Some (k_nodes (d_mem s) !! a) <-> has_node o = true;
  st_fresh : forall a, d_next s <= a -> d_objs s !! a = None /\ k_nodes (d_mem s) !! a = None;
  st_next : 0 < d_next s;
  st_pos : forall a x, d_objs s !! a = Some x -> 0 < a;
}.

Lemma st_perm v ls F O R O' R' s : st v ls F O R s -> O ≡ₚ O' -> R ≡ₚ R' -> st v ls F O' R' s.
Proof. intros [] HO HR. split; try done; [by rewrite <- HO|by rewrite <- HR]. Qed.

Lemma st_drop_free v ls F F' O R s : st v ls F O R s -> F' ⊆ F -> st v ls F' O R s.
Proof. intros [] HF. split; try done. intros a Ha. auto. Qed.

Lemma st_lookup v ls F O R s a x : st v ls F O R s -> (a, x) ∈ O <-> d_objs s !! a = Some x.
Proof. intros Hs. rewrite <- (st_objs _ _ _ _ _ _ Hs). apply elem_of_map_to_list. Qed.

Lemma st_pos_in v ls F O R s a x : st v ls F O R s -> (a, x) ∈ O -> 0 < a.
Proof. intros Hs Ha. apply (st_lookup _ _ _ _ _ _ _ _ Hs) in Ha. by eapply st_pos. Qed.

(** The memory without one cell. *)
Lemma objs_delete (m : gmap Z (bool * kobj)) O a x :
  map_to_list m ≡ₚ (a, x) :: O -> map_to_list (delete a m) ≡ₚ O.
Proof.
  intros HO. assert (m !! a = Some x) as Ha.
  { apply elem_of_map_to_list. rewrite HO. by left. }
  apply (Permutation_cons_inv (a := (a, x))). rewrite <- HO. symmetry.
  rewrite <- (insert_delete_id m a x Ha) at 1.
  apply map_to_list_insert. apply lookup_delete_eq.
Qed.

Lemma st_distinct v ls F O R s a x y : st v ls F ((a, x) :: O) R s -> (a, y) ∉ O.
Proof.
  intros Hs Hin. pose proof (st_objs _ _ _ _ _ _ Hs) as HO.
  pose proof (NoDup_fst_map_to_list (d_objs s)) as Hnd. rewrite HO in Hnd. simpl in Hnd.
  apply NoDup_cons in Hnd as [Hn _]. apply Hn. by apply (list_elem_of_fmap_2 fst _ (a, y)).
Qed.

(** [in_list] and [perm] discharge the side conditions about [O] and [R]. *)
Ltac in_list :=
  first
    [ eassumption
    | apply list_elem_of_here
    | apply list_elem_of_further; in_list
    | apply elem_of_app; left; in_list
    | apply elem_of_app; right; in_list ].

Lemma pull_here {A} (x : A) l : x :: l ≡ₚ x :: l.
Proof. done. Qed.
Lemma pull_there {A} (x y : A) l r : l ≡ₚ x :: r -> y :: l ≡ₚ x :: y :: r.
Proof. intros ->. apply Permutation_swap. Qed.
Lemma pull_left {A} (x : A) l m r : l ≡ₚ x :: r -> l ++ m ≡ₚ x :: r ++ m.
Proof. by intros ->. Qed.
Lemma pull_right {A} (x : A) l m r : m ≡ₚ x :: r -> l ++ m ≡ₚ x :: l ++ r.
Proof. intros ->. by rewrite Permutation_middle. Qed.

(** [pull] proves [l ≡ₚ x :: ?r] by finding [x] in [l]. *)
Ltac pull :=
  first
    [ apply pull_here
    | apply pull_there; pull
    | apply pull_left; pull
    | apply pull_right; pull ].

Section rules.
Context `{Kernel}.
Context {v : kvars} {ls : gmap Z (list Z)} {F : list Z} {O : list cell} {R : list kres}.

Lemma wp_tick (Q : nat -> drv -> Prop) s :
  st v ls F O R s -> (forall n s', st v ls F O R s' -> Q n s') -> wp tick Q s.
Proof. intros [] HQ. apply HQ. by split. Qed.

Lemma wp_kload {V} (proj : kobj -> option V) a vm o x (Q : V -> drv -> Prop) s :
  st v ls F O R s -> (a, (vm, o)) ∈ O -> proj o = Some x -> Q x s -> wp (kload proj a) Q s.
Proof.
  intros Hs Ha Hp HQ. apply (st_lookup _ _ _ _ _ _ _ _ Hs) in Ha.
  unfold kload, wp, mbind, M_bind, get, option_bind. rewrite Ha, Hp. done.
Qed.

Lemma wp_kstore a vm o o' O' (Q : unit -> drv -> Prop) s :
  st v ls F O R s -> O ≡ₚ (a, (vm, o)) :: O' -> has_node o' = has_node o ->
  (forall s', st v ls F ((a, (vm, o')) :: O') R s' -> Q tt s') -> wp (kstore a o') Q s.
Proof.
  intros Hs HO Hn HQ. pose proof (st_perm _ _ _ _ _ _ R s Hs HO ltac:(done)) as Hs'.
  assert (d_objs s !! a = Some (vm, o)) as Ha by (apply (st_lookup _ _ _ _ _ _ _ _ Hs'); by left).
  unfold kstore, wp, mbind, M_bind, get. rewrite Ha. apply HQ.
  destruct Hs'. split; cbn [d_mem d_objs d_next d_calls d_res d_vars]; try done.
  - rewrite <- insert_delete_eq, map_to_list_insert by apply lookup_delete_eq.
    apply Permutation_skip. by eapply objs_delete.
  - intros b vm' ob. rewrite lookup_insert_Some. intros [[<- [= <- <-]]|[Hne Hb]]; [|by eauto].
    rewrite Hn. by eapply st_nodes0.
  - intros b Hb. destruct (st_fresh0 b Hb). split; [|done].
    rewrite lookup_insert_ne; [done|]. intros ->. congruence.
  - intros b y. rewrite lookup_insert_Some. intros [[<- _]|[_ Hb]]; eauto.
Qed.

Lemma wp_acquire r (Q : unit -> drv -> Prop) s :
  st v ls F O R s -> (forall s', st v ls F O (r :: R) s' -> Q tt s') -> wp (acquire r) Q s.
Proof.
  intros [] HQ. apply HQ. split; cbn [d_mem d_objs d_next d_calls d_res d_vars]; try done.
  by apply Permutation_skip.
Qed.

Lemma take_out_perm r l l' : l ≡ₚ r :: l' -> exists l'', take_out r l = Some l'' /\ l'' ≡ₚ l'.
Proof.
  intros Hl. assert (r ∈ l) as Hr by (rewrite Hl; by left).
  assert (exists l'', take_out r l = Some l'' /\ l ≡ₚ r :: l'') as (l'' & E & Hp).
  { clear Hl. induction l as [|x l IH]; [by apply elem_of_nil in Hr|]. simpl. case_decide as Hx.
    - subst. eauto.
    - apply elem_of_cons in Hr as [->|Hr]; [done|]. destruct (IH Hr) as (l'' & -> & Hp).
      exists (x :: l''). split; [done|]. rewrite Hp. apply Permutation_swap. }
  exists l''. split; [done|]. apply (Permutation_cons_inv (a := r)). by rewrite <- Hp.
Qed.

Lemma wp_give_back r R' (Q : unit -> drv -> Prop) s :
  st v ls F O R s -> R ≡ₚ r :: R' -> (forall s', st v ls F O R' s' -> Q tt s') -> wp (give_back r) Q s.
Proof.
  intros Hs HR HQ. destruct (take_out_perm r (d_res s) R') as (l & E & Hl).
  { by rewrite (st_res _ _ _ _ _ _ Hs). }
  unfold give_back, wp, mbind, M_bind, get. rewrite E. apply HQ.
  destruct Hs. by split.
Qed.

Lemma wp_set_vars v' (Q : unit -> drv -> Prop) s :
  st v ls F O R s -> (forall s', st v' ls F O R s' -> Q tt s') -> wp (set_vars v') Q s.
Proof. intros [] HQ. apply HQ. by split. Qed.

Lemma wp_vars (Q : kvars -> drv -> Prop) s :
  st v ls F O R s -> Q v s -> wp (gets d_vars) Q s.
Proof. intros [] HQ. apply wp_gets. by rewrite st_vars0. Qed.

(** ** Loops *)

Lemma wp_for_range n i body (I : nat -> drv -> Prop) (Q : unit -> drv -> Prop) s :
  I 0%nat s ->
  (forall j s, (j < n)%nat -> I j s -> wp (body (i + Z.of_nat j)) (fun _ => I (S j)) s) ->
  (forall s, I n s -> Q tt s) -> wp (for_range n i body) Q s.
Proof.
  revert i I s. induction n as [|n IH]; intros i I s Hs Hb HQ; simpl; [by apply HQ|].
  apply wp_bind. eapply wp_mono.
  - specialize (Hb 0%nat s ltac:(lia) Hs). by rewrite Z.add_0_r in Hb.
  - intros [] s' Hs'. apply (IH (i + 1) (fun j => I (S j))); [done| |done].
    intros j s1 Hj Hs1. replace (i + 1 + Z.of_nat j) with (i + Z.of_nat (S j)) by lia.
    apply Hb; [lia|done].
Qed.

(** ** Allocation *)

Lemma st_new (vm : bool) o s :
  st v ls F O R s ->
  exists s', new_kobj vm o s = Some (d_next s, s') /\ st v ls F ((d_next s, (vm, o)) :: O) R s' /\
    (forall l xs, ls !! l = Some xs -> d_next s ∉ l :: xs).
Proof.
  intros Hs. pose proof Hs as []. destruct (st_fresh0 (d_next s)) as [Ho Hk]; [lia|].
  eexists. split; [done|]. split; [|].
  - split; cbn [d_mem d_objs d_next d_calls d_res d_vars]; try done.
    + destruct (has_node o); [|done]. by apply lists_alloc.
    + intros a Ha. destruct (has_node o); [|by auto]. cbn [k_nodes].
      unfold lst in *. rewrite lookup_insert_ne; [by apply st_free0|]. intros E.
      specialize (st_free0 _ Ha). rewrite <- E, Hk in st_free0. done.
    + rewrite map_to_list_insert by done. by apply Permutation_skip.
    + intros a vm' o'. rewrite lookup_insert_Some. intros [[<- [= <- <-]]|[Hne Ha]].
      * destruct (has_node o); cbn [k_nodes]; [rewrite lookup_insert_eq; by split|].
        rewrite Hk. split; [by intros []|done].
      * rewrite <- (st_nodes0 _ _ _ Ha). destruct (has_node o); cbn [k_nodes]; [|done].
        by rewrite lookup_insert_ne.
    + intros a Ha. destruct (st_fresh0 a) as [??]; [lia|]. rewrite lookup_insert_ne by lia.
      split; [done|]. destruct (has_node o); cbn [k_nodes]; [|done]. by rewrite lookup_insert_ne by lia.
    + lia.
    + intros a x. rewrite lookup_insert_Some. intros [[<- _]|[_ Ha]]; [done|by eauto].
  - intros l xs Hl Hin. destruct (lists_lst _ _ _ _ _ st_lists0 Hl Hin) as [E _].
    unfold lst in E. by rewrite Hk in E.
Qed.

(** An allocation fails, or gives a new cell that is in no list. *)
Lemma wp_alloc (vm : nat -> Z -> bool) size o (Q : Z -> drv -> Prop) s :
  st v ls F O R s ->
  (forall s', st v ls F O R s' -> Q NULL s') ->
  (forall a n s', kalloc n size = true -> 0 < a ->
     (forall l xs, ls !! l = Some xs -> a ∉ l :: xs) ->
     st v ls F ((a, (vm n size, o)) :: O) R s' -> Q a s') ->
  wp (n ← tick; if kalloc n size then new_kobj (vm n size) o else mret NULL) Q s.
Proof.
  intros Hs Hfail Hok. apply wp_bind. eapply wp_tick; [exact Hs|]. intros n s1 Hs1.
  destruct (kalloc n size) eqn:E; [|by apply wp_ret, Hfail].
  destruct (st_new (vm n size) o s1 Hs1) as (s2 & E2 & Hs2 & Hf). unfold wp. rewrite E2.
  eapply Hok; eauto. by apply (st_next _ _ _ _ _ _ Hs1).
Qed.

(** Memory without a node, or with one that is in no list, can be freed. *)
Lemma wp_free_obj a vm o O' F' (Q : unit -> drv -> Prop) s :
  st v ls F O R s -> O ≡ₚ (a, (vm, o)) :: O' ->
  (if has_node o then F = a :: F' /\ a ∉ F' else F = F') ->
  (forall s', st v ls F' O' R s' -> Q tt s') -> wp (free_obj a) Q s.
Proof.
  intros Hs HO HF HQ. pose proof (st_perm _ _ _ _ _ _ R s Hs HO ltac:(done)) as Hs'.
  assert (d_objs s !! a = Some (vm, o)) as Ha by (apply (st_lookup _ _ _ _ _ _ _ _ Hs'); by left).
  apply wp_modify, HQ. pose proof (st_nodes _ _ _ _ _ _ Hs' _ _ _ Ha) as Hnode.
  destruct Hs'. split; cbn [d_mem d_objs d_next d_calls d_res d_vars]; try done.
  - destruct (has_node o).
    + destruct HF as [-> _]. apply lists_dealloc; [done|]. apply st_free0. by left.
    + rewrite delete_id; [by destruct (d_mem s)|]. apply eq_None_not_Some. rewrite Hnode. done.
  - intros b Hb. unfold lst. cbn [k_nodes]. rewrite lookup_delete_ne.
    + apply st_free0. destruct (has_node o); [destruct HF as [-> _]; by right|by subst].
    + intros <-. destruct (has_node o); [by destruct HF|]. subst. specialize (st_free0 _ Hb).
      unfold lst in st_free0. destruct (k_nodes (d_mem s) !! a); [|done]. destruct Hnode as [Hx _]. by discriminate Hx.
  - by eapply objs_delete.
  - intros b vm' o' [Hne Hb]%lookup_delete_Some. cbn [k_nodes]. rewrite lookup_delete_ne by done.
    by eapply st_nodes0.
  - intros b Hb. destruct (st_fresh0 b Hb). cbn [k_nodes]. split; apply lookup_delete_None; auto.
  - intros b x [_ Hb]%lookup_delete_Some. eauto.
Qed.

Lemma wp_kvfree a vm o O' F' (Q : unit -> drv -> Prop) s :
  st v ls F O R s -> O ≡ₚ (a, (vm, o)) :: O' ->
  (if has_node o then F = a :: F' /\ a ∉ F' else F = F') ->
  (forall s', st v ls F' O' R s' -> Q tt s') -> wp (kvfree a) Q s.
Proof.
  intros Hs HO HF HQ. pose proof (st_perm _ _ _ _ _ _ R s Hs HO ltac:(done)) as Hs'.
  assert (0 < a) by (eapply st_pos_in; [exact Hs'|by left]).
  unfold kvfree. rewrite decide_False by (unfold NULL; lia). apply wp_bind, wp_gets.
  assert (d_objs s !! a = Some (vm, o)) as -> by (apply (st_lookup _ _ _ _ _ _ _ _ Hs'); by left).
  by eapply wp_free_obj.
Qed.

Lemma wp_kfree a o O' F' (Q : unit -> drv -> Prop) s :
  st v ls F O R s -> O ≡ₚ (a, (false, o)) :: O' ->
  (if has_node o then F = a :: F' /\ a ∉ F' else F = F') ->
  (forall s', st v ls F' O' R s' -> Q tt s') -> wp (kfree a) Q s.
Proof.
  intros Hs HO HF HQ. pose proof (st_perm _ _ _ _ _ _ R s Hs HO ltac:(done)) as Hs'.
  assert (0 < a) by (eapply st_pos_in; [exact Hs'|by left]).
  unfold kfree. rewrite decide_False by (unfold NULL; lia). apply wp_bind, wp_gets.
  assert (d_objs s !! a = Some (false, o)) as -> by (apply (st_lookup _ _ _ _ _ _ _ _ Hs'); by left).
  by eapply wp_free_obj.
Qed.

(** ** Lists *)

Lemma wp_on_mem {A} (m : M kmem A) (P : A -> kmem -> Prop) (Q : A -> drv -> Prop) s :
  wp m P (d_mem s) ->
  (forall x k, P x k -> Q x (mk_drv k (d_objs s) (d_next s) (d_calls s) (d_res s) (d_vars s))) ->
  wp (on_mem m) Q s.
Proof. unfold wp, on_mem. destruct (m (d_mem s)) as [[x k]|]; [|done]. auto. Qed.

(** Allocation and freedom of nodes only depend on which nodes there are. *)
Lemma st_mem ls' F' s k :
  st v ls F O R s -> lists k ls' -> (forall a, a ∈ F' -> lst (k_nodes k) a = Some NULL) ->
  (forall a, is_Some (k_nodes k !! a) <-> is_Some (k_nodes (d_mem s) !! a)) ->
  st v ls' F' O R (mk_drv k (d_objs s) (d_next s) (d_calls s) (d_res s) (d_vars s)).
Proof.
  intros [] Hk HF Hdom. split; cbn [d_mem d_objs d_next d_calls d_res d_vars]; try done.
  - intros a vm o Ha. rewrite Hdom. by eapply st_nodes0.
  - intros a Ha. destruct (st_fresh0 a Ha) as [? Hn]. split; [done|].
    apply eq_None_not_Some. rewrite Hdom, Hn. by intros [].
Qed.

Lemma lst_dom k k' e :
  (forall p, p <> e -> lst k' p = lst k p) -> is_Some (lst k' e) -> is_Some (lst k e) ->
  forall a, is_Some (k' !! a) <-> is_Some (k !! a).
Proof.
  intros Hp He' He a. assert (forall m : gmap Z list_node, is_Some (m !! a) <-> is_Some (lst m a)) as Hl.
  { intros m. unfold lst. by rewrite fmap_is_Some. }
  rewrite !Hl. destruct (decide (a = e)) as [->|Hne]; [tauto|]. by rewrite Hp.
Qed.

Lemma wp_on_mem_read {A} (m : M kmem A) (P : A -> Prop) (Q : A -> drv -> Prop) s :
  wp m (fun x k => P x /\ k = d_mem s) (d_mem s) -> (forall x, P x -> Q x s) -> wp (on_mem m) Q s.
Proof.
  intros Hm HQ. eapply wp_on_mem; [exact Hm|]. intros x k [Hx ->]. destruct s. by apply HQ.
Qed.

Lemma wp_first l xs (Q : Z -> drv -> Prop) s :
  st v ls F O R s -> ls !! l = Some xs -> Q (default NULL (head xs)) s ->
  wp (on_mem (list_next (list_head l))) Q s.
Proof.
  intros Hs Hl HQ. apply (wp_on_mem_read _ (fun x => x = default NULL (head xs))).
  - by eapply (wp_list_first _ ls l xs); [eapply st_lists| |].
  - by intros x ->.
Qed.

Lemma wp_next l us a vs (Q : Z -> drv -> Prop) s :
  st v ls F O R s -> ls !! l = Some (us ++ a :: vs) -> Q (default NULL (head vs)) s ->
  wp (on_mem (list_next a)) Q s.
Proof.
  intros Hs Hl HQ. apply (wp_on_mem_read _ (fun x => x = default NULL (head vs))).
  - by eapply (wp_list_after _ ls l us a vs); [eapply st_lists| |].
  - by intros x ->.
Qed.

(** Every element of a list is an address. *)
Lemma st_not_null l xs s : st v ls F O R s -> ls !! l = Some xs -> NULL ∉ xs.
Proof.
  intros Hs Hl. pose proof (lists_ring _ _ (st_lists _ _ _ _ _ _ Hs) _ _ Hl) as Hr.
  pose proof (ring_null _ _ _ Hr). set_solver.
Qed.
Lemma st_nodup l xs s : st v ls F O R s -> ls !! l = Some xs -> NoDup xs.
Proof.
  intros Hs Hl. pose proof (lists_ring _ _ (st_lists _ _ _ _ _ _ Hs) _ _ Hl) as Hr.
  by pose proof (ring_nodup _ _ _ Hr) as [_ ?]%NoDup_cons.
Qed.
Lemma st_fuel l xs s : st v ls F O R s -> ls !! l = Some xs -> (length xs < S (size (k_nodes (d_mem s))))%nat.
Proof.
  intros Hs Hl. pose proof (ring_length _ _ _ (lists_ring _ _ (st_lists _ _ _ _ _ _ Hs) _ _ Hl)). lia.
Qed.

(** Searching a list finds its first element that passes. *)
Lemma wp_find_from (p : Z -> bool) test l us vs fuel (Q : Z -> drv -> Prop) s :
  st v ls F O R s -> ls !! l = Some (us ++ vs) -> (length vs < fuel)%nat ->
  (forall a, a ∈ vs -> wp (test a) (fun b s' => b = p a /\ s' = s) s) ->
  Q (default NULL (List.find p vs)) s -> wp (find_from fuel test (default NULL (head vs))) Q s.
Proof.
  intros Hs. revert us fuel. induction vs as [|a vs IH]; intros us [|fuel] Hl Hf Ht HQ; simpl in Hf; try lia.
  - done.
  - pose proof (st_not_null _ _ _ Hs Hl) as Hn. cbn [find_from head default]. unfold id.
    rewrite decide_False by set_solver.
    apply wp_bind. eapply wp_mono; [apply Ht; by left|]. intros b s' [-> ->].
    simpl in HQ. destruct (p a); [by apply wp_ret|]. apply wp_bind. eapply wp_next; [exact Hs|exact Hl|].
    apply (IH (us ++ [a])); [by rewrite <- app_assoc|lia| |done]. intros x Hx. apply Ht. by right.
Qed.

Lemma wp_find_in (p : Z -> bool) test l xs (Q : Z -> drv -> Prop) s :
  st v ls F O R s -> ls !! l = Some xs ->
  (forall a, a ∈ xs -> wp (test a) (fun b s' => b = p a /\ s' = s) s) ->
  Q (default NULL (List.find p xs)) s -> wp (find_in l test) Q s.
Proof.
  intros Hs Hl Ht HQ. apply wp_bind, wp_bind, wp_gets, wp_ret, wp_bind.
  eapply wp_first; [exact Hs|exact Hl|].
  eapply (wp_find_from p _ l []); [exact Hs|exact Hl|by eapply st_fuel|done..].
Qed.
End rules.

Section list_rules.
Context `{Kernel}.
Context {v : kvars} {ls : gmap Z (list Z)} {F : list Z} {O : list cell} {R : list kres}.

Lemma wp_node_init a vm o (Q : unit -> drv -> Prop) s :
  st v ls F O R s -> (a, (vm, o)) ∈ O -> has_node o = true ->
  (forall l xs, ls !! l = Some xs -> a ∉ l :: xs) ->
  (forall s', st v ls (a :: F) O R s' -> Q tt s') -> wp (on_mem (list_node_init a)) Q s.
Proof.
  intros Hs Ha Hn Hl HQ. pose proof Ha as Ha'. apply (st_lookup _ _ _ _ _ _ _ _ Hs) in Ha'.
  destruct (proj2 (st_nodes _ _ _ _ _ _ Hs _ _ _ Ha') Hn) as [n Hnode].
  eapply wp_on_mem; [by eapply wp_list_node_init; [eapply st_lists| |]|].
  intros [] k (Hk & Hnull & Hlst). apply HQ. eapply st_mem; [exact Hs|done| |].
  - intros x [->|Hx]%elem_of_cons; [done|]. destruct (decide (x = a)) as [->|Hne]; [done|].
    rewrite Hlst by done. by apply (st_free _ _ _ _ _ _ Hs).
  - eapply lst_dom; [exact Hlst|by rewrite Hnull|]. unfold lst. by rewrite Hnode.
Qed.

Lemma wp_insert l xs a (Q : unit -> drv -> Prop) s :
  st v ls (a :: F) O R s -> a ∉ F -> ls !! l = Some xs -> a <> NULL ->
  (forall s', st v (<[l := xs ++ [a]]> ls) F O R s' -> Q tt s') -> wp (on_mem (list_insert l a)) Q s.
Proof.
  intros Hs HaF Hl Ha HQ. pose proof (st_free _ _ _ _ _ _ Hs a ltac:(by left)) as Hf.
  eapply wp_on_mem; [by eapply wp_list_insert; [eapply st_lists| | |]|].
  intros [] k (Hk & Hlst). apply HQ. eapply st_mem; [exact Hs|done| |].
  { intros x Hx. rewrite Hlst by (by intros ->). apply (st_free _ _ _ _ _ _ Hs). by right. }
  eapply lst_dom; [exact Hlst| |by rewrite Hf].
  destruct (lists_lst _ _ l (xs ++ [a]) a Hk) as [-> _]; [apply lookup_insert_eq|set_solver|done].
Qed.

Lemma wp_remove l us a vs (Q : unit -> drv -> Prop) s :
  st v ls F O R s -> ls !! l = Some (us ++ a :: vs) ->
  (forall s', st v (<[l := us ++ vs]> ls) (a :: F) O R s' -> Q tt s') -> wp (on_mem (list_remove a)) Q s.
Proof.
  intros Hs Hl HQ.
  destruct (lists_lst _ _ _ _ a (st_lists _ _ _ _ _ _ Hs) Hl) as [Ha _]; [set_solver|].
  eapply wp_on_mem; [by eapply wp_list_remove; [eapply st_lists|]|].
  intros [] k (Hk & Hnull & Hlst). apply HQ. eapply st_mem; [exact Hs|done| |].
  - intros x [->|Hx]%elem_of_cons; [done|]. destruct (decide (x = a)) as [->|Hne]; [done|].
    rewrite Hlst by done. by apply (st_free _ _ _ _ _ _ Hs).
  - eapply lst_dom; [exact Hlst|by rewrite Hnull|by rewrite Ha].
Qed.

Lemma wp_remove_free a (Q : unit -> drv -> Prop) s :
  st v ls (a :: F) O R s -> Q tt s -> wp (on_mem (list_remove a)) Q s.
Proof.
  intros Hs HQ. apply (wp_on_mem_read _ (fun _ => True)); [|by intros []].
  apply wp_list_remove_free; [|done]. apply (st_free _ _ _ _ _ _ Hs). by left.
Qed.
End list_rules.

(** Steps of a proof about code: [knext s Hs] goes on from the state a rule gives. *)
Ltac knext s Hs :=
  let s' := fresh "s" in
  let Hs' := fresh "Hs" in
  intros s' Hs'; clear dependent s; rename s' into s; rename Hs' into Hs.
Ltac kload Hs := apply wp_bind; eapply wp_kload; [exact Hs|in_list|reflexivity|].
Ltac kstore s Hs := eapply wp_kstore; [exact Hs|pull|reflexivity|]; knext s Hs.
Ltac kgive s Hs := eapply wp_give_back; [exact Hs|pull|]; knext s Hs.
Ltac kacquire s Hs := eapply wp_acquire; [exact Hs|]; knext s Hs.
Ltac ktick s Hs n := apply wp_bind; eapply wp_tick; [exact Hs|]; intros n; knext s Hs.
