(* ===== verification/DrvProofs.v ===== *)
(** * The functions of the kernel module and what they own

    What the kernel promises ([KernelOk]), the failures the module does not survive ([Benign]),
    and for each function of map.c and ctrl.c how it changes the memory and the resources that
    DrvOwn.v keeps track of. *)
From stdpp Require Import prelude gmap list.
From Stdlib Require Import ZArith Lia.
From S2P Require Import Prelude NvmTypes DrvList DrvSg DrvState DrvMap DrvPci DrvOwn.
Local Open Scope Z_scope.

(** Documented behaviour of the kernel, the NVIDIA driver and the DMA layer. *)
Class KernelOk `{Kernel} := {
  ok_shift : 12 <= page_shift < 32;
  ok_alloc : forall n size, kalloc n size = true -> size < 2 ^ 31;   (* kvmalloc: at most INT_MAX *)
  ok_kvm : forall n size, kvm n size = true -> PAGE_SIZE < size;     (* no vmalloc below a page *)
  ok_gup_err : forall n a k e, get_user_pages n a k = inl e -> e < 0;
  ok_gup : forall n a k l, get_user_pages n a k = inr l -> l <> [];
  ok_p2p_err : forall n a len e, p2p_get_pages n a len = inl e -> e < 0;
  ok_p2p : forall n a len t, p2p_get_pages n a len = inr t -> 0 < t /\ p2p_entries t * GPU_PAGE_SIZE = len;
  ok_p2p_map_err : forall n d t e, p2p_dma_map n d t = inl e -> e < 0;
  ok_p2p_map : forall n d t mp, p2p_dma_map n d t = inr mp ->
    0 < mp /\ Z.of_nat (length (p2p_addresses mp)) = p2p_entries t;
  ok_dma_buf_map : forall n a, dma_buf_map n a <> NULL;
  ok_sgt : forall t, Forall sg_ok (sgt_entries t);
  ok_dreq : forall n arg d, user_dmabuf n arg = Some d -> fits 64 (dmabuf_size d) /\ fits 64 (dmabuf_offset d);
  ok_call : forall n, kcall n <= 0;
  ok_pointer : forall n, kpointer n <> NULL;
}.

(** Failures the module does not survive; each is shown in DrvCases.v. *)
Class Benign `{Kernel} := {
  b_gup : forall n a k e, get_user_pages n a k = inl e -> k * 8 <= PAGE_SIZE;
  b_dma : forall n d p, is_Some (dma_map_page n d p);
  b_dmabuf : forall n fd, 0 < dma_buf_get n fd;
  b_attach : forall n b d, 0 < dma_buf_attach n b d;
  b_request : forall n arg r, user_map n arg = Some r -> n_pages r < 2 ^ 60;
  b_param : max_ctrls_param <= max_num_ctrls;
}.

(** The controllers at the addresses [cs] have the devices [ps]. *)
Definition ctrls (O : list cell) (cs ps : list Z) : Prop :=
  Forall2 (fun a p => exists vm c, (a, (vm, KCtrl c)) ∈ O /\ ct_pdev c = p) cs ps.

(** What a mapping at [a] owns; [ps] are the devices of the controllers, in order. *)
Inductive own_map `{Kernel} (ps : list Z) (a : Z) : list cell -> list kres -> Prop :=
  | own_plain vm m :
      mp_data m = NULL -> own_map ps a [(a, (vm, KMap m))] []
  | own_user vm m vm' pages n :
      mp_data m <> NULL -> mp_release m = Some RELEASE_USER_PAGES -> mp_n_addrs m = Z.of_nat n ->
      (n <= length (mp_addrs m))%nat -> (n <= length pages)%nat ->
      own_map ps a [(a, (vm, KMap m)); (mp_data m, (vm', KPages pages))]
        ((RDma (mp_pdev m) <$> take n (mp_addrs m)) ++ (RPage <$> take n pages))
  | own_gpu vm m gd mappings table ms :
      mp_data m = gd -> mp_release m = Some RELEASE_GPU_MEMORY -> mp_ctrl_list m = ctrl_list ->
      (length ms <= length ps)%nat -> (length ps <= Z.to_nat max_num_ctrls)%nat -> Forall (fun x => x <> NULL) ms ->
      0 <= table ->
      own_map ps a
        [(a, (vm, KMap m)); (gd, (false, KGpu (mk_gd table mappings)));
         (mappings, (false, KMappings (ms ++ replicate (Z.to_nat max_num_ctrls - length ms) NULL)))]
        (zip_with (fun d => RP2pMapping d table) (take (length ms) ps) ms ++
         (if decide (table = NULL) then [] else [RP2pPages (mp_vaddr m) table]))
  | own_dmabuf vm m data dmabuf attachment sgt :
      mp_data m = data -> mp_release m = Some RELEASE_DMABUF_MEMORY ->
      0 < dmabuf -> 0 < attachment -> 0 < sgt ->
      own_map ps a [(a, (vm, KMap m)); (data, (false, KDmabuf (mk_dr dmabuf attachment sgt)))]
        [RDmabuf dmabuf; RAttach dmabuf attachment; RPin attachment; RSgt attachment sgt].

Section proofs.
Context `{KernelOk}.
Context {v : kvars}.

Lemma page_size_pos : 2 ^ 12 <= PAGE_SIZE < 2 ^ 32.
Proof.
  unfold PAGE_SIZE. pose proof ok_shift. split; [apply Z.pow_le_mono_r; lia|]. apply Z.pow_lt_mono_r; lia.
Qed.

(** ** Descriptors *)

(** A fresh descriptor, with room for exactly its addresses. *)
Definition new_map (current vaddr pdev n : Z) : kmap :=
  mk_kmap current vaddr junk pdev 0 NULL None n 0 (replicate (Z.to_nat n) 0).

Lemma wp_create_descriptor ls F O R current ctrl vmc c vaddr n (Q : Z -> drv -> Prop) s :
  st v ls F O R s -> (ctrl, (vmc, KCtrl c)) ∈ O -> 1 <= n < 2 ^ 60 ->
  (forall s', st v ls F O R s' -> Q (- ENOMEM) s') ->
  (forall a vm s', 0 < a -> n < 2 ^ 28 ->
     st v ls (a :: F) ((a, (vm, KMap (new_map current vaddr (ct_pdev c) n))) :: O) R s' -> Q a s') ->
  wp (create_descriptor current ctrl vaddr n) Q s.
Proof.
  intros Hs Hc Hn Hfail Hok. unfold create_descriptor, sizeof_map, offsetof_addrs.
  assert (u64 (104 + u64 (u64 (n - 1) * 8)) = 96 + n * 8) as ->.
  { rewrite (wrap_small 64 (n - 1)) by (unfold fits; lia).
    rewrite (wrap_small 64 ((n - 1) * 8)) by (unfold fits; lia).
    rewrite wrap_small by (unfold fits; lia). lia. }
  replace ((96 + n * 8 - 96) / 8) with n by (replace (96 + n * 8 - 96) with (n * 8) by lia; by rewrite Z.div_mul).
  apply wp_bind. eapply wp_alloc; [exact Hs|knext s Hs; by apply Hfail|].
  intros a k s' Hk Ha Hfresh. revert s'. knext s Hs. apply ok_alloc in Hk.
  rewrite decide_False by (unfold NULL; lia). rewrite decide_False by lia.
  apply wp_bind. eapply wp_node_init; [exact Hs|in_list|done|done|]. knext s Hs.
  kload Hs. rewrite decide_True by lia. apply wp_bind. kstore s Hs. apply wp_ret.
  rewrite Nat.sub_diag in Hs. cbn [replicate] in Hs. rewrite app_nil_r in Hs. eapply Hok; [done|lia|exact Hs].
Qed.

(** ** Host memory *)

Lemma wp_acquire_pages ls F O R pages (Q : unit -> drv -> Prop) s :
  st v ls F O R s -> (forall s', st v ls F O ((RPage <$> pages) ++ R) s' -> Q tt s') ->
  wp (acquire_pages pages) Q s.
Proof.
  revert R s Q. induction pages as [|p pages IH]; intros R s Q Hs HQ; simpl; [by apply HQ|].
  apply wp_bind. kacquire s Hs. eapply IH; [exact Hs|]. knext s Hs.
  apply HQ. eapply st_perm; [exact Hs|done|]. simpl. perm.
Qed.

(** The bus addresses [addrs] of the pages [pages] for a device. *)
Definition dma_of (pdev : Z) (pages addrs : list Z) : Prop :=
  Forall2 (fun p a => exists n, dma_map_page n pdev p = Some a) pages addrs.

Lemma wp_dma_map_pages `{!Benign} ls F O R map vm m pages done rest (Q : Z -> drv -> Prop) s :
  st v ls F ((map, (vm, KMap m)) :: O) R s -> mp_addrs m = done ++ rest ->
  (length pages <= length rest)%nat ->
  (forall addrs s', dma_of (mp_pdev m) pages addrs ->
     st v ls F ((map, (vm, KMap (mp_set_addrs m (done ++ addrs ++ drop (length pages) rest)))) :: O)
       ((RDma (mp_pdev m) <$> addrs) ++ R) s' -> Q 0 s') ->
  wp (dma_map_pages map pages (Z.of_nat (length done))) Q s.
Proof.
  revert m done rest R s Q. induction pages as [|p pages IH]; intros m done rest R s Q Hs Hm Hl HQ.
  - apply wp_ret, (HQ []); [constructor|]. simpl. rewrite drop_0, <- Hm. by destruct m.
  - destruct rest as [|r rest]; simpl in Hl; [lia|]. cbn [dma_map_pages]. kload Hs. ktick s Hs n.
    destruct (b_dma n (mp_pdev m) p) as [addr Hd]. rewrite Hd.
    apply wp_bind. kacquire s Hs. apply wp_bind. rewrite Hm, array_set_snoc. apply wp_ret, wp_bind.
    kstore s Hs.
    replace (Z.of_nat (length done) + 1) with (Z.of_nat (length (done ++ [addr]))) by (rewrite length_app; simpl; lia).
    eapply (IH _ (done ++ [addr]) rest); [exact Hs|simpl; by rewrite <- app_assoc|lia|].
    intros addrs s' Hdma Hs'. apply (HQ (addr :: addrs)).
    + constructor; [eauto|done].
    + cbn [length drop fmap list_fmap app mp_pdev mp_set_addrs] in *. rewrite <- app_assoc in Hs'.
      eapply st_perm; [exact Hs'|done|]. perm.
Qed.

(** The pages [got] for [n] pages at an address. *)
Definition pages_of (vaddr n : Z) (got : list Z) : Prop :=
  exists k l, get_user_pages k vaddr n = inr l /\ got = take (Z.to_nat n) l.

(** A mapping of the pages [got]. *)
Definition user_map_of (m : kmap) (data : Z) (got addrs : list Z) : kmap :=
  mp_set_addrs (mp_set_data (mp_set_page_size (mp_set_n_addrs m (Z.of_nat (length got))) PAGE_SIZE)
    data (Some RELEASE_USER_PAGES)) (addrs ++ drop (length got) (mp_addrs m)).

Lemma wp_map_user_pages `{!Benign} ls F O R map vm m n (Q : Z -> drv -> Prop) s :
  st v ls F ((map, (vm, KMap m)) :: O) R s ->
  mp_n_addrs m = Z.of_nat n -> length (mp_addrs m) = n -> (1 <= n)%nat ->
  (forall e s', e < 0 -> st v ls F ((map, (vm, KMap m)) :: O) R s' -> Q e s') ->
  (forall data vm' got addrs s', 0 < data -> got <> [] -> (length got <= n)%nat ->
     pages_of (mp_vaddr m) (mp_n_addrs m) got -> dma_of (mp_pdev m) got addrs ->
     st v ls F ((map, (vm, KMap (user_map_of m data got addrs))) ::
        (data, (vm', KPages (got ++ replicate (n - length got) NULL))) :: O)
       ((RDma (mp_pdev m) <$> addrs) ++ (RPage <$> got) ++ R) s' -> Q 0 s') ->
  wp (map_user_pages map) Q s.
Proof.
  intros Hs Hn Hlen Hn1 Hfail Hok. unfold map_user_pages. kload Hs. rewrite Hn, Nat2Z.id.
  apply wp_bind. eapply wp_alloc; [exact Hs|knext s Hs; by apply Hfail|].
  intros data k s' Hk Hd _. revert s'. knext s Hs. rewrite decide_False by (unfold NULL; lia).
  ktick s Hs k'. destruct (get_user_pages k' (mp_vaddr m) (Z.of_nat n)) as [e|l] eqn:E.
  - apply wp_bind. eapply wp_acquire_pages; [exact Hs|]. knext s Hs. apply wp_bind. kstore s Hs.
    pose proof (ok_gup_err _ _ _ _ E). rewrite decide_True by lia. apply wp_bind.
    assert (kvm k (Z.of_nat n * 8) = false) as Hvm.
    { destruct (kvm k (Z.of_nat n * 8)) eqn:Hv; [|done]. apply ok_kvm in Hv. apply b_gup in E. lia. }
    rewrite Hvm in Hs. eapply wp_kfree; [exact Hs|pull|done|]. knext s Hs. apply wp_ret. by apply Hfail.
  - pose proof (ok_gup _ _ _ _ E). set (got := take n l).
    assert (got <> []) as Hgot by (subst got; destruct l, n; simpl; (done || lia)).
    assert (length got <= n)%nat by (subst got; rewrite length_take; lia).
    apply wp_bind. eapply wp_acquire_pages; [exact Hs|]. knext s Hs. apply wp_bind. kstore s Hs.
    rewrite decide_False by (destruct got; simpl; (done || lia)). apply wp_bind. kstore s Hs.
    eapply (wp_dma_map_pages _ _ _ _ _ _ _ _ [] (mp_addrs m)); [exact Hs|done|lia|].
    intros addrs s' Hdma. revert s'. knext s Hs. eapply Hok; [exact Hd|done|done| |exact Hdma|exact Hs].
    exists k', l. rewrite Hn, Nat2Z.id. done.
Qed.

Lemma wp_release_user ls F O R map vm m vm' pages n (Q : unit -> drv -> Prop) s :
  st v ls F ((map, (vm, KMap m)) :: (mp_data m, (vm', KPages pages)) :: O)
    ((RDma (mp_pdev m) <$> take n (mp_addrs m)) ++ (RPage <$> take n pages) ++ R) s ->
  mp_n_addrs m = Z.of_nat n -> (n <= length (mp_addrs m))%nat -> (n <= length pages)%nat ->
  (forall s', st v ls F ((map, (vm, KMap (mp_set_data m NULL (mp_release m)))) :: O) R s' -> Q tt s') ->
  wp (release_user_pages map) Q s.
Proof.
  intros Hs Hn Ha Hp HQ. unfold release_user_pages. kload Hs. rewrite Hn, Nat2Z.id.
  set (O' := (map, (vm, KMap m)) :: (mp_data m, (vm', KPages pages)) :: O) in *.
  apply wp_bind, (wp_for_range _ _ _ (fun j => st v ls F O'
    ((RDma (mp_pdev m) <$> drop j (take n (mp_addrs m))) ++ (RPage <$> take n pages) ++ R))).
  { by rewrite drop_0. }
  { clear s Hs. intros j s Hj Hs. rewrite Z.add_0_l.
    destruct (lookup_lt_is_Some_2 (mp_addrs m) j) as [addr Haddr]; [lia|].
    rewrite (drop_S _ addr j) in Hs by (by rewrite lookup_take_lt). kload Hs.
    apply wp_bind. eapply wp_of_option; [by rewrite zlookup_nat|]. kgive s Hs. exact Hs. }
  clear s Hs. intros s Hs. rewrite drop_ge in Hs by (rewrite length_take; lia).
  apply wp_bind, (wp_for_range _ _ _ (fun j => st v ls F O' ((RPage <$> drop j (take n pages)) ++ R))).
  { by rewrite drop_0. }
  { clear s Hs. intros j s Hj Hs. rewrite Z.add_0_l.
    destruct (lookup_lt_is_Some_2 pages j) as [page Hpage]; [lia|].
    rewrite (drop_S _ page j) in Hs by (by rewrite lookup_take_lt). kload Hs. kload Hs.
    apply wp_bind. eapply wp_of_option; [by rewrite zlookup_nat|]. kgive s Hs. exact Hs. }
  clear s Hs. intros s Hs. rewrite drop_ge in Hs by (rewrite length_take; lia).
  apply wp_bind. eapply wp_kvfree; [exact Hs|pull|done|]. knext s Hs. kload Hs. kstore s Hs.
  by apply HQ.
Qed.

(** ** CUDA memory *)

(** The mappings [ms], one for each of the devices [ps] they come first of. *)
Definition gpu_res (ps : list Z) (table : Z) (ms : list Z) : list kres :=
  zip_with (fun d => RP2pMapping d table) (take (length ms) ps) ms.

Lemma gpu_res_cons p ps table m ms :
  gpu_res (p :: ps) table (m :: ms) = RP2pMapping p table m :: gpu_res ps table ms.
Proof. done. Qed.

Lemma ctrls_mono O O' cs ps : O ⊆ O' -> ctrls O cs ps -> ctrls O' cs ps.
Proof.
  intros HO Hc. eapply Forall2_impl; [exact Hc|]. clear Hc. intros a p (vm & c & Ha & Hc). exists vm, c. split; [by apply HO|done].
Qed.

(** The loop that unmaps: [ms] are the mappings from index [j] on, followed by [r] null pointers. *)
Lemma wp_unmap_gpu ls F O R gd table mappings arr us vs ps ms r j fuel (Q : unit -> drv -> Prop) s :
  st v ls F O (gpu_res ps table ms ++ R) s -> ls !! ctrl_list = Some (us ++ vs) -> ctrls O vs ps ->
  (gd, (false, KGpu (mk_gd table mappings))) ∈ O -> (mappings, (false, KMappings arr)) ∈ O ->
  drop j arr = ms ++ replicate r NULL -> Forall (fun x => x <> NULL) ms ->
  (length ms <= length vs <= length ms + r)%nat -> (length vs < fuel)%nat ->
  (forall s', st v ls F O R s' -> Q tt s') ->
  wp (unmap_gpu fuel gd (default NULL (head vs)) (Z.of_nat j)) Q s.
Proof.
  intros Hs Hl Hc Hgd Hmp Harr Hms Hlen Hf HQ.
  revert us ps ms j fuel s Hs Hl Hc Harr Hms Hlen Hf.
  induction vs as [|x vs IH]; intros us ps ms j [|fuel] s Hs Hl Hc Harr Hms Hlen Hf; simpl in Hf, Hlen; try lia.
  - destruct ms; [|simpl in Hlen; lia]. apply HQ. unfold gpu_res in Hs.
    destruct ps; exact Hs.
  - apply Forall2_cons_inv_l in Hc as (p & ps' & (vm & c & Hx & Hp) & Hc & ->).
    pose proof (st_not_null _ _ _ Hs Hl) as Hn. cbn [unmap_gpu head default]. unfold id.
    rewrite decide_False by set_solver. kload Hs. kload Hs. kload Hs. apply wp_bind.
    assert (forall y l, drop j arr = y :: l -> arr !! j = Some y /\ drop (S j) arr = l) as Hdrop.
    { intros y l E. split; [|by rewrite <- Nat.add_1_r, <- drop_drop, E].
      rewrite <- (Nat.add_0_r j), <- lookup_drop, E. done. }
    destruct ms as [|m ms].
    + destruct r as [|r]; simpl in Hlen; [lia|]. simpl in Harr. destruct (Hdrop _ _ Harr) as [Hj _].
      eapply wp_of_option; [by rewrite zlookup_nat|]. rewrite decide_False by tauto.
      apply wp_bind, wp_ret, wp_bind. eapply wp_next; [exact Hs|exact Hl|].
      eapply (IH (us ++ [x]) ps' []); try done.
      * by rewrite <- app_assoc.
      * simpl. lia.
      * lia.
    + destruct (Hdrop _ _ Harr) as [Hj Hdr]. apply Forall_cons in Hms as [Hm Hms].
      eapply wp_of_option; [by rewrite zlookup_nat|]. rewrite decide_True by done.
      apply wp_bind, wp_bind. rewrite gpu_res_cons, <- Hp in Hs. kgive s Hs. apply wp_ret, wp_bind.
      eapply wp_next; [exact Hs|exact Hl|].
      replace (Z.of_nat j + 1) with (Z.of_nat (S j)) by lia.
      eapply (IH (us ++ [x]) ps' ms); try done.
      * by rewrite <- app_assoc.
      * simpl in Hlen. lia.
      * lia.
Qed.

Lemma wp_release_gpu ls F O R cs ps map vm m mappings table ms (Q : unit -> drv -> Prop) s :
  st v ls F ((map, (vm, KMap m)) :: (mp_data m, (false, KGpu (mk_gd table mappings))) ::
     (mappings, (false, KMappings (ms ++ replicate (Z.to_nat max_num_ctrls - length ms) NULL))) :: O)
    (gpu_res ps table ms ++ (if decide (table = NULL) then [] else [RP2pPages (mp_vaddr m) table]) ++ R) s ->
  ls !! ctrl_list = Some cs -> ctrls O cs ps -> mp_ctrl_list m = ctrl_list ->
  Forall (fun x => x <> NULL) ms ->
  (length ms <= length ps)%nat -> (length ps <= Z.to_nat max_num_ctrls)%nat ->
  (forall s', st v ls F ((map, (vm, KMap (mp_set_data m NULL (mp_release m)))) :: O) R s' -> Q tt s') ->
  wp (release_gpu_memory map) Q s.
Proof.
  intros Hs Hl Hc Hcl Hms Hle Hmax HQ. unfold release_gpu_memory, release_gpu. kload Hs.
  pose proof (st_pos_in _ _ _ _ _ _ (mp_data m) _ Hs ltac:(in_list)).
  pose proof (st_pos_in _ _ _ _ _ _ mappings _ Hs ltac:(in_list)).
  rewrite decide_True by (unfold NULL; lia). kload Hs. apply wp_bind. cbn [gd_mappings gd_pages].
  rewrite decide_True by (unfold NULL; lia).
  apply wp_bind, wp_bind, wp_gets, wp_ret, wp_bind. rewrite Hcl.
  eapply wp_first; [exact Hs|exact Hl|]. apply wp_bind.
  pose proof (Forall2_length _ _ _ Hc).
  eapply (wp_unmap_gpu _ _ _ _ _ table mappings _ [] cs ps ms (Z.to_nat max_num_ctrls - length ms) 0);
    [exact Hs|exact Hl|eapply ctrls_mono; [|exact Hc]; set_solver|in_list|in_list|done|done|lia|by eapply st_fuel|].
  knext s Hs. eapply wp_kfree; [exact Hs|pull|done|]. knext s Hs. apply wp_bind.
  eapply (wp_mono _ (fun _ => st v ls F ((map, (vm, KMap m)) :: (mp_data m, (false, KGpu (mk_gd table mappings))) :: O) R)).
  - case_decide as Ht; case_decide; try done.
    kload Hs. kgive s Hs. exact Hs.
  - clear s Hs. intros [] s Hs. apply wp_bind. eapply wp_kfree; [exact Hs|pull|done|]. knext s Hs.
    kstore s Hs. by apply HQ.
Qed.

Lemma gpu_res_snoc ps table ms p m :
  ps !! length ms = Some p ->
  gpu_res ps table (ms ++ [m]) = gpu_res ps table ms ++ [RP2pMapping p table m].
Proof.
  intros Hp. unfold gpu_res. rewrite length_app, Nat.add_1_r, (take_S_r _ _ p) by done.
  rewrite zip_with_app by (rewrite length_take_le; [done|]; apply lookup_lt_Some in Hp; lia). done.
Qed.

(** The addresses of a mapping once the controllers have the mappings [ms]. *)
Definition gpu_addrs (m : kmap) (ms : list Z) : list Z :=
  match ms with
  | [] => mp_addrs m
  | mp :: _ => take (Z.to_nat (mp_n_addrs m)) (p2p_addresses mp) ++ drop (Z.to_nat (mp_n_addrs m)) (mp_addrs m)
  end.

(** The cells of a mapping of GPU memory. *)
Definition gpu_cells (map : Z) (vm : bool) (m : kmap) (gd mappings table : Z) (ms : list Z) : list cell :=
  [(map, (vm, KMap m)); (gd, (false, KGpu (mk_gd table mappings)));
   (mappings, (false, KMappings (ms ++ replicate (Z.to_nat max_num_ctrls - length ms) NULL)))].

Lemma array_set_next ms k x :
  (length ms < k)%nat ->
  array_set (ms ++ replicate (k - length ms) NULL) (Z.of_nat (length ms)) x =
    Some ((ms ++ [x]) ++ replicate (k - length (ms ++ [x])) NULL).
Proof.
  intros Hk. destruct (k - length ms)%nat as [|r] eqn:E; [lia|]. simpl. rewrite array_set_snoc.
  rewrite length_app. simpl. replace (k - (length ms + 1))%nat with r by lia. by rewrite <- app_assoc.
Qed.

(** A mapping as the NVIDIA driver gives it. *)
Definition good_mapping (table mp : Z) : Prop :=
  mp <> NULL /\ Z.of_nat (length (p2p_addresses mp)) = p2p_entries table.

Lemma wp_map_gpu ls F O R map vm m gd mappings table us vs ps ms fuel (Q : Z -> drv -> Prop) s :
  st v ls F (gpu_cells map vm (mp_set_addrs m (gpu_addrs m ms)) gd mappings table ms ++ O)
    (gpu_res ps table ms ++ R) s ->
  ls !! ctrl_list = Some (us ++ vs) -> ctrls O (us ++ vs) ps -> length us = length ms ->
  (length ps <= Z.to_nat max_num_ctrls)%nat -> (length vs < fuel)%nat ->
  mp_n_addrs m = p2p_entries table -> 0 <= mp_n_addrs m <= Z.of_nat (length (mp_addrs m)) ->
  Forall (good_mapping table) ms ->
  (forall e ms' s', e <= 0 -> (e = 0 -> length ms' = length ps) -> (length ms' <= length ps)%nat ->
     Forall (good_mapping table) ms' ->
     st v ls F (gpu_cells map vm (mp_set_addrs m (gpu_addrs m ms')) gd mappings table ms' ++ O)
       (gpu_res ps table ms' ++ R) s' -> Q e s') ->
  wp (map_gpu fuel map gd (default NULL (head vs)) (Z.of_nat (length us))) Q s.
Proof.
  intros Hs Hl Hc Hus Hmax Hf Hent Hn Hms HQ. revert us ms fuel s Hs Hl Hc Hus Hf Hms.
  induction vs as [|x vs IH]; intros us ms [|fuel] s Hs Hl Hc Hus Hf Hms; simpl in Hf; try lia.
  - pose proof (Forall2_length _ _ _ Hc) as Hlen. rewrite app_nil_r in Hlen.
    apply wp_ret. apply (HQ 0 ms); [lia|lia|lia|done..].
  - pose proof (st_not_null _ _ _ Hs Hl) as Hx0. cbn [map_gpu head default]. unfold id.
    rewrite decide_False by set_solver. pose proof (Forall2_length _ _ _ Hc) as Hlen.
    rewrite length_app in Hlen. simpl in Hlen.
    destruct (Forall2_lookup_l _ _ _ (length us) x Hc) as (p & Hp & vmc & c & Hx & Hcp);
      [by rewrite lookup_app_r, Nat.sub_diag by lia|].
    unfold gpu_cells in Hs. cbn [app] in Hs. kload Hs. kload Hs. ktick s Hs n. cbn [gd_pages gd_mappings].
    destruct (p2p_dma_map n (ct_pdev c) table) as [e|mp] eqn:E.
    + apply ok_p2p_map_err in E. apply wp_ret. apply (HQ e ms); [lia|lia|lia|done|exact Hs].
    + apply ok_p2p_map in E as [Hmp Haddr]. apply wp_bind. kacquire s Hs. kload Hs. apply wp_bind.
      rewrite Hus, array_set_next by lia. apply wp_ret, wp_bind. kstore s Hs. kload Hs. apply wp_bind.
      assert (st v ls F (gpu_cells map vm (mp_set_addrs m (gpu_addrs m ms)) gd mappings table (ms ++ [mp]) ++ O)
        (gpu_res ps table (ms ++ [mp]) ++ R) s) as Hs'.
      { eapply st_perm; [exact Hs|unfold gpu_cells; perm|].
        rewrite (gpu_res_snoc _ _ _ p) by (by rewrite <- Hus). rewrite Hcp. perm. }
      clear Hs. rename Hs' into Hs.
      eapply (wp_mono _ (fun _ => st v ls F
        (gpu_cells map vm (mp_set_addrs m (gpu_addrs m (ms ++ [mp]))) gd mappings table (ms ++ [mp]) ++ O)
        (gpu_res ps table (ms ++ [mp]) ++ R))).
      * destruct ms as [|m0 ms]; [|by rewrite decide_False by (simpl; lia)].
        rewrite decide_True by done. cbn [mp_n_addrs mp_set_addrs mp_addrs gpu_addrs].
        rewrite decide_True by lia. unfold gpu_cells in *. cbn [app] in *. kstore s Hs. exact Hs.
      * clear s Hs. intros [] s Hs. apply wp_bind. eapply wp_next; [exact Hs|exact Hl|].
        replace (Z.of_nat (length ms) + 1) with (Z.of_nat (length (us ++ [x]))) by (rewrite length_app; simpl; lia).
        eapply (IH (us ++ [x]) (ms ++ [mp])); [exact Hs| | | | |].
        -- by rewrite <- app_assoc.
        -- by rewrite <- app_assoc.
        -- rewrite !length_app. simpl. lia.
        -- lia.
        -- apply Forall_app. split; [done|]. constructor; [|done]. split; [unfold NULL; lia|done].
Qed.

(** The mapping [map_gpu_memory] makes: the addresses are those of the first controller. *)
Definition gpu_map_of (m : kmap) (gd : Z) (ms : list Z) : kmap :=
  mp_set_addrs (mp_set_data (mp_set_page_size m GPU_PAGE_SIZE) gd (Some RELEASE_GPU_MEMORY)) (gpu_addrs m ms).

Lemma own_gpu_cells ps map vm m gd mappings table ms :
  mp_ctrl_list m = ctrl_list -> (length ms <= length ps)%nat -> (length ps <= Z.to_nat max_num_ctrls)%nat ->
  Forall (fun x => x <> NULL) ms -> 0 <= table ->
  own_map ps map (gpu_cells map vm (gpu_map_of m gd ms) gd mappings table ms)
    (gpu_res ps table ms ++ (if decide (table = NULL) then [] else [RP2pPages (mp_vaddr m) table])).
Proof. intros. by apply (own_gpu ps map vm (gpu_map_of m gd ms)). Qed.

Lemma wp_map_gpu_memory ls F O R cs ps map vm m n (Q : Z -> drv -> Prop) s :
  st v ls F ((map, (vm, KMap m)) :: O) R s -> ls !! ctrl_list = Some cs -> ctrls O cs ps ->
  (length ps <= Z.to_nat max_num_ctrls)%nat ->
  mp_data m = NULL -> mp_ctrl_list m = ctrl_list ->
  mp_n_addrs m = Z.of_nat n -> length (mp_addrs m) = n -> Z.of_nat n < 2 ^ 28 ->
  (forall e Oa Ra s', e < 0 -> own_map ps map Oa Ra -> st v ls F (Oa ++ O) (Ra ++ R) s' -> Q e s') ->
  (forall gd mappings table ms s', 0 < table -> length ms = length ps -> Forall (fun x => x <> NULL) ms ->
     length (gpu_addrs m ms) = n ->
     st v ls F (gpu_cells map vm (gpu_map_of m gd ms) gd mappings table ms ++ O)
       ((gpu_res ps table ms ++ [RP2pPages (mp_vaddr m) table]) ++ R) s' -> Q 0 s') ->
  wp (map_gpu_memory map ctrl_list) Q s.
Proof.
  intros Hs Hl Hc Hmax Hd Hcl Hn Hlen Hn28 Hfail Hok. unfold map_gpu_memory.
  assert (own_map ps map [(map, (vm, KMap m))] []) as Hplain by (by apply own_plain).
  apply wp_bind. eapply (wp_alloc (fun _ _ => false));
    [exact Hs|knext s Hs; rewrite decide_True by done; by eapply Hfail; [|exact Hplain|exact Hs]|].
  intros gd k s' _ Hgd _. revert s'. knext s Hs. rewrite decide_False by (unfold NULL; lia).
  apply wp_bind. eapply (wp_alloc (fun _ _ => false)); [exact Hs|knext s Hs|].
  { rewrite decide_True by done. apply wp_bind. eapply wp_kfree; [exact Hs|pull|done|]. knext s Hs.
    apply wp_ret. by eapply Hfail; [|exact Hplain|exact Hs]. }
  intros mappings k' s' _ Hmp _. revert s'. knext s Hs. rewrite decide_False by (unfold NULL; lia).
  apply wp_bind. kstore s Hs. apply wp_bind. kstore s Hs. kload Hs. apply wp_bind. kstore s Hs. ktick s Hs c.
  cbn [mp_vaddr mp_set_data mp_set_page_size mp_n_addrs].
  destruct (p2p_get_pages c (mp_vaddr m) (u64 (GPU_PAGE_SIZE * mp_n_addrs m))) as [e|table] eqn:E.
  { apply ok_p2p_err in E. apply wp_ret.
    eapply (Hfail e); [done|apply (own_gpu_cells ps map vm m gd mappings NULL []); simpl; (done || lia)|].
    eapply st_perm; [exact Hs| |done]. unfold gpu_cells. simpl.
    replace (gpu_map_of m gd []) with (mp_set_data (mp_set_page_size m GPU_PAGE_SIZE) gd (Some RELEASE_GPU_MEMORY))
      by (by destruct m). perm. }
  apply ok_p2p in E as [Ht Hent]. rewrite Hn in Hent.
  rewrite wrap_small in Hent by (unfold fits, GPU_PAGE_SIZE, GPU_PAGE_SHIFT; lia).
  assert (p2p_entries table = Z.of_nat n) as Hent' by (unfold GPU_PAGE_SIZE, GPU_PAGE_SHIFT in Hent; lia).
  apply wp_bind. kacquire s Hs. apply wp_bind. kstore s Hs.
  apply wp_bind, wp_bind, wp_gets, wp_ret, wp_bind. eapply wp_first; [exact Hs|exact Hl|]. apply wp_bind.
  set (m1 := mp_set_data (mp_set_page_size m GPU_PAGE_SIZE) gd (Some RELEASE_GPU_MEMORY)) in *.
  eapply (wp_map_gpu _ _ O (RP2pPages (mp_vaddr m) table :: R) map vm m1 gd mappings table [] cs ps []);
    [|exact Hl|exact Hc|done|done|by eapply st_fuel|simpl; lia|simpl; lia|done|].
  { eapply st_perm; [exact Hs| |done]. unfold gpu_cells. simpl.
    replace (mp_set_addrs m1 (mp_addrs m)) with m1 by (by destruct m). perm. }
  intros e ms s' He Hfull Hms Hgood. revert s'. knext s Hs.
  assert (Forall (fun x => x <> NULL) ms) as Hnn by (eapply Forall_impl; [exact Hgood|by intros ? []]).
  assert (st v ls F (gpu_cells map vm (gpu_map_of m gd ms) gd mappings table ms ++ O)
    ((gpu_res ps table ms ++ [RP2pPages (mp_vaddr m) table]) ++ R) s) as Hs'.
  { eapply st_perm; [exact Hs|done|]. perm. }
  clear Hs. rename Hs' into Hs. case_decide as Hz.
  - apply wp_ret. eapply (Hfail e); [lia|apply (own_gpu_cells ps map vm m gd mappings table ms); (done || lia)|].
    rewrite decide_False by (unfold NULL; lia). exact Hs.
  - assert (e = 0) as -> by lia. unfold gpu_cells in Hs. cbn [app] in Hs. kload Hs. apply wp_bind. kstore s Hs.
    apply wp_ret. eapply (Hok gd mappings table ms); [done|lia|done| |].
    { destruct Hgood as [|mp ms' [_ Hga] _]; simpl; [done|]. rewrite length_app, length_take, length_drop. lia. }
    unfold gpu_cells.
    replace (mp_set_n_addrs (gpu_map_of m gd ms) (p2p_entries table)) with (gpu_map_of m gd ms) in Hs; [exact Hs|].
    rewrite Hent', <- Hn. by destruct m.
Qed.

(** ** DMA-buf memory *)

(** No reservation lock is held. *)
Definition no_resv (R : list kres) : Prop := forall b, RResv b ∉ R.

Lemma wp_resv_lock ls F O R b (Q : unit -> drv -> Prop) s :
  st v ls F O R s -> RResv b ∉ R -> (forall s', st v ls F O (RResv b :: R) s' -> Q tt s') ->
  wp (dma_resv_lock b) Q s.
Proof.
  intros Hs Hb HQ. apply wp_bind, wp_gets. rewrite decide_False; [by eapply wp_acquire|].
  by rewrite (st_res _ _ _ _ _ _ Hs).
Qed.

Lemma wp_resv_held ls F O R b (Q : unit -> drv -> Prop) s :
  st v ls F O R s -> RResv b ∈ R -> Q tt s -> wp (resv_held b) Q s.
Proof.
  intros Hs Hb HQ. apply wp_bind, wp_gets. rewrite decide_True; [done|].
  by rewrite (st_res _ _ _ _ _ _ Hs).
Qed.

(** What a mapped attachment holds, and undoing it. *)
Definition dmabuf_res (dr : dmabuf_region) : list kres :=
  [RDmabuf (dr_dmabuf dr); RAttach (dr_dmabuf dr) (dr_attachment dr); RPin (dr_attachment dr);
   RSgt (dr_attachment dr) (dr_sgt dr)].

Ltac klock s Hs :=
  eapply wp_resv_lock; [exact Hs|rewrite ?not_elem_of_cons; by split_and?|]; knext s Hs.
Ltac kheld Hs := eapply wp_resv_held; [exact Hs|in_list|].

Lemma wp_unmap_unpin ls F O R dr (Q : unit -> drv -> Prop) s :
  st v ls F O (dmabuf_res dr ++ R) s -> no_resv R ->
  (forall s', st v ls F O ([RDmabuf (dr_dmabuf dr); RAttach (dr_dmabuf dr) (dr_attachment dr)] ++ R) s' -> Q tt s') ->
  wp (dma_resv_lock (dr_dmabuf dr);; unmap_attachment dr;; unpin dr;; dma_resv_unlock (dr_dmabuf dr)) Q s.
Proof.
  intros Hs HR HQ. pose proof (HR (dr_dmabuf dr)). unfold dmabuf_res in Hs. cbn [app] in Hs.
  apply wp_bind. klock s Hs. apply wp_bind, wp_bind. kheld Hs. kgive s Hs.
  apply wp_bind, wp_bind. kheld Hs. kgive s Hs. kgive s Hs. by apply HQ.
Qed.

Lemma wp_release_dmabuf ls F O R map vm m dr (Q : unit -> drv -> Prop) s :
  st v ls F ((map, (vm, KMap m)) :: (mp_data m, (false, KDmabuf dr)) :: O) (dmabuf_res dr ++ R) s ->
  no_resv R -> 0 < dr_dmabuf dr -> 0 < dr_attachment dr -> 0 < dr_sgt dr ->
  (forall s', st v ls F ((map, (vm, KMap (mp_set_data m NULL (mp_release m)))) :: O) R s' -> Q tt s') ->
  wp (release_dmabuf_memory map) Q s.
Proof.
  intros Hs HR Hb Ha Ht HQ. unfold release_dmabuf_memory. kload Hs.
  pose proof (st_pos_in _ _ _ _ _ _ (mp_data m) _ Hs ltac:(in_list)).
  rewrite decide_True by (unfold NULL; lia). kload Hs. apply wp_bind.
  rewrite !decide_True by (unfold NULL; lia).
  eapply wp_unmap_unpin; [exact Hs|done|]. knext s Hs. cbn [app] in Hs.
  apply wp_bind. kgive s Hs. apply wp_bind. kgive s Hs.
  apply wp_bind. eapply wp_kfree; [exact Hs|pull|done|]. knext s Hs. kstore s Hs. by apply HQ.
Qed.

(** The mapping [map_dmabuf_memory] makes. *)
Definition dmabuf_map_of (m : kmap) (data : Z) (addrs : list Z) : kmap :=
  mp_set_addrs (mp_set_data (mp_set_page_size m PAGE_SIZE) data (Some RELEASE_DMABUF_MEMORY)) addrs.

Lemma wp_finish_dmabuf ls F O R map vm m data dr off n (Q : Z -> drv -> Prop) s :
  st v ls F ((map, (vm, KMap m)) :: (data, (false, KDmabuf dr)) :: O) (dmabuf_res dr ++ R) s ->
  no_resv R -> length (mp_addrs m) = n -> fits 64 off ->
  (forall m' s', mp_data m' = NULL -> st v ls F ((map, (vm, KMap m')) :: O) R s' -> Q (- EINVAL) s') ->
  (forall addrs s', sg_pages (sgt_entries (dr_sgt dr)) PAGE_SIZE off n = Some addrs ->
     st v ls F ((map, (vm, KMap (dmabuf_map_of m data addrs))) :: (data, (false, KDmabuf dr)) :: O)
       (dmabuf_res dr ++ R) s' -> Q 0 s') ->
  wp (finish_dmabuf map data off (Z.of_nat n)) Q s.
Proof.
  intros Hs HR Hlen Hoff Hfail Hok. unfold finish_dmabuf. kload Hs. apply wp_bind. kstore s Hs. kload Hs. kload Hs.
  cbn [mp_addrs mp_set_data mp_set_page_size].
  assert (0 < PAGE_SIZE) as Hps by (pose proof page_size_pos; lia).
  pose proof (sg_flatten_pages (sgt_entries (dr_sgt dr)) (mp_addrs m) n PAGE_SIZE off
    Hps (ok_sgt _) Hoff ltac:(lia)) as Hf.
  destruct (sg_pages _ _ _ _) as [l|] eqn:El.
  - rewrite Hf, drop_ge, app_nil_r by lia. apply wp_bind, wp_ret, wp_bind. kstore s Hs.
    rewrite decide_False by tauto. apply wp_ret. by eapply Hok.
  - destruct Hf as (addrs & Hl & ->). apply wp_bind, wp_ret, wp_bind. kstore s Hs.
    rewrite decide_True by done.
    pose proof (HR (dr_dmabuf dr)). unfold dmabuf_res in Hs. cbn [app] in Hs.
    apply wp_bind. klock s Hs. apply wp_bind, wp_bind. kheld Hs. kgive s Hs.
    apply wp_bind, wp_bind. kheld Hs. kgive s Hs. apply wp_bind. kgive s Hs.
    apply wp_bind. kgive s Hs. apply wp_bind. kgive s Hs.
    apply wp_bind. eapply wp_kfree; [exact Hs|pull|done|]. knext s Hs. kload Hs. apply wp_bind. kstore s Hs.
    apply wp_ret. by eapply Hfail; [|exact Hs].
Qed.

Lemma wp_pin_dmabuf ls F O R map vm m data b at_ sgt0 off n (Q : Z -> drv -> Prop) s :
  st v ls F ((map, (vm, KMap m)) :: (data, (false, KDmabuf (mk_dr b at_ sgt0))) :: O)
    (RDmabuf b :: RAttach b at_ :: R) s ->
  no_resv R -> length (mp_addrs m) = n -> fits 64 off -> mp_data m = NULL ->
  (forall e m' s', e < 0 -> mp_data m' = NULL -> st v ls F ((map, (vm, KMap m')) :: O) R s' -> Q e s') ->
  (forall sgt addrs s', 0 < sgt -> sg_pages (sgt_entries sgt) PAGE_SIZE off n = Some addrs ->
     st v ls F ((map, (vm, KMap (dmabuf_map_of m data addrs))) :: (data, (false, KDmabuf (mk_dr b at_ sgt))) :: O)
       (dmabuf_res (mk_dr b at_ sgt) ++ R) s' -> Q 0 s') ->
  wp (pin_dmabuf map data off (Z.of_nat n)) Q s.
Proof.
  intros Hs HR Hlen Hoff Hd Hfail Hok. unfold pin_dmabuf. kload Hs. pose proof (HR b).
  cbn [dr_dmabuf dr_attachment dr_sgt].
  apply wp_bind. klock s Hs. apply wp_bind. kheld Hs. ktick s Hs k. apply wp_bind.
  pose proof (ok_call k). destruct (decide (kcall k = 0)) as [Hk|Hk].
  2:{ apply wp_ret, wp_bind. kgive s Hs. rewrite decide_True by done. apply wp_bind. kgive s Hs.
      apply wp_bind. kgive s Hs. apply wp_bind. eapply wp_kfree; [exact Hs|pull|done|]. knext s Hs.
      apply wp_ret. eapply Hfail; [lia|exact Hd|exact Hs]. }
  kacquire s Hs. apply wp_bind. kgive s Hs. rewrite decide_False by tauto.
  apply wp_bind. klock s Hs. apply wp_bind. kheld Hs. ktick s Hs k'. set (sgt := dma_buf_map k' at_).
  pose proof (ok_dma_buf_map k' at_). apply wp_bind. destruct (decide (IS_ERR sgt)) as [He|He].
  - apply wp_ret, wp_bind. kstore s Hs. apply wp_bind. kgive s Hs. unfold unpin. cbn [dr_dmabuf dr_attachment].
    apply wp_bind. klock s Hs. apply wp_bind, wp_bind. kheld Hs. kgive s Hs. apply wp_bind. kgive s Hs.
    apply wp_bind. kgive s Hs. apply wp_bind. kgive s Hs.
    apply wp_bind. eapply wp_kfree; [exact Hs|pull|done|]. knext s Hs.
    apply wp_ret. eapply Hfail; [exact He|exact Hd|exact Hs].
  - kacquire s Hs. apply wp_bind. kstore s Hs. apply wp_bind. kgive s Hs.
    assert (0 < sgt) by (unfold IS_ERR, NULL in *; subst sgt; lia).
    eapply (wp_finish_dmabuf _ _ O R map vm m data (mk_dr b at_ sgt));
      [eapply st_perm; [exact Hs|perm|unfold dmabuf_res; cbn [app dr_dmabuf dr_attachment dr_sgt]; perm]|done|done|done|..].
    + intros m' s'. revert s'. intros s' Hm' Hs'. by eapply Hfail; [|exact Hm'|exact Hs'].
    + intros addrs s' Hp Hs'. by eapply Hok.
Qed.

Lemma wp_map_dmabuf_memory `{!Benign} ls F O R map vm m fd off n cap (Q : Z -> drv -> Prop) s :
  st v ls F ((map, (vm, KMap m)) :: O) R s ->
  no_resv R -> length (mp_addrs m) = n -> fits 64 off -> mp_data m = NULL ->
  (forall e m' s', e < 0 -> mp_data m' = NULL -> st v ls F ((map, (vm, KMap m')) :: O) R s' -> Q e s') ->
  (forall data dr addrs s', 0 < dr_dmabuf dr -> 0 < dr_attachment dr -> 0 < dr_sgt dr ->
     sg_pages (sgt_entries (dr_sgt dr)) PAGE_SIZE off n = Some addrs -> Z.of_nat n <= cap ->
     st v ls F ((map, (vm, KMap (dmabuf_map_of m data addrs))) :: (data, (false, KDmabuf dr)) :: O)
       (dmabuf_res dr ++ R) s' -> Q 0 s') ->
  wp (map_dmabuf_memory map fd off (Z.of_nat n) cap) Q s.
Proof.
  intros Hs HR Hlen Hoff Hd Hfail Hok. unfold map_dmabuf_memory. case_decide as Hcap.
  { apply wp_ret. by eapply Hfail; [|exact Hd|exact Hs]. }
  apply wp_bind. eapply (wp_alloc (fun _ _ => false));
    [exact Hs|knext s Hs; by eapply Hfail; [|exact Hd|exact Hs]|].
  intros data k s' _ Hdata _. revert s'. knext s Hs. rewrite decide_False by (unfold NULL; lia).
  ktick s Hs k1. pose proof (b_dmabuf k1 fd). apply wp_bind. kstore s Hs.
  rewrite decide_False by (unfold IS_ERR; lia). apply wp_bind. kacquire s Hs. kload Hs. ktick s Hs k2.
  pose proof (b_attach k2 (dma_buf_get k1 fd) (mp_pdev m)). apply wp_bind. kstore s Hs.
  rewrite decide_False by (unfold IS_ERR; lia). apply wp_bind. kacquire s Hs.
  eapply wp_pin_dmabuf; [eapply st_perm; [exact Hs|apply Permutation_swap|apply Permutation_swap]|done..| |].
  - done.
  - intros sgt addrs s' Ht Hp Hs'.
    eapply Hok; [..|exact Hs']; simpl; (done || lia).
Qed.

(** ** Releasing any mapping *)

Lemma wp_drop_map ls F O R cs ps a Oa Ra (Q : unit -> drv -> Prop) s :
  st v ls (a :: F) (Oa ++ O) (Ra ++ R) s -> a ∉ F -> own_map ps a Oa Ra ->
  ls !! ctrl_list = Some cs -> ctrls O cs ps -> no_resv R ->
  (forall s', st v ls F O R s' -> Q tt s') ->
  wp (m ← kload as_kmap a;
      (match mp_release m with
       | Some r => if decide (mp_data m <> NULL) then map_release r a else mret tt
       | None => mret tt
       end);;
      kvfree a) Q s.
Proof.
  intros Hs HaF Hown Hl Hc HR HQ.
  assert (forall vm m s, st v ls (a :: F) ((a, (vm, KMap m)) :: O) R s -> wp (kvfree a) Q s) as Hfree.
  { clear s Hs Oa Ra Hown. intros vm m s Hs. eapply wp_kvfree; [exact Hs|pull|by split|done]. }
  destruct Hown as [vm m Hd|vm m vm' pages n Hd Hr Hn H1 H2|vm m gd mappings table ms Hd Hr Hcl H1 H2 H3 H4
                   |vm m data b at_ sgt Hd Hr Hb Ha Ht]; cbn [app] in Hs; kload Hs; apply wp_bind.
  - destruct (mp_release m) as [r|]; [rewrite decide_False by tauto|]; by eapply Hfree.
  - rewrite Hr, decide_True by done. rewrite <- app_assoc in Hs.
    eapply wp_release_user; [exact Hs|done..|]. intros. by eapply Hfree.
  - pose proof (st_pos_in _ _ _ _ _ _ gd _ Hs ltac:(in_list)).
    rewrite Hr, decide_True by (unfold NULL; lia). subst gd. rewrite <- app_assoc in Hs.
    eapply wp_release_gpu; [exact Hs|exact Hl|exact Hc|done..|]. intros. by eapply Hfree.
  - pose proof (st_pos_in _ _ _ _ _ _ data _ Hs ltac:(in_list)).
    rewrite Hr, decide_True by (unfold NULL; lia). subst data.
    eapply (wp_release_dmabuf _ _ _ R _ _ m (mk_dr b at_ sgt)); [exact Hs|done..|]. intros. by eapply Hfree.
Qed.

(** A mapping that is not in a list yet. *)
Lemma wp_unmap_fresh ls F O R cs ps a Oa Ra (Q : unit -> drv -> Prop) s :
  st v ls (a :: F) (Oa ++ O) (Ra ++ R) s -> a ∉ F -> own_map ps a Oa Ra ->
  ls !! ctrl_list = Some cs -> ctrls O cs ps -> no_resv R ->
  (forall s', st v ls F O R s' -> Q tt s') -> wp (unmap_and_release a) Q s.
Proof.
  intros Hs HaF Hown Hl Hc HR HQ. apply wp_bind. eapply wp_remove_free; [exact Hs|]. by eapply wp_drop_map.
Qed.

(** A mapping in a list. *)
Lemma wp_unmap_listed ls O R cs ps a Oa Ra l us vs (Q : unit -> drv -> Prop) s :
  st v ls [] (Oa ++ O) (Ra ++ R) s -> own_map ps a Oa Ra ->
  ls !! l = Some (us ++ a :: vs) -> l <> ctrl_list ->
  ls !! ctrl_list = Some cs -> ctrls O cs ps -> no_resv R ->
  (forall s', st v (<[l := us ++ vs]> ls) [] O R s' -> Q tt s') -> wp (unmap_and_release a) Q s.
Proof.
  intros Hs Hown Hl Hne Hcl Hc HR HQ. apply wp_bind. eapply wp_remove; [exact Hs|exact Hl|]. knext s Hs.
  eapply wp_drop_map; [exact Hs|apply not_elem_of_nil|done| |done..]. by rewrite lookup_insert_ne.
Qed.

(** ** Making a mapping *)

(** The end of the three functions that map memory. *)
Lemma wp_insert_ok ls F O R l xs a (Q : Z -> drv -> Prop) s :
  st v ls (a :: F) O R s -> a ∉ F -> ls !! l = Some xs -> 0 < a ->
  (forall s', st v (<[l := xs ++ [a]]> ls) F O R s' -> Q a s') -> wp (insert_or_release l a 0) Q s.
Proof.
  intros Hs HaF Hl Ha HQ. unfold insert_or_release. rewrite decide_False by tauto.
  apply wp_bind. eapply wp_insert; [exact Hs|done|exact Hl|unfold NULL; lia|]. knext s Hs. by apply wp_ret, HQ.
Qed.

Lemma wp_insert_err ls F O R l cs ps a Oa Ra e (Q : Z -> drv -> Prop) s :
  st v ls (a :: F) (Oa ++ O) (Ra ++ R) s -> a ∉ F -> own_map ps a Oa Ra ->
  ls !! ctrl_list = Some cs -> ctrls O cs ps -> no_resv R -> e < 0 ->
  (forall s', st v ls F O R s' -> Q e s') -> wp (insert_or_release l a e) Q s.
Proof.
  intros Hs HaF Hown Hl Hc HR He HQ. unfold insert_or_release. rewrite decide_True by lia.
  apply wp_bind. eapply wp_unmap_fresh; [exact Hs|done..|]. knext s Hs. by apply wp_ret, HQ.
Qed.

(** A new descriptor whose page size has been set. *)
Definition sized_map (current vaddr pdev n page_size : Z) : kmap :=
  mp_set_page_size (new_map current vaddr pdev n) page_size.

Lemma wp_new_user_map `{!Benign} ls F O R ps current ctrl vmc c vaddr n (Q : Z + Z * Z -> drv -> Prop) s :
  st v ls F O R s -> (ctrl, (vmc, KCtrl c)) ∈ O -> n < 2 ^ 60 ->
  (forall e s', e < 0 -> st v ls F O R s' -> Q (inl e) s') ->
  (forall a Oa Ra e s', e < 0 -> own_map ps a Oa Ra -> st v ls (a :: F) (Oa ++ O) (Ra ++ R) s' -> Q (inr (a, e)) s') ->
  (forall a vm data vm' got addrs s', 0 < a -> 0 < data -> got <> [] -> (length got <= Z.to_nat n)%nat ->
     pages_of (Z.land vaddr PAGE_MASK) n got -> dma_of (ct_pdev c) got addrs ->
     st v ls (a :: F)
       ([(a, (vm, KMap (user_map_of (sized_map current (Z.land vaddr PAGE_MASK) (ct_pdev c) n PAGE_SIZE) data got addrs)));
         (data, (vm', KPages (got ++ replicate (Z.to_nat n - length got) NULL)))] ++ O)
       (((RDma (ct_pdev c) <$> addrs) ++ (RPage <$> got)) ++ R) s' -> Q (inr (a, 0)) s') ->
  wp (new_user_map current ctrl vaddr n) Q s.
Proof.
  intros Hs Hctrl Hn Hfail Hbad Hok. unfold new_user_map. case_decide.
  { apply wp_ret. by eapply Hfail. }
  apply wp_bind. eapply wp_create_descriptor; [exact Hs|exact Hctrl|lia| |].
  { knext s Hs. rewrite decide_True by done. apply wp_ret. by eapply Hfail. }
  intros a vm s' Ha Hn28. revert s'. knext s Hs. rewrite decide_False by (unfold IS_ERR; lia).
  kload Hs. apply wp_bind. kstore s Hs. apply wp_bind.
  eapply (wp_map_user_pages _ _ _ _ _ _ _ (Z.to_nat n)); [exact Hs|simpl; lia|simpl; by rewrite length_replicate|lia|..].
  - intros e s' He. revert s'. knext s Hs. apply wp_ret.
    eapply (Hbad a [_] []); [done| |exact Hs]. by apply own_plain.
  - intros data vm' got addrs s' Hd Hne Hle Hp Hdma. revert s'. knext s Hs. apply wp_ret.
    eapply Hok; [exact Ha|exact Hd|done..|]. eapply st_perm; [exact Hs|apply Permutation_refl|perm].
Qed.

Lemma wp_new_device_map ls F O R cs ps current ctrl vmc c vaddr n (Q : Z + Z * Z -> drv -> Prop) s :
  st v ls F O R s -> (ctrl, (vmc, KCtrl c)) ∈ O -> n < 2 ^ 60 ->
  ls !! ctrl_list = Some cs -> ctrls O cs ps -> (length ps <= Z.to_nat max_num_ctrls)%nat ->
  (forall e s', e < 0 -> st v ls F O R s' -> Q (inl e) s') ->
  (forall a Oa Ra e s', e < 0 -> own_map ps a Oa Ra -> st v ls (a :: F) (Oa ++ O) (Ra ++ R) s' -> Q (inr (a, e)) s') ->
  (forall a vm gd mappings table ms s', 0 < a -> 1 <= n -> 0 < table -> length ms = length ps ->
     Forall (fun x => x <> NULL) ms ->
     let m := mp_set_ctrl_list (sized_map current (Z.land vaddr GPU_PAGE_MASK) (ct_pdev c) n GPU_PAGE_SIZE) ctrl_list in
     length (gpu_addrs m ms) = Z.to_nat n ->
     st v ls (a :: F)
       (gpu_cells a vm (gpu_map_of m gd ms) gd mappings table ms ++ O)
       ((gpu_res ps table ms ++ [RP2pPages (Z.land vaddr GPU_PAGE_MASK) table]) ++ R) s' -> Q (inr (a, 0)) s') ->
  wp (new_device_map current ctrl vaddr n ctrl_list) Q s.
Proof.
  intros Hs Hctrl Hn Hcl Hc Hmax Hfail Hbad Hok. unfold new_device_map. case_decide.
  { apply wp_ret. by eapply Hfail. }
  apply wp_bind. eapply wp_create_descriptor; [exact Hs|exact Hctrl|lia| |].
  { knext s Hs. rewrite decide_True by done. apply wp_ret. by eapply Hfail. }
  intros a vm s' Ha Hn28. revert s'. knext s Hs. rewrite decide_False by (unfold IS_ERR; lia).
  kload Hs. apply wp_bind. kstore s Hs. apply wp_bind.
  eapply (wp_map_gpu_memory _ _ _ _ cs ps _ _ _ (Z.to_nat n));
    [exact Hs|exact Hcl|exact Hc|done|done|done|simpl; lia|simpl; by rewrite length_replicate|lia|..].
  - intros e Oa Ra s' He Hown. revert s'. knext s Hs. apply wp_ret. by eapply Hbad.
  - intros gd mappings table ms s' Ht Hms Hnn Hga. revert s'. knext s Hs. apply wp_ret.
    eapply Hok; [done|lia|exact Ht|done|done|exact Hga|exact Hs].
Qed.

Lemma wp_new_dmabuf_map `{!Benign} ls F O R ps current ctrl vmc c gpu fd off n cap (Q : Z + Z * Z -> drv -> Prop) s :
  st v ls F O R s -> (ctrl, (vmc, KCtrl c)) ∈ O -> n < 2 ^ 60 -> fits 64 off -> no_resv R ->
  (forall e s', e < 0 -> st v ls F O R s' -> Q (inl e) s') ->
  (forall a Oa Ra e s', e < 0 -> own_map ps a Oa Ra -> st v ls (a :: F) (Oa ++ O) (Ra ++ R) s' -> Q (inr (a, e)) s') ->
  (forall a vm data dr addrs s', 0 < a -> 1 <= n <= cap -> 0 < dr_dmabuf dr -> 0 < dr_attachment dr -> 0 < dr_sgt dr ->
     sg_pages (sgt_entries (dr_sgt dr)) PAGE_SIZE off (Z.to_nat n) = Some addrs ->
     st v ls (a :: F)
       ([(a, (vm, KMap (dmabuf_map_of (sized_map current gpu (ct_pdev c) n PAGE_SIZE) data addrs)));
         (data, (false, KDmabuf dr))] ++ O)
       (dmabuf_res dr ++ R) s' -> Q (inr (a, 0)) s') ->
  wp (new_dmabuf_map current ctrl gpu fd off n cap) Q s.
Proof.
  intros Hs Hctrl Hn Hoff HR Hfail Hbad Hok. unfold new_dmabuf_map. case_decide.
  { apply wp_ret. by eapply Hfail. }
  apply wp_bind. eapply wp_create_descriptor; [exact Hs|exact Hctrl|lia| |].
  { knext s Hs. rewrite decide_True by done. apply wp_ret. by eapply Hfail. }
  intros a vm s' Ha Hn28. revert s'. knext s Hs. rewrite decide_False by (unfold IS_ERR; lia).
  kload Hs. apply wp_bind. kstore s Hs. apply wp_bind.
  replace (map_dmabuf_memory a fd off n cap) with (map_dmabuf_memory a fd off (Z.of_nat (Z.to_nat n)) cap)
    by (f_equal; lia).
  eapply wp_map_dmabuf_memory; [exact Hs|done|simpl; by rewrite length_replicate|done|done|..].
  - intros e m' s' He Hm'. revert s'. knext s Hs. apply wp_ret.
    eapply (Hbad a [_] []); [done| |exact Hs]. by apply own_plain.
  - intros data dr addrs s' Hb Hat Ht Hp Hcap. revert s'. knext s Hs. apply wp_ret.
    eapply Hok; [done|lia|exact Hb|exact Hat|exact Ht|exact Hp|exact Hs].
Qed.

(** What inserting a new mapping does when nothing else is going on. *)
Lemma wp_insert_new ls O R l xs cs ps (r : Z + Z * Z) (Q : Z -> drv -> Prop) s :
  ls !! l = Some xs -> ls !! ctrl_list = Some cs -> ctrls O cs ps -> no_resv R ->
  match r with
  | inl e => Q e s
  | inr (a, e) => exists Oa Ra, st v ls [a] (Oa ++ O) (Ra ++ R) s /\
      ((e < 0 /\ own_map ps a Oa Ra /\ forall s', st v ls [] O R s' -> Q e s') \/
       (e = 0 /\ 0 < a /\ forall s', st v (<[l := xs ++ [a]]> ls) [] (Oa ++ O) (Ra ++ R) s' -> Q a s'))
  end -> wp (insert_new l r) Q s.
Proof.
  intros Hl Hcl Hc HR. destruct r as [e|[a e]]; [by apply wp_ret|].
  intros (Oa & Ra & Hs & [(He & Hown & HQ)|(-> & Ha & HQ)]).
  - by eapply wp_insert_err; [exact Hs|apply not_elem_of_nil|..].
  - by eapply wp_insert_ok; [exact Hs|apply not_elem_of_nil|..].
Qed.

Lemma wp_map_userspace `{!Benign} ls O R l xs cs ps current ctrl vmc c vaddr n (Q : Z -> drv -> Prop) s :
  st v ls [] O R s -> (ctrl, (vmc, KCtrl c)) ∈ O -> n < 2 ^ 60 ->
  ls !! l = Some xs -> ls !! ctrl_list = Some cs -> ctrls O cs ps -> no_resv R ->
  (forall e s', e < 0 -> st v ls [] O R s' -> Q e s') ->
  (forall a vm data vm' got addrs s', 0 < a -> 0 < data -> got <> [] -> (length got <= Z.to_nat n)%nat ->
     pages_of (Z.land vaddr PAGE_MASK) n got -> dma_of (ct_pdev c) got addrs ->
     st v (<[l := xs ++ [a]]> ls) []
       ([(a, (vm, KMap (user_map_of (sized_map current (Z.land vaddr PAGE_MASK) (ct_pdev c) n PAGE_SIZE) data got addrs)));
         (data, (vm', KPages (got ++ replicate (Z.to_nat n - length got) NULL)))] ++ O)
       (((RDma (ct_pdev c) <$> addrs) ++ (RPage <$> got)) ++ R) s' -> Q a s') ->
  wp (map_userspace current l ctrl vaddr n) Q s.
Proof.
  intros Hs Hctrl Hn Hl Hcl Hc HR Hfail Hok. apply wp_bind.
  eapply (wp_new_user_map _ _ _ _ ps); [exact Hs|exact Hctrl|done|..]; intros; (eapply wp_insert_new; [exact Hl|exact Hcl|exact Hc|done|]).
  - by eapply Hfail.
  - eexists _, _. split; [eassumption|]. left. eauto.
  - eexists _, _. split; [eassumption|]. right. split_and!; [done..|]. intros. by eapply Hok.
Qed.

Lemma wp_map_device_memory ls O R l xs cs ps current ctrl vmc c vaddr n (Q : Z -> drv -> Prop) s :
  st v ls [] O R s -> (ctrl, (vmc, KCtrl c)) ∈ O -> n < 2 ^ 60 ->
  ls !! l = Some xs -> ls !! ctrl_list = Some cs -> ctrls O cs ps -> no_resv R ->
  (length ps <= Z.to_nat max_num_ctrls)%nat ->
  (forall e s', e < 0 -> st v ls [] O R s' -> Q e s') ->
  (forall a vm gd mappings table ms s', 0 < a -> 1 <= n -> 0 < table -> length ms = length ps ->
     Forall (fun x => x <> NULL) ms ->
     let m := mp_set_ctrl_list (sized_map current (Z.land vaddr GPU_PAGE_MASK) (ct_pdev c) n GPU_PAGE_SIZE) ctrl_list in
     length (gpu_addrs m ms) = Z.to_nat n ->
     st v (<[l := xs ++ [a]]> ls) []
       (gpu_cells a vm (gpu_map_of m gd ms) gd mappings table ms ++ O)
       ((gpu_res ps table ms ++ [RP2pPages (Z.land vaddr GPU_PAGE_MASK) table]) ++ R) s' -> Q a s') ->
  wp (map_device_memory current l ctrl vaddr n ctrl_list) Q s.
Proof.
  intros Hs Hctrl Hn Hl Hcl Hc HR Hmax Hfail Hok. apply wp_bind.
  eapply (wp_new_device_map _ _ _ _ cs ps); [exact Hs|exact Hctrl|done|exact Hcl|exact Hc|done|..]; intros;
    (eapply wp_insert_new; [exact Hl|exact Hcl|exact Hc|done|]).
  - by eapply Hfail.
  - eexists _, _. split; [eassumption|]. left. eauto.
  - eexists _, _. split; [eassumption|]. right. split_and!; [done..|]. intros. by eapply Hok.
Qed.

Lemma wp_map_dmabuf `{!Benign} ls O R l xs cs ps current ctrl vmc c gpu fd off n cap (Q : Z -> drv -> Prop) s :
  st v ls [] O R s -> (ctrl, (vmc, KCtrl c)) ∈ O -> n < 2 ^ 60 -> fits 64 off ->
  ls !! l = Some xs -> ls !! ctrl_list = Some cs -> ctrls O cs ps -> no_resv R ->
  (forall e s', e < 0 -> st v ls [] O R s' -> Q e s') ->
  (forall a vm data dr addrs s', 0 < a -> 1 <= n <= cap -> 0 < dr_dmabuf dr -> 0 < dr_attachment dr -> 0 < dr_sgt dr ->
     sg_pages (sgt_entries (dr_sgt dr)) PAGE_SIZE off (Z.to_nat n) = Some addrs ->
     st v (<[l := xs ++ [a]]> ls) []
       ([(a, (vm, KMap (dmabuf_map_of (sized_map current gpu (ct_pdev c) n PAGE_SIZE) data addrs)));
         (data, (false, KDmabuf dr))] ++ O)
       (dmabuf_res dr ++ R) s' -> Q a s') ->
  wp (map_dmabuf current l ctrl gpu fd off n cap) Q s.
Proof.
  intros Hs Hctrl Hn Hoff Hl Hcl Hc HR Hfail Hok. apply wp_bind.
  eapply (wp_new_dmabuf_map _ _ _ _ ps); [exact Hs|exact Hctrl|done|done|done|..]; intros;
    (eapply wp_insert_new; [exact Hl|exact Hcl|exact Hc|done|]).
  - by eapply Hfail.
  - eexists _, _. split; [eassumption|]. left. eauto.
  - eexists _, _. split; [eassumption|]. right. split_and!; [done..|]. intros. by eapply Hok.
Qed.
End proofs.
