(* ===== verification/DrvInv.v ===== *)
(** * The invariant of the kernel module

    The module's memory and resources are exactly those of its controllers and mappings.  Every
    entry point keeps this, whatever fails, and an entry point that fails leaves the controllers
    and mappings as they were. *)
From stdpp Require Import prelude gmap list.
From Stdlib Require Import ZArith Lia.
From S2P Require Import Prelude NvmTypes DrvList DrvSg DrvState DrvMap DrvPci DrvOwn DrvProofs.
Local Open Scope Z_scope.

(** ** Controllers *)
Section ctrl.
Context `{KernelOk}.
Context {v : kvars}.

Lemma wp_drv_ctrl_get ls O R l xs cls pdev number (Q : Z -> drv -> Prop) s :
  st v ls [] O R s -> ls !! l = Some xs ->
  (forall s', st v ls [] O R s' -> Q (- ENOMEM) s') ->
  (forall a s', 0 < a ->
     st v (<[l := xs ++ [a]]> ls) [] ((a, (false, KCtrl (mk_ctrl pdev number 0 cls NULL))) :: O) R s' -> Q a s') ->
  wp (ctrl_get l cls pdev number) Q s.
Proof.
  intros Hs Hl Hfail Hok. apply wp_bind. eapply (wp_alloc (fun _ _ => false)); [exact Hs|knext s Hs|].
  { rewrite decide_True by done. by apply wp_ret, Hfail. }
  intros a n s' _ Ha Hf. revert s'. knext s Hs. rewrite decide_False by (unfold NULL; lia).
  apply wp_bind. eapply wp_node_init; [exact Hs|in_list|done|done|]. knext s Hs.
  apply wp_bind. kstore s Hs. apply wp_bind.
  eapply wp_insert; [exact Hs|apply not_elem_of_nil|exact Hl|unfold NULL; lia|]. knext s Hs. by apply wp_ret, Hok.
Qed.

(** The device file of a controller. *)
Definition chrdev_res (a : Z) (c : ctrl) : list kres :=
  if decide (ct_chrdev c = NULL) then [] else [RDevice (ct_rdev c); RCdev a].

Lemma wp_drv_ctrl_put ls O R l us a c vs (Q : unit -> drv -> Prop) s :
  st v ls [] ((a, (false, KCtrl c)) :: O) (chrdev_res a c ++ R) s -> ls !! l = Some (us ++ a :: vs) ->
  (forall s', st v (<[l := us ++ vs]> ls) [] O R s' -> Q tt s') -> wp (ctrl_put a) Q s.
Proof.
  intros Hs Hl HQ. pose proof (st_pos_in _ _ _ _ _ _ a _ Hs ltac:(in_list)).
  unfold ctrl_put. rewrite decide_True by (unfold NULL; lia).
  apply wp_bind. eapply wp_remove; [exact Hs|exact Hl|]. knext s Hs. apply wp_bind.
  eapply (wp_mono _ (fun _ s => exists c', st v (<[l := us ++ vs]> ls) [a] ((a, (false, KCtrl c')) :: O) R s)).
  - unfold ctrl_chrdev_remove. kload Hs. unfold chrdev_res in Hs. case_decide as Hd.
    + rewrite decide_False by tauto. apply wp_ret. eauto.
    + rewrite decide_True by done. cbn [app] in Hs. apply wp_bind. kgive s Hs. apply wp_bind. kgive s Hs.
      kstore s Hs. eauto.
  - clear s Hs. intros [] s (c' & Hs).
    eapply wp_kfree; [exact Hs|pull|by split; [|apply not_elem_of_nil]|done].
Qed.

Lemma wp_ctrl_chrdev_create ls F O R a c first (Q : Z -> drv -> Prop) s :
  st v ls F ((a, (false, KCtrl c)) :: O) R s -> ct_chrdev c = NULL ->
  let c' d := mk_ctrl (ct_pdev c) (ct_number c) (MKDEV (MAJOR first) (MINOR first + ct_number c)) (ct_cls c) d in
  (forall e s', e < 0 -> st v ls F ((a, (false, KCtrl (c' NULL))) :: O) R s' -> Q e s') ->
  (forall d s', d <> NULL -> st v ls F ((a, (false, KCtrl (c' d))) :: O) (chrdev_res a (c' d) ++ R) s' -> Q 0 s') ->
  wp (ctrl_chrdev_create a first) Q s.
Proof.
  intros Hs Hd c' Hfail Hok. unfold ctrl_chrdev_create. kload Hs. rewrite decide_False by tauto.
  apply wp_bind. kstore s Hs. rewrite Hd in Hs. ktick s Hs n. pose proof (ok_call n). case_decide.
  { apply wp_ret. apply Hfail; [lia|done]. }
  apply wp_bind. kacquire s Hs. ktick s Hs k. pose proof (ok_pointer k). case_decide as He.
  { apply wp_bind. kgive s Hs. apply wp_ret. by apply Hfail. }
  apply wp_bind. kacquire s Hs. apply wp_bind. kstore s Hs. apply wp_ret.
  eapply (Hok (kpointer k)); [done|]. unfold chrdev_res. simpl. rewrite decide_False by done. exact Hs.
Qed.
End ctrl.

(** ** The state of the module *)

(** A mapping: its address, its memory and its resources. *)
Abbreviation mapping := (Z * (list cell * list kres))%type.

Record world := mk_world {
  w_ctrls : list (Z * ctrl);
  w_hosts : list mapping;
  w_devs : list mapping;
}.

Definition ctrl_cell (x : Z * ctrl) : cell := (x.1, (false, KCtrl x.2)).
Definition ctrl_res (x : Z * ctrl) : list kres :=
  chrdev_res x.1 x.2 ++ [RRegion (ct_pdev x.2); REnabled (ct_pdev x.2)].
Definition map_cells (x : mapping) : list cell := x.2.1.
Definition map_res (x : mapping) : list kres := x.2.2.

Definition w_pdevs (w : world) : list Z := (fun x => ct_pdev x.2) <$> w_ctrls w.
Definition w_lists (w : world) : gmap Z (list Z) :=
  <[ctrl_list := (w_ctrls w).*1]> (<[host_list := (w_hosts w).*1]> (<[device_list := (w_devs w).*1]> ∅)).
Definition w_objs (w : world) : list cell :=
  (ctrl_cell <$> w_ctrls w) ++ (w_hosts w ≫= map_cells) ++ (w_devs w ≫= map_cells).
Definition w_res (w : world) (v : kvars) : list kres :=
  (w_ctrls w ≫= ctrl_res) ++ (w_hosts w ≫= map_res) ++ (w_devs w ≫= map_res) ++
  [RDriver; RClass (v_dev_class v); RChrdevs (v_dev_first v)].

Definition map_ok `{Kernel} (ps : list Z) (x : mapping) : Prop := own_map ps x.1 (map_cells x) (map_res x).

Record world_ok `{Kernel} (w : world) (v : kvars) : Prop := {
  w_hosts_ok : Forall (map_ok (w_pdevs w)) (w_hosts w);
  w_devs_ok : Forall (map_ok (w_pdevs w)) (w_devs w);
  w_max : (length (w_ctrls w) <= Z.to_nat max_num_ctrls)%nat;
  w_curr : v_curr_ctrls v = Z.of_nat (length (w_ctrls w));
  w_nodup : NoDup (w_pdevs w);
}.

(** The module is loaded, in the state [w]. *)
Definition drv_inv `{Kernel} (w : world) (v : kvars) (s : drv) : Prop :=
  st v (w_lists w) [] (w_objs w) (w_res w v) s /\ world_ok w v.

Lemma w_lists_ctrls w : w_lists w !! ctrl_list = Some (w_ctrls w).*1.
Proof. unfold w_lists. by rewrite lookup_insert_eq. Qed.
Lemma w_lists_hosts w : w_lists w !! host_list = Some (w_hosts w).*1.
Proof. unfold w_lists. by rewrite (lookup_insert_ne _ ctrl_list), lookup_insert_eq. Qed.
Lemma w_lists_devs w : w_lists w !! device_list = Some (w_devs w).*1.
Proof. unfold w_lists. by rewrite (lookup_insert_ne _ ctrl_list), (lookup_insert_ne _ host_list), lookup_insert_eq. Qed.

Lemma own_map_no_resv `{Kernel} ps a Oa Ra : own_map ps a Oa Ra -> no_resv Ra.
Proof.
  intros Hown b Hb. destruct Hown.
  - by apply elem_of_nil in Hb.
  - apply elem_of_app in Hb as [Hb|Hb]; apply list_elem_of_fmap in Hb as (? & ? & _); done.
  - apply elem_of_app in Hb as [Hb|Hb].
    + apply elem_of_lookup_zip_with in Hb as (? & ? & ? & ? & _). done.
    + case_decide; set_solver.
  - set_solver.
Qed.

Lemma maps_no_resv `{Kernel} ps ms : Forall (map_ok ps) ms -> no_resv (ms ≫= map_res).
Proof.
  intros Hms b Hb. apply list_elem_of_bind in Hb as (x & Hb & Hx).
  rewrite Forall_forall in Hms. by eapply own_map_no_resv; [apply Hms|].
Qed.

Lemma ctrls_no_resv cs : no_resv (cs ≫= ctrl_res).
Proof.
  intros b Hb. apply list_elem_of_bind in Hb as (x & Hb & _). unfold ctrl_res, chrdev_res in Hb.
  case_decide; set_solver.
Qed.

Lemma w_no_resv `{Kernel} w v v' : world_ok w v -> no_resv (w_res w v').
Proof.
  intros [] b. unfold w_res. rewrite !elem_of_app. intros [Hb|[Hb|[Hb|Hb]]].
  - by apply ctrls_no_resv in Hb.
  - by eapply maps_no_resv in Hb.
  - by eapply maps_no_resv in Hb.
  - set_solver.
Qed.

Lemma w_ctrl_in w a c : (a, c) ∈ w_ctrls w -> (a, (false, KCtrl c)) ∈ w_objs w.
Proof. intros Hin. unfold w_objs. apply elem_of_app. left. by apply (list_elem_of_fmap_2 ctrl_cell _ (a, c)). Qed.

Lemma w_ctrl_not_null `{Kernel} w v s a c : drv_inv w v s -> (a, c) ∈ w_ctrls w -> a <> NULL.
Proof.
  intros [Hs _] Hin. pose proof (st_not_null _ _ _ Hs (w_lists_ctrls w)) as Hn. intros ->. apply Hn.
  by apply (list_elem_of_fmap_2 fst _ (NULL, c)).
Qed.

Lemma w_ctrls_in w O : w_objs w ⊆ O -> ctrls O (w_ctrls w).*1 (w_pdevs w).
Proof.
  intros HO. unfold ctrls, w_pdevs. apply Forall2_fmap, Forall_Forall2_diag, Forall_forall.
  intros [a c] Hac. exists false, c. split; [|done]. by apply HO, w_ctrl_in.
Qed.

(** ** Adding and removing mappings *)

(** The mappings of host memory ([false]) and of device memory ([true]). *)
Definition w_maps (w : world) (dev : bool) : list mapping := if dev then w_devs w else w_hosts w.
Definition w_set (w : world) (dev : bool) (ms : list mapping) : world :=
  if dev then mk_world (w_ctrls w) (w_hosts w) ms else mk_world (w_ctrls w) ms (w_devs w).
Definition list_of (dev : bool) : Z := if dev then device_list else host_list.

Lemma w_lists_maps w dev : w_lists w !! list_of dev = Some (w_maps w dev).*1.
Proof. destruct dev; [apply w_lists_devs|apply w_lists_hosts]. Qed.

Lemma w_lists_set w dev ms : <[list_of dev := ms.*1]> (w_lists w) = w_lists (w_set w dev ms).
Proof.
  apply map_eq. intros l. destruct (decide (list_of dev = l)) as [<-|Hne].
  - by rewrite lookup_insert_eq, w_lists_maps; destruct dev.
  - rewrite lookup_insert_ne by done. unfold w_lists. destruct dev; simpl in *.
    + destruct (decide (l = ctrl_list)) as [->|]; [by rewrite !lookup_insert_eq|].
      rewrite !(lookup_insert_ne _ ctrl_list) by done.
      destruct (decide (l = host_list)) as [->|]; [by rewrite !lookup_insert_eq|].
      rewrite !(lookup_insert_ne _ host_list) by done. by rewrite !(lookup_insert_ne _ device_list).
    + destruct (decide (l = ctrl_list)) as [->|]; [by rewrite !lookup_insert_eq|].
      rewrite !(lookup_insert_ne _ ctrl_list) by done. by rewrite !(lookup_insert_ne _ host_list).
Qed.

Lemma w_objs_insert w dev us x vs :
  w_objs (w_set w dev (us ++ x :: vs)) ≡ₚ map_cells x ++ w_objs (w_set w dev (us ++ vs)).
Proof. unfold w_objs, w_set. destruct dev; simpl; rewrite !bind_app, bind_cons; perm. Qed.

Lemma w_res_insert w dev us x vs v :
  w_res (w_set w dev (us ++ x :: vs)) v ≡ₚ map_res x ++ w_res (w_set w dev (us ++ vs)) v.
Proof. unfold w_res, w_set. destruct dev; simpl; rewrite !bind_app, bind_cons; perm. Qed.

Lemma w_set_maps w dev : w_set w dev (w_maps w dev) = w.
Proof. by destruct w, dev. Qed.
Lemma w_set_set w dev ms ms' : w_set (w_set w dev ms) dev ms' = w_set w dev ms'.
Proof. by destruct dev. Qed.
Lemma w_maps_set w dev ms : w_maps (w_set w dev ms) dev = ms.
Proof. by destruct dev. Qed.

Section world.
Context `{KernelOk}.

Lemma w_maps_ok w v dev : world_ok w v -> Forall (map_ok (w_pdevs w)) (w_maps w dev).
Proof. intros []. by destruct dev. Qed.

Lemma world_ok_set w v dev ms :
  world_ok w v -> Forall (map_ok (w_pdevs w)) ms -> world_ok (w_set w dev ms) v.
Proof. intros [] Hms. by destruct dev; split. Qed.

(** The rest of the world when one mapping is taken out. *)
Lemma drv_inv_split w v dev us x vs s :
  drv_inv w v s -> w_maps w dev = us ++ x :: vs ->
  st v (w_lists w) [] (map_cells x ++ w_objs (w_set w dev (us ++ vs)))
    (map_res x ++ w_res (w_set w dev (us ++ vs)) v) s /\
  map_ok (w_pdevs w) x /\ world_ok (w_set w dev (us ++ vs)) v /\
  w_lists w !! list_of dev = Some (us.*1 ++ x.1 :: vs.*1).
Proof.
  intros [Hs Hok] Hm. pose proof (w_maps_ok w v dev Hok) as Hms. rewrite Hm in Hms.
  apply Forall_app in Hms as [Hus [Hx Hvs]%Forall_cons]. split_and!.
  - eapply st_perm; [exact Hs|..]; rewrite <- (w_set_maps w dev) at 1; rewrite Hm.
    + apply w_objs_insert.
    + apply w_res_insert.
  - done.
  - apply world_ok_set; [done|]. by apply Forall_app.
  - by rewrite w_lists_maps, Hm, fmap_app.
Qed.

Lemma drv_inv_add w v dev a Oa Ra s :
  st v (<[list_of dev := (w_maps w dev).*1 ++ [a]]> (w_lists w)) [] (Oa ++ w_objs w) (Ra ++ w_res w v) s ->
  world_ok w v -> own_map (w_pdevs w) a Oa Ra ->
  drv_inv (w_set w dev (w_maps w dev ++ [(a, (Oa, Ra))])) v s.
Proof.
  intros Hs Hok Hown. split.
  - change ((w_maps w dev).*1 ++ [a]) with ((w_maps w dev).*1 ++ [(a, (Oa, Ra))].*1) in Hs.
    rewrite <- fmap_app, w_lists_set in Hs. eapply st_perm; [exact Hs|..].
    + rewrite w_objs_insert, app_nil_r, w_set_maps. done.
    + rewrite w_res_insert, app_nil_r, w_set_maps. done.
  - apply world_ok_set; [done|]. apply Forall_app. split; [by eapply w_maps_ok|]. by apply Forall_singleton.
Qed.

(** Releasing one mapping of the module. *)
Lemma wp_unmap w v dev us x vs (Q : unit -> drv -> Prop) s :
  drv_inv w v s -> w_maps w dev = us ++ x :: vs ->
  (forall s', drv_inv (w_set w dev (us ++ vs)) v s' -> Q tt s') -> wp (unmap_and_release x.1) Q s.
Proof.
  intros Hinv Hm HQ. destruct (drv_inv_split _ _ _ _ _ _ _ Hinv Hm) as (Hs & Hx & Hok & Hl).
  eapply wp_unmap_listed; [exact Hs|exact Hx|exact Hl|by destruct dev|apply w_lists_ctrls| |by eapply w_no_resv|].
  - replace (w_ctrls w) with (w_ctrls (w_set w dev (us ++ vs))) by (by destruct dev).
    replace (w_pdevs w) with (w_pdevs (w_set w dev (us ++ vs))) by (by destruct dev). by apply w_ctrls_in.
  - intros s' Hs'. apply HQ. split; [|done]. by rewrite <- fmap_app, w_lists_set in Hs'.
Qed.

(** ** Finding *)

(** Searching the keys of a list of pairs. *)
Lemma find_first {A} (p : Z -> bool) (l : list (Z * A)) :
  (forall x, x ∈ l -> p x.1 = false) /\ List.find p l.*1 = None \/
  exists us x vs, l = us ++ x :: vs /\ p x.1 = true /\ (forall y, y ∈ us -> p y.1 = false) /\
    List.find p l.*1 = Some x.1.
Proof.
  induction l as [|x l IH]; [left; split; [by intros ? ?%elem_of_nil|done]|].
  simpl. destruct (p x.1) eqn:E.
  - right. exists [], x, l. split_and!; [done..| |done]. by intros ? ?%elem_of_nil.
  - destruct IH as [[IH1 IH2]|(us & y & vs & -> & Hy & Hus & Hfd)].
    + left. split; [|done]. intros z [->|Hz]%elem_of_cons; auto.
    + right. exists (x :: us), y, vs. split_and!; [done..| |done]. intros z [->|Hz]%elem_of_cons; auto.
Qed.

Lemma wp_find_inode v ls F O R (cs : list (Z * ctrl)) i_cdev (Q : Z -> drv -> Prop) s :
  st v ls F O R s -> ls !! ctrl_list = Some cs.*1 -> (forall a c, (a, c) ∈ cs -> (a, (false, KCtrl c)) ∈ O) ->
  (i_cdev ∉ cs.*1 -> Q NULL s) ->
  (forall c, (i_cdev, c) ∈ cs -> Q i_cdev s) -> wp (ctrl_find_by_inode ctrl_list i_cdev) Q s.
Proof.
  intros Hs Hl Hcs Hnone Hsome.
  eapply (wp_find_in (fun a => bool_decide (a = i_cdev))); [exact Hs|exact Hl| |].
  - intros a Ha. apply list_elem_of_fmap in Ha as ([a' c] & -> & Hin).
    apply wp_bind. eapply (wp_kload _ a' false (KCtrl c)); [exact Hs|by apply Hcs|done|done].
  - destruct (find_first (fun a => bool_decide (a = i_cdev)) cs) as [[Hno ->]|(us & [a c] & vs & Hm & Hx & _ & ->)].
    + apply Hnone. intros ([a c] & -> & Hin)%list_elem_of_fmap. apply Hno in Hin. by apply bool_decide_eq_false in Hin.
    + apply bool_decide_eq_true in Hx. simpl in *. subst a. apply (Hsome c). rewrite Hm. set_solver.
Qed.

Lemma wp_find_ctrl w v i_cdev (Q : Z -> drv -> Prop) s :
  drv_inv w v s ->
  (i_cdev ∉ (w_ctrls w).*1 -> Q NULL s) ->
  (forall c, (i_cdev, c) ∈ w_ctrls w -> Q i_cdev s) -> wp (ctrl_find_by_inode ctrl_list i_cdev) Q s.
Proof.
  intros [Hs Hok]. eapply wp_find_inode; [exact Hs|apply w_lists_ctrls|]. intros a c. apply w_ctrl_in.
Qed.

(** What [map_find] looks for. *)
Definition map_matches (s : drv) (current vaddr a : Z) : bool :=
  match d_objs s !! a with
  | Some (_, KMap m) =>
      bool_decide (mp_owner m = current /\ mp_page_size m > 0 /\
        mp_vaddr m = Z.land vaddr (u64 (Z.lnot (mp_page_size m - 1))))
  | _ => false
  end.

(** The first cell of a mapping is its descriptor. *)
Lemma own_map_head ps a Oa Ra :
  own_map ps a Oa Ra -> exists vm m Oa', Oa = (a, (vm, KMap m)) :: Oa'.
Proof. intros []; eauto. Qed.

Lemma w_map_in w v dev x s :
  drv_inv w v s -> x ∈ w_maps w dev -> exists vm m, (x.1, (vm, KMap m)) ∈ w_objs w /\ d_objs s !! x.1 = Some (vm, KMap m).
Proof.
  intros [Hs Hok] Hx. pose proof (w_maps_ok w v dev Hok) as Hms. rewrite Forall_forall in Hms.
  destruct (own_map_head _ _ _ _ (Hms _ Hx)) as (vm & m & Oa & E).
  assert ((x.1, (vm, KMap m)) ∈ w_objs w) as Hin.
  { assert ((x.1, (vm, KMap m)) ∈ w_maps w dev ≫= map_cells) as Hb
      by (apply list_elem_of_bind; exists x; split; [rewrite E; by left|done]).
    unfold w_objs. rewrite !elem_of_app. destruct dev; auto. }
  exists vm, m. split; [done|]. by apply (st_lookup _ _ _ _ _ _ _ _ Hs).
Qed.

Lemma wp_map_find w v dev current vaddr (Q : Z -> drv -> Prop) s :
  drv_inv w v s ->
  ((forall x, x ∈ w_maps w dev -> map_matches s current vaddr x.1 = false) -> Q NULL s) ->
  (forall us x vs, w_maps w dev = us ++ x :: vs -> map_matches s current vaddr x.1 = true ->
     (forall y, y ∈ us -> map_matches s current vaddr y.1 = false) -> x.1 <> NULL -> Q x.1 s) ->
  wp (map_find current (list_of dev) vaddr) Q s.
Proof.
  intros Hinv Hnone Hsome. pose proof Hinv as [Hs Hok].
  eapply (wp_find_in (map_matches s current vaddr)); [exact Hs|apply w_lists_maps| |].
  - intros a Ha. apply list_elem_of_fmap in Ha as (x & -> & Hx).
    destruct (w_map_in _ _ _ _ _ Hinv Hx) as (vm & m & Hin & Hlk).
    apply wp_bind. eapply wp_kload; [exact Hs|exact Hin|done|]. apply wp_ret. unfold map_matches. by rewrite Hlk.
  - destruct (find_first (map_matches s current vaddr) (w_maps w dev)) as [[Hno ->]|(us & x & vs & Hm & Hx & Hus & ->)];
      [by apply Hnone|].
    apply (Hsome us x vs); try done.
    pose proof (st_not_null _ _ _ Hs (w_lists_maps w dev)) as Hn. rewrite Hm, fmap_app in Hn.
    intros E. apply Hn. apply elem_of_app. right. rewrite fmap_cons, E. by left.
Qed.
End world.
