(* ===== verification/DrvCalls.v ===== *)
(** * The entry points of the kernel module on its state

    How the ioctl, mmap, probe, remove and unload functions of src/drv/pci.c change the
    controllers and mappings of DrvInv.v. *)
From stdpp Require Import prelude gmap list.
From Stdlib Require Import ZArith Lia.
From S2P Require Import Prelude NvmTypes DrvList DrvSg DrvState DrvMap DrvPci DrvOwn DrvProofs DrvInv.
Local Open Scope Z_scope.

Definition with_user (v : kvars) (u : gmap Z Z) : kvars :=
  mk_vars (v_dev_first v) (v_dev_class v) (v_curr_ctrls v) u.
Definition with_curr (v : kvars) (n : Z) : kvars :=
  mk_vars (v_dev_first v) (v_dev_class v) n (v_user v).

Section ioctl.
Context `{KernelOk}.

Lemma wp_copy_to_user v ls F O R p l (Q : bool -> drv -> Prop) s :
  st v ls F O R s ->
  (forall s', st v ls F O R s' -> Q true s') ->
  (forall s', st (with_user v (write_words (v_user v) p l)) ls F O R s' -> Q false s') ->
  wp (copy_to_user p l) Q s.
Proof.
  intros Hs Hfault Hok. unfold copy_to_user. ktick s Hs n. destruct (user_fault n); [by apply wp_ret, Hfault|].
  apply wp_bind. eapply wp_vars; [exact Hs|]. apply wp_bind. eapply wp_set_vars; [exact Hs|]. knext s Hs.
  by apply wp_ret, Hok.
Qed.

Lemma wp_copy_addrs v ls F O R p a vm m (Q : bool -> drv -> Prop) s :
  st v ls F O R s -> (a, (vm, KMap m)) ∈ O -> mp_n_addrs m <= Z.of_nat (length (mp_addrs m)) ->
  (forall s', st v ls F O R s' -> Q true s') ->
  (forall s', st (with_user v (write_words (v_user v) p (take (Z.to_nat (mp_n_addrs m)) (mp_addrs m)))) ls F O R s' ->
     Q false s') ->
  wp (copy_addrs p a) Q s.
Proof.
  intros Hs Ha Hn Hfault Hok. unfold copy_addrs. apply wp_bind.
  eapply wp_kload; [exact Hs|exact Ha|done|]. rewrite decide_True by done. by eapply wp_copy_to_user.
Qed.

Lemma drv_inv_user w v u s : st (with_user v u) (w_lists w) [] (w_objs w) (w_res w v) s ->
  world_ok w v -> drv_inv w (with_user v u) s.
Proof. intros Hs []. split; [done|by split]. Qed.

(** Copying the addresses of the last mapping to the user. *)
Lemma wp_reply w v dev ms a vm m Oa Ra p (Q : Z -> drv -> Prop) s :
  drv_inv w v s -> w_maps w dev = ms ++ [(a, ((a, (vm, KMap m)) :: Oa, Ra))] -> 0 < a ->
  mp_n_addrs m <= Z.of_nat (length (mp_addrs m)) ->
  (forall s', drv_inv w v s' -> Q (- EFAULT) s') ->
  (forall s', drv_inv w (with_user v (write_words (v_user v) p (take (Z.to_nat (mp_n_addrs m)) (mp_addrs m)))) s' ->
     Q 0 s') ->
  wp (reply p a) Q s.
Proof.
  intros [Hs Hok] Hm Ha Hn Hfault Hret. unfold reply. rewrite decide_True by (unfold IS_ERR, NULL; lia).
  apply wp_bind. eapply (wp_copy_addrs _ _ _ _ _ _ a vm m); [exact Hs| |done|..].
  - rewrite <- (w_set_maps w dev), Hm, w_objs_insert. by left.
  - knext s Hs. by apply wp_ret, Hfault.
  - knext s Hs. apply wp_ret, Hret. by apply drv_inv_user.
Qed.

(** A mapping of the pages [got] of the calling process, with the bus addresses [addrs]. *)
Definition user_mapping (current vaddr pdev n : Z) (got addrs : list Z) (x : mapping) : Prop :=
  exists vm data vm', 0 < data /\ got <> [] /\ (length got <= Z.to_nat n)%nat /\
    pages_of (Z.land vaddr PAGE_MASK) n got /\ dma_of pdev got addrs /\
    x.2 = ([(x.1, (vm, KMap (user_map_of (sized_map current (Z.land vaddr PAGE_MASK) pdev n PAGE_SIZE) data got addrs)));
            (data, (vm', KPages (got ++ replicate (Z.to_nat n - length got) NULL)))],
           (RDma pdev <$> addrs) ++ (RPage <$> got)).

Lemma user_mapping_ok ps current vaddr pdev n got addrs x :
  user_mapping current vaddr pdev n got addrs x -> map_ok ps x.
Proof.
  intros (vm & data & vm' & Hd & Hne & Hle & _ & Hdma & E). apply Forall2_length in Hdma.
  unfold map_ok, map_cells, map_res. rewrite E. simpl.
  set (m := user_map_of _ _ _ _). set (pages := got ++ _).
  replace addrs with (take (length got) (mp_addrs m)) at 1 by (simpl; by rewrite Hdma, take_app_length).
  replace got with (take (length got) pages) at 2 by (subst pages; by rewrite take_app_length).
  apply (own_user ps x.1 vm m vm' pages (length got)); try done.
  - simpl. unfold NULL. lia.
  - simpl. rewrite length_app. lia.
  - subst pages. rewrite length_app. lia.
Qed.

Lemma wp_ioctl_map_host `{!Benign} w v current ctrl c arg (Q : Z -> drv -> Prop) s :
  drv_inv w v s -> (ctrl, c) ∈ w_ctrls w ->
  (forall e s', e < 0 -> drv_inv w v s' -> Q e s') ->
  (forall k request x got addrs r v' s', user_map k arg = Some request ->
     user_mapping current (vaddr_start request) (ct_pdev c) (n_pages request) got addrs x ->
     r = - EFAULT /\ v' = v \/ r = 0 /\ v' = with_user v (write_words (v_user v) (ioaddrs request) addrs) ->
     drv_inv (w_set w false (w_hosts w ++ [x])) v' s' -> Q r s') ->
  wp (ioctl_map_host current ctrl arg) Q s.
Proof.
  intros [Hs Hok] Hc Hfail Hret. unfold ioctl_map_host. ktick s Hs k.
  destruct (user_map k arg) as [req|] eqn:E; [|apply wp_ret; by eapply Hfail].
  apply wp_bind. eapply wp_map_userspace; [exact Hs| |by eapply b_request|apply (w_lists_maps w false)|apply w_lists_ctrls
    |by apply w_ctrls_in|by eapply w_no_resv|..].
  - by apply w_ctrl_in.
  - intros e s' He Hs'. unfold reply. rewrite decide_False by tauto. apply wp_ret. by eapply Hfail.
  - intros a vm data vm' got addrs s' Ha Hd Hne Hle Hp Hdma Hs'. clear s Hs. rename s' into s.
    set (m := user_map_of _ _ _ _) in *.
    set (x := (a, ([(a, (vm, KMap m)); (data, (vm', KPages (got ++ replicate (Z.to_nat (n_pages req) - length got) NULL)))],
                   (RDma (ct_pdev c) <$> addrs) ++ (RPage <$> got))) : mapping).
    assert (user_mapping current (vaddr_start req) (ct_pdev c) (n_pages req) got addrs x) as Hx
      by (exists vm, data, vm'; done).
    apply (drv_inv_add w v false) in Hs'; [|done|exact (user_mapping_ok _ _ _ _ _ _ _ _ Hx)].
    pose proof (Forall2_length _ _ _ Hdma) as Hlen.
    eapply (wp_reply _ _ false (w_hosts w) a vm m); [exact Hs'|done|done|simpl; rewrite length_app; lia|..].
    + intros s' Hi. by eapply (Hret k req x got addrs); [done|done|left|].
    + intros s' Hi. eapply (Hret k req x got addrs); [done|done| |exact Hi]. right. split; [done|].
      cbn [mp_n_addrs mp_addrs user_map_of mp_set_addrs mp_set_data mp_set_page_size mp_set_n_addrs] in *.
      subst m. simpl. by rewrite Nat2Z.id, Hlen, take_app_length.
Qed.

(** A mapping of GPU memory for every controller; the user gets the addresses of the first. *)
Definition gpu_mapping (current vaddr pdev n : Z) (ps ms : list Z) (x : mapping) : Prop :=
  exists vm gd mappings table, 1 <= n /\ 0 < table /\ length ms = length ps /\ Forall (fun y => y <> NULL) ms /\
    let m := mp_set_ctrl_list (sized_map current (Z.land vaddr GPU_PAGE_MASK) pdev n GPU_PAGE_SIZE) ctrl_list in
    x.2 = (gpu_cells x.1 vm (gpu_map_of m gd ms) gd mappings table ms,
           gpu_res ps table ms ++ [RP2pPages (Z.land vaddr GPU_PAGE_MASK) table]).

Lemma gpu_mapping_ok ps current vaddr pdev n ms x :
  gpu_mapping current vaddr pdev n ps ms x -> (length ps <= Z.to_nat max_num_ctrls)%nat -> map_ok ps x.
Proof.
  intros (vm & gd & mappings & table & Hn & Ht & Hl & Hms & E) Hmax. unfold map_ok, map_cells, map_res.
  rewrite E. cbn [fst snd]. set (m := mp_set_ctrl_list _ _).
  replace [RP2pPages (Z.land vaddr GPU_PAGE_MASK) table]
    with (if decide (table = NULL) then [] else [RP2pPages (mp_vaddr m) table])
    by (by rewrite decide_False by (unfold NULL; lia)).
  apply own_gpu_cells; (done || lia).
Qed.

Lemma wp_ioctl_map_device `{!Benign} w v current ctrl c arg (Q : Z -> drv -> Prop) s :
  drv_inv w v s -> (ctrl, c) ∈ w_ctrls w ->
  (forall e s', e < 0 -> drv_inv w v s' -> Q e s') ->
  (forall k request x ms r v' s', user_map k arg = Some request ->
     gpu_mapping current (vaddr_start request) (ct_pdev c) (n_pages request) (w_pdevs w) ms x ->
     r = - EFAULT /\ v' = v \/
     r = 0 /\ (exists mp, head ms = Some mp /\ (Z.to_nat (n_pages request) <= length (p2p_addresses mp))%nat /\
       v' = with_user v (write_words (v_user v) (ioaddrs request) (take (Z.to_nat (n_pages request)) (p2p_addresses mp)))) ->
     drv_inv (w_set w true (w_devs w ++ [x])) v' s' -> Q r s') ->
  wp (ioctl_map_device current ctrl arg) Q s.
Proof.
  intros [Hs Hok] Hc Hfail Hret. unfold ioctl_map_device. ktick s Hs k.
  destruct (user_map k arg) as [req|] eqn:E; [|apply wp_ret; by eapply Hfail].
  assert (length (w_pdevs w) <= Z.to_nat max_num_ctrls)%nat as Hmax
    by (unfold w_pdevs; rewrite length_fmap; by eapply w_max).
  apply wp_bind. eapply wp_map_device_memory; [exact Hs| |by eapply b_request|apply (w_lists_maps w true)|apply w_lists_ctrls
    |by apply w_ctrls_in|by eapply w_no_resv|done|..].
  - by apply w_ctrl_in.
  - intros e s' He Hs'. unfold reply. rewrite decide_False by tauto. apply wp_ret. by eapply Hfail.
  - intros a vm gd mappings table ms s' Ha Hn Ht Hlen Hnn m Hga Hs'. clear s Hs. rename s' into s.
    set (x := (a, (gpu_cells a vm (gpu_map_of m gd ms) gd mappings table ms,
                   gpu_res (w_pdevs w) table ms ++ [RP2pPages (Z.land (vaddr_start req) GPU_PAGE_MASK) table])) : mapping).
    assert (gpu_mapping current (vaddr_start req) (ct_pdev c) (n_pages req) (w_pdevs w) ms x) as Hx
      by (exists vm, gd, mappings, table; done).
    apply (drv_inv_add w v true) in Hs'; [|done|exact (gpu_mapping_ok _ _ _ _ _ _ _ Hx Hmax)].
    eapply (wp_reply _ _ true (w_devs w) a vm (gpu_map_of m gd ms)); [exact Hs'|done|done|simpl; lia|..].
    + intros s' Hi. by eapply (Hret k req x ms); [done|done|left|].
    + intros s' Hi. eapply (Hret k req x ms); [done|done| |exact Hi]. right. split; [done|].
      assert (length ms <> 0%nat) as Hne.
      { rewrite Hlen. unfold w_pdevs. rewrite length_fmap. destruct (w_ctrls w); [by apply elem_of_nil in Hc|done]. }
      destruct ms as [|mp ms]; [done|]. exists mp. split; [done|]. simpl in Hga |- *.
      rewrite drop_ge, app_nil_r in Hga |- * by (rewrite length_replicate; lia). rewrite length_take in Hga. split; [lia|].
      by rewrite take_take, Nat.min_id.
Qed.

(** A mapping of a dma-buf: the addresses are the pages of its table from the offset on. *)
Definition dmabuf_mapping (current pdev : Z) (dreq : nvm_ioctl_dmabuf) (addrs : list Z) (x : mapping) : Prop :=
  exists vm data dr, let n := dmabuf_size dreq / PAGE_SIZE in
    0 < dr_dmabuf dr /\ 0 < dr_attachment dr /\ 0 < dr_sgt dr /\
    sg_pages (sgt_entries (dr_sgt dr)) PAGE_SIZE (dmabuf_offset dreq) (Z.to_nat n) = Some addrs /\
    x.2 = ([(x.1, (vm, KMap (dmabuf_map_of (sized_map current (gpu_ptr dreq) pdev n PAGE_SIZE) data addrs)));
            (data, (false, KDmabuf dr))], dmabuf_res dr).

(** Releasing the mapping that was just made. *)
Lemma wp_undo_last w v dev a Oa Ra (Q : unit -> drv -> Prop) s :
  st v (<[list_of dev := (w_maps w dev).*1 ++ [a]]> (w_lists w)) [] (Oa ++ w_objs w) (Ra ++ w_res w v) s ->
  world_ok w v -> own_map (w_pdevs w) a Oa Ra -> (forall s', drv_inv w v s' -> Q tt s') ->
  wp (unmap_and_release a) Q s.
Proof.
  intros Hs Hok Hown HQ.
  apply (drv_inv_add w v dev) in Hs; [|done|exact Hown].
  apply (wp_unmap _ v dev (w_maps w dev) (a, (Oa, Ra)) [] Q s Hs); [apply w_maps_set|].
  intros s' Hs'. apply HQ. by rewrite w_set_set, app_nil_r, w_set_maps in Hs'.
Qed.

Lemma own_dmabuf_cells ps a vm m data dr :
  mp_data m = data -> mp_release m = Some RELEASE_DMABUF_MEMORY ->
  0 < dr_dmabuf dr -> 0 < dr_attachment dr -> 0 < dr_sgt dr ->
  own_map ps a [(a, (vm, KMap m)); (data, (false, KDmabuf dr))] (dmabuf_res dr).
Proof. intros. destruct dr. by apply own_dmabuf. Qed.

Lemma wp_reply_dmabuf w v dreq a vm m data dr (Q : Z -> drv -> Prop) s :
  st v (<[device_list := (w_devs w).*1 ++ [a]]> (w_lists w)) []
    ([(a, (vm, KMap m)); (data, (false, KDmabuf dr))] ++ w_objs w) (dmabuf_res dr ++ w_res w v) s ->
  world_ok w v -> 0 < a -> mp_data m = data -> mp_release m = Some RELEASE_DMABUF_MEMORY ->
  0 < dr_dmabuf dr -> 0 < dr_attachment dr -> 0 < dr_sgt dr ->
  mp_n_addrs m <= Z.of_nat (length (mp_addrs m)) ->
  (forall e s', e < 0 -> drv_inv w v s' -> Q e s') ->
  (forall s', drv_inv (w_set w true (w_devs w ++ [(a, ([(a, (vm, KMap m)); (data, (false, KDmabuf dr))], dmabuf_res dr))]))
     (with_user v (write_words (v_user v) (dmabuf_ioaddrs dreq) (take (Z.to_nat (mp_n_addrs m)) (mp_addrs m)))) s' ->
     Q 0 s') ->
  wp (reply_dmabuf dreq a) Q s.
Proof.
  intros Hs Hok Ha Hd Hr Hb Hat Ht Hn Hfail Hret. unfold reply_dmabuf.
  rewrite decide_True by (unfold IS_ERR, NULL; lia). ktick s Hs k. apply wp_bind. cbn [app] in Hs.
  assert (forall m' s, st v (<[device_list := (w_devs w).*1 ++ [a]]> (w_lists w)) []
    ((a, (vm, KMap m')) :: (data, (false, KDmabuf dr)) :: w_objs w) (dmabuf_res dr ++ w_res w v) s ->
    mp_data m' = data -> mp_release m' = Some RELEASE_DMABUF_MEMORY -> forall e, e < 0 ->
    wp (unmap_and_release a;; mret e) Q s) as Hundo.
  { clear s Hs. intros m' s Hs Hd' Hr' e He. apply wp_bind.
    eapply (wp_undo_last w v true a [_; _] (dmabuf_res dr)); [exact Hs|done|by apply own_dmabuf_cells|].
    intros s' Hi. by apply wp_ret, Hfail. }
  destruct (move_notified k).
  { unfold ugds_dmabuf_move_notify. rewrite decide_True by (unfold NULL; lia). kload Hs. kstore s Hs. kload Hs.
    rewrite decide_True by done. by eapply Hundo; [exact Hs|..]. }
  apply wp_ret. kload Hs. case_decide; [by eapply Hundo; [exact Hs|..]|].
  case_decide; [by eapply Hundo; [exact Hs|..]|]. apply wp_bind.
  eapply (wp_copy_addrs _ _ _ _ _ _ a vm m); [exact Hs|in_list|done|..].
  - knext s Hs. by eapply Hundo; [exact Hs|..].
  - knext s Hs. apply wp_ret, Hret. apply (drv_inv_add w _ true a [_; _] (dmabuf_res dr));
      [exact Hs|by destruct Hok; split|by apply own_dmabuf_cells].
Qed.

Lemma wp_ioctl_map_dmabuf `{!Benign} w v current ctrl c arg (Q : Z -> drv -> Prop) s :
  drv_inv w v s -> (ctrl, c) ∈ w_ctrls w ->
  (forall e s', e < 0 -> drv_inv w v s' -> Q e s') ->
  (forall k dreq x addrs s', user_dmabuf k arg = Some dreq -> dmabuf_bad dreq = false ->
     dmabuf_mapping current (ct_pdev c) dreq addrs x ->
     drv_inv (w_set w true (w_devs w ++ [x]))
       (with_user v (write_words (v_user v) (dmabuf_ioaddrs dreq) addrs)) s' -> Q 0 s') ->
  wp (ioctl_map_dmabuf current ctrl arg) Q s.
Proof.
  intros [Hs Hok] Hc Hfail Hret. unfold ioctl_map_dmabuf. ktick s Hs k.
  destruct (user_dmabuf k arg) as [dreq|] eqn:E; [|apply wp_ret; by eapply Hfail].
  destruct (dmabuf_bad dreq) eqn:Hbad; [apply wp_ret; by eapply Hfail|].
  pose proof (ok_dreq _ _ _ E) as [Hsize Hoff]. pose proof page_size_pos as Hps. unfold fits in Hsize.
  set (n := dmabuf_size dreq / PAGE_SIZE).
  assert (0 <= n < 2 ^ 60) as Hn.
  { subst n. split; [apply Z.div_pos; lia|]. apply Z.div_lt_upper_bound; [lia|]. nia. }
  apply wp_bind. eapply wp_map_dmabuf; [exact Hs| |apply Hn|done|apply (w_lists_maps w true)|apply w_lists_ctrls
    |by apply w_ctrls_in|by eapply w_no_resv|..].
  - by apply w_ctrl_in.
  - intros e s' He Hs'. unfold reply_dmabuf. rewrite decide_False by tauto. apply wp_ret. by eapply Hfail.
  - intros a vm data dr addrs s' Ha Hcap Hb Hat Ht Hp Hs'.
    pose proof (sg_pages_length _ _ _ _ _ Hp) as Hlen.
    eapply wp_reply_dmabuf; [exact Hs'|done|done|done|done|done|done|done|simpl; lia|done|].
    cbn [mp_n_addrs mp_addrs dmabuf_map_of mp_set_addrs mp_set_data mp_set_page_size sized_map new_map].
    intros s1 Hi. rewrite take_ge in Hi by lia. eapply (Hret k dreq); [done|done| |exact Hi].
    exists vm, data, dr. split_and!; done.
Qed.

(** [x] is the first mapping of the task for the address. *)
Definition found (s : drv) (current vaddr : Z) (w : world) (dev : bool) (us : list mapping) (x : mapping) (vs : list mapping) : Prop :=
  w_maps w dev = us ++ x :: vs /\ map_matches s current vaddr x.1 = true /\
  (forall y, y ∈ us -> map_matches s current vaddr y.1 = false).

Lemma drv_inv_tick w v s :
  drv_inv w v s -> drv_inv w v (mk_drv (d_mem s) (d_objs s) (d_next s) (S (d_calls s)) (d_res s) (d_vars s)).
Proof. intros [[] Hok]. split; [by split|done]. Qed.

Lemma wp_ioctl_unmap_memory w v current arg (Q : Z -> drv -> Prop) s :
  drv_inv w v s ->
  (forall s', user_addr (d_calls s) arg = None -> drv_inv w v s' -> Q (- EFAULT) s') ->
  (forall addr s', user_addr (d_calls s) arg = Some addr ->
     (forall dev x, x ∈ w_maps w dev -> map_matches s current addr x.1 = false) ->
     drv_inv w v s' -> Q (- EINVAL) s') ->
  (forall addr dev us x vs s', user_addr (d_calls s) arg = Some addr -> found s current addr w dev us x vs ->
     (dev = true -> forall y, y ∈ w_hosts w -> map_matches s current addr y.1 = false) ->
     drv_inv (w_set w dev (us ++ vs)) v s' -> Q 0 s') ->
  wp (ioctl_unmap_memory current arg) Q s.
Proof.
  intros Hinv Hfault Hnone Hsome. apply wp_bind. unfold wp at 1, tick.
  apply drv_inv_tick in Hinv. set (s1 := mk_drv _ _ _ _ _ _) in *.
  destruct (user_addr (d_calls s) arg) as [addr|] eqn:E; [|apply wp_ret; by apply Hfault].
  assert (forall a, map_matches s current addr a = map_matches s1 current addr a) as Hm by done.
  apply wp_bind. apply (wp_map_find w v false); [exact Hinv|..].
  - intros Hno. rewrite decide_False by tauto. apply wp_bind. apply (wp_map_find w v true); [exact Hinv|..].
    + intros Hno'. rewrite decide_False by tauto. apply wp_ret. apply (Hnone addr); [done| |done].
      intros [] x Hx; rewrite Hm; auto.
    + intros us x vs Hx Hx1 Hus Hx0. rewrite decide_True by done. apply wp_bind.
      apply (wp_unmap w v true us x vs); [done..|]. intros s' Hs'. apply wp_ret.
      by eapply (Hsome addr true us x vs).
  - intros us x vs Hx Hx1 Hus Hx0. rewrite decide_True by done. apply wp_bind.
    apply (wp_unmap w v false us x vs); [done..|]. intros s' Hs'. apply wp_ret.
    by eapply (Hsome addr false us x vs).
Qed.

(** ** The ioctl handler *)

(** What an ioctl that returns [r] may do to the world: nothing, one mapping more, or one less.
    Copying the addresses to the user can fail with the mapping already made. *)
Inductive ioctl_effect (w : world) (r : Z) : world -> Prop :=
  | effect_none : r < 0 -> ioctl_effect w r w
  | effect_add dev x : r = 0 \/ r = - EFAULT -> ioctl_effect w r (w_set w dev (w_maps w dev ++ [x]))
  | effect_remove dev us x vs :
      r = 0 -> w_maps w dev = us ++ x :: vs -> ioctl_effect w r (w_set w dev (us ++ vs)).

Lemma wp_map_ioctl `{!Benign} w v current i_cdev cmd arg s :
  drv_inv w v s ->
  wp (map_ioctl current i_cdev cmd arg) (fun r s' => exists w' u,
    ioctl_effect w r w' /\ drv_inv w' (with_user v u) s') s.
Proof.
  intros Hinv.
  assert (forall w s, drv_inv w v s -> drv_inv w (with_user v (v_user v)) s) as Hsame by (by destruct v).
  assert (forall e s', e < 0 -> drv_inv w v s' ->
    exists w' u, ioctl_effect w e w' /\ drv_inv w' (with_user v u) s') as Herr.
  { intros e s' He Hi. exists w, (v_user v). split; [by constructor|by apply Hsame]. }
  apply wp_bind. eapply wp_find_ctrl; [exact Hinv|..].
  { intros _. rewrite decide_True by done. apply wp_ret. by apply Herr. }
  intros c Hc. destruct Hinv as [Hs Hok].
  pose proof (w_ctrl_not_null _ _ _ _ _ (conj Hs Hok) Hc) as Hnull.
  rewrite decide_False by done. repeat case_decide.
  - eapply wp_ioctl_map_host; [by split|exact Hc|exact Herr|].
    intros k req x got addrs r v' s' _ _ Hr Hi. exists (w_set w false (w_hosts w ++ [x])).
    destruct Hr as [[-> ->]|[-> ->]]; [exists (v_user v)|eexists];
      (split; [apply (effect_add w _ false); auto|]); [by apply Hsame|exact Hi].
  - eapply wp_ioctl_map_device; [by split|exact Hc|exact Herr|].
    intros k req x ms r v' s' _ _ Hr Hi. exists (w_set w true (w_devs w ++ [x])).
    destruct Hr as [[-> ->]|[-> (mp & _ & _ & ->)]]; [exists (v_user v)|eexists];
      (split; [apply (effect_add w _ true); auto|]); [by apply Hsame|exact Hi].
  - eapply wp_ioctl_map_dmabuf; [by split|exact Hc|exact Herr|].
    intros k dreq x addrs s' _ _ _ Hi. eexists _, _. split; [apply (effect_add w _ true); auto|exact Hi].
  - eapply wp_ioctl_unmap_memory; [by split|..].
    + intros s' _ Hi. by apply Herr.
    + intros addr s' _ _ Hi. by apply Herr.
    + intros addr dev us x vs s' _ [Hm _] _ Hi. exists (w_set w dev (us ++ vs)), (v_user v).
      split; [by eapply effect_remove|by apply Hsame].
  - apply wp_ret. apply Herr; [done|by split].
Qed.

(** Mapping the registers never exceeds the BAR of the controller of the file. *)
Lemma wp_mmap_registers w v i_cdev vm_start vm_end s :
  drv_inv w v s ->
  wp (mmap_registers i_cdev vm_start vm_end) (fun r s' => drv_inv w v s' /\
    match r.2 with
    | Some (start, size) => exists c, (i_cdev, c) ∈ w_ctrls w /\ start = bar_start (ct_pdev c) /\
        size = u64 (vm_end - vm_start) /\ size <= bar_len (ct_pdev c)
    | None => r.1 = - EBADF /\ i_cdev ∉ (w_ctrls w).*1 \/
        r.1 = - EINVAL /\ exists c, (i_cdev, c) ∈ w_ctrls w /\ bar_len (ct_pdev c) < u64 (vm_end - vm_start)
    end) s.
Proof.
  intros Hinv. apply wp_bind. eapply wp_find_ctrl; [exact Hinv|..].
  { intros Hno. rewrite decide_True by done. apply wp_ret. simpl. auto. }
  intros c Hc. pose proof Hinv as [Hs Hok].
  pose proof (w_ctrl_not_null _ _ _ _ _ (conj Hs Hok) Hc) as Hnull.
  rewrite decide_False by done. apply wp_bind.
  eapply (wp_kload _ i_cdev false (KCtrl c)); [exact Hs| |done|].
  { by apply w_ctrl_in. }
  case_decide as Hbig.
  - apply wp_ret. split; [done|]. right. split; [done|]. exists c. split; [done|lia].
  - ktick s Hs k. apply wp_ret. split; [by split|]. exists c. split_and!; [done..|lia].
Qed.
End ioctl.
