(* ===== verification/DrvLife.v ===== *)
(** * The life of the kernel module: probing, removing, loading, unloading

    An abstract machine of everything that can happen to the module, with the theorems about all
    of its histories. *)
From stdpp Require Import prelude gmap list.
From Stdlib Require Import ZArith Lia.
From S2P Require Import Prelude NvmTypes DrvList DrvSg DrvState DrvMap DrvPci DrvOwn DrvProofs DrvInv DrvCalls.
Local Open Scope Z_scope.

Definition w_set_ctrls (w : world) (cs : list (Z * ctrl)) : world := mk_world cs (w_hosts w) (w_devs w).

Lemma w_lists_ctrls_set w cs : <[ctrl_list := cs.*1]> (w_lists w) = w_lists (w_set_ctrls w cs).
Proof. unfold w_lists. by rewrite insert_insert_eq. Qed.

Lemma w_objs_ctrl w us x vs :
  w_objs (w_set_ctrls w (us ++ x :: vs)) ≡ₚ ctrl_cell x :: w_objs (w_set_ctrls w (us ++ vs)).
Proof. unfold w_objs. simpl. rewrite !fmap_app. simpl. perm. Qed.

Lemma w_res_ctrl w us x vs v :
  w_res (w_set_ctrls w (us ++ x :: vs)) v ≡ₚ ctrl_res x ++ w_res (w_set_ctrls w (us ++ vs)) v.
Proof. unfold w_res. simpl. rewrite !bind_app, bind_cons. perm. Qed.

Lemma w_set_ctrls_id w : w_set_ctrls w (w_ctrls w) = w.
Proof. by destruct w. Qed.

(** A mapping that is not of the CUDA kind. *)
Definition not_gpu (x : mapping) : Prop :=
  forall a vm m, (a, (vm, KMap m)) ∈ map_cells x -> mp_release m <> Some RELEASE_GPU_MEMORY.

Section life.
Context `{KernelOk}.

(** A controller more, at the end, does not matter to the mappings. *)
Lemma own_map_more ps ps' a Oa Ra :
  own_map ps a Oa Ra -> (length (ps ++ ps') <= Z.to_nat max_num_ctrls)%nat -> own_map (ps ++ ps') a Oa Ra.
Proof.
  intros Hown Hmax. destruct Hown as [| |vm m gd mappings table ms Hd Hr Hcl Hl Hm Hms Ht|]; try by constructor.
  rewrite <- (take_app_le ps ps') by done. rewrite length_app in Hmax.
  apply own_gpu; try done. all: rewrite length_app; lia.
Qed.

(** Which controllers there are does not matter to other mappings. *)
Lemma own_map_not_gpu ps ps' x : map_ok ps x -> not_gpu x -> map_ok ps' x.
Proof.
  unfold map_ok, not_gpu. destruct x as [a [Oa Ra]]. unfold map_cells, map_res. cbn [fst snd].
  intros Hown Hng. destruct Hown as [| |vm m gd mappings table ms Hd Hr Hcl Hl Hm Hms Ht|]; try by constructor.
  destruct (Hng a vm m); [by left|done].
Qed.

(** ** Controllers *)

(** The controller a successful probe makes. *)
Definition probed (v : kvars) (dev d : Z) : ctrl :=
  mk_ctrl dev (v_curr_ctrls v) (MKDEV (MAJOR (v_dev_first v)) (MINOR (v_dev_first v) + v_curr_ctrls v)) (v_dev_class v) d.

Lemma world_ok_probe w v a c :
  world_ok w v -> (length (w_ctrls w) < Z.to_nat max_num_ctrls)%nat -> ct_pdev c ∉ w_pdevs w ->
  world_ok (w_set_ctrls w (w_ctrls w ++ [(a, c)])) (with_curr v (v_curr_ctrls v + 1)).
Proof.
  intros [Hh Hd Hm Hc Hnd] Hlt Hnew.
  assert (w_pdevs (w_set_ctrls w (w_ctrls w ++ [(a, c)])) = w_pdevs w ++ [ct_pdev c]) as E
    by (unfold w_pdevs; simpl; by rewrite fmap_app).
  assert (length (w_pdevs w ++ [ct_pdev c]) <= Z.to_nat max_num_ctrls)%nat as Hmax
    by (rewrite length_app; unfold w_pdevs; rewrite length_fmap; simpl; lia).
  split; rewrite ?E; simpl.
  - eapply Forall_impl; [exact Hh|]. intros x Hx. by apply own_map_more.
  - eapply Forall_impl; [exact Hd|]. intros x Hx. by apply own_map_more.
  - rewrite length_app. simpl. lia.
  - rewrite length_app. simpl. lia.
  - apply NoDup_app. split_and!; [done| |apply NoDup_singleton]. intros x Hx ->%list_elem_of_singleton. done.
Qed.

Lemma wp_undo_enabled v ls O R us a c vs dev (Q : unit -> drv -> Prop) s :
  st v ls [] ((a, (false, KCtrl c)) :: O) (chrdev_res a c ++ REnabled dev :: RRegion dev :: R) s ->
  ls !! ctrl_list = Some (us ++ a :: vs) ->
  (forall s', st v (<[ctrl_list := us ++ vs]> ls) [] O R s' -> Q tt s') -> wp (undo_enabled dev a) Q s.
Proof.
  intros Hs Hl HQ. apply wp_bind. kgive s Hs. apply wp_bind. kgive s Hs.
  eapply (wp_drv_ctrl_put _ _ _ ctrl_list us a c vs); [exact Hs|exact Hl|exact HQ].
Qed.

Lemma wp_add_pci_dev `{!Benign} w v dev (Q : Z -> drv -> Prop) s :
  drv_inv w v s -> dev ∉ w_pdevs w -> v_curr_ctrls v < max_ctrls_param ->
  (forall e s', e < 0 -> drv_inv w v s' -> Q e s') ->
  (forall a d s', d <> NULL ->
     drv_inv (w_set_ctrls w (w_ctrls w ++ [(a, probed v dev d)])) (with_curr v (v_curr_ctrls v + 1)) s' -> Q 0 s') ->
  wp (add_pci_dev dev) Q s.
Proof.
  intros [Hs Hok] Hnew Hcurr Hfail Hret. apply wp_bind. eapply wp_vars; [exact Hs|].
  rewrite decide_False by lia. apply wp_bind.
  eapply wp_drv_ctrl_get; [exact Hs|apply w_lists_ctrls|..].
  { knext s Hs. rewrite decide_True by done. apply wp_ret. apply Hfail; [done|by split]. }
  intros a s' Ha. revert s'. knext s Hs. rewrite decide_False by (unfold IS_ERR; lia).
  set (ls := <[ctrl_list := (w_ctrls w).*1 ++ [a]]> (w_lists w)) in *.
  assert (ls !! ctrl_list = Some ((w_ctrls w).*1 ++ a :: [])) as Hl by apply lookup_insert_eq.
  assert (forall s', st v (<[ctrl_list := (w_ctrls w).*1 ++ []]> ls) [] (w_objs w) (w_res w v) s' -> drv_inv w v s') as Hundo.
  { intros s' Hs'. split; [|done]. subst ls. by rewrite insert_insert_eq, app_nil_r, w_lists_ctrls_set, w_set_ctrls_id in Hs'. }
  ktick s Hs k1. pose proof (ok_call k1). case_decide.
  { apply wp_bind. eapply (wp_drv_ctrl_put _ _ _ ctrl_list (w_ctrls w).*1 a _ []); [exact Hs|exact Hl|].
    intros s' Hs'. apply wp_ret. apply Hfail; [lia|auto]. }
  apply wp_bind. kacquire s Hs. ktick s Hs k2. case_decide.
  { apply wp_bind. kgive s Hs. apply wp_bind.
    eapply (wp_drv_ctrl_put _ _ _ ctrl_list (w_ctrls w).*1 a _ []); [exact Hs|exact Hl|].
    intros s' Hs'. apply wp_ret. apply Hfail; [lia|auto]. }
  apply wp_bind. kacquire s Hs. apply wp_bind. eapply wp_ctrl_chrdev_create; [exact Hs|done|..].
  { intros e s' He. revert s'. knext s Hs. rewrite decide_True by lia. apply wp_bind.
    eapply (wp_undo_enabled _ _ _ _ _ a _ []); [exact Hs|exact Hl|]. intros s' Hs'. apply wp_ret. apply Hfail; [lia|auto]. }
  intros d s' Hd. revert s'. knext s Hs. rewrite decide_False by tauto. ktick s Hs k3. apply wp_bind.
  eapply (wp_mono _ (fun _ s => st v ls [] ((a, (false, KCtrl (probed v dev d))) :: w_objs w)
    (chrdev_res a (probed v dev d) ++ REnabled dev :: RRegion dev :: w_res w v) s)).
  { case_decide; [|done]. ktick s Hs k4. done. }
  clear s Hs. intros failed s Hs. destruct failed.
  { apply wp_bind. eapply (wp_undo_enabled _ _ _ _ _ a _ []); [exact Hs|exact Hl|].
    intros s' Hs'. apply wp_ret. apply Hfail; [done|auto]. }
  apply wp_bind. eapply wp_vars; [exact Hs|]. apply wp_bind, wp_bind. eapply wp_vars; [exact Hs|].
  eapply wp_set_vars; [exact Hs|]. knext s Hs. apply wp_ret. eapply (Hret a d); [done|]. split.
  - subst ls. change ((w_ctrls w).*1 ++ [a]) with ((w_ctrls w).*1 ++ [(a, probed v dev d)].*1) in Hs.
    rewrite <- fmap_app, w_lists_ctrls_set in Hs. eapply st_perm; [exact Hs|..].
    + rewrite w_objs_ctrl, app_nil_r, w_set_ctrls_id. done.
    + rewrite w_res_ctrl, app_nil_r, w_set_ctrls_id. unfold ctrl_res. simpl.
      change (w_res w (with_curr v (v_curr_ctrls v + 1))) with (w_res w v). perm.
  - apply world_ok_probe; [done| |done]. pose proof (w_curr _ _ Hok). pose proof b_param. lia.
Qed.

Lemma wp_find_by_pci_dev w v R us a c vs (Q : Z -> drv -> Prop) s :
  st v (w_lists w) [] (w_objs w) R s -> NoDup (w_pdevs w) -> w_ctrls w = us ++ (a, c) :: vs -> Q a s ->
  wp (ctrl_find_by_pci_dev ctrl_list (ct_pdev c)) Q s.
Proof.
  intros Hs Hnd Hw HQ. set (dev := ct_pdev c).
  set (p := fun b => match d_objs s !! b with Some (_, KCtrl c') => bool_decide (ct_pdev c' = dev) | _ => false end).
  assert (forall b c', (b, c') ∈ w_ctrls w -> d_objs s !! b = Some (false, KCtrl c')) as Hlk
    by (intros b c' Hin; apply (st_lookup _ _ _ _ _ _ _ _ Hs); by apply w_ctrl_in).
  eapply (wp_find_in p); [exact Hs|apply w_lists_ctrls| |].
  - intros b ([b' c'] & -> & Hin)%list_elem_of_fmap. apply wp_bind.
    eapply (wp_kload _ b' false (KCtrl c')); [exact Hs|by apply w_ctrl_in|done|]. apply wp_ret.
    unfold p. simpl. by rewrite (Hlk b' c' Hin).
  - assert (p a = true) as Ha.
    { unfold p. rewrite (Hlk a c) by (rewrite Hw; set_solver). by apply bool_decide_eq_true. }
    destruct (find_first p (w_ctrls w)) as [[Hno _]|(us' & [b c'] & vs' & Hw' & Hb & _ & ->)].
    { specialize (Hno (a, c)). simpl in Hno. rewrite Ha in Hno. discriminate Hno. rewrite Hw. set_solver. }
    simpl in *. assert ((b, c') ∈ w_ctrls w) as Hin by (rewrite Hw'; set_solver).
    unfold p in Hb. rewrite (Hlk b c' Hin) in Hb. apply bool_decide_eq_true in Hb.
    assert ((a, c) ∈ w_ctrls w) as Hin' by (rewrite Hw; set_solver).
    apply list_elem_of_lookup in Hin as [i Hi]. apply list_elem_of_lookup in Hin' as [j Hj].
    assert (i = j) as ->.
    { apply (NoDup_lookup (w_pdevs w) i j dev Hnd); unfold w_pdevs; rewrite list_lookup_fmap.
      - by rewrite Hi, <- Hb.
      - by rewrite Hj. }
    by simplify_eq.
Qed.

Lemma world_ok_remove w v us x vs :
  world_ok w v -> w_ctrls w = us ++ x :: vs -> Forall not_gpu (w_hosts w) -> Forall not_gpu (w_devs w) ->
  world_ok (w_set_ctrls w (us ++ vs)) (with_curr v (v_curr_ctrls v - 1)).
Proof.
  intros [Hh Hd Hm Hc Hnd] Hw Hnh Hng.
  assert (forall l, Forall (map_ok (w_pdevs w)) l -> Forall not_gpu l ->
    Forall (map_ok (w_pdevs (w_set_ctrls w (us ++ vs)))) l) as Hl.
  { intros l Hl1 Hl2. apply Forall_forall. intros y Hy. rewrite Forall_forall in Hl1, Hl2.
    eapply own_map_not_gpu; eauto. }
  rewrite Hw, length_app in Hm, Hc. simpl in Hm, Hc. split; simpl.
  - by apply Hl.
  - by apply Hl.
  - rewrite length_app. lia.
  - rewrite length_app. lia.
  - unfold w_pdevs in *. rewrite Hw in Hnd. simpl. rewrite fmap_app in *. simpl in Hnd.
    rewrite <- Permutation_middle in Hnd. by apply NoDup_cons in Hnd as [_ ?].
Qed.

Lemma wp_remove_pci_dev w v us a c vs (Q : unit -> drv -> Prop) s :
  drv_inv w v s -> w_ctrls w = us ++ (a, c) :: vs -> ct_pdev c <> NULL ->
  Forall not_gpu (w_hosts w) -> Forall not_gpu (w_devs w) ->
  (forall s', drv_inv (w_set_ctrls w (us ++ vs)) (with_curr v (v_curr_ctrls v - 1)) s' -> Q tt s') ->
  wp (remove_pci_dev (ct_pdev c)) Q s.
Proof.
  intros [Hs Hok] Hw Hd Hnh Hng HQ. unfold remove_pci_dev. rewrite decide_False by done.
  apply wp_bind. eapply wp_vars; [exact Hs|]. apply wp_bind, wp_bind. eapply wp_vars; [exact Hs|].
  eapply wp_set_vars; [exact Hs|]. knext s Hs. apply wp_bind.
  eapply wp_find_by_pci_dev; [exact Hs|by eapply w_nodup|exact Hw|].
  assert (w_lists w !! ctrl_list = Some (us.*1 ++ a :: vs.*1)) as Hl by (by rewrite w_lists_ctrls, Hw, fmap_app).
  assert (w_objs w ≡ₚ ctrl_cell (a, c) :: w_objs (w_set_ctrls w (us ++ vs))) as HO
    by (rewrite <- (w_set_ctrls_id w) at 1; rewrite Hw; apply w_objs_ctrl).
  assert (w_res w v ≡ₚ ctrl_res (a, c) ++ w_res (w_set_ctrls w (us ++ vs)) v) as HR
    by (rewrite <- (w_set_ctrls_id w) at 1; rewrite Hw; apply w_res_ctrl).
  apply wp_bind.
  eapply (wp_drv_ctrl_put _ (w_objs (w_set_ctrls w (us ++ vs))) (RRegion (ct_pdev c) :: REnabled (ct_pdev c) ::
    w_res (w_set_ctrls w (us ++ vs)) v) ctrl_list us.*1 a c vs.*1); [|exact Hl|].
  { eapply st_perm; [exact Hs|exact HO|]. rewrite HR. unfold ctrl_res. simpl. perm. }
  knext s Hs. apply wp_bind. kgive s Hs. kgive s Hs. apply HQ. split.
  - by rewrite <- fmap_app, w_lists_ctrls_set in Hs.
  - by eapply world_ok_remove.
Qed.

(** ** Unloading *)

Lemma wp_clear_maps w v dev fuel i (Q : Z -> drv -> Prop) s :
  drv_inv w v s -> (length (w_maps w dev) <= fuel)%nat ->
  (forall r s', drv_inv (w_set w dev []) v s' -> Q r s') -> wp (clear_maps fuel (list_of dev) i) Q s.
Proof.
  revert w i s. induction fuel as [|fuel IH]; intros w i s Hinv Hf HQ; cbn [clear_maps]; apply wp_bind;
    (eapply wp_first; [apply Hinv|apply w_lists_maps|]).
  - destruct (w_maps w dev) as [|x ms] eqn:Hm; simpl in Hf; [|lia]. apply wp_ret, HQ.
    rewrite <- Hm, w_set_maps. done.
  - destruct (w_maps w dev) as [|x ms] eqn:Hm; simpl.
    + apply wp_ret, HQ. rewrite <- Hm, w_set_maps. done.
    + pose proof (st_not_null _ _ _ (proj1 Hinv) (w_lists_maps w dev)) as Hn. rewrite Hm in Hn.
      rewrite decide_False by (intros E; apply Hn; rewrite fmap_cons, <- E; by left).
      apply wp_bind. apply (wp_unmap w v dev [] x ms); [done|done|]. intros s' Hi. simpl in Hi.
      eapply IH; [exact Hi|rewrite w_maps_set; simpl in Hf; lia|]. intros r s2 Hi2. rewrite w_set_set in Hi2. by eapply HQ.
Qed.

Lemma wp_clear_map_list w v dev (Q : Z -> drv -> Prop) s :
  drv_inv w v s -> (forall r s', drv_inv (w_set w dev []) v s' -> Q r s') -> wp (clear_map_list (list_of dev)) Q s.
Proof.
  intros Hinv HQ. apply wp_bind, wp_bind, wp_gets, wp_ret.
  eapply wp_clear_maps; [exact Hinv| |exact HQ].
  pose proof (st_fuel _ _ _ (proj1 Hinv) (w_lists_maps w dev)) as Hf. rewrite length_fmap in Hf. lia.
Qed.

Lemma wp_remove_all cs v devs (Q : unit -> drv -> Prop) s :
  drv_inv (mk_world cs [] []) v s -> w_pdevs (mk_world cs [] []) ≡ₚ devs -> Forall (fun d => d <> NULL) devs ->
  (forall s', drv_inv (mk_world [] [] []) (with_curr v 0) s' -> Q tt s') -> wp (remove_all devs) Q s.
Proof.
  revert cs v s. induction devs as [|d devs IH]; intros cs v s Hinv Hp Hnn HQ; simpl.
  - apply Permutation_nil_r in Hp. destruct cs; [|done]. apply HQ. pose proof (w_curr _ _ (proj2 Hinv)) as Hc.
    destruct v as [v1 v2 v3 v4]. simpl in Hc. by subst v3.
  - apply Forall_cons in Hnn as [Hd Hnn]. assert (d ∈ w_pdevs (mk_world cs [] [])) as Hin by (rewrite Hp; by left).
    unfold w_pdevs in Hin. simpl in Hin. apply list_elem_of_fmap in Hin as ([a c] & -> & Hin). simpl in *.
    apply list_elem_of_split in Hin as (us & vs & ->). apply wp_bind.
    apply (wp_remove_pci_dev (mk_world (us ++ (a, c) :: vs) [] []) v us a c vs); [done|done|done|done|done|].
    intros s' Hi. eapply IH; [exact Hi| |done|].
    + unfold w_pdevs in *. simpl in *. rewrite fmap_app in *. simpl in Hp.
      rewrite <- Permutation_middle in Hp. by apply Permutation_cons_inv in Hp.
    + intros s2 Hi2. by apply HQ.
Qed.

(** The state of the module before it is loaded and after it is unloaded. *)
Definition nothing_left (s : drv) : Prop := d_objs s = ∅ /\ d_res s = [].

Lemma wp_ugds_drv_exit w v bound (Q : unit -> drv -> Prop) s :
  drv_inv w v s -> w_pdevs w ≡ₚ bound -> Forall (fun d => d <> NULL) bound ->
  (forall s', nothing_left s' -> Q tt s') -> wp (ugds_drv_exit bound) Q s.
Proof.
  intros Hinv Hb Hnn HQ. apply wp_bind. apply (wp_clear_map_list w v true); [done|]. intros r s1 Hi. clear r s Hinv.
  apply wp_bind. apply (wp_clear_map_list (w_set w true []) v false); [exact Hi|]. intros r s Hi'. clear r s1 Hi. simpl in Hi'.
  apply wp_bind. eapply wp_remove_all; [exact Hi'|by rewrite <- Hb|done|]. intros s1 [Hs _]. clear s Hi'.
  unfold w_res, w_objs in Hs. simpl in Hs.
  apply wp_bind. kgive s1 Hs. apply wp_bind. eapply wp_vars; [exact Hs|]. apply wp_bind. kgive s1 Hs. kgive s1 Hs.
  apply HQ. split.
  - apply map_to_list_empty_iff. by apply Permutation_nil_r, (st_objs _ _ _ _ _ _ Hs).
  - by apply Permutation_nil_r, (st_res _ _ _ _ _ _ Hs).
Qed.

(** ** Loading *)

(** The static variables before the module is loaded. *)
Definition drv_start (user : gmap Z Z) : drv :=
  let z := mk_node NULL NULL NULL in
  mk_drv (mk_kmem (<[ctrl_list := z]> (<[host_list := z]> (<[device_list := z]> ∅))) ∅) ∅ 4 0 [] (mk_vars 0 0 0 user).

Lemma drv_start_st u : st (mk_vars 0 0 0 u) ∅ [] [] [] (drv_start u).
Proof.
  split; cbn [drv_start d_mem d_objs d_next d_res d_vars k_nodes k_locks].
  - done.
  - split; intros l xs Hl; by rewrite lookup_empty in Hl.
  - intros a Ha. by apply elem_of_nil in Ha.
  - done.
  - done.
  - intros a vm o Ha. by rewrite lookup_empty in Ha.
  - intros a Ha. split; [done|].
    rewrite !lookup_insert_ne by (unfold ctrl_list, host_list, device_list; lia). done.
  - lia.
  - intros a x Ha. by rewrite lookup_empty in Ha.
Qed.

Lemma wp_init_list v ls O R l n (Q : unit -> drv -> Prop) s :
  st v ls [] O R s -> k_nodes (d_mem s) !! l = Some n -> l <> NULL ->
  (forall l' xs, ls !! l' = Some xs -> l ∉ l' :: xs) ->
  (forall s', st v (<[l := []]> ls) [] O R s' ->
     (forall p, p <> l -> k_nodes (d_mem s') !! p = k_nodes (d_mem s) !! p) -> Q tt s') ->
  wp (on_mem (list_init l)) Q s.
Proof.
  intros Hs Hn Hl Hnew HQ. eapply wp_on_mem; [by eapply wp_list_init; [eapply st_lists| | |]|].
  intros [] k [Hk Hp]. apply HQ; [|done]. eapply st_mem; [exact Hs|done|intros a Ha; by apply elem_of_nil in Ha|].
  intros a. destruct (decide (a = l)) as [->|Hne]; [|by rewrite Hp]. rewrite Hn. split; [done|]. intros _.
  destruct (lists_lst _ _ l [] l Hk) as [E _]; [apply lookup_insert_eq|by left|].
  unfold lst in E. by destruct (k_nodes k !! l).
Qed.

(** Loading succeeds, with nothing mapped yet, or leaves nothing behind. *)
Lemma wp_ugds_drv_entry u (Q : Z -> drv -> Prop) :
  (forall e s', e < 0 -> nothing_left s' -> Q e s') ->
  (forall v s', drv_inv (mk_world [] [] []) v s' -> Q 0 s') -> wp ugds_drv_entry Q (drv_start u).
Proof.
  intros Hfail Hret. pose proof (drv_start_st u) as Hs. set (s := drv_start u) in *. unfold ugds_drv_entry.
  assert (forall v ls s, st v ls [] [] [] s -> nothing_left s) as Hnone.
  { clear. intros v ls s Hs. split; [apply map_to_list_empty_iff, Permutation_nil_r, (st_objs _ _ _ _ _ _ Hs)|].
    apply Permutation_nil_r, (st_res _ _ _ _ _ _ Hs). }
  apply wp_bind. eapply wp_init_list; [exact Hs|done|done|by intros l' xs Hl; rewrite lookup_empty in Hl|].
  intros s1 Hs1 Hk1. apply wp_bind. eapply wp_init_list; [exact Hs1|by rewrite Hk1|done| |].
  { intros l' xs [[<- <-]|[_ Hl]]%lookup_insert_Some; [by rewrite list_elem_of_singleton|by rewrite lookup_empty in Hl]. }
  intros s2 Hs2 Hk2. apply wp_bind. eapply wp_init_list; [exact Hs2|by rewrite Hk2, Hk1|done| |].
  { intros l' xs [[<- <-]|[_ [[<- <-]|[_ Hl]]%lookup_insert_Some]]%lookup_insert_Some;
      [by rewrite list_elem_of_singleton..|by rewrite lookup_empty in Hl]. }
  intros s3 Hs3 _. clear s Hs s1 Hs1 Hk1 s2 Hs2 Hk2.
  ktick s3 Hs3 k1. pose proof (ok_call k1). case_decide; [apply wp_ret; apply Hfail; [done|by eapply Hnone]|].
  apply wp_bind. kacquire s3 Hs3. apply wp_bind. eapply wp_vars; [exact Hs3|]. apply wp_bind.
  eapply wp_set_vars; [exact Hs3|]. knext s3 Hs3. ktick s3 Hs3 k2. apply wp_bind.
  eapply wp_set_vars; [exact Hs3|]. knext s3 Hs3. case_decide.
  { apply wp_bind. kgive s3 Hs3. apply wp_ret. apply Hfail; [done|by eapply Hnone]. }
  apply wp_bind. kacquire s3 Hs3. ktick s3 Hs3 k3. pose proof (ok_call k3). case_decide.
  { apply wp_bind. kgive s3 Hs3. apply wp_bind. kgive s3 Hs3. apply wp_ret. apply Hfail; [lia|by eapply Hnone]. }
  apply wp_bind. kacquire s3 Hs3. apply wp_ret. eapply Hret. split; [exact Hs3|].
  split; simpl; try done; [lia|apply NoDup_nil_2].
Qed.

(** ** The callback of the NVIDIA driver *)

Lemma wp_force_release w v dev us x vs vm m (Q : unit -> drv -> Prop) s :
  drv_inv w v s -> w_maps w dev = us ++ x :: vs -> (x.1, (vm, KMap m)) ∈ map_cells x ->
  mp_release m = Some RELEASE_GPU_MEMORY ->
  (forall s', drv_inv (w_set w dev (us ++ vs)) v s' -> Q tt s') -> wp (force_release_gpu_memory x.1) Q s.
Proof.
  intros Hinv Hm Hin Hr HQ. destruct (drv_inv_split _ _ _ _ _ _ _ Hinv Hm) as (Hs & Hx & Hok & Hl).
  pose proof (w_ctrls_in (w_set w dev (us ++ vs)) _ (reflexivity _)) as Hc.
  replace (w_ctrls (w_set w dev (us ++ vs))) with (w_ctrls w) in Hc by (by destruct dev).
  replace (w_pdevs (w_set w dev (us ++ vs))) with (w_pdevs w) in Hc by (by destruct dev).
  assert (forall m' s, st v (w_lists w) [] ([(x.1, (vm, KMap m'))] ++ w_objs (w_set w dev (us ++ vs)))
    ([] ++ w_res (w_set w dev (us ++ vs)) v) s -> mp_data m' = NULL -> wp (unmap_and_release x.1) Q s) as Hend.
  { clear s Hs Hinv. intros m' s Hs Hd.
    eapply wp_unmap_listed; [exact Hs|by apply own_plain|exact Hl|by destruct dev|apply w_lists_ctrls|exact Hc|by eapply w_no_resv|].
    intros s' Hs'. apply HQ. split; [|done]. by rewrite <- fmap_app, w_lists_set in Hs'. }
  apply wp_bind. unfold map_ok in Hx. destruct Hx as [vm' m' Hd|vm' m' vm2 pages n Hd Hr'|vm' m' gd mappings table ms Hd Hr' Hcl Hle Hmax Hms Ht
    |vm' m' data b at_ sgt Hd Hr']; (apply elem_of_cons in Hin as [Hin|Hin]; [injection Hin as <- <-|exfalso; set_solver]);
    try congruence.
  - change (wp (release_gpu_memory x.1) (fun _ : unit => wp (unmap_and_release x.1) Q) s). unfold release_gpu_memory, release_gpu.
    cbn [app] in Hs. kload Hs. rewrite decide_False by tauto. apply wp_ret. by eapply Hend; [exact Hs|].
  - change (wp (release_gpu_memory x.1) (fun _ : unit => wp (unmap_and_release x.1) Q) s). subst gd. rewrite <- app_assoc in Hs.
    eapply wp_release_gpu; [exact Hs|apply w_lists_ctrls|exact Hc|done..|].
    intros s' Hs'. by eapply Hend; [exact Hs'|].
Qed.

(** ** Everything that can happen *)

(** A device appears or disappears; a process uses the device file; the NVIDIA driver reclaims
    the memory behind a mapping. *)
Inductive event :=
  | Probe (dev : Z)
  | Unplug (dev : Z)
  | Ioctl (current i_cdev cmd arg : Z)
  | Mmap (i_cdev vm_start vm_end : Z)
  | Reclaim (map : Z).

(** The module, and the devices the PCI core has given it. *)
Record machine := mk_machine { mc_drv : drv; mc_bound : list Z }.

Definition at_drv {A} (r : option (A * drv)) (f : A -> Z * list Z) : option (Z * machine) :=
  match r with Some (x, s) => Some ((f x).1, mk_machine s (f x).2) | None => None end.

Definition do_event (e : event) (c : machine) : option (Z * machine) :=
  let s := mc_drv c in
  let bound := mc_bound c in
  match e with
  | Probe dev => at_drv (add_pci_dev dev s) (fun r => (r, if decide (r = 0) then bound ++ [dev] else bound))
  | Unplug dev => at_drv (remove_pci_dev dev s) (fun _ => (0, filter (fun d => d <> dev) bound))
  | Ioctl current i_cdev cmd arg => at_drv (map_ioctl current i_cdev cmd arg s) (fun r => (r, bound))
  | Mmap i_cdev vm_start vm_end => at_drv (mmap_registers i_cdev vm_start vm_end s) (fun r => (r.1, bound))
  | Reclaim map => at_drv (force_release_gpu_memory map s) (fun _ => (0, bound))
  end.

(** No mapping of GPU memory is alive. *)
Definition no_gpu_maps (s : drv) : Prop :=
  map_Forall (fun _ x => match x.2 with KMap m => mp_release m <> Some RELEASE_GPU_MEMORY | _ => True end) (d_objs s).

(** What the kernel does: it probes a device the module does not have, and only unplugs one it
    has.  The limits are those of the module: no more devices than it has room for, and none
    taken away while GPU memory is mapped for it. *)
Definition legal (e : event) (c : machine) : Prop :=
  match e with
  | Probe dev => dev <> NULL /\ (dev ∉ mc_bound c) /\ Z.of_nat (length (mc_bound c)) < max_ctrls_param
  | Unplug dev => dev ∈ mc_bound c /\ no_gpu_maps (mc_drv c)
  | Reclaim map => exists vm m, d_objs (mc_drv c) !! map = Some (vm, KMap m) /\ mp_release m = Some RELEASE_GPU_MEMORY
  | _ => True
  end.

#[export] Instance legal_dec e c : Decision (legal e c).
Proof.
  destruct e as [dev|dev| | |map]; simpl; try apply _.
  - unfold no_gpu_maps. apply and_dec; [apply _|]. apply map_Forall_dec. intros a [vm []]; simpl; apply _.
  - destruct (d_objs (mc_drv c) !! map) as [[vm []]|] eqn:E; try (right; intros (? & ? & ? & _); congruence).
    destruct (mp_release m) as [[]|] eqn:Er; [right|left|right|right];
      first [intros (? & ? & ? & ?); congruence|by exists vm, m].
Defined.

Inductive reach (u : gmap Z Z) : machine -> Prop :=
  | reach_load s : ugds_drv_entry (drv_start u) = Some (0, s) -> reach u (mk_machine s [])
  | reach_event e c r c' : reach u c -> legal e c -> do_event e c = Some (r, c') -> reach u c'.

(** The invariant of the machine. *)
Definition machine_inv (c : machine) : Prop :=
  exists w v, drv_inv w v (mc_drv c) /\ w_pdevs w = mc_bound c /\ Forall (fun d => d <> NULL) (mc_bound c).

(** One event: it is defined, keeps the invariant, and after an error that is not a fault the
    memory and the resources are what they were. *)
Definition same_state (s s' : drv) : Prop := d_objs s' = d_objs s /\ d_res s' ≡ₚ d_res s.

Definition event_ok (c : machine) (x : option (Z * machine)) : Prop :=
  match x with
  | Some (r, c') => machine_inv c' /\ (r < 0 -> r <> - EFAULT -> same_state (mc_drv c) (mc_drv c'))
  | None => False
  end.

Lemma same_world w v v' s s' : drv_inv w v s -> drv_inv w v' s' ->
  v_dev_first v' = v_dev_first v -> v_dev_class v' = v_dev_class v -> same_state s s'.
Proof.
  intros [Hs _] [Hs' _] E1 E2. split.
  - apply map_to_list_inj. by rewrite (st_objs _ _ _ _ _ _ Hs), (st_objs _ _ _ _ _ _ Hs').
  - rewrite (st_res _ _ _ _ _ _ Hs), (st_res _ _ _ _ _ _ Hs'). unfold w_res. by rewrite E1, E2.
Qed.

Lemma event_ok_wp {A} (m : M drv A) c f :
  wp m (fun x s' => machine_inv (mk_machine s' (f x).2) /\
    ((f x).1 < 0 -> (f x).1 <> - EFAULT -> same_state (mc_drv c) s')) (mc_drv c) ->
  event_ok c (at_drv (m (mc_drv c)) f).
Proof. unfold wp, event_ok, at_drv. by destruct (m (mc_drv c)) as [[x s']|]. Qed.

(** The only descriptor a mapping has is its own. *)
Lemma own_map_kmap ps a Oa Ra b vm m : own_map ps a Oa Ra -> (b, (vm, KMap m)) ∈ Oa -> b = a.
Proof. intros [] [E|Hin]%elem_of_cons; (by injection E) || (exfalso; set_solver). Qed.

(** Every descriptor in memory is that of a mapping. *)
Lemma w_objs_kmap w v b vm m :
  world_ok w v -> (b, (vm, KMap m)) ∈ w_objs w ->
  exists dev x, x ∈ w_maps w dev /\ x.1 = b /\ (b, (vm, KMap m)) ∈ map_cells x.
Proof.
  intros Hok Hb. unfold w_objs in Hb.
  assert (exists dev, (b, (vm, KMap m)) ∈ w_maps w dev ≫= map_cells) as (dev & Hin).
  { rewrite !elem_of_app in Hb. destruct Hb as [Hb|[Hb|Hb]]; [|by exists false|by exists true].
    apply list_elem_of_fmap in Hb as (x & Hx & _). done. }
  apply list_elem_of_bind in Hin as (x & Hcell & Hx).
  pose proof (w_maps_ok w v dev Hok) as Hms. rewrite Forall_forall in Hms.
  pose proof (own_map_kmap _ _ _ _ _ _ _ (Hms _ Hx) Hcell). by exists dev, x.
Qed.

Lemma w_kmap_in w v s b vm m :
  drv_inv w v s -> d_objs s !! b = Some (vm, KMap m) ->
  exists dev us x vs, w_maps w dev = us ++ x :: vs /\ x.1 = b /\ (b, (vm, KMap m)) ∈ map_cells x.
Proof.
  intros [Hs Hok] Hb. apply (st_lookup _ _ _ _ _ _ _ _ Hs) in Hb.
  destruct (w_objs_kmap _ _ _ _ _ Hok Hb) as (dev & x & Hx & Hxb). apply list_elem_of_split in Hx as (us & vs & Hx).
  by exists dev, us, x, vs.
Qed.

Lemma w_not_gpu w v s dev : drv_inv w v s -> no_gpu_maps s -> Forall not_gpu (w_maps w dev).
Proof.
  intros [Hs Hok] Hng. apply Forall_forall. intros x Hx a vm m Hin.
  assert ((a, (vm, KMap m)) ∈ w_objs w) as Ho.
  { unfold w_objs. rewrite !elem_of_app. right.
    destruct dev; [right|left]; apply list_elem_of_bind; by exists x. }
  apply (st_lookup _ _ _ _ _ _ _ _ Hs) in Ho. exact (Hng _ _ Ho).
Qed.

Lemma probe_step `{!Benign} c dev : machine_inv c -> legal (Probe dev) c -> event_ok c (do_event (Probe dev) c).
Proof.
  intros (w & v & Hinv & Hw & Hnn) (Hd & Hnew & Hlt). apply event_ok_wp. rewrite <- Hw in *.
  eapply wp_add_pci_dev; [exact Hinv|done| |..].
  - pose proof (w_curr _ _ (proj2 Hinv)) as Hc. unfold w_pdevs in Hlt. rewrite length_fmap in Hlt. lia.
  - intros e s' He Hi. simpl. rewrite decide_False by lia. split; [|intros _ _; by eapply same_world].
    exists w, v. done.
  - intros a d s' Hd0 Hi. simpl. split; [|lia]. eexists _, _. split_and!; [exact Hi| |].
    + simpl. unfold w_pdevs. simpl. by rewrite fmap_app.
    + apply Forall_app. split; [done|]. by constructor.
Qed.

Lemma unplug_step c dev : machine_inv c -> legal (Unplug dev) c -> event_ok c (do_event (Unplug dev) c).
Proof.
  intros (w & v & Hinv & Hw & Hnn) (Hin & Hng). apply event_ok_wp. rewrite <- Hw in *.
  pose proof Hin as Hin'. unfold w_pdevs in Hin'. apply list_elem_of_fmap in Hin' as ([a ct] & -> & Hct). simpl in *.
  apply list_elem_of_split in Hct as (us & vs & Hct).
  eapply wp_remove_pci_dev; [exact Hinv|exact Hct|by rewrite Forall_forall in Hnn; apply Hnn
    |by apply (w_not_gpu w v _ false Hinv)|by apply (w_not_gpu w v _ true Hinv)|].
  intros s' Hi. split; [|simpl; lia]. eexists _, _. split_and!; [exact Hi| |].
  - pose proof (w_nodup _ _ (proj2 Hinv)) as Hnd. unfold w_pdevs in *. simpl. rewrite Hct in *. clear Hi.
    rewrite !fmap_app in *. simpl in *. rewrite filter_app, filter_cons_False by tauto.
    apply NoDup_app in Hnd as (_ & Hdis & [Hev _]%NoDup_cons).
    rewrite !filter_all; [done| |]; intros x Hx E; subst x; [done|]. eapply Hdis; [exact Hx|by left].
  - apply Forall_forall. intros x [_ Hx]%list_elem_of_filter. rewrite Forall_forall in Hnn. by apply Hnn.
Qed.

Lemma ioctl_step `{!Benign} c current i_cdev cmd arg :
  machine_inv c -> event_ok c (do_event (Ioctl current i_cdev cmd arg) c).
Proof.
  intros (w & v & Hinv & Hw & Hnn). apply event_ok_wp. eapply wp_mono; [by apply (wp_map_ioctl w v)|].
  intros r s' (w' & u & He & Hi). simpl. split.
  - exists w', (with_user v u). split_and!; [done| |done]. rewrite <- Hw. destruct He; [done|..]; by destruct dev.
  - intros Hr Hf. destruct He as [|dev x [?|?]|]; [|lia..]. by eapply same_world.
Qed.

Lemma mmap_step c i_cdev vm_start vm_end :
  machine_inv c -> event_ok c (do_event (Mmap i_cdev vm_start vm_end) c).
Proof.
  intros (w & v & Hinv & Hw & Hnn). apply event_ok_wp.
  eapply wp_mono; [by apply (wp_mmap_registers w v)|]. intros r s' [Hi _]. split.
  - by exists w, v.
  - intros _ _. by eapply same_world.
Qed.

Lemma reclaim_step c map : machine_inv c -> legal (Reclaim map) c -> event_ok c (do_event (Reclaim map) c).
Proof.
  intros (w & v & Hinv & Hw & Hnn) (vm & m & Hm & Hr). apply event_ok_wp.
  destruct (w_kmap_in _ _ _ _ _ _ Hinv Hm) as (dev & us & x & vs & Hx & <- & Hcell).
  eapply wp_force_release; [exact Hinv|exact Hx|exact Hcell|done|]. intros s' Hi. split; [|simpl; lia].
  exists (w_set w dev (us ++ vs)), v. split_and!; [done| |done]. rewrite <- Hw. by destruct dev.
Qed.

Lemma event_step `{!Benign} e c : machine_inv c -> legal e c -> event_ok c (do_event e c).
Proof.
  destruct e; intros Hc Hl.
  - by apply probe_step.
  - by apply unplug_step.
  - by apply ioctl_step.
  - by apply mmap_step.
  - by apply reclaim_step.
Qed.

Lemma drv_reach_inv `{!Benign} u c : reach u c -> machine_inv c.
Proof.
  induction 1 as [s Hs|e c r c' Hc IH Hl He].
  - assert (wp ugds_drv_entry (fun r s => r = 0 -> machine_inv (mk_machine s [])) (drv_start u)) as Hwp.
    { apply wp_ugds_drv_entry; [lia|]. intros v s' Hi _. exists (mk_world [] [] []), v. split_and!; [done..|constructor]. }
    unfold wp in Hwp. rewrite Hs in Hwp. by apply Hwp.
  - pose proof (event_step e c IH Hl) as Hok. unfold event_ok in Hok. rewrite He in Hok. apply Hok.
Qed.



(** C30: an event that returns an error, in a history without the failures of [Benign], leaves the memory and the resources of the module as they
    were, unless the error is -EFAULT. *)
Theorem drv_failure_undone `{!Benign} u c e r c' :
  reach u c -> legal e c -> do_event e c = Some (r, c') -> r < 0 -> r <> - EFAULT ->
  d_objs (mc_drv c') = d_objs (mc_drv c) /\ d_res (mc_drv c') ≡ₚ d_res (mc_drv c).
Proof.
  intros Hc Hl He Hr Hf. pose proof (event_step e c (drv_reach_inv u c Hc) Hl) as Hok. unfold event_ok in Hok.
  rewrite He in Hok. by apply Hok.
Qed.

(** If loading the module fails it leaves nothing behind. *)
Theorem drv_load u :
  wp ugds_drv_entry (fun r s' => r < 0 /\ d_objs s' = ∅ /\ d_res s' = [] \/
    r = 0 /\ exists first cls, d_objs s' = ∅ /\ d_res s' ≡ₚ [RDriver; RClass cls; RChrdevs first]) (drv_start u).
Proof.
  apply wp_ugds_drv_entry.
  - intros e s' He [??]. by left.
  - intros v s' [Hs _]. right. split; [done|]. exists (v_dev_first v), (v_dev_class v). split.
    + apply map_to_list_empty_iff, Permutation_nil_r, (st_objs _ _ _ _ _ _ Hs).
    + apply (st_res _ _ _ _ _ _ Hs).
Qed.
End life.
