(* ===== verification/DrvTasks.v ===== *)
(** * Concurrent calls of the kernel module (src/drv/pci.c, map.c)

    [map_ioctl] called by several tasks at once.  A call is a sequence of steps: looking up the
    controller, making the descriptor (only its own memory), inserting it (under the lock of the
    list), answering the user, and for unmapping the walk over the list, element by element and
    without a lock as [map_find] does it, taking the element out (under the lock) and releasing
    it.  Steps of different tasks interleave in any order. *)
From stdpp Require Import prelude gmap list.
From Stdlib Require Import ZArith Lia.
From S2P Require Import Prelude NvmTypes DrvList DrvSg DrvState DrvMap DrvPci DrvOwn DrvProofs DrvInv DrvCalls DrvLife.
Local Open Scope Z_scope.

(** What is copied to the user at the end of a mapping call. *)
Inductive answer := AnswerMap (ioaddrs : Z) | AnswerDmabuf (dreq : nvm_ioctl_dmabuf).

(** Where a task is in [map_ioctl], and its live variables. *)
Inductive task :=
  | TDispatch (ctrl cmd arg : Z)                         (* [switch (cmd)] *)
  | TInsert (list md err : Z) (ans : answer)             (* [insert_or_release] *)
  | TAnswer (md : Z) (ans : answer)
  | TFirst (dev : bool) (addr : Z)                       (* [map_find] *)
  | TWalk (dev : bool) (addr element : Z)
  | TRemove (md retval : Z)                              (* [unmap_and_release] *)
  | TRelease (md retval : Z)
  | TReturned (retval : Z).

Section tasks.
Context `{Kernel}.

(** The list of host ([false]) or device mappings. *)
Definition map_list (dev : bool) : Z := if dev then device_list else host_list.

(** What [map_find] asks of an element. *)
Definition element_matches (current addr : Z) (m : kmap) : bool :=
  bool_decide (mp_owner m = current /\ mp_page_size m > 0 /\ mp_vaddr m = Z.land addr (u64 (Z.lnot (mp_page_size m - 1)))).

(** The end of a walk over a list. *)
Definition not_found (dev : bool) (addr : Z) : task := if dev then TReturned (- EINVAL) else TFirst true addr.
Definition walk_to (dev : bool) (addr element : Z) : task :=
  if decide (element = NULL) then not_found dev addr else TWalk dev addr element.

Definition built (list : Z) (ans : answer) (r : Z + Z * Z) : task :=
  match r with inl e => TReturned e | inr (md, err) => TInsert list md err ans end.

(** Up to the first step that touches a list of mappings. *)
Definition dispatch (current ctrl cmd arg : Z) : M drv task :=
  if decide (cmd = NVM_MAP_HOST_MEMORY) then
    n ← tick;
    match user_map n arg with
    | None => mret (TReturned (- EFAULT))
    | Some request =>
        r ← new_user_map current ctrl (vaddr_start request) (n_pages request);
        mret (built host_list (AnswerMap (ioaddrs request)) r)
    end
  else if decide (cmd = NVM_MAP_DEVICE_MEMORY /\ build_hip = false) then
    n ← tick;
    match user_map n arg with
    | None => mret (TReturned (- EFAULT))
    | Some request =>
        r ← new_device_map current ctrl (vaddr_start request) (n_pages request) ctrl_list;
        mret (built device_list (AnswerMap (ioaddrs request)) r)
    end
  else if decide (cmd = NVM_MAP_DMABUF_MEMORY /\ build_hip = true) then
    n ← tick;
    match user_dmabuf n arg with
    | None => mret (TReturned (- EFAULT))
    | Some dreq =>
        if dmabuf_bad dreq then mret (TReturned (- EINVAL))
        else
          r ← new_dmabuf_map current ctrl (gpu_ptr dreq) (dmabuf_fd dreq) (dmabuf_offset dreq)
                (dmabuf_size dreq / PAGE_SIZE) (ioaddrs_capacity dreq);
          mret (built device_list (AnswerDmabuf dreq) r)
    end
  else if decide (cmd = NVM_UNMAP_MEMORY) then
    n ← tick;
    mret match user_addr n arg with None => TReturned (- EFAULT) | Some addr => TFirst false addr end
  else mret (TReturned (- EINVAL)).

(** Copying the addresses to the user. *)
Definition give_answer (md : Z) (ans : answer) : M drv task :=
  match ans with
  | AnswerMap p =>
      fault ← copy_addrs p md;
      mret (TReturned (if (fault : bool) then - EFAULT else 0))
  | AnswerDmabuf dreq =>
      n ← tick;
      (if move_notified n then ugds_dmabuf_move_notify md else mret tt);;
      m ← kload as_kmap md;
      if decide (mp_invalid m <> 0) then mret (TRemove md (- EIO))
      else if decide (mp_n_addrs m > ioaddrs_capacity dreq) then mret (TRemove md (- EOVERFLOW))
      else
        fault ← copy_addrs (dmabuf_ioaddrs dreq) md;
        mret (if (fault : bool) then TRemove md (- EFAULT) else TReturned 0)
  end.

(** [unmap_and_release] after the element was taken out of its list. *)
Definition release_map (md : Z) : M drv unit :=
  m ← kload as_kmap md;
  (match mp_release m with
   | Some r => if decide (mp_data m <> NULL) then map_release r md else mret tt
   | None => mret tt
   end);;
  kvfree md.

Definition task_step (current : Z) (t : task) : M drv task :=
  match t with
  | TDispatch ctrl cmd arg => dispatch current ctrl cmd arg
  | TInsert list md err ans =>
      if decide (err <> 0) then on_mem (list_remove md);; mret (TRelease md err)
      else on_mem (list_insert list md);; mret (TAnswer md ans)
  | TAnswer md ans => give_answer md ans
  | TFirst dev addr =>
      element ← on_mem (list_next (list_head (map_list dev)));
      mret (walk_to dev addr element)
  | TWalk dev addr element =>
      m ← kload as_kmap element;
      if element_matches current addr m then mret (TRemove element 0)
      else element ← on_mem (list_next element); mret (walk_to dev addr element)
  | TRemove md retval => on_mem (list_remove md);; mret (TRelease md retval)
  | TRelease md retval => release_map md;; mret (TReturned retval)
  | TReturned retval => mret (TReturned retval)
  end.

(** The first step of a call. *)
Definition enter (i_cdev cmd arg : Z) : M drv task :=
  ctrl ← ctrl_find_by_inode ctrl_list i_cdev;
  mret (if decide (ctrl = NULL) then TReturned (- EBADF) else TDispatch ctrl cmd arg).

(** ** The module with the calls in progress *)

Record ksys := mk_ksys { ks_machine : machine; ks_tasks : gmap Z task }.

(** A task that is not in a call begins one; a call goes on, or its result is delivered; and
    while no call is in progress, any other event. *)
Inductive klabel :=
  | KEnter (current i_cdev cmd arg : Z)
  | KStep (current : Z)
  | KLeave (current : Z)
  | KEvent (e : event).

Definition with_drv (y : ksys) (s : drv) (ts : gmap Z task) : ksys :=
  mk_ksys (mk_machine s (mc_bound (ks_machine y))) ts.

(** [None] is undefined behaviour; a label that does not apply leaves the state as it is. *)
Definition ksys_step (l : klabel) (y : ksys) : option ksys :=
  let s := mc_drv (ks_machine y) in
  match l with
  | KEnter current i_cdev cmd arg =>
      match ks_tasks y !! current with
      | Some _ => Some y
      | None =>
          match enter i_cdev cmd arg s with
          | Some (t, s) => Some (with_drv y s (<[current := t]> (ks_tasks y)))
          | None => None
          end
      end
  | KStep current =>
      match ks_tasks y !! current with
      | None => Some y
      | Some t =>
          match task_step current t s with
          | Some (t, s) => Some (with_drv y s (<[current := t]> (ks_tasks y)))
          | None => None
          end
      end
  | KLeave current =>
      match ks_tasks y !! current with
      | Some (TReturned _) => Some (mk_ksys (ks_machine y) (delete current (ks_tasks y)))
      | _ => Some y
      end
  | KEvent e =>
      match do_event e (ks_machine y) with
      | Some (_, c) => Some (mk_ksys c (ks_tasks y))
      | None => None
      end
  end.

Definition is_walking (t : task) : Prop := match t with TWalk _ _ _ => True | _ => False end.
Definition is_removing (t : task) : Prop := match t with TRemove _ _ => True | _ => False end.

(** What the module needs and does not enforce: nobody takes a mapping out of a list while
    another task walks; and what it assumes of the kernel: probing, unplugging and reclaiming
    do not overlap with calls. *)
Definition klabel_ok (l : klabel) (y : ksys) : Prop :=
  match l with
  | KStep current =>
      forall t, ks_tasks y !! current = Some t -> is_removing t ->
        forall other t', ks_tasks y !! other = Some t' -> ~ is_walking t'
  | KEvent e => ks_tasks y = ∅ /\ legal e (ks_machine y)
  | _ => True
  end.

Inductive kreach (u : gmap Z Z) : ksys -> Prop :=
  | kreach_load s : ugds_drv_entry (drv_start u) = Some (0, s) -> kreach u (mk_ksys (mk_machine s []) ∅)
  | kreach_step l y y' : kreach u y -> klabel_ok l y -> ksys_step l y = Some y' -> kreach u y'.
End tasks.
