(* ===== verification/DrvTasksSpec.v ===== *)
(** * Concurrent calls of the kernel module are safe while nobody walks a list that shrinks

    Every call in progress owns the descriptor it has not inserted yet or has taken out of its
    list, with its memory and resources; what is in the lists belongs to the module.  A mapping in
    a list is only taken out by the task that made it. *)
From stdpp Require Import prelude gmap list.
From Stdlib Require Import ZArith Lia.
From S2P Require Import Prelude NvmTypes DrvList DrvSg DrvState DrvMap DrvPci DrvOwn DrvProofs DrvInv DrvCalls DrvLife DrvTasks.
Local Open Scope Z_scope.

(** ** What a call owns *)

(** The mapping [md] with the cells [O] was made by a task. *)
Definition made_by (current md : Z) (O : list cell) : Prop :=
  exists vm m, (md, (vm, KMap m)) ∈ O /\ mp_owner m = current.

(** Its addresses can be copied to the user. *)
Definition answerable (md : Z) (O : list cell) : Prop :=
  forall vm m, (md, (vm, KMap m)) ∈ O -> mp_n_addrs m <= Z.of_nat (length (mp_addrs m)).

Definition nothing (F : list Z) (O : list cell) (R : list kres) : Prop := F = [] /\ O = [] /\ R = [].

Section holds.
Context `{Kernel}.

Definition listed (w : world) (current md : Z) (P : list cell -> Prop) : Prop :=
  exists dev x, x ∈ w_maps w dev /\ x.1 = md /\ made_by current md (map_cells x) /\ P (map_cells x).

(** The nodes in no list, the memory and the resources of a call. *)
Definition holds (w : world) (current : Z) (t : task) (F : list Z) (O : list cell) (R : list kres) : Prop :=
  match t with
  | TDispatch ctrl _ _ => nothing F O R /\ ctrl ∈ (w_ctrls w).*1
  | TInsert list md err _ =>
      F = [md] /\ own_map (w_pdevs w) md O R /\ (exists dev, list = map_list dev) /\
      (err < 0 \/ err = 0 /\ 0 < md /\ made_by current md O /\ answerable md O)
  | TAnswer md _ => nothing F O R /\ 0 < md /\ listed w current md (answerable md)
  | TWalk dev _ element => nothing F O R /\ element ∈ (w_maps w dev).*1
  | TRemove md _ => nothing F O R /\ listed w current md (fun _ => True)
  | TRelease md _ => F = [md] /\ own_map (w_pdevs w) md O R
  | TFirst _ _ | TReturned _ => nothing F O R
  end.

(** All the calls in progress. *)
Inductive parts (w : world) : list (Z * task) -> list Z -> list cell -> list kres -> Prop :=
  | parts_nil : parts w [] [] [] []
  | parts_cons current t l Ft Ot Rt F O R :
      holds w current t Ft Ot Rt -> parts w l F O R ->
      parts w ((current, t) :: l) (Ft ++ F) (Ot ++ O) (Rt ++ R).

Lemma parts_perm w l l' F O R :
  l ≡ₚ l' -> parts w l F O R -> exists F' O' R', F ≡ₚ F' /\ O ≡ₚ O' /\ R ≡ₚ R' /\ parts w l' F' O' R'.
Proof.
  intros Hl. revert F O R. induction Hl as [|[c t] l l' _ IH|[c1 t1] [c2 t2] l|l l1 l2 _ IH1 _ IH2]; intros F O R Hp.
  - eauto 10.
  - inversion Hp as [|? ? ? Ft Ot Rt F0 O0 R0 Hh Hp0]; subst. destruct (IH _ _ _ Hp0) as (F' & O' & R' & HF & HO & HR & Hp').
    exists (Ft ++ F'), (Ot ++ O'), (Rt ++ R'). split_and!; [by rewrite HF|by rewrite HO|by rewrite HR|]. by constructor.
  - inversion Hp as [|? ? ? Ft Ot Rt F0 O0 R0 Hh Hp0]; subst. inversion Hp0 as [|? ? ? Ft' Ot' Rt' F1 O1 R1 Hh' Hp1]; subst.
    exists (Ft' ++ Ft ++ F1), (Ot' ++ Ot ++ O1), (Rt' ++ Rt ++ R1). split_and!; [perm|perm|perm|].
    constructor; [done|]. by constructor.
  - destruct (IH1 _ _ _ Hp) as (F1 & O1 & R1 & HF & HO & HR & Hp1).
    destruct (IH2 _ _ _ Hp1) as (F2 & O2 & R2 & HF2 & HO2 & HR2 & Hp2). exists F2, O2, R2.
    split_and!; [by rewrite HF|by rewrite HO|by rewrite HR|done].
Qed.

Lemma parts_mono w w' l F O R :
  (forall c t Ft Ot Rt, (c, t) ∈ l -> holds w c t Ft Ot Rt -> holds w' c t Ft Ot Rt) ->
  parts w l F O R -> parts w' l F O R.
Proof.
  intros Hh Hp. induction Hp as [|c t l Ft Ot Rt F O R Hc Hp IH]; [constructor|].
  constructor; [eapply Hh; [left|done]|]. apply IH. intros c' t' ? ? ? Hin. apply Hh. by right.
Qed.

(** What is free has a cell, and no reservation lock is held. *)
Lemma holds_free w c t F O R : holds w c t F O R -> F ⊆ O.*1 /\ no_resv R.
Proof.
  assert (forall F O R, nothing F O R -> F ⊆ O.*1 /\ no_resv R) as Hn.
  { intros ? ? ? (-> & -> & ->). split; [done|]. intros b Hb. by apply elem_of_nil in Hb. }
  assert (forall ps a O R, own_map ps a O R -> [a] ⊆ O.*1 /\ no_resv R) as Ho.
  { intros ps a Oa Ra Hown. split; [|by eapply own_map_no_resv].
    destruct (own_map_head _ _ _ _ Hown) as (vm & m & Oa' & ->). intros x ->%list_elem_of_singleton. simpl. left. }
  destruct t; simpl; try (by intros [? _]; apply Hn); try (by apply Hn).
  - intros (-> & Hown & _). by eapply Ho.
  - intros (-> & Hown). by eapply Ho.
Qed.

Lemma parts_free w l F O R : parts w l F O R -> F ⊆ O.*1 /\ no_resv R.
Proof.
  induction 1 as [|c t l Ft Ot Rt F O R Hh _ [IH1 IH2]]; [split; [done|]; intros b Hb; by apply elem_of_nil in Hb|].
  destruct (holds_free _ _ _ _ _ _ Hh) as [H1 H2]. rewrite fmap_app. split; [set_solver|].
  intros b. rewrite elem_of_app. intros [Hb|Hb]; [by apply H2 in Hb|by apply IH2 in Hb].
Qed.

(** A descriptor of a mapping is its first cell, so a mapping has one maker. *)
Lemma own_map_first ps a O R vm m : own_map ps a O R -> (a, (vm, KMap m)) ∈ O -> exists O', O = (a, (vm, KMap m)) :: O'.
Proof.
  intros Hown Hin. destruct Hown; (apply elem_of_cons in Hin as [Hin|Hin]; [injection Hin as -> ->; eauto|]);
    repeat (apply elem_of_cons in Hin as [Hin|Hin]; [discriminate Hin|]); by apply elem_of_nil in Hin.
Qed.

Lemma made_by_unique ps a O R c c' : own_map ps a O R -> made_by c a O -> made_by c' a O -> c = c'.
Proof.
  intros Hown (vm & m & Hin & <-) (vm' & m' & Hin' & <-).
  destruct (own_map_first _ _ _ _ _ _ Hown Hin) as [O1 E]. destruct (own_map_first _ _ _ _ _ _ Hown Hin') as [O2 E'].
  rewrite E in E'. by injection E' as -> -> ->.
Qed.

(** A call goes on while the module keeps what it relies on. *)
Lemma holds_mono w w' c t F O R :
  w_ctrls w' = w_ctrls w ->
  (is_walking t -> forall dev, (w_maps w dev).*1 ⊆ (w_maps w' dev).*1) ->
  (forall dev x, x ∈ w_maps w dev -> made_by c x.1 (map_cells x) -> x ∈ w_maps w' dev) ->
  holds w c t F O R -> holds w' c t F O R.
Proof.
  intros Hc Hw Hm. assert (forall md P, listed w c md P -> listed w' c md P) as Hl.
  { intros md P (dev & x & Hx & <- & Hmade & HP). exists dev, x. auto. }
  destruct t; simpl; unfold w_pdevs; rewrite ?Hc; try done.
  - intros (? & ? & ?). auto.
  - intros [? He]. split; [done|]. by apply Hw.
  - intros [? ?]. auto.
Qed.
End holds.

(** ** The steps *)

Section steps.
Context `{KernelOk}.
Context `{!Benign}.

(** The other calls, and what they own. *)
Context (current : Z) (l : list (Z * task)) (F : list Z) (O : list cell) (R : list kres).
Context (Hother : forall c t, (c, t) ∈ l -> c <> current).

(** The state when this call owns [Ft], [Ot] and [Rt]. *)
Definition at_state (w : world) (v : kvars) (t : task) (Ft : list Z) (Ot : list cell) (Rt : list kres) (s : drv) : Prop :=
  holds w current t Ft Ot Rt /\ parts w l F O R /\ world_ok w v /\
  st v (w_lists w) (Ft ++ F) (Ot ++ O ++ w_objs w) (Rt ++ R ++ w_res w v) s.

(** A step keeps the controllers, and every mapping in a list that this task did not make. *)
Definition keeps (w w' : world) : Prop :=
  w_pdevs w' = w_pdevs w /\
  forall dev x, x ∈ w_maps w dev -> ~ made_by current x.1 (map_cells x) -> x ∈ w_maps w' dev.

Lemma keeps_refl w : keeps w w.
Proof. done. Qed.
#[local] Hint Resolve keeps_refl : core.

Definition stepped (w : world) (t : task) (s : drv) : Prop :=
  exists w' v Ft Ot Rt, at_state w' v t Ft Ot Rt s /\ keeps w w'.

Lemma frame_ctrls w O' : ctrls (O' ++ O ++ w_objs w) (w_ctrls w).*1 (w_pdevs w).
Proof. apply w_ctrls_in. set_solver. Qed.

Lemma frame_ctrl_in w ctrl : ctrl ∈ (w_ctrls w).*1 -> exists c, (ctrl, (false, KCtrl c)) ∈ O ++ w_objs w.
Proof.
  intros ([a c] & -> & Hc)%list_elem_of_fmap. exists c. apply elem_of_app. right. by apply w_ctrl_in.
Qed.

Lemma frame_resv w v : parts w l F O R -> world_ok w v -> no_resv (R ++ w_res w v).
Proof.
  intros Hp Hok b. rewrite elem_of_app. intros [Hb|Hb].
  - by apply (proj2 (parts_free _ _ _ _ _ Hp)) in Hb.
  - by eapply w_no_resv in Hb.
Qed.

(** The descriptor of this call is none of the others'. *)
Lemma own_not_free w v ls ps a Oa Ra s :
  st v ls (a :: F) (Oa ++ O ++ w_objs w) (Ra ++ R ++ w_res w v) s -> own_map ps a Oa Ra -> parts w l F O R -> a ∉ F.
Proof.
  intros Hs Hown Hp Ha. destruct (own_map_head _ _ _ _ Hown) as (vm & m & Oa' & ->). cbn [app] in Hs.
  apply (proj1 (parts_free _ _ _ _ _ Hp)) in Ha. apply list_elem_of_fmap in Ha as ([b x] & -> & Hin).
  apply (st_distinct _ _ _ _ _ _ _ _ x Hs). simpl. set_solver.
Qed.

Lemma returned w v r s :
  parts w l F O R -> world_ok w v -> st v (w_lists w) F (O ++ w_objs w) (R ++ w_res w v) s ->
  stepped w (TReturned r) s.
Proof. intros Hp Hok Hs. by exists w, v, [], [], []. Qed.

Lemma inserting w v list dev a e ans Oa Ra s :
  parts w l F O R -> world_ok w v -> list = map_list dev -> own_map (w_pdevs w) a Oa Ra ->
  (e < 0 \/ e = 0 /\ 0 < a /\ made_by current a Oa /\ answerable a Oa) ->
  st v (w_lists w) (a :: F) (Oa ++ O ++ w_objs w) (Ra ++ R ++ w_res w v) s ->
  stepped w (TInsert list a e ans) s.
Proof.
  intros Hp Hok Hl Hown He Hs. exists w, v, [a], Oa, Ra. split; [|done]. split_and!; try done. simpl. eauto.
Qed.

(** The descriptor of a new mapping. *)
Lemma first_made ps a vm m O' R' :
  own_map ps a ((a, (vm, KMap m)) :: O') R' -> mp_n_addrs m <= Z.of_nat (length (mp_addrs m)) ->
  made_by (mp_owner m) a ((a, (vm, KMap m)) :: O') /\ answerable a ((a, (vm, KMap m)) :: O').
Proof.
  intros Hown Hn. split; [exists vm, m; split; [left|done]|].
  intros vm' m' Hin. destruct (own_map_first _ _ _ _ _ _ Hown Hin) as [O1 [= -> ->]]. done.
Qed.

Lemma new_user_ok w v ctrl c vaddr n ans s :
  parts w l F O R -> world_ok w v -> st v (w_lists w) F (O ++ w_objs w) (R ++ w_res w v) s ->
  (ctrl, (false, KCtrl c)) ∈ O ++ w_objs w -> n < 2 ^ 60 ->
  wp (r ← new_user_map current ctrl vaddr n; mret (built host_list ans r)) (stepped w) s.
Proof.
  intros Hp Hok Hs Hc Hn. apply wp_bind. eapply (wp_new_user_map _ _ _ _ (w_pdevs w)); [exact Hs|exact Hc|done|..].
  - intros e s' He Hs'. by apply wp_ret, (returned w v).
  - intros a Oa Ra e s' He Hown Hs'. apply wp_ret. eapply (inserting w v _ false); try done. by left.
  - intros a vm data vm' got addrs s' Ha Hd Hne Hle Hpg Hdma Hs'. apply wp_ret.
    pose proof (Forall2_length _ _ _ Hdma) as Hlen.
    set (m := user_map_of _ _ _ _) in Hs'. set (Oa := [_; _]) in Hs'. set (Ra := (RDma _ <$> _) ++ _) in Hs'.
    assert (Hx : user_mapping current vaddr (ct_pdev c) n got addrs (a, (Oa, Ra))) by (exists vm, data, vm'; done).
    pose proof (user_mapping_ok (w_pdevs w) _ _ _ _ _ _ _ Hx) as Hown.
    eapply (inserting w v _ false); [done|done|done|exact Hown| |exact Hs'].
    right. split; [done|]. split; [done|]. apply (first_made _ _ _ _ _ _ Hown). simpl. rewrite length_app. lia.
Qed.

Lemma new_device_ok w v ctrl c vaddr n ans s :
  parts w l F O R -> world_ok w v -> st v (w_lists w) F (O ++ w_objs w) (R ++ w_res w v) s ->
  (ctrl, (false, KCtrl c)) ∈ O ++ w_objs w -> n < 2 ^ 60 ->
  wp (r ← new_device_map current ctrl vaddr n ctrl_list; mret (built device_list ans r)) (stepped w) s.
Proof.
  intros Hp Hok Hs Hc Hn.
  assert (length (w_pdevs w) <= Z.to_nat max_num_ctrls)%nat as Hmax
    by (unfold w_pdevs; rewrite length_fmap; by eapply w_max).
  apply wp_bind. eapply (wp_new_device_map _ _ _ _ _ (w_pdevs w));
    [exact Hs|exact Hc|done|apply w_lists_ctrls|apply (frame_ctrls w [])|done|..].
  - intros e s' He Hs'. by apply wp_ret, (returned w v).
  - intros a Oa Ra e s' He Hown Hs'. apply wp_ret. eapply (inserting w v _ true); try done. by left.
  - intros a vm gd mappings table ms s' Ha Hn1 Ht Hlen Hnn m Hga Hs'. apply wp_ret.
    set (Oa := gpu_cells _ _ _ _ _ _ _) in Hs'. set (Ra := gpu_res _ _ _ ++ _) in Hs'.
    assert (Hx : gpu_mapping current vaddr (ct_pdev c) n (w_pdevs w) ms (a, (Oa, Ra))) by (exists vm, gd, mappings, table; done).
    pose proof (gpu_mapping_ok (w_pdevs w) _ _ _ _ _ _ Hx Hmax) as Hown.
    eapply (inserting w v _ true); [done|done|done|exact Hown| |exact Hs'].
    right. split; [done|]. split; [done|]. apply (first_made _ _ _ _ _ _ Hown). simpl. lia.
Qed.

Lemma new_dmabuf_ok w v ctrl c gpu fd off n cap ans s :
  parts w l F O R -> world_ok w v -> st v (w_lists w) F (O ++ w_objs w) (R ++ w_res w v) s ->
  (ctrl, (false, KCtrl c)) ∈ O ++ w_objs w -> n < 2 ^ 60 -> fits 64 off ->
  wp (r ← new_dmabuf_map current ctrl gpu fd off n cap; mret (built device_list ans r)) (stepped w) s.
Proof.
  intros Hp Hok Hs Hc Hn Hoff. apply wp_bind.
  eapply (wp_new_dmabuf_map _ _ _ _ (w_pdevs w)); [exact Hs|exact Hc|done|done|by apply frame_resv|..].
  - intros e s' He Hs'. by apply wp_ret, (returned w v).
  - intros a Oa Ra e s' He Hown Hs'. apply wp_ret. eapply (inserting w v _ true); try done. by left.
  - intros a vm data dr addrs s' Ha Hcap Hb Hat Ht Hsg Hs'. apply wp_ret. set (m := dmabuf_map_of _ _ _) in Hs'.
    pose proof (own_dmabuf_cells (w_pdevs w) a vm m data dr eq_refl eq_refl Hb Hat Ht) as Hown.
    eapply (inserting w v _ true); [done|done|done|exact Hown| |exact Hs'].
    right. split; [done|]. split; [done|]. apply (first_made _ _ _ _ _ _ Hown). simpl.
    rewrite (sg_pages_length _ _ _ _ _ Hsg). lia.
Qed.

Lemma dispatch_ok w v ctrl cmd arg s :
  at_state w v (TDispatch ctrl cmd arg) [] [] [] s -> wp (dispatch current ctrl cmd arg) (stepped w) s.
Proof.
  intros ([_ Hctrl] & Hp & Hok & Hs). cbn [app] in Hs. destruct (frame_ctrl_in w ctrl Hctrl) as [c Hc].
  unfold dispatch. repeat case_decide.
  - ktick s Hs k. destruct (user_map k arg) as [req|] eqn:E; [|by apply wp_ret, (returned w v)].
    eapply new_user_ok; [done|done|exact Hs|exact Hc|by eapply b_request].
  - ktick s Hs k. destruct (user_map k arg) as [req|] eqn:E; [|by apply wp_ret, (returned w v)].
    eapply new_device_ok; [done|done|exact Hs|exact Hc|by eapply b_request].
  - ktick s Hs k. destruct (user_dmabuf k arg) as [dreq|] eqn:E; [|by apply wp_ret, (returned w v)].
    destruct (dmabuf_bad dreq); [by apply wp_ret, (returned w v)|]. pose proof (ok_dreq _ _ _ E) as [Hsize Hoff].
    eapply new_dmabuf_ok; [done|done|exact Hs|exact Hc| |done]. pose proof page_size_pos. unfold fits in Hsize.
    apply Z.div_lt_upper_bound; [lia|]. nia.
  - ktick s Hs k. apply wp_ret. destruct (user_addr k arg); [|by apply (returned w v)]. by exists w, v, [], [], [].
  - by apply wp_ret, (returned w v).
Qed.

(** ** Inserting *)

Lemma st_listed w v dev a Oa Ra F' s :
  st v (<[map_list dev := (w_maps w dev).*1 ++ [a]]> (w_lists w)) F' (Oa ++ O ++ w_objs w) (Ra ++ R ++ w_res w v) s ->
  let w' := w_set w dev (w_maps w dev ++ [(a, (Oa, Ra))]) in
  st v (w_lists w') F' (O ++ w_objs w') (R ++ w_res w' v) s.
Proof.
  intros Hs w'. change ((w_maps w dev).*1 ++ [a]) with ((w_maps w dev).*1 ++ [(a, (Oa, Ra))].*1) in Hs.
  change (map_list dev) with (list_of dev) in Hs. rewrite <- fmap_app, w_lists_set in Hs. eapply st_perm; [exact Hs|..].
  - unfold w'. rewrite w_objs_insert, app_nil_r, w_set_maps. perm.
  - unfold w'. rewrite w_res_insert, app_nil_r, w_set_maps. perm.
Qed.

Lemma w_set_ctrls w dev ms : w_ctrls (w_set w dev ms) = w_ctrls w.
Proof. by destruct dev. Qed.
Lemma w_set_pdevs w dev ms : w_pdevs (w_set w dev ms) = w_pdevs w.
Proof. by destruct dev. Qed.
Lemma w_set_elem w dev ms dev' x : x ∈ w_maps (w_set w dev ms) dev' <-> x ∈ (if decide (dev' = dev) then ms else w_maps w dev').
Proof. by destruct dev, dev'. Qed.

Lemma keeps_set w dev ms :
  (forall x, x ∈ w_maps w dev -> ~ made_by current x.1 (map_cells x) -> x ∈ ms) -> keeps w (w_set w dev ms).
Proof.
  intros Hm. split; [apply w_set_pdevs|]. intros dev' x Hx Hmade. apply w_set_elem. case_decide; [subst; by apply Hm|done].
Qed.

(** The calls go on when a list changes, if their own mappings stay in it and so do all elements
    when one of them walks. *)
Lemma parts_set w dev ms :
  (forall c t, (c, t) ∈ l -> is_walking t -> (w_maps w dev).*1 ⊆ ms.*1) ->
  (forall c t x, (c, t) ∈ l -> x ∈ w_maps w dev -> made_by c x.1 (map_cells x) -> x ∈ ms) ->
  parts w l F O R -> parts (w_set w dev ms) l F O R.
Proof.
  intros Hw Hm. apply parts_mono. intros c t Ft Ot Rt Hin. apply holds_mono.
  - apply w_set_ctrls.
  - intros Ht dev'. destruct (decide (dev' = dev)) as [->|Hne]; [rewrite w_maps_set; by eapply Hw|].
    by destruct dev, dev'.
  - intros dev' x Hx Hmade. apply w_set_elem. case_decide; [subst; by eapply Hm|done].
Qed.

Lemma insert_ok w v list md err ans Ft Ot Rt s :
  at_state w v (TInsert list md err ans) Ft Ot Rt s -> wp (task_step current (TInsert list md err ans)) (stepped w) s.
Proof.
  intros ((-> & Hown & [dev ->] & He) & Hp & Hok & Hs). cbn [app] in Hs. cbn [task_step].
  pose proof (own_not_free _ _ _ _ _ _ _ _ Hs Hown Hp) as HaF.
  destruct He as [He|(-> & Ha & Hmade & Hans)].
  - rewrite decide_True by lia. apply wp_bind. eapply wp_remove_free; [exact Hs|]. apply wp_ret. by exists w, v, [md], Ot, Rt.
  - rewrite decide_False by tauto. apply wp_bind.
    eapply wp_insert; [exact Hs|done|apply (w_lists_maps w dev)|unfold NULL; lia|]. knext s Hs. apply wp_ret.
    apply st_listed in Hs. cbv zeta in Hs. set (x := (md, (Ot, Rt)) : mapping) in *.
    exists (w_set w dev (w_maps w dev ++ [x])), v, [], [], []. split; [|apply keeps_set; set_solver].
    refine (conj _ (conj _ (conj _ _))).
    + split; [done|]. split; [done|]. exists dev, x. rewrite w_maps_set. split_and!; [set_solver|done|exact Hmade|exact Hans].
    + apply parts_set; [|set_solver|done]. intros ? ? _ _. rewrite fmap_app. set_solver.
    + apply world_ok_set; [done|]. apply Forall_app. split; [by eapply w_maps_ok|by apply Forall_singleton].
    + exact Hs.
Qed.

(** ** Walking *)

Lemma walk_ok w v dev addr e s :
  parts w l F O R -> world_ok w v -> st v (w_lists w) F (O ++ w_objs w) (R ++ w_res w v) s ->
  e = NULL \/ e ∈ (w_maps w dev).*1 -> stepped w (walk_to dev addr e) s.
Proof.
  intros Hp Hok Hs He. unfold walk_to. case_decide as Hn.
  - unfold not_found. destruct dev; [by apply (returned w v)|]. by exists w, v, [], [], [].
  - destruct He as [|He]; [done|]. by exists w, v, [], [], [].
Qed.

Lemma first_ok w v dev addr s :
  at_state w v (TFirst dev addr) [] [] [] s -> wp (task_step current (TFirst dev addr)) (stepped w) s.
Proof.
  intros (_ & Hp & Hok & Hs). cbn [app task_step] in *. apply wp_bind.
  eapply wp_first; [exact Hs|apply (w_lists_maps w dev)|]. apply wp_ret, (walk_ok w v); try done.
  destruct (w_maps w dev); [by left|]. right. left.
Qed.

(** The mapping at an element of a list. *)
Lemma element_at w v dev a : world_ok w v -> a ∈ (w_maps w dev).*1 ->
  exists us x vs vm m Oc, w_maps w dev = us ++ x :: vs /\ x.1 = a /\ map_cells x = (a, (vm, KMap m)) :: Oc /\
    own_map (w_pdevs w) a (map_cells x) (map_res x) /\ (a, (vm, KMap m)) ∈ w_objs w.
Proof.
  intros Hok (x & -> & Hx)%list_elem_of_fmap. pose proof (w_maps_ok w v dev Hok) as Hms. rewrite Forall_forall in Hms.
  pose proof (Hms _ Hx) as Hown. destruct (own_map_head _ _ _ _ Hown) as (vm & m & Oc & E).
  apply list_elem_of_split in Hx as (us & vs & Hm). exists us, x, vs, vm, m, Oc. split_and!; try done.
  rewrite <- (w_set_maps w dev), Hm, w_objs_insert, elem_of_app. left. rewrite E. left.
Qed.

Lemma step_walk_ok w v dev addr e s :
  at_state w v (TWalk dev addr e) [] [] [] s -> wp (task_step current (TWalk dev addr e)) (stepped w) s.
Proof.
  intros ([_ He] & Hp & Hok & Hs). cbn [app task_step] in *.
  destruct (element_at w v dev e Hok He) as (us & x & vs & vm & m & Oc & Hm & Hx & Hcells & Hown & Hin).
  apply wp_bind. eapply wp_kload; [exact Hs|apply elem_of_app; right; exact Hin|done|].
  destruct (element_matches current addr m) eqn:Hmatch.
  - apply wp_ret. exists w, v, [], [], []. split; [|done]. split_and!; try done. split; [done|].
    exists dev, x. split_and!; [rewrite Hm; set_solver|done| |done]. exists vm, m. rewrite Hcells. split; [left|].
    by apply bool_decide_eq_true in Hmatch as [? _].
  - apply wp_bind. eapply wp_next; [exact Hs|rewrite (w_lists_maps w dev), Hm, fmap_app, fmap_cons, Hx; done|].
    apply wp_ret, (walk_ok w v); try done. destruct vs as [|y vs]; [by left|]. right. rewrite Hm, fmap_app. simpl. set_solver.
Qed.

(** ** Answering *)

Lemma own_map_invalid ps a vm m m' O' R' :
  own_map ps a ((a, (vm, KMap m)) :: O') R' -> m' = mp_set_invalid m 1 -> own_map ps a ((a, (vm, KMap m')) :: O') R'.
Proof.
  intros Hown ->. inversion Hown; subst.
  - by apply own_plain.
  - by apply (own_user ps a vm (mp_set_invalid m 1)).
  - by apply (own_gpu ps a vm (mp_set_invalid m 1)).
  - by apply (own_dmabuf ps a vm (mp_set_invalid m 1)).
Qed.

(** Changing the descriptor of a mapping in a list. *)
Lemma st_change w v dev us x vs vm m m' Oc s' :
  w_maps w dev = us ++ x :: vs -> map_cells x = (x.1, (vm, KMap m)) :: Oc ->
  forall O'', O ++ w_objs w ≡ₚ (x.1, (vm, KMap m)) :: O'' ->
  st v (w_lists w) F ((x.1, (vm, KMap m')) :: O'') (R ++ w_res w v) s' ->
  let w' := w_set w dev (us ++ (x.1, ((x.1, (vm, KMap m')) :: Oc, map_res x)) :: vs) in
  st v (w_lists w') F (O ++ w_objs w') (R ++ w_res w' v) s'.
Proof.
  intros Hm Hc O'' HO Hs w'. assert (Hw : w = w_set w dev (us ++ x :: vs)) by (by rewrite <- Hm, w_set_maps).
  assert (O'' ≡ₚ O ++ Oc ++ w_objs (w_set w dev (us ++ vs))) as HO''.
  { apply (Permutation_cons_inv (a := (x.1, (vm, KMap m)))). rewrite <- HO, Hw at 1. rewrite w_objs_insert, Hc. perm. }
  replace (w_lists w') with (w_lists w).
  - eapply st_perm; [exact Hs|..].
    + rewrite HO''. unfold w'. rewrite w_objs_insert. cbn [map_cells fst snd]. perm.
    + rewrite Hw. unfold w'. by rewrite !w_res_insert.
  - rewrite Hw. unfold w'. rewrite <- !w_lists_set. f_equal. by rewrite !fmap_app.
Qed.

(** A mapping of this task in its list. *)
Lemma listed_at w v md P : world_ok w v -> listed w current md P ->
  exists dev us x vs vm m Oc, w_maps w dev = us ++ x :: vs /\ x.1 = md /\ map_cells x = (md, (vm, KMap m)) :: Oc /\
    mp_owner m = current /\ P (map_cells x) /\ own_map (w_pdevs w) md (map_cells x) (map_res x) /\
    (md, (vm, KMap m)) ∈ O ++ w_objs w.
Proof.
  intros Hok (dev & x & Hx & <- & (vm & m & Hin & Howner) & HP).
  pose proof (w_maps_ok w v dev Hok) as Hms. rewrite Forall_forall in Hms. pose proof (Hms _ Hx) as Hown.
  destruct (own_map_first _ _ _ _ _ _ Hown Hin) as [Oc Hcells]. apply list_elem_of_split in Hx as (us & vs & Hm).
  exists dev, us, x, vs, vm, m, Oc. split_and!; try done.
  apply elem_of_app. right. rewrite <- (w_set_maps w dev), Hm, w_objs_insert, elem_of_app. by left.
Qed.

(** The mappings another task made are not this one. *)
Lemma keeps_change w dev us x vs vm m Oc ys :
  w_maps w dev = us ++ x :: vs -> map_cells x = (x.1, (vm, KMap m)) :: Oc -> mp_owner m = current ->
  keeps w (w_set w dev (us ++ ys ++ vs)).
Proof.
  intros Hm Hc Ho. apply keeps_set. intros y. rewrite Hm, !elem_of_app, elem_of_cons. intros [?|[->|?]] Hy; [auto| |auto].
  destruct Hy. exists vm, m. rewrite Hc. split; [left|done].
Qed.

Lemma answer_map_ok w v md p s :
  at_state w v (TAnswer md (AnswerMap p)) [] [] [] s -> wp (give_answer md (AnswerMap p)) (stepped w) s.
Proof.
  intros ((_ & _ & Hl) & Hp & Hok & Hs). cbn [app give_answer] in *.
  destruct (listed_at _ _ _ _ Hok Hl) as (dev & us & x & vs & vm & m & Oc & _ & _ & Hcells & _ & Hans & _ & HO).
  apply wp_bind. eapply wp_copy_addrs; [exact Hs|exact HO|eapply Hans; rewrite Hcells; left|..]; knext s Hs; apply wp_ret.
  - by apply (returned w v).
  - eapply (returned w); [done| |exact Hs]. by destruct Hok.
Qed.

Lemma answer_dmabuf_ok w v md dreq s :
  at_state w v (TAnswer md (AnswerDmabuf dreq)) [] [] [] s -> wp (give_answer md (AnswerDmabuf dreq)) (stepped w) s.
Proof.
  intros ((_ & Hmd & Hl) & Hp & Hok & Hs). cbn [app give_answer] in *.
  destruct (listed_at _ _ _ _ Hok Hl) as (dev & us & x & vs & vm & m & Oc & Hm & Hx & Hcells & Howner & Hans & Hown & HO).
  assert (Hrm : forall e s, st v (w_lists w) F (O ++ w_objs w) (R ++ w_res w v) s -> stepped w (TRemove md e) s).
  { clear s Hs. intros e s Hs. exists w, v, [], [], []. split; [|done]. split_and!; try done.
    destruct Hl as (dev' & y & Hy & Hy1 & Hmade & _). split; [done|]. by exists dev', y. }
  ktick s Hs k. apply wp_bind. destruct (move_notified k).
  - unfold ugds_dmabuf_move_notify. rewrite decide_True by (unfold NULL; lia).
    apply wp_bind. eapply wp_kload; [exact Hs|exact HO|done|].
    apply elem_of_Permutation in HO as [O'' HO].
    eapply (wp_kstore md vm (KMap m)); [exact Hs|exact HO|done|]. knext s Hs.
    apply wp_bind. eapply wp_kload; [exact Hs|left|done|]. rewrite decide_True by done. apply wp_ret. subst md.
    eapply st_change in Hs; [|exact Hm|exact Hcells|exact HO]. cbv zeta in Hs.
    set (x' := (x.1, (_ :: Oc, map_res x)) : mapping) in Hs.
    exists (w_set w dev (us ++ x' :: vs)), v, [], [], []. split; [|by eapply (keeps_change _ _ _ x _ _ _ _ [x'])].
    refine (conj _ (conj _ (conj _ _))); [| | |exact Hs].
    + split; [done|]. exists dev, x'. rewrite w_maps_set. split_and!; [set_solver|done| |done].
      exists vm, (mp_set_invalid m 1). split; [left|done].
    + apply parts_set; [| |done].
      * intros ? ? _ _. rewrite Hm, !fmap_app. done.
      * intros c t y Hin. rewrite Hm. intros Hy Hmade. apply elem_of_app in Hy as [Hy|[->|Hy]%elem_of_cons]; [set_solver| |set_solver].
        destruct (Hother _ _ Hin). eapply made_by_unique; [exact Hown|exact Hmade|]. exists vm, m. rewrite Hcells. split; [left|done].
    + apply world_ok_set; [done|]. pose proof (w_maps_ok w v dev Hok) as Hms. rewrite Hm in Hms.
      apply Forall_app in Hms as [Hus [_ Hvs]%Forall_cons]. apply Forall_app. split; [done|]. constructor; [|done].
      unfold map_ok. cbn [map_cells map_res fst snd x']. eapply own_map_invalid; [|done]. by rewrite <- Hcells.
  - apply wp_ret, wp_bind. eapply wp_kload; [exact Hs|exact HO|done|]. case_decide; [by apply wp_ret, Hrm|].
    case_decide; [by apply wp_ret, Hrm|].
    apply wp_bind. eapply wp_copy_addrs; [exact Hs|exact HO|eapply Hans; rewrite Hcells; left|..]; knext s Hs; apply wp_ret.
    + by apply Hrm.
    + eapply (returned w); [done| |exact Hs]. by destruct Hok.
Qed.

(** ** Taking out and releasing *)

Lemma remove_ok w v md e s :
  (forall c t, (c, t) ∈ l -> ~ is_walking t) ->
  at_state w v (TRemove md e) [] [] [] s -> wp (task_step current (TRemove md e)) (stepped w) s.
Proof.
  intros Hnw ((_ & Hl) & Hp & Hok & Hs). cbn [app task_step] in *.
  destruct (listed_at _ _ _ _ Hok Hl) as (dev & us & x & vs & vm & m & Oc & Hm & <- & Hcells & Howner & _ & Hown & _).
  apply wp_bind. eapply wp_remove; [exact Hs|rewrite (w_lists_maps w dev), Hm, fmap_app, fmap_cons; done|]. knext s Hs.
  apply wp_ret. exists (w_set w dev (us ++ vs)), v, [x.1], (map_cells x), (map_res x). split; [|by eapply (keeps_change _ _ _ x _ _ _ _ [])].
  rewrite <- fmap_app in Hs. change (map_list dev) with (list_of dev) in Hs. rewrite w_lists_set in Hs.
  refine (conj _ (conj _ (conj _ _))).
  - split; [done|]. by rewrite w_set_pdevs.
  - apply parts_set; [intros c t Hin Ht; by destruct (Hnw c t Hin)| |done].
    intros c t y Hin. rewrite Hm. intros Hy Hmade. apply elem_of_app in Hy as [Hy|[->|Hy]%elem_of_cons]; [set_solver| |set_solver].
    destruct (Hother _ _ Hin). eapply made_by_unique; [exact Hown|exact Hmade|]. exists vm, m. rewrite Hcells. split; [left|done].
  - apply world_ok_set; [done|]. pose proof (w_maps_ok w v dev Hok) as Hms. rewrite Hm in Hms.
    apply Forall_app in Hms as [Hus [_ Hvs]%Forall_cons]. by apply Forall_app.
  - assert (Hw : w = w_set w dev (us ++ x :: vs)) by (by rewrite <- Hm, w_set_maps).
    eapply st_perm; [exact Hs|..].
    + rewrite Hw at 1. rewrite w_objs_insert. perm.
    + rewrite Hw at 1. rewrite w_res_insert. perm.
Qed.

Lemma release_ok w v md e Ft Ot Rt s :
  at_state w v (TRelease md e) Ft Ot Rt s -> wp (task_step current (TRelease md e)) (stepped w) s.
Proof.
  intros ((-> & Hown) & Hp & Hok & Hs). cbn [app task_step] in *. apply wp_bind.
  eapply wp_drop_map; [exact Hs|by eapply own_not_free|exact Hown|apply w_lists_ctrls
    |apply (frame_ctrls w [])|by apply frame_resv|].
  knext s Hs. by apply wp_ret, (returned w v).
Qed.

Lemma task_step_ok w v t Ft Ot Rt s :
  (is_removing t -> forall c t', (c, t') ∈ l -> ~ is_walking t') ->
  at_state w v t Ft Ot Rt s -> wp (task_step current t) (stepped w) s.
Proof.
  intros Hnw Hat. pose proof Hat as (Hh & _ & _ & _).
  assert (Hn : forall Ft Ot Rt, nothing Ft Ot Rt -> at_state w v t Ft Ot Rt s -> at_state w v t [] [] [] s)
    by (intros ? ? ? (-> & -> & ->); done).
  destruct t as [ctrl cmd arg|list md err ans|md [p|dreq]|dev addr|dev addr e|md e|md e|r].
  - eapply dispatch_ok, Hn; [apply Hh|exact Hat].
  - by eapply insert_ok.
  - eapply answer_map_ok, Hn; [apply Hh|exact Hat].
  - eapply answer_dmabuf_ok, Hn; [apply Hh|exact Hat].
  - eapply first_ok, Hn; [apply Hh|exact Hat].
  - eapply step_walk_ok, Hn; [apply Hh|exact Hat].
  - eapply remove_ok, Hn; [by apply Hnw|apply Hh|exact Hat].
  - by eapply release_ok.
  - apply wp_ret. by exists w, v, Ft, Ot, Rt.
Qed.

Lemma enter_ok w v i_cdev cmd arg s :
  parts w l F O R -> world_ok w v -> st v (w_lists w) F (O ++ w_objs w) (R ++ w_res w v) s ->
  wp (enter i_cdev cmd arg) (stepped w) s.
Proof.
  intros Hp Hok Hs. apply wp_bind. eapply wp_find_inode; [exact Hs|apply w_lists_ctrls|..].
  - intros a c Hc. apply elem_of_app. right. by apply w_ctrl_in.
  - intros _. apply wp_ret. rewrite decide_True by done. by apply (returned w v).
  - intros c Hc. apply wp_ret. case_decide; [by apply (returned w v)|].
    exists w, v, [], [], []. split; [|done]. split_and!; try done. split; [done|]. apply list_elem_of_fmap. by exists (i_cdev, c).
Qed.
End steps.

(** ** All calls *)

Section system.
Context `{KernelOk}.
Context `{!Benign}.

Definition ksys_inv (y : ksys) : Prop :=
  exists w v F O R, parts w (map_to_list (ks_tasks y)) F O R /\ world_ok w v /\
    st v (w_lists w) F (O ++ w_objs w) (R ++ w_res w v) (mc_drv (ks_machine y)) /\
    w_pdevs w = mc_bound (ks_machine y) /\ Forall (fun d => d <> NULL) (mc_bound (ks_machine y)).

(** After a step of one call the invariant is that of all of them. *)
Lemma stepped_inv y current F O R w t s :
  w_pdevs w = mc_bound (ks_machine y) -> Forall (fun d => d <> NULL) (mc_bound (ks_machine y)) ->
  stepped current (map_to_list (delete current (ks_tasks y))) F O R w t s ->
  ksys_inv (with_drv y s (<[current := t]> (ks_tasks y))).
Proof.
  intros Hw Hnn (w' & v & Ft & Ot & Rt & (Hh & Hp & Hok & Hs) & [Hw' _]).
  rewrite <- insert_delete_eq.
  assert (Hl : (current, t) :: map_to_list (delete current (ks_tasks y)) ≡ₚ map_to_list (<[current := t]> (delete current (ks_tasks y)))).
  { symmetry. apply map_to_list_insert, lookup_delete_eq. }
  destruct (parts_perm _ _ _ _ _ _ Hl (parts_cons _ _ _ _ _ _ _ _ _ _ Hh Hp)) as (F' & O' & R' & HF & HO & HR & Hp').
  exists w', v, F', O', R'. split_and!; [done|done| |by rewrite Hw'|done]. simpl.
  eapply st_drop_free; [eapply st_perm; [exact Hs|..]|].
  - rewrite <- HO. perm.
  - rewrite <- HR. perm.
  - by rewrite HF.
Qed.

(** One call and the others. *)
Lemma ksys_inv_task y current t :
  ksys_inv y -> ks_tasks y !! current = Some t ->
  exists w v F O R Ft Ot Rt,
    at_state current (map_to_list (delete current (ks_tasks y))) F O R w v t Ft Ot Rt (mc_drv (ks_machine y)) /\
    w_pdevs w = mc_bound (ks_machine y) /\ Forall (fun d => d <> NULL) (mc_bound (ks_machine y)).
Proof.
  intros (w & v & F & O & R & Hp & Hok & Hs & Hw & Hnn) Ht.
  pose proof (map_to_list_delete _ _ _ Ht) as Hl. symmetry in Hl.
  destruct (parts_perm _ _ _ _ _ _ Hl Hp) as (F' & O' & R' & HF & HO & HR & Hp').
  inversion Hp' as [|? ? ? Ft Ot Rt F0 O0 R0 Hh Hp0]; subst.
  exists w, v, F0, O0, R0, Ft, Ot, Rt. split; [|done]. refine (conj Hh (conj Hp0 (conj Hok _))).
  eapply st_drop_free; [eapply st_perm; [exact Hs|..]|].
  - rewrite HO. perm.
  - rewrite HR. perm.
  - by rewrite HF.
Qed.

Lemma in_other y current c t : (c, t) ∈ map_to_list (delete current (ks_tasks y)) -> c <> current /\ ks_tasks y !! c = Some t.
Proof. intros Hin%elem_of_map_to_list. by apply lookup_delete_Some in Hin as [? ?]. Qed.

(** A step of one call. *)
Lemma ksys_task_step y current t :
  ksys_inv y -> ks_tasks y !! current = Some t -> klabel_ok (KStep current) y ->
  exists w F O R Ft Ot Rt v,
    at_state current (map_to_list (delete current (ks_tasks y))) F O R w v t Ft Ot Rt (mc_drv (ks_machine y)) /\
    w_pdevs w = mc_bound (ks_machine y) /\ Forall (fun d => d <> NULL) (mc_bound (ks_machine y)) /\
    wp (task_step current t) (stepped current (map_to_list (delete current (ks_tasks y))) F O R w) (mc_drv (ks_machine y)).
Proof.
  intros Hinv Ht Hl. destruct (ksys_inv_task _ _ _ Hinv Ht) as (w & v & F & O & R & Ft & Ot & Rt & Hat & Hw & Hnn).
  exists w, F, O, R, Ft, Ot, Rt, v. refine (conj Hat (conj Hw (conj Hnn _))). eapply task_step_ok; [|..|exact Hat].
  - intros c t' Hin. by apply in_other in Hin as [? _].
  - intros Hr c t' Hin. apply in_other in Hin as [_ Hin]. exact (Hl t Ht Hr c t' Hin).
Qed.

Lemma ksys_inv_quiet y : ks_tasks y = ∅ -> ksys_inv y <-> machine_inv (ks_machine y).
Proof.
  destruct y as [c ts]. simpl. intros ->. split.
  - intros (w & v & F & O & R & Hp & Hok & Hs & Hw & Hnn). simpl in *. rewrite map_to_list_empty in Hp.
    inversion Hp; subst. by exists w, v.
  - intros (w & v & [Hs Hok] & Hw & Hnn). exists w, v, [], [], []. simpl. rewrite map_to_list_empty. split_and!; try done.
    constructor.
Qed.

Definition ksys_ok (x : option ksys) : Prop := match x with Some y => ksys_inv y | None => False end.

Lemma ksys_enter y current i_cdev cmd arg : ksys_inv y -> ksys_ok (ksys_step (KEnter current i_cdev cmd arg) y).
Proof.
  intros Hinv. simpl. destruct (ks_tasks y !! current) as [t|] eqn:Ht; [done|].
  destruct Hinv as (w & v & F & O & R & Hp & Hok & Hs & Hw & Hnn).
  rewrite <- (delete_id (ks_tasks y) current Ht) in Hp.
  pose proof (enter_ok current _ F O R w v i_cdev cmd arg _ Hp Hok Hs) as Hwp. unfold wp in Hwp.
  destruct (enter _ _ _ _) as [[t s']|]; [|done]. by eapply stepped_inv.
Qed.

Lemma ksys_leave y current : ksys_inv y -> ksys_ok (ksys_step (KLeave current) y).
Proof.
  intros Hinv. simpl. destruct (ks_tasks y !! current) as [t|] eqn:Ht; [|done].
  destruct (ksys_inv_task _ _ _ Hinv Ht) as (w & v & F & O & R & Ft & Ot & Rt & (Hh & Hp & Hok & Hs) & Hw & Hnn).
  destruct t; try done. destruct Hh as (-> & -> & ->). by exists w, v, F, O, R.
Qed.

Lemma ksys_step_ok l y : ksys_inv y -> klabel_ok l y -> ksys_ok (ksys_step l y).
Proof.
  destruct l as [current i_cdev cmd arg|current|current|e]; intros Hinv Hl.
  - by apply ksys_enter.
  - simpl. destruct (ks_tasks y !! current) as [t|] eqn:Ht; [|done].
    destruct (ksys_task_step _ _ _ Hinv Ht Hl) as (w & F & O & R & Ft & Ot & Rt & v & _ & Hw & Hnn & Hwp).
    unfold wp in Hwp. destruct (task_step _ _ _) as [[t' s']|]; [|done]. by eapply stepped_inv.
  - by apply ksys_leave.
  - destruct Hl as [Hq Hl]. simpl. apply ksys_inv_quiet in Hinv; [|done].
    pose proof (event_step e _ Hinv Hl) as He. unfold event_ok in He. destruct (do_event _ _) as [[r c]|]; [|done].
    apply ksys_inv_quiet; [exact Hq|apply He].
Qed.

Lemma kreach_inv u y : kreach u y -> ksys_inv y.
Proof.
  induction 1 as [s Hs|l y y' _ IH Hl Hy].
  - apply ksys_inv_quiet; [done|]. apply (drv_reach_inv u). by constructor.
  - pose proof (ksys_step_ok l y IH Hl) as Hok. by rewrite Hy in Hok.
Qed.


(** After any such interleaving, once the calls have returned, unloading the module leaves nothing. *)
Theorem tasks_unload_clean u y :
  kreach u y -> ks_tasks y = ∅ ->
  wp (ugds_drv_exit (mc_bound (ks_machine y))) (fun _ s' => d_objs s' = ∅ /\ d_res s' = []) (mc_drv (ks_machine y)).
Proof.
  intros Hy Hq. apply kreach_inv, (ksys_inv_quiet y Hq) in Hy as (w & v & Hinv & Hw & Hnn).
  eapply wp_ugds_drv_exit; [exact Hinv|by rewrite Hw|done|by intros s' []].
Qed.

(** ** Tasks do not touch each other's mappings *)

(** The descriptor at [md] is in the list [l]. *)
Definition mapped_in (s : drv) (l md : Z) (vm : bool) (m : kmap) : Prop :=
  d_objs s !! md = Some (vm, KMap m) /\ lst (k_nodes (d_mem s)) md = Some l /\ l <> NULL.

(** The descriptors the calls own are in no list. *)
Lemma parts_kmap w l F O R md vm m : parts w l F O R -> (md, (vm, KMap m)) ∈ O -> md ∈ F.
Proof.
  induction 1 as [|c t l Ft Ot Rt F O R Hh _ IH]; [by intros ?%elem_of_nil|].
  rewrite !elem_of_app. intros [Hin|Hin]; [left|right; auto].
  destruct t; simpl in Hh; unfold nothing in Hh; destruct_and?; subst; try (by apply elem_of_nil in Hin);
    apply list_elem_of_singleton; by eapply own_map_kmap.
Qed.

(** A descriptor in a list is that of a mapping of the module. *)
Lemma mapped_in_world w v l ts F O R s md vm m :
  parts w ts F O R -> world_ok w v -> st v (w_lists w) F (O ++ w_objs w) (R ++ w_res w v) s ->
  mapped_in s l md vm m ->
  exists dev x, x ∈ w_maps w dev /\ x.1 = md /\ (md, (vm, KMap m)) ∈ map_cells x /\ l = map_list dev.
Proof.
  intros Hp Hok Hs (Ho & Hl & Hnn). apply (st_lookup _ _ _ _ _ _ _ _ Hs), elem_of_app in Ho as [Ho|Ho].
  { apply (parts_kmap _ _ _ _ _ _ _ _ Hp), (st_free _ _ _ _ _ _ Hs) in Ho. congruence. }
  destruct (w_objs_kmap _ _ _ _ _ Hok Ho) as (dev & x & Hx & <- & Hc). exists dev, x. split_and!; try done.
  destruct (lists_lst _ _ (map_list dev) _ x.1 (st_lists _ _ _ _ _ _ Hs) (w_lists_maps w dev)) as [E _]; [|congruence].
  right. apply list_elem_of_fmap. eauto.
Qed.

Lemma world_mapped_in w v F O R s dev x vm m :
  st v (w_lists w) F (O ++ w_objs w) R s -> x ∈ w_maps w dev -> (x.1, (vm, KMap m)) ∈ map_cells x ->
  mapped_in s (map_list dev) x.1 vm m.
Proof.
  intros Hs Hx Hc. split.
  - apply (st_lookup _ _ _ _ _ _ _ _ Hs), elem_of_app. right. apply list_elem_of_split in Hx as (us & vs & Hm).
    rewrite <- (w_set_maps w dev), Hm, w_objs_insert, elem_of_app. by left.
  - apply (lists_lst _ _ _ _ _ (st_lists _ _ _ _ _ _ Hs) (w_lists_maps w dev)). right. apply list_elem_of_fmap. eauto.
Qed.

End system.
