(* ===== verification/DrvTasksAlone.v ===== *)
(** * One call alone is the whole call

    The steps of [DrvTasks], taken by one task while no other is in a call, end in what
    [map_ioctl] of [DrvPci] returns, in the same state: the calls that interleave are the calls
    the other theorems are about. *)
From stdpp Require Import prelude gmap list.
From Stdlib Require Import ZArith Lia.
From S2P Require Import Prelude NvmTypes DrvList DrvSg DrvState DrvMap DrvPci DrvOwn DrvProofs DrvInv DrvCalls DrvLife DrvTasks.
Local Open Scope Z_scope.

Section alone.
Context `{KernelOk}.
Context `{!Benign}.
Context (current : Z).

(** The steps of one task until its call returns. *)
Fixpoint run_call (fuel : nat) (t : task) : M drv Z :=
  match t with
  | TReturned retval => mret retval
  | _ => match fuel with O => undefined | S fuel => t ← task_step current t; run_call fuel t end
  end.
Definition call_alone (fuel : nat) (i_cdev cmd arg : Z) : M drv Z :=
  t ← enter i_cdev cmd arg; run_call fuel t.

Definition ends (t : task) (s : drv) (r : Z * drv) : Prop := exists fuel, run_call fuel t s = Some r.

Lemma ends_returned e s : ends (TReturned e) s (e, s).
Proof. by exists O. Qed.

Lemma ends_step t s t' s1 r : task_step current t s = Some (t', s1) -> ends t' s1 r -> ends t s r.
Proof.
  intros Hstep [fuel Hrun]. exists (S fuel).
  assert ((t ← task_step current t; run_call fuel t) s = Some r) as Hb
    by (unfold mbind, M_bind; by rewrite Hstep).
  destruct t; try exact Hb. simpl in *. simplify_eq. by destruct fuel.
Qed.

Lemma bind_Some {A B} (m : M drv A) (f : A -> M drv B) s r :
  (m ≫= f) s = Some r -> exists a s1, m s = Some (a, s1) /\ f a s1 = Some r.
Proof. unfold mbind, M_bind. destruct (m s) as [[a s1]|]; [eauto|done]. Qed.

(** Splits a run of [m ≫= f]. *)
Tactic Notation "split_run" hyp(H) simple_intropattern(x) ident(s1) :=
  let E := fresh "E" in apply bind_Some in H as (x & s1 & E & H).

Lemma bind_run {A B} (m : M drv A) (f : A -> M drv B) s a s1 : m s = Some (a, s1) -> (m ≫= f) s = f a s1.
Proof. unfold mbind, M_bind. by intros ->. Qed.

Lemma unmap_run md s r : unmap_and_release md s = Some r -> (on_mem (list_remove md);; release_map md) s = Some r.
Proof. done. Qed.

(** [unmap_and_release] is taking out and releasing. *)
Lemma ends_unmap md e s s' : unmap_and_release md s = Some (tt, s') -> ends (TRemove md e) s (e, s').
Proof.
  intros Hu. apply unmap_run, bind_Some in Hu as ([] & s1 & E1 & E2).
  eapply ends_step; [cbn [task_step]; by rewrite (bind_run _ _ _ _ _ E1)|].
  eapply ends_step; [cbn [task_step]; by rewrite (bind_run _ _ _ _ _ E2)|]. apply ends_returned.
Qed.

(** ** Mapping *)

(** What follows the insertion in [map_ioctl]. *)
Definition reply_of (ans : answer) (map : Z) : M drv Z :=
  match ans with AnswerMap p => reply p map | AnswerDmabuf dreq => reply_dmabuf dreq map end.

Lemma ends_answer md ans s r : 0 < md -> reply_of ans md s = Some r -> ends (TAnswer md ans) s r.
Proof.
  intros Hmd. destruct ans as [p|dreq]; cbn [reply_of]; [unfold reply|unfold reply_dmabuf];
    rewrite decide_True by (unfold IS_ERR, NULL; lia); intros Hr.
  - split_run Hr fault s1. injection Hr as <-. eapply ends_step; [|apply ends_returned].
    cbn [task_step give_answer]. by rewrite (bind_run _ _ _ _ _ E).
  - split_run Hr n s1. split_run Hr u s2. split_run Hr m s3.
    assert (forall t s4, (if decide (mp_invalid m <> 0) then mret (TRemove md (- EIO))
      else if decide (mp_n_addrs m > ioaddrs_capacity dreq) then mret (TRemove md (- EOVERFLOW))
      else fault ← copy_addrs (dmabuf_ioaddrs dreq) md; mret (if (fault : bool) then TRemove md (- EFAULT) else TReturned 0))
        s3 = Some (t, s4) -> ends t s4 r -> ends (TAnswer md (AnswerDmabuf dreq)) s r) as Hstep.
    { intros t s4 Ht. apply ends_step. cbn [task_step give_answer].
      rewrite (bind_run _ _ _ _ _ E), (bind_run _ _ _ _ _ E0), (bind_run _ _ _ _ _ E1). exact Ht. }
    repeat case_decide.
    + split_run Hr [] s4. injection Hr as <-. eapply Hstep; [done|]. by apply ends_unmap.
    + split_run Hr [] s4. injection Hr as <-. eapply Hstep; [done|]. by apply ends_unmap.
    + split_run Hr fault s4. eapply Hstep; [by rewrite (bind_run _ _ _ _ _ E2)|]. destruct fault.
      * split_run Hr [] s5. injection Hr as <-. by apply ends_unmap.
      * injection Hr as <-. apply ends_returned.
Qed.

(** What making a descriptor gives. *)
Definition made_ok (r : Z + Z * Z) : Prop :=
  match r with inl e => e < 0 | inr (md, err) => err < 0 \/ err = 0 /\ 0 < md end.

Lemma reply_error ans e s : e < 0 -> reply_of ans e s = Some (e, s).
Proof.
  intros He. destruct ans; cbn [reply_of]; [unfold reply|unfold reply_dmabuf];
    by rewrite decide_False by (unfold IS_ERR; lia).
Qed.

Lemma ends_built list ans x s r :
  made_ok x -> (map ← insert_new list x; reply_of ans map) s = Some r -> ends (built list ans x) s r.
Proof.
  intros Hx Hr. destruct x as [e|[md err]]; cbn [made_ok insert_new built] in *.
  - split_run Hr e' s1. injection E as <- <-. rewrite reply_error in Hr by done. injection Hr as <-. apply ends_returned.
  - unfold insert_or_release in Hr. split_run Hr e' s1. destruct Hx as [He|[-> Hmd]].
    + rewrite decide_True in E by lia. split_run E [] s2. injection E as <- <-.
      rewrite reply_error in Hr by done. injection Hr as <-.
      apply unmap_run, bind_Some in E0 as ([] & s3 & E1 & E2).
      eapply ends_step; [cbn [task_step]; rewrite decide_True by lia; by rewrite (bind_run _ _ _ _ _ E1)|].
      eapply ends_step; [cbn [task_step]; by rewrite (bind_run _ _ _ _ _ E2)|]. apply ends_returned.
    + rewrite decide_False in E by lia. split_run E [] s2. injection E as <- <-.
      eapply ends_step; [cbn [task_step]; rewrite decide_False by lia; by rewrite (bind_run _ _ _ _ _ E0)|].
      by apply ends_answer.
Qed.

(** The descriptors [map_ioctl] makes. *)
Lemma new_user_made w v s ctrl c vaddr n :
  drv_inv w v s -> (ctrl, c) ∈ w_ctrls w -> n < 2 ^ 60 ->
  wp (new_user_map current ctrl vaddr n) (fun x _ => made_ok x) s.
Proof.
  intros [Hs Hok] Hc Hn. eapply (wp_new_user_map _ _ _ _ (w_pdevs w)); [exact Hs|by apply w_ctrl_in|done|..]; simpl; auto.
Qed.

Lemma new_device_made w v s ctrl c vaddr n :
  drv_inv w v s -> (ctrl, c) ∈ w_ctrls w -> n < 2 ^ 60 ->
  wp (new_device_map current ctrl vaddr n ctrl_list) (fun x _ => made_ok x) s.
Proof.
  intros [Hs Hok] Hc Hn.
  eapply (wp_new_device_map _ _ _ _ _ (w_pdevs w)); [exact Hs|by apply w_ctrl_in|done|apply w_lists_ctrls
    |apply w_ctrls_in; done|unfold w_pdevs; rewrite length_fmap; by eapply w_max|..]; simpl; auto.
Qed.

Lemma new_dmabuf_made w v s ctrl c gpu fd off n cap :
  drv_inv w v s -> (ctrl, c) ∈ w_ctrls w -> n < 2 ^ 60 -> fits 64 off ->
  wp (new_dmabuf_map current ctrl gpu fd off n cap) (fun x _ => made_ok x) s.
Proof.
  intros [Hs Hok] Hc Hn Hoff.
  eapply (wp_new_dmabuf_map _ _ _ _ (w_pdevs w)); [exact Hs|by apply w_ctrl_in|done|done| |..]; simpl; auto.
  intros b Hb. by eapply w_no_resv in Hb.
Qed.

(** ** Unmapping *)

(** [map_find] from an element on. *)
Definition find_test (addr element : Z) : M drv bool :=
  m ← kload as_kmap element; mret (element_matches current addr m).

Lemma ends_walk fuel dev addr element s found s1 r :
  find_from fuel (find_test addr) element s = Some (found, s1) ->
  ends (if decide (found = NULL) then not_found dev addr else TRemove found 0) s1 r ->
  ends (walk_to dev addr element) s r.
Proof.
  revert element s. induction fuel as [|fuel IH]; intros element s Hf Hr; [done|]. cbn [find_from] in Hf.
  unfold walk_to. destruct (decide (element = NULL)) as [Hn|Hn]; [injection Hf as <- <-; by rewrite decide_True in Hr by done|].
  split_run Hf b s2. unfold find_test in E. split_run E m s3. injection E as <- <-.
  destruct (element_matches current addr m) eqn:Em.
  - injection Hf as <- <-. rewrite decide_False in Hr by done. eapply ends_step; [|exact Hr].
    cbn [task_step]. rewrite (bind_run _ _ _ _ _ E0). by rewrite Em.
  - split_run Hf next s4. eapply ends_step; [|by apply IH].
    cbn [task_step]. rewrite (bind_run _ _ _ _ _ E0), Em. by rewrite (bind_run _ _ _ _ _ E).
Qed.

Lemma ends_find dev addr s found s1 r :
  map_find current (map_list dev) addr s = Some (found, s1) ->
  ends (if decide (found = NULL) then not_found dev addr else TRemove found 0) s1 r ->
  ends (TFirst dev addr) s r.
Proof.
  intros Hf Hr. unfold map_find, find_in in Hf. split_run Hf fuel s2. injection E as <- <-. split_run Hf element s3.
  eapply ends_step; [cbn [task_step]; by rewrite (bind_run _ _ _ _ _ E)|]. eapply ends_walk; [exact Hf|exact Hr].
Qed.

(** ** The whole call *)

Lemma ends_unmap_call addr s r :
  (map ← map_find current host_list addr;
   if decide (map <> NULL) then unmap_and_release map;; mret 0
   else
     map ← map_find current device_list addr;
     if decide (map <> NULL) then unmap_and_release map;; mret 0 else mret (- EINVAL)) s = Some r ->
  ends (TFirst false addr) s r.
Proof.
  intros Hr. split_run Hr found s1. eapply (ends_find false); [exact E|]. repeat case_decide; try done.
  - split_run Hr [] s2. injection Hr as <-. by apply ends_unmap.
  - split_run Hr found' s2. eapply (ends_find true); [exact E0|]. repeat case_decide; try done.
    + split_run Hr [] s3. injection Hr as <-. by apply ends_unmap.
    + injection Hr as <-. apply ends_returned.
Qed.

Lemma ends_new_call (new : M drv (Z + Z * Z)) list ans s r x s1 :
  wp new (fun x _ => made_ok x) s ->
  new s = Some (x, s1) -> (map ← insert_new list x; reply_of ans map) s1 = Some r ->
  ends (built list ans x) s1 r.
Proof. intros Hw Hn. unfold wp in Hw. rewrite Hn in Hw. by apply ends_built. Qed.

(** [map]s that are made and then answered. *)
Lemma bind_assoc_run {A B C} (m : M drv A) (f : A -> M drv B) (g : B -> M drv C) s r :
  (x ← (y ← m; f y); g x) s = Some r -> (y ← m; x ← f y; g x) s = Some r.
Proof. unfold mbind, M_bind. by destruct (m s) as [[]|]. Qed.

Lemma ends_dispatch w v ctrl c cmd arg s r :
  drv_inv w v s -> (ctrl, c) ∈ w_ctrls w ->
  (if decide (cmd = NVM_MAP_HOST_MEMORY) then ioctl_map_host current ctrl arg
   else if decide (cmd = NVM_MAP_DEVICE_MEMORY /\ build_hip = false) then ioctl_map_device current ctrl arg
   else if decide (cmd = NVM_MAP_DMABUF_MEMORY /\ build_hip = true) then ioctl_map_dmabuf current ctrl arg
   else if decide (cmd = NVM_UNMAP_MEMORY) then ioctl_unmap_memory current arg
   else mret (- EINVAL)) s = Some r ->
  exists t s1, dispatch current ctrl cmd arg s = Some (t, s1) /\ ends t s1 r.
Proof.
  intros Hinv Hc Hr. unfold dispatch.
  repeat case_decide; [unfold ioctl_map_host in Hr|unfold ioctl_map_device in Hr|unfold ioctl_map_dmabuf in Hr
    |unfold ioctl_unmap_memory in Hr|injection Hr as <-; eexists _, _; split; [done|apply ends_returned]].
  all: split_run Hr n s1; assert (Hinv' : drv_inv w v s1) by (injection E as <- <-; by apply drv_inv_tick);
    rewrite (bind_run _ _ _ _ _ E).
  1-2: destruct (user_map n arg) as [req|] eqn:Eu; [|injection Hr as <-; eexists _, _; split; [done|apply ends_returned]];
    apply bind_assoc_run in Hr; split_run Hr x s2; eexists _, _; split; [by rewrite (bind_run _ _ _ _ _ E0)|].
  - eapply ends_new_call; [by eapply new_user_made; [|exact Hc|eapply b_request]|exact E0|exact Hr].
  - eapply ends_new_call; [by eapply new_device_made; [|exact Hc|eapply b_request]|exact E0|exact Hr].
  - destruct (user_dmabuf n arg) as [dreq|] eqn:Eu; [|injection Hr as <-; eexists _, _; split; [done|apply ends_returned]].
    destruct (dmabuf_bad dreq); [injection Hr as <-; eexists _, _; split; [done|apply ends_returned]|].
    pose proof (ok_dreq _ _ _ Eu) as [Hsize Hoff].
    apply bind_assoc_run in Hr. split_run Hr x s2. eexists _, _. split; [by rewrite (bind_run _ _ _ _ _ E0)|].
    eapply ends_new_call; [eapply new_dmabuf_made; [exact Hinv'|exact Hc| |done]|exact E0|exact Hr].
    pose proof page_size_pos. unfold fits in Hsize. apply Z.div_lt_upper_bound; [lia|]. nia.
  - eexists _, _. split; [done|]. destruct (user_addr n arg); [by apply ends_unmap_call|injection Hr as <-; apply ends_returned].
Qed.

(** C20: a call of [map_ioctl] while no other is in progress, taken step by step, returns what the
    call as a whole returns, and leaves the same state. *)
Theorem call_alone_ioctl u c i_cdev cmd arg r :
  reach u c -> map_ioctl current i_cdev cmd arg (mc_drv c) = Some r ->
  exists fuel, call_alone fuel i_cdev cmd arg (mc_drv c) = Some r.
Proof.
  intros Hc Hr. destruct (drv_reach_inv u c Hc) as (w & v & Hinv & _).
  assert (Hfind : wp (ctrl_find_by_inode ctrl_list i_cdev)
    (fun ctrl s1 => s1 = mc_drv c /\ (ctrl = NULL \/ exists ct, (ctrl, ct) ∈ w_ctrls w)) (mc_drv c)).
  { eapply wp_find_ctrl; [exact Hinv|..]; eauto. }
  unfold map_ioctl in Hr. split_run Hr ctrl s1. unfold wp in Hfind. rewrite E in Hfind. destruct Hfind as [-> Hctrl].
  assert (Henter : forall fuel, call_alone fuel i_cdev cmd arg (mc_drv c) =
    run_call fuel (if decide (ctrl = NULL) then TReturned (- EBADF) else TDispatch ctrl cmd arg) (mc_drv c)).
  { intros fuel. unfold call_alone, enter. unfold mbind, M_bind at 1 2. by rewrite E. }
  destruct (decide (ctrl = NULL)) as [Hn|Hn]; [exists O; by rewrite Henter|].
  destruct Hctrl as [|[ct Hct]]; [done|].
  destruct (ends_dispatch w v ctrl ct cmd arg _ _ Hinv Hct Hr) as (t & s1 & Hd & Hends).
  destruct (ends_step (TDispatch ctrl cmd arg) _ _ _ _ Hd Hends) as [fuel Hrun]. exists fuel. by rewrite Henter.
Qed.
End alone.
