(* ===== verification/DrvSpec.v ===== *)
(** * What the ioctls and mmap of the kernel module give to a process

    The addresses a process gets are the bus addresses of its pages, unmapping undoes mapping,
    and the register window stays inside the BAR. *)
From stdpp Require Import prelude gmap list.
From Stdlib Require Import ZArith Lia.
From S2P Require Import Prelude NvmTypes DrvList DrvSg DrvState DrvMap DrvPci DrvOwn DrvProofs DrvInv DrvCalls DrvLife.
Local Open Scope Z_scope.

Lemma write_words_other m p l q : (forall i, (i < length l)%nat -> q <> p + 8 * Z.of_nat i) -> write_words m p l !! q = m !! q.
Proof.
  revert m p. induction l as [|x l IH]; intros m p Hq; simpl; [done|].
  rewrite IH.
  - apply lookup_insert_ne. specialize (Hq 0%nat). simpl in Hq. lia.
  - intros i Hi. specialize (Hq (S i)). simpl in Hq. lia.
Qed.

Lemma write_words_lookup m p l i x : l !! i = Some x -> write_words m p l !! (p + 8 * Z.of_nat i) = Some x.
Proof.
  revert m p i. induction l as [|y l IH]; intros m p [|i]; simpl; try done.
  - intros [= ->]. rewrite write_words_other by lia.
    replace (p + 8 * Z.of_nat 0) with p by lia. apply lookup_insert_eq.
  - intros Hi. replace (p + 8 * Z.of_nat (S i)) with (p + 8 + 8 * Z.of_nat i) by lia. by apply IH.
Qed.

Section spec.
Context `{KernelOk}.
Context `{!Benign}.

(** The result of a successful event. *)
Lemma event_wp {A} (m : M drv A) f c r c' (Q : A -> drv -> Prop) :
  wp m Q (mc_drv c) -> at_drv (m (mc_drv c)) f = Some (r, c') ->
  exists x, Q x (mc_drv c') /\ r = (f x).1 /\ mc_bound c' = (f x).2.
Proof.
  unfold wp, at_drv. destruct (m (mc_drv c)) as [[x s]|]; [|done]. intros HQ [= <- <-]. by exists x.
Qed.

(** Which handler an ioctl runs, if its file has a controller. *)
Lemma wp_ioctl_host w v current i_cdev arg (Q : Z -> drv -> Prop) s :
  drv_inv w v s -> (forall e s', e < 0 -> Q e s') ->
  (forall c, (i_cdev, c) ∈ w_ctrls w -> wp (ioctl_map_host current i_cdev arg) Q s) ->
  wp (map_ioctl current i_cdev NVM_MAP_HOST_MEMORY arg) Q s.
Proof.
  intros Hinv He Hh. apply wp_bind. eapply wp_find_ctrl; [exact Hinv|..].
  - intros _. rewrite decide_True by done. by apply wp_ret, He.
  - intros c Hc. pose proof (w_ctrl_not_null _ _ _ _ _ Hinv Hc). rewrite decide_False by done.
    rewrite decide_True by done. by eapply Hh.
Qed.

Lemma wp_ioctl_dmabuf w v current i_cdev arg (Q : Z -> drv -> Prop) s :
  drv_inv w v s -> (forall e s', e < 0 -> Q e s') -> build_hip = true ->
  (forall c, (i_cdev, c) ∈ w_ctrls w -> wp (ioctl_map_dmabuf current i_cdev arg) Q s) ->
  wp (map_ioctl current i_cdev NVM_MAP_DMABUF_MEMORY arg) Q s.
Proof.
  intros Hinv He Hhip Hh. apply wp_bind. eapply wp_find_ctrl; [exact Hinv|..].
  - intros _. rewrite decide_True by done. by apply wp_ret, He.
  - intros c Hc. pose proof (w_ctrl_not_null _ _ _ _ _ Hinv Hc). rewrite decide_False by done.
    rewrite decide_False by done. rewrite decide_False by (by intros []). rewrite decide_True by done. by eapply Hh.
Qed.

Lemma wp_ioctl_device w v current i_cdev arg (Q : Z -> drv -> Prop) s :
  drv_inv w v s -> (forall e s', e < 0 -> Q e s') -> build_hip = false ->
  (forall c, (i_cdev, c) ∈ w_ctrls w -> wp (ioctl_map_device current i_cdev arg) Q s) ->
  wp (map_ioctl current i_cdev NVM_MAP_DEVICE_MEMORY arg) Q s.
Proof.
  intros Hinv He Hhip Hh. apply wp_bind. eapply wp_find_ctrl; [exact Hinv|..].
  - intros _. rewrite decide_True by done. by apply wp_ret, He.
  - intros c Hc. pose proof (w_ctrl_not_null _ _ _ _ _ Hinv Hc). rewrite decide_False by done.
    rewrite decide_False by done. rewrite decide_True by done. by eapply Hh.
Qed.

Lemma wp_ioctl_unmap_of w v current i_cdev c arg (Q : Z -> drv -> Prop) s :
  drv_inv w v s -> (i_cdev, c) ∈ w_ctrls w -> wp (ioctl_unmap_memory current arg) Q s ->
  wp (map_ioctl current i_cdev NVM_UNMAP_MEMORY arg) Q s.
Proof.
  intros Hinv Hc Hh. apply wp_bind. eapply wp_find_ctrl; [exact Hinv|..].
  - intros Hno. exfalso. apply Hno. by apply (list_elem_of_fmap_2 fst _ (i_cdev, c)).
  - intros c' _. pose proof (w_ctrl_not_null _ _ _ _ _ Hinv Hc). rewrite decide_False by done.
    rewrite decide_False by done. rewrite decide_False by (by intros []). rewrite decide_False by (by intros []).
    rewrite decide_True by done. done.
Qed.

(** A new mapping in the state of the module. *)
Lemma w_add_res w v s dev x v' s' :
  drv_inv w v s -> drv_inv (w_set w dev (w_maps w dev ++ [x])) v' s' ->
  v_dev_first v' = v_dev_first v -> v_dev_class v' = v_dev_class v -> d_res s' ≡ₚ map_res x ++ d_res s.
Proof.
  intros [Hs _] [Hs' _] E1 E2. rewrite (st_res _ _ _ _ _ _ Hs'), w_res_insert, app_nil_r, w_set_maps.
  rewrite (st_res _ _ _ _ _ _ Hs). unfold w_res. by rewrite E1, E2.
Qed.

(** When NVM_MAP_HOST_MEMORY succeeds the process finds in its array, in order, the bus
    addresses for the controller's device of the pages get_user_pages returned for the page-aligned
    address, and the module holds one more reference to each of these pages and one DMA mapping
    for each, and nothing else. *)
Lemma map_host_spec u c current i_cdev arg c' :
  reach u c -> do_event (Ioctl current i_cdev NVM_MAP_HOST_MEMORY arg) c = Some (0, c') ->
  exists k request pdev got addrs,
    user_map k arg = Some request /\
    pages_of (Z.land (vaddr_start request) PAGE_MASK) (n_pages request) got /\ got <> [] /\
    dma_of pdev got addrs /\
    (forall i a, addrs !! i = Some a ->
       v_user (d_vars (mc_drv c')) !! (ioaddrs request + 8 * Z.of_nat i) = Some a) /\
    d_res (mc_drv c') ≡ₚ (RDma pdev <$> addrs) ++ (RPage <$> got) ++ d_res (mc_drv c).
Proof.
  intros Hc He. destruct (drv_reach_inv u c Hc) as (w & v & Hinv & _ & _).
  eapply (event_wp _ _ _ _ _ (fun r s' => r = 0 -> exists k request pdev got addrs,
    user_map k arg = Some request /\
    pages_of (Z.land (vaddr_start request) PAGE_MASK) (n_pages request) got /\ got <> [] /\ dma_of pdev got addrs /\
    (forall i a, addrs !! i = Some a -> v_user (d_vars s') !! (ioaddrs request + 8 * Z.of_nat i) = Some a) /\
    d_res s' ≡ₚ (RDma pdev <$> addrs) ++ (RPage <$> got) ++ d_res (mc_drv c))) in He.
  { destruct He as (x & HQ & E & _). by apply HQ. }
  eapply wp_ioctl_host; [exact Hinv|lia|]. intros ct Hct.
  eapply wp_ioctl_map_host; [exact Hinv|exact Hct|lia|].
  intros k req x got addrs r v' s' Hreq Hx Hr Hi Hr0. destruct Hr as [[-> _]|[_ ->]]; [done|].
  pose proof Hx as (vm & data & vm' & _ & Hne & _ & Hp & Hdma & Ex).
  exists k, req, (ct_pdev ct), got, addrs. split_and!; try done.
  - intros i a Ha. rewrite (st_vars _ _ _ _ _ _ (proj1 Hi)). simpl. by apply write_words_lookup.
  - rewrite (w_add_res w v _ false x _ _ Hinv Hi) by done. unfold map_res. rewrite Ex. simpl. by rewrite <- app_assoc.
Qed.

(** When NVM_MAP_DEVICE_MEMORY succeeds the process finds in its array the addresses of the GPU
    pages from the address rounded down to a GPU page, in the NVIDIA driver's mapping for the first
    controller of the module, and the module holds the pages and a mapping for each controller. *)
Lemma map_device_spec u c current i_cdev arg c' :
  reach u c -> build_hip = false ->
  do_event (Ioctl current i_cdev NVM_MAP_DEVICE_MEMORY arg) c = Some (0, c') ->
  exists k request table ms mp,
    user_map k arg = Some request /\ length ms = length (mc_bound c) /\ head ms = Some mp /\
    (Z.to_nat (n_pages request) <= length (p2p_addresses mp))%nat /\
    (forall i a, take (Z.to_nat (n_pages request)) (p2p_addresses mp) !! i = Some a ->
       v_user (d_vars (mc_drv c')) !! (ioaddrs request + 8 * Z.of_nat i) = Some a) /\
    d_res (mc_drv c') ≡ₚ gpu_res (mc_bound c) table ms ++
      RP2pPages (Z.land (vaddr_start request) GPU_PAGE_MASK) table :: d_res (mc_drv c).
Proof.
  intros Hc Hhip He. destruct (drv_reach_inv u c Hc) as (w & v & Hinv & Hw & _). rewrite <- Hw.
  eapply (event_wp _ _ _ _ _ (fun r s' => r = 0 -> exists k request table ms mp,
    user_map k arg = Some request /\ length ms = length (w_pdevs w) /\ head ms = Some mp /\
    (Z.to_nat (n_pages request) <= length (p2p_addresses mp))%nat /\
    (forall i a, take (Z.to_nat (n_pages request)) (p2p_addresses mp) !! i = Some a ->
       v_user (d_vars s') !! (ioaddrs request + 8 * Z.of_nat i) = Some a) /\
    d_res s' ≡ₚ gpu_res (w_pdevs w) table ms ++
      RP2pPages (Z.land (vaddr_start request) GPU_PAGE_MASK) table :: d_res (mc_drv c))) in He.
  { destruct He as (x & HQ & E & _). by apply HQ. }
  eapply wp_ioctl_device; [exact Hinv|lia|done|]. intros ct Hct.
  eapply wp_ioctl_map_device; [exact Hinv|exact Hct|lia|].
  intros k req x ms r v' s' Hreq Hx Hr Hi Hr0. destruct Hr as [[-> _]|(_ & mp & Hmp & Hlen & ->)]; [done|].
  pose proof Hx as (vm & gd & mappings & table & _ & _ & Hms & _ & Ex).
  exists k, req, table, ms, mp. split_and!; try done.
  - intros i a Ha. rewrite (st_vars _ _ _ _ _ _ (proj1 Hi)). simpl. by apply write_words_lookup.
  - rewrite (w_add_res w v _ true x _ _ Hinv Hi) by done. unfold map_res. rewrite Ex. simpl. by rewrite <- app_assoc.
Qed.

(** When NVM_MAP_DMABUF_MEMORY succeeds the process finds in its array the addresses of the
    pages of the dma-buf from the offset on, as many as its size has, and the module holds the
    buffer, the attachment, the pin and the table. *)
Lemma map_dmabuf_spec u c current i_cdev arg c' :
  reach u c -> build_hip = true ->
  do_event (Ioctl current i_cdev NVM_MAP_DMABUF_MEMORY arg) c = Some (0, c') ->
  exists k dreq dr addrs,
    user_dmabuf k arg = Some dreq /\ dmabuf_bad dreq = false /\
    sg_pages (sgt_entries (dr_sgt dr)) PAGE_SIZE (dmabuf_offset dreq)
      (Z.to_nat (dmabuf_size dreq / PAGE_SIZE)) = Some addrs /\
    (forall i a, addrs !! i = Some a ->
       v_user (d_vars (mc_drv c')) !! (dmabuf_ioaddrs dreq + 8 * Z.of_nat i) = Some a) /\
    d_res (mc_drv c') ≡ₚ dmabuf_res dr ++ d_res (mc_drv c).
Proof.
  intros Hc Hhip He. destruct (drv_reach_inv u c Hc) as (w & v & Hinv & _ & _).
  eapply (event_wp _ _ _ _ _ (fun r s' => r = 0 -> exists k dreq dr addrs,
    user_dmabuf k arg = Some dreq /\ dmabuf_bad dreq = false /\
    sg_pages (sgt_entries (dr_sgt dr)) PAGE_SIZE (dmabuf_offset dreq)
      (Z.to_nat (dmabuf_size dreq / PAGE_SIZE)) = Some addrs /\
    (forall i a, addrs !! i = Some a -> v_user (d_vars s') !! (dmabuf_ioaddrs dreq + 8 * Z.of_nat i) = Some a) /\
    d_res s' ≡ₚ dmabuf_res dr ++ d_res (mc_drv c))) in He.
  { destruct He as (x & HQ & E & _). by apply HQ. }
  eapply wp_ioctl_dmabuf; [exact Hinv|lia|done|]. intros ct Hct.
  eapply wp_ioctl_map_dmabuf; [exact Hinv|exact Hct|lia|].
  intros k dreq x addrs s' Hreq Hbad Hx Hi _. destruct Hx as (vm & data & dr & _ & _ & _ & Hp & Ex).
  exists k, dreq, dr, addrs. split_and!; try done.
  - intros i a Ha. rewrite (st_vars _ _ _ _ _ _ (proj1 Hi)). simpl. by apply write_words_lookup.
  - rewrite (w_add_res w v _ true x _ _ Hinv Hi) by done. unfold map_res. by rewrite Ex.
Qed.

(** The registers a process can map through a device file are those of a device the module
    has, and no more bytes than its BAR has. *)
Theorem mmap_inside_bar u c i_cdev vm_start vm_end r start size s' :
  reach u c -> mmap_registers i_cdev vm_start vm_end (mc_drv c) = Some ((r, Some (start, size)), s') ->
  exists pdev, pdev ∈ mc_bound c /\ start = bar_start pdev /\ size = u64 (vm_end - vm_start) /\ size <= bar_len pdev.
Proof.
  intros Hc E. destruct (drv_reach_inv u c Hc) as (w & v & Hinv & Hw & _).
  pose proof (wp_mmap_registers w v i_cdev vm_start vm_end _ Hinv) as Hwp. unfold wp in Hwp. rewrite E in Hwp.
  destruct Hwp as (_ & ct & Hct & -> & -> & Hle). exists (ct_pdev ct). split_and!; try done.
  rewrite <- Hw. by apply (list_elem_of_fmap_2 (fun x : Z * ctrl => ct_pdev x.2) _ (i_cdev, ct)).
Qed.

(** ** Mapping and unmapping *)

(** An address in the first page of a mapping finds the mapping. *)
Lemma user_mapping_matches w v s current vaddr pdev n got addrs x addr :
  drv_inv (w_set w false (w_hosts w ++ [x])) v s -> user_mapping current vaddr pdev n got addrs x ->
  Z.land addr PAGE_MASK = Z.land vaddr PAGE_MASK -> map_matches s current addr x.1 = true.
Proof.
  intros [Hs _] (vm & data & vm' & _ & _ & _ & _ & _ & Ex) Ha.
  assert (d_objs s !! x.1 = Some (vm, KMap (user_map_of (sized_map current (Z.land vaddr PAGE_MASK) pdev n PAGE_SIZE) data got addrs))) as E.
  { apply (st_lookup _ _ _ _ _ _ _ _ Hs). rewrite (w_objs_insert w false (w_hosts w) x []). unfold map_cells.
    rewrite Ex. by left. }
  unfold map_matches. rewrite E. apply bool_decide_eq_true. simpl. pose proof page_size_pos.
  split_and!; [done|lia|]. by rewrite <- Ha.
Qed.

(** A mapping that was there before is seen in the same way. *)
Lemma map_matches_old w v s v' s' x y current addr :
  drv_inv w v s -> drv_inv (w_set w false (w_hosts w ++ [x])) v' s' -> y ∈ w_hosts w ->
  map_matches s' current addr y.1 = map_matches s current addr y.1.
Proof.
  intros Hinv [Hs' _] Hy. destruct (w_map_in w v false y s Hinv Hy) as (vm & m & Hin & E).
  unfold map_matches. rewrite E. replace (d_objs s' !! y.1) with (Some (vm, KMap m)); [done|]. symmetry.
  apply (st_lookup _ _ _ _ _ _ _ _ Hs'). rewrite (w_objs_insert w false (w_hosts w) x []), app_nil_r.
  apply elem_of_app. right. by destruct w.
Qed.

(** Unmapping in the state after a mapping. *)
Lemma wp_unmap_last w v s v' s' current vaddr pdev n got addrs x arg addr :
  drv_inv w v s -> drv_inv (w_set w false (w_hosts w ++ [x])) v' s' ->
  user_mapping current vaddr pdev n got addrs x -> Z.land addr PAGE_MASK = Z.land vaddr PAGE_MASK ->
  user_addr (d_calls s') arg = Some addr ->
  (forall y, y ∈ w_hosts w -> map_matches s current addr y.1 = false) ->
  wp (ioctl_unmap_memory current arg) (fun r s2 => r = 0 /\ drv_inv w v' s2) s'.
Proof.
  intros Hinv Hinv' Hx Ha Haddr Hno.
  pose proof (user_mapping_matches _ _ _ _ _ _ _ _ _ _ _ Hinv' Hx Ha) as Hmx.
  assert (forall y, y ∈ w_hosts w -> map_matches s' current addr y.1 = false) as Hno'
    by (intros y Hy; rewrite (map_matches_old _ _ _ _ _ _ _ _ _ Hinv Hinv' Hy); auto).
  eapply wp_ioctl_unmap_memory; [exact Hinv'|..].
  - intros s2 E. congruence.
  - intros addr' s2 E Hall. simplify_eq. rewrite (Hall false x) in Hmx; [done|]. simpl. set_solver.
  - intros addr' dev us y vs s2 E (Hm & Hy & Hus) Hdev Hi. simplify_eq. split; [done|].
    destruct dev.
    { specialize (Hdev eq_refl x). simpl in Hdev. rewrite Hdev in Hmx; [done|set_solver]. }
    simpl in Hm, Hi.
    assert (us = w_hosts w /\ vs = []) as [-> ->].
    { destruct (decide (vs = [])) as [->|Hvs]; [by apply app_inj_tail in Hm as [-> _]|].
      destruct (exists_last Hvs) as (vs' & z & ->). exfalso.
      rewrite app_comm_cons, app_assoc in Hm. apply app_inj_tail in Hm as [Hm _].
      rewrite Hno' in Hy; [done|]. rewrite Hm. set_solver. }
    rewrite app_nil_r in Hi. by destruct w.
Qed.

(** C26: unmapping what was mapped gives everything back: if a process maps host memory and then
    unmaps an address of its first page, and had no mapping for that address before, the unmap
    succeeds and the module has exactly the memory and the resources it had before the map. *)
Theorem map_unmap_roundtrip u c current i_cdev arg arg' addr c1 r c2 :
  reach u c ->
  do_event (Ioctl current i_cdev NVM_MAP_HOST_MEMORY arg) c = Some (0, c1) ->
  user_addr (d_calls (mc_drv c1)) arg' = Some addr ->
  (forall k request, user_map k arg = Some request ->
     Z.land addr PAGE_MASK = Z.land (vaddr_start request) PAGE_MASK) ->
  (forall a, map_matches (mc_drv c) current addr a = false) ->
  do_event (Ioctl current i_cdev NVM_UNMAP_MEMORY arg') c1 = Some (r, c2) ->
  r = 0 /\ d_objs (mc_drv c2) = d_objs (mc_drv c) /\ d_res (mc_drv c2) ≡ₚ d_res (mc_drv c).
Proof.
  intros Hc He Haddr Hpage Hno He'. destruct (drv_reach_inv u c Hc) as (w & v & Hinv & _ & _).
  eapply (event_wp _ _ _ _ _ (fun r s' => r = 0 -> exists ct k request x got addrs v', (i_cdev, ct) ∈ w_ctrls w /\
    user_map k arg = Some request /\ v_dev_first v' = v_dev_first v /\ v_dev_class v' = v_dev_class v /\
    user_mapping current (vaddr_start request) (ct_pdev ct) (n_pages request) got addrs x /\
    drv_inv (w_set w false (w_hosts w ++ [x])) v' s')) in He.
  - destruct He as (y & HQ & E & _). destruct HQ as (ct & k & req & x & got & addrs & v' & Hct & Hreq & E1 & E2 & Hx & Hi); [done|].
    eapply (event_wp _ _ _ _ _ (fun r s2 => r = 0 /\ drv_inv w v' s2)) in He'.
    + destruct He' as (z & [-> Hi2] & -> & _). split; [done|]. by eapply same_world.
    + eapply wp_ioctl_unmap_of; [exact Hi|exact Hct|]. eapply wp_unmap_last; [exact Hinv|exact Hi|exact Hx|by eapply Hpage|exact Haddr|].
      intros y' _. apply Hno.
  - eapply wp_ioctl_host; [exact Hinv|lia|]. intros ct Hct.
    eapply wp_ioctl_map_host; [exact Hinv|exact Hct|lia|].
    intros k req x got addrs r0 v' s' Hreq Hx Hr Hi _. exists ct, k, req, x, got, addrs, v'.
    split_and!; try done; destruct Hr as [[_ ->]|[_ ->]]; done.
Qed.
End spec.
