(* ===== verification/DrvCases.v ===== *)
(** * The kernel module on concrete kernels

    A kernel that satisfies the assumptions, histories on it for the theorems of DrvLife.v and
    DrvSpec.v, and for each of the failures those theorems exclude a history in which the module
    does not survive it. *)
From stdpp Require Import prelude gmap list.
From Stdlib Require Import ZArith Lia.
From S2P Require Import Prelude NvmTypes DrvList DrvSg DrvTest DrvState DrvMap DrvPci DrvOwn DrvProofs DrvInv DrvCalls DrvLife DrvSpec.
Local Open Scope Z_scope.

(** What differs between the kernels below. *)
Record choice := mk_choice {
  ch_hip : bool;
  ch_request : nvm_ioctl_map;    (* what processes ask for *)
  ch_gup : bool;                 (* get_user_pages succeeds *)
  ch_dma : bool;                 (* dma_map_page succeeds *)
  ch_dmabuf : Z;                 (* dma_buf_get *)
  ch_attach : Z;                 (* dma_buf_dynamic_attach *)
  ch_max : Z;                    (* max_num_ctrls of the module *)
}.

Definition demo_dreq : nvm_ioctl_dmabuf := mk_dreq 0x7f0000000000 5 4096 8192 2 0x5000.

Definition demo_kernel (ch : choice) : Kernel := {|
  kcall := fun _ => 0;
  kalloc := fun _ size => bool_decide (size < 2 ^ 31);
  kvm := fun _ size => bool_decide (2 ^ 12 < size);
  junk_node := mk_node 0x6b 0x6b 0x6b;
  junk := 0x6b;
  get_user_pages := fun _ a k =>
    if ch_gup ch then inr ((fun i => a / 4096 + i) <$> seqZ 0 (k `max` 1)) else inl (- EFAULT);
  dma_map_page := fun _ d p => if ch_dma ch then Some ((p * 4096 + d) mod 2 ^ 48) else None;
  p2p_get_pages := fun _ _ len =>
    if decide (0 <= len /\ len mod 65536 = 0) then inr (len / 65536 + 1) else inl (- EINVAL);
  p2p_entries := fun t => t - 1;
  p2p_dma_map := fun _ _ t => if decide (0 < t) then inr t else inl (- EINVAL);
  p2p_addresses := fun t => (fun i => (0x4000000000 + i * 65536) mod 2 ^ 48) <$> seqZ 0 (t - 1);
  dma_buf_get := fun _ _ => ch_dmabuf ch;
  dma_buf_attach := fun _ _ _ => ch_attach ch;
  dma_buf_map := fun _ _ => 79;
  sgt_entries := fun _ => [mk_sg 0x10000000 8192; mk_sg 0x20000000 8192];
  move_notified := fun _ => false;
  user_map := fun _ _ => Some (ch_request ch);
  user_dmabuf := fun _ _ => Some demo_dreq;
  user_addr := fun _ arg => Some arg;
  user_fault := fun _ => false;
  kpointer := fun _ => 500;
  chrdev_first := fun _ => 0xf000000;
  bar_start := fun d => d * 2 ^ 20;
  bar_len := fun _ => 16384;
  page_shift := 12;
  max_ctrls_param := ch_max ch;
  build_hip := ch_hip ch;
|}.

#[export] Instance demo_kernel_ok ch : @KernelOk (demo_kernel ch).
Proof.
  split; simpl.
  - done.
  - intros n size E. by apply bool_decide_eq_true in E.
  - intros n size E. by apply bool_decide_eq_true in E.
  - intros n a k e. destruct (ch_gup ch); [done|]. by intros [= <-].
  - intros n a k l. destruct (ch_gup ch); [|done]. intros [= <-] E.
    apply (f_equal length) in E. rewrite length_fmap, length_seqZ in E. simpl in E. lia.
  - intros n a len e. case_decide; [done|]. by intros [= <-].
  - intros n a len t. case_decide as Hd; [|done]. intros [= <-]. destruct Hd as [? Hm].
    unfold GPU_PAGE_SIZE, GPU_PAGE_SHIFT. change (2 ^ 16) with 65536.
    pose proof (Z.div_mod len 65536 ltac:(lia)). split; [|lia]. pose proof (Z.div_pos len 65536). lia.
  - intros n d t e. case_decide; [done|]. by intros [= <-].
  - intros n d t mp. case_decide; [|done]. intros [= <-]. split; [done|].
    rewrite length_fmap, length_seqZ. lia.
  - done.
  - intros t. repeat constructor; simpl; unfold fits; lia.
  - intros n arg d [= <-]. split; unfold fits; simpl; lia.
  - done.
  - done.
Qed.

Definition good (hip : bool) : choice := mk_choice hip (mk_request 0x7f0000001234 3 0x9000) true true 77 78 64.

#[export] Instance demo_benign hip : @Benign (demo_kernel (good hip)).
Proof. split; simpl; try done. by intros n arg r [= <-]. Qed.

(** ** Histories *)

Fixpoint run (K : Kernel) (es : list event) (c : machine) : option machine :=
  match es with
  | [] => Some c
  | e :: es =>
      if decide (@legal K e c) then
        match @do_event K e c with Some (_, c') => run K es c' | None => None end
      else None
  end.

Definition after (K : Kernel) (es : list event) : option machine :=
  match @ugds_drv_entry K (drv_start ∅) with
  | Some (0, s) => run K es (mk_machine s [])
  | _ => None
  end.

Lemma run_reach K es c c' : @reach K ∅ c -> run K es c = Some c' -> @reach K ∅ c'.
Proof.
  revert c. induction es as [|e es IH]; intros c Hc; simpl; [by intros [= <-]|].
  case_decide; [|done]. destruct (@do_event K e c) as [[r c1]|] eqn:E; [|done]. intros Hr.
  eapply IH; [|exact Hr]. by eapply reach_event.
Qed.

Lemma after_reach K es c : after K es = Some c -> @reach K ∅ c.
Proof.
  unfold after. destruct (@ugds_drv_entry K (drv_start ∅)) as [[[| |] s]|] eqn:E; try done.
  apply run_reach. by apply reach_load.
Qed.

(** Two controllers, 7 and 8; the first has the address 4. *)
Definition hip_kernel : Kernel := demo_kernel (good true).
Definition cuda_kernel : Kernel := demo_kernel (good false).
Definition map_host : event := Ioctl 900 4 NVM_MAP_HOST_MEMORY 0.

Definition mapped : machine := default (mk_machine (drv_start ∅) []) (after hip_kernel [Probe 7; Probe 8; map_host]).



(** A process unmaps what it has not mapped. *)
Lemma drv_failure_undone_witness :
  let c' := match @do_event hip_kernel (Ioctl 901 4 NVM_UNMAP_MEMORY 0x7f0000001000) mapped with
            | Some (_, c') => c' | None => mapped end in
  d_objs (mc_drv c') = d_objs (mc_drv mapped) /\ d_res (mc_drv c') ≡ₚ d_res (mc_drv mapped).
Proof.
  intros c'. apply (@drv_failure_undone hip_kernel _ _ ∅ mapped (Ioctl 901 4 NVM_UNMAP_MEMORY 0x7f0000001000) (- EINVAL) c').
  - apply (after_reach _ [Probe 7; Probe 8; map_host]). vm_compute. reflexivity.
  - exact I.
  - vm_compute. reflexivity.
  - reflexivity.
  - vm_compute. discriminate.
Defined.

Definition probed2 : machine := default (mk_machine (drv_start ∅) []) (after hip_kernel [Probe 7; Probe 8]).

Definition map_dmabuf_event : event := Ioctl 900 4 NVM_MAP_DMABUF_MEMORY 0.

Lemma mmap_inside_bar_witness :
  exists pdev, pdev ∈ mc_bound probed2 /\ 7 * 2 ^ 20 = @bar_start hip_kernel pdev /\
    8192 = u64 (0x7f0000002000 - 0x7f0000000000) /\ 8192 <= @bar_len hip_kernel pdev.
Proof.
  apply (@mmap_inside_bar hip_kernel _ _ ∅ probed2 4 0x7f0000000000 0x7f0000002000 0 (7 * 2 ^ 20) 8192
    (match @mmap_registers hip_kernel 4 0x7f0000000000 0x7f0000002000 (mc_drv probed2) with
     | Some (_, s) => s | None => mc_drv probed2 end)).
  - apply (after_reach _ [Probe 7; Probe 8]). vm_compute. reflexivity.
  - vm_compute. reflexivity.
Defined.

Lemma map_unmap_roundtrip_witness :
  let c2 := match @do_event hip_kernel (Ioctl 900 4 NVM_UNMAP_MEMORY 0x7f0000001008) mapped with
            | Some (_, c') => c' | None => mapped end in
  0 = 0 /\ d_objs (mc_drv c2) = d_objs (mc_drv probed2) /\ d_res (mc_drv c2) ≡ₚ d_res (mc_drv probed2).
Proof.
  intros c2.
  apply (@map_unmap_roundtrip hip_kernel _ _ ∅ probed2 900 4 0 0x7f0000001008 0x7f0000001008 mapped 0 c2).
  - apply (after_reach _ [Probe 7; Probe 8]). vm_compute. reflexivity.
  - vm_compute. reflexivity.
  - reflexivity.
  - intros k request [= <-]. vm_compute. reflexivity.
  - intros a. unfold map_matches.
    destruct (d_objs (mc_drv probed2) !! a) as [[vm o]|] eqn:E; [|reflexivity].
    apply elem_of_map_to_list in E. vm_compute in E.
    repeat (apply elem_of_cons in E as [[= _ _ ->]|E]; [reflexivity|]). by apply elem_of_nil in E.
  - vm_compute. reflexivity.
Defined.

(** ** Failures the module does not survive *)

(** The event is one the module has to expect after the history, and is undefined. *)
Definition crashes (K : Kernel) (es : list event) (e : event) : bool :=
  match after K es with
  | Some c => bool_decide (@legal K e c) && match @do_event K e c with None => true | Some _ => false end
  | None => false
  end.

Definition ask (n : Z) : nvm_ioctl_map := mk_request 0x7f0000001234 n 0x9000.
Definition devices (n : Z) : list event := Probe <$> seqZ 100 n.
Definition map_device : event := Ioctl 900 4 NVM_MAP_DEVICE_MEMORY 0.


(** The device number and device file of the controller at an address. *)
Definition ctrl_number_at (c : option machine) (a : Z) : option (Z * Z * Z) :=
  c ← c; '(_, o) ← d_objs (mc_drv c) !! a;
  match o with KCtrl ct => Some (ct_pdev ct, ct_number ct, ct_rdev ct) | _ => None end.

(** Controllers are numbered by how many there are, so after a controller is unplugged the
    next one gets the number and the device file of one that is still there. *)
Theorem ctrl_numbers_reused :
  let c := after hip_kernel [Probe 7; Probe 8; Unplug 7; Probe 9] in
  ctrl_number_at c 5 = Some (8, 1, 0xf000001) /\ ctrl_number_at c 6 = Some (9, 1, 0xf000001).
Proof. split; vm_compute; reflexivity. Qed.

(** A mapping belongs to the task that made it.  Another thread of the same process is refused when
    it unmaps the memory, and the pages stay pinned and mapped. *)
Theorem unmap_by_other_thread :
  exists c', @do_event hip_kernel (Ioctl 901 4 NVM_UNMAP_MEMORY 0x7f0000001000) mapped = Some (- EINVAL, c') /\
    d_res (mc_drv c') = d_res (mc_drv mapped) /\
    exists c'', @do_event hip_kernel (Ioctl 900 4 NVM_UNMAP_MEMORY 0x7f0000001000) mapped = Some (0, c'') /\
      d_res (mc_drv c'') <> d_res (mc_drv mapped).
Proof.
  eexists. split; [vm_compute; reflexivity|]. split; [vm_compute; reflexivity|].
  eexists. split; [vm_compute; reflexivity|]. vm_compute. discriminate.
Qed.

(** When the module has all the controllers it wants, probing another one succeeds without
    doing anything, and when that device is later removed the module releases a region it has
    never requested. *)
Theorem over_limit_device :
  let K := demo_kernel (mk_choice true (ask 3) true true 77 78 1) in
  match c ← after K [Probe 7]; @add_pci_dev K 8 (mc_drv c) with
  | Some (r, s) => r = 0 /\ Some s = mc_drv <$> after K [Probe 7] /\ remove_pci_dev 8 s = None
  | None => False
  end.
Proof. vm_compute. split_and!; reflexivity. Qed.

(** ** The lists *)

(** Two empty lists and three nodes. *)
Definition demo_mem : kmem :=
  mk_kmem (<[1 := mk_node 1 1 1]> (<[2 := mk_node 2 2 2]> (<[10 := mk_node 0 0 0]> (<[11 := mk_node 0 0 0]>
    (<[12 := mk_node 0 0 0]> ∅))))) (<[1 := false]> (<[2 := false]> ∅)).
Definition demo_lists : gmap Z (list Z) := <[1 := []]> (<[2 := []]> ∅).

Lemma demo_nodes_ok : nodes_ok [10; 11; 12] demo_mem demo_lists.
Proof.
  assert (forall l xs, demo_lists !! l = Some xs -> (l = 1 \/ l = 2) /\ xs = []) as Hl.
  { unfold demo_lists. intros l xs [[<- <-]|[_ [[<- <-]|[_ Hl]]%lookup_insert_Some]]%lookup_insert_Some;
      [tauto|tauto|by rewrite lookup_empty in Hl]. }
  split.
  - split; intros l xs [[->| ->] ->]%Hl; try reflexivity.
    all: split; [apply NoDup_singleton|by intros Hn%list_elem_of_singleton| |by split].
    all: intros x ->%list_elem_of_singleton; reflexivity.
  - intros p Hp. rewrite !elem_of_cons in Hp.
    destruct Hp as [->|[->|[->|Hp]]]; [split_and!; [done|done|by left]..|by apply elem_of_nil in Hp].
Qed.

Definition demo_ops : list list_op := [Insert 1 10; Insert 2 11; Insert 1 12; Remove 10; Insert 2 10; Remove 10].

Lemma list_ops_refine_witness :
  wp (do_list_ops demo_ops) (fun _ m' =>
    forall l xs, foldl (flip spec_list_op) demo_lists demo_ops !! l = Some xs ->
      wp (list_elems l) (fun r m'' => r = xs /\ m'' = m') m') demo_mem.
Proof.
  apply (list_ops_refine [10; 11; 12] demo_ops demo_mem demo_lists demo_nodes_ok).
  apply (bool_decide_unpack _). vm_compute. reflexivity.
Defined.

(** ** sg_flatten_to_addrs *)

Lemma sg_flatten_spec_witness :
  exists err addrs', sg_flatten_to_addrs (fill_sg_table 0 [8192; 8192]) [0; 0; 0] (Z.of_nat 3) 4096 4096 = Some (err, addrs') /\
    length addrs' = 3%nat /\
    ((err = 0 /\ drop 3 addrs' = [] /\
      forall i k, (i < 3)%nat -> 0 <= k < 4096 -> exists a, addrs' !! i = Some a /\
        sg_byte (fill_sg_table 0 [8192; 8192]) (4096 + Z.of_nat i * 4096 + k) = Some (a + k)) \/
     (err = - EINVAL /\
      exists i, (i < 3)%nat /\ sg_page (fill_sg_table 0 [8192; 8192]) 4096 (4096 + Z.of_nat i * 4096) = None)).
Proof.
  apply (sg_flatten_spec (fill_sg_table 0 [8192; 8192]) [0; 0; 0] 3 4096 4096).
  - lia.
  - cbn [fill_sg_table]. repeat (apply Forall_cons; split; [by vm_compute|]). apply Forall_nil_2.
  - unfold fits. lia.
  - simpl. lia.
Defined.
