(* ===== verification/DrvTasksCases.v ===== *)
(** * Interleaved calls on a concrete kernel

    Interleavings for the theorems of DrvTasksSpec.v and DrvTasksAlone.v, and the interleavings
    those theorems exclude: the module does not survive them. *)
From stdpp Require Import prelude gmap list.
From Stdlib Require Import ZArith Lia.
From S2P Require Import Prelude NvmTypes DrvList DrvSg DrvState DrvMap DrvPci DrvOwn DrvProofs DrvInv DrvCalls DrvLife DrvSpec DrvTasks DrvTasksSpec DrvTasksAlone DrvCases.
Local Open Scope Z_scope.

#[export] Instance is_walking_dec t : Decision (is_walking t).
Proof. destruct t; apply _. Defined.
#[export] Instance is_removing_dec t : Decision (is_removing t).
Proof. destruct t; apply _. Defined.

#[export] Instance klabel_ok_dec `{Kernel} l y : Decision (klabel_ok l y).
Proof.
  destruct l as [| current | |]; simpl; try apply _.
  destruct (ks_tasks y !! current) as [t|] eqn:E; [|left; congruence].
  destruct (decide (is_removing t -> map_Forall (fun _ t' => ~ is_walking t') (ks_tasks y))) as [Hd|Hd].
  - left. intros t' [= <-] Hr. by apply Hd.
  - right. intros Hall. apply Hd. intros Hr. exact (Hall t eq_refl Hr).
Defined.

(** Labels taken one after the other; [ok] says whether the allowed ones only. *)
Fixpoint krun (ok : bool) (K : Kernel) (ls : list klabel) (y : ksys) : option ksys :=
  match ls with
  | [] => Some y
  | l :: ls =>
      if decide (ok = true -> @klabel_ok K l y)
      then match @ksys_step K l y with Some y' => krun ok K ls y' | None => None end
      else None
  end.

Definition kload_module (K : Kernel) : option ksys :=
  match @ugds_drv_entry K (drv_start ∅) with Some (0, s) => Some (mk_ksys (mk_machine s []) ∅) | _ => None end.
Definition kafter (K : Kernel) (ls : list klabel) : option ksys := y ← kload_module K; krun true K ls y.

Lemma krun_reach K ls y y' : @kreach K ∅ y -> krun true K ls y = Some y' -> @kreach K ∅ y'.
Proof.
  revert y. induction ls as [|l ls IH]; intros y Hy; simpl; [by intros [= <-]|].
  case_decide as Hd; [|done]. destruct (@ksys_step K l y) as [y1|] eqn:E; [|done]. intros Hr.
  eapply IH; [|exact Hr]. eapply kreach_step; [exact Hy|by apply Hd|exact E].
Qed.

Lemma kafter_reach K ls y : kafter K ls = Some y -> @kreach K ∅ y.
Proof.
  unfold kafter, kload_module. destruct (@ugds_drv_entry K (drv_start ∅)) as [[[| |] s]|] eqn:E; try done.
  simpl. apply krun_reach. by apply kreach_load.
Qed.

(** Tasks 900 and 901 map host memory, the second while the first is answered; they begin to
    unmap it, and 900 is where it takes its mapping out. *)
Definition enter_map (current : Z) : klabel := KEnter current 4 NVM_MAP_HOST_MEMORY 0.
Definition enter_unmap (current : Z) : klabel := KEnter current 4 NVM_UNMAP_MEMORY 0x7f0000001000.
Definition both_mapped : list klabel :=
  [KEvent (Probe 7); enter_map 900; KStep 900; KStep 900; enter_map 901; KStep 901; KStep 900; KStep 901; KStep 901;
   KLeave 900; KLeave 901].
Definition both_unmapping : list klabel :=
  both_mapped ++ [enter_unmap 900; KStep 900; KStep 900; KStep 900; enter_unmap 901; KStep 901].

Definition no_ksys : ksys := mk_ksys (mk_machine (drv_start ∅) []) ∅.
Definition unmapping : ksys := default no_ksys (kafter hip_kernel both_unmapping).



(** The mapping of 901 while 900 takes its own out. *)
Definition map_901 : kmap :=
  match d_objs (mc_drv (ks_machine unmapping)) !! 7 with Some (_, KMap m) => m | _ => @new_map hip_kernel 0 0 0 0 end.


Lemma call_alone_ioctl_witness :
  let r := default (0, mc_drv mapped) (@map_ioctl hip_kernel 900 4 NVM_UNMAP_MEMORY 0x7f0000001000 (mc_drv mapped)) in
  r.1 = 0 /\ exists fuel, @call_alone hip_kernel 900 fuel 4 NVM_UNMAP_MEMORY 0x7f0000001000 (mc_drv mapped) = Some r.
Proof.
  intros r. split; [vm_compute; reflexivity|].
  apply (@call_alone_ioctl hip_kernel _ _ 900 ∅ mapped 4 NVM_UNMAP_MEMORY 0x7f0000001000 r).
  - apply (after_reach _ [Probe 7; Probe 8; map_host]). vm_compute. reflexivity.
  - vm_compute. reflexivity.
Defined.

(** ** What the module does not survive *)

(** The state of a task after labels that need not be allowed. *)
Definition task_after (ls : list klabel) (current : Z) : option task :=
  y ← krun false hip_kernel ls unmapping; ks_tasks y !! current.
Definition dies_after (ls : list klabel) (l : klabel) : bool :=
  match krun false hip_kernel ls unmapping with
  | Some y => match @ksys_step hip_kernel l y with None => true | Some _ => false end
  | None => false
  end.


(** [ctrl_find_by_inode] gives a pointer without a reference: the device is unplugged between the
    lookup of the controller and its first use. *)
Theorem unplug_race :
  @legal hip_kernel (Unplug 7) (ks_machine unmapping) /\
  dies_after [enter_map 902; KEvent (Unplug 7)] (KStep 902) = true.
Proof. split; [apply (bool_decide_unpack _); vm_compute; reflexivity|vm_compute; reflexivity]. Qed.
