(* ===== verification/LinuxDmaRun.v ===== *)
(** * What a mapping returns

    The handle that a successful [nvm_dma_map_host] or [nvm_dma_map_device] returns, in terms of the
    answer of the kernel module to the one ioctl the call makes. *)
From S2P Require Import Prelude NvmTypes NvmUtil LibState Ctrl Dma LinuxDma DmaSpec.
From stdpp Require Import prelude gmap gmultiset list.
From Stdlib Require Import ZArith Lia.
Local Open Scope Z_scope.
Local Open Scope ugds_scope.

(** ** If it returns

    Rules to follow a run that is known to have ended. *)
Definition post {A} (m : M lib A) (Q : A -> lib -> Prop) (s : lib) : Prop := forall a s', m s = Some (a, s') -> Q a s'.

Lemma post_ret {A} (a : A) Q s : Q a s -> post (mret a) Q s.
Proof. by intros HQ b s' [= <- <-]. Qed.

Lemma post_bind {A B} (m : M lib A) (f : A -> M lib B) Q s : post m (fun a => post (f a) Q) s -> post (m ≫= f) Q s.
Proof.
  intros Hm b s'. unfold mbind, M_bind. destruct (m s) as [[a s1]|] eqn:Em; [|done]. intros Ef. by apply (Hm a s1 Em).
Qed.

Lemma post_then {A B} (m : M lib A) (f : A -> M lib B) Q s : (forall a s, post (f a) Q s) -> post (m ≫= f) Q s.
Proof. intros Hf. apply post_bind. intros a s' _. apply Hf. Qed.

Lemma post_undefined {A} (Q : A -> lib -> Prop) s : post undefined Q s.
Proof. by intros a s'. Qed.

Lemma post_gets {A} (f : lib -> A) Q s : Q (f s) s -> post (gets f) Q s.
Proof. by intros HQ b s' [= <- <-]. Qed.

Lemma post_modify f Q s : Q tt (f s) -> post (modify f) Q s.
Proof. by intros HQ b s' [= <- <-]. Qed.

Lemma post_of_option {A} (o : option A) Q s : (forall a, o = Some a -> Q a s) -> post (of_option o) Q s.
Proof. destruct o as [a|]; intros HQ; [by apply post_ret, HQ|apply post_undefined]. Qed.

Lemma post_store a o Q s : Q tt (set_heap s (<[a := o]> (l_heap s))) -> post (store a o) Q s.
Proof. apply (post_modify (fun s => set_heap s (<[a := o]> (l_heap s)))). Qed.

Lemma post_deref {V} (proj : obj -> option V) a Q s :
  (forall v, l_heap s !! a ≫= proj = Some v -> Q v s) -> post (deref proj a) Q s.
Proof. intros HQ. apply post_bind. intros x s' [= <- <-]. by apply post_of_option. Qed.

(** Storing keeps the other objects, freeing too. *)
Lemma post_free a Q s :
  (forall s', l_calls s' = l_calls s -> l_next s' = l_next s -> (forall b, b <> a -> l_heap s' !! b = l_heap s !! b) -> Q tt s') ->
  post (free a) Q s.
Proof.
  intros HQ. unfold free. case_decide; [by apply post_ret, HQ|]. apply post_bind. intros x s' [= <- <-].
  destruct (l_heap s !! a) as [[]|]; try apply post_undefined;
    (intros u s'' [= <- <-]; apply HQ; [done|done|intros b Hb; simpl; by apply lookup_delete_ne]).
Qed.

Section run.
Context `{Env}.

Lemma post_sys_call Q s : Q (sys (l_calls s)) (mk_lib (S (l_calls s)) (l_next s) (l_heap s) (l_kmaps s)) -> post sys_call Q s.
Proof. by intros HQ b s' [= <- <-]. Qed.

Lemma post_malloc Q s :
  (sys (l_calls s) = 0 -> Q (l_next s) (mk_lib (S (l_calls s)) (l_next s + 1) (<[l_next s := ORaw]> (l_heap s)) (l_kmaps s))) ->
  (forall s', Q NULL s') -> post malloc Q s.
Proof.
  intros HQ Hn. apply post_bind, post_sys_call. case_decide as He; [|by apply post_ret].
  intros b s' [= <- <-]. by apply HQ.
Qed.

(** ** The ioctl *)

(** The range of a mapping descriptor and the answer to call number [n]. *)
Definition answered_by (n : nat) (h : nvm_dma_t) (cap : Z) (va : va_range) (ctrl : nvm_ctrl_t) (d : nvm_dma_t) : Prop :=
  sys n = 0 /\ populate_handle h cap va ctrl (io_addr n <$> seqZ 0 (va_n_pages va)) = Some d.

Lemma post_ioctl_map dev va m Q s :
  l_heap s !! va = Some (OVa (VA_IOCTL m)) ->
  (sys (l_calls s) = 0 -> forall s', l_heap s' = l_heap s -> l_next s' = l_next s -> l_calls s' = S (l_calls s) ->
     Q (0, io_addr (l_calls s) <$> seqZ 0 (va_n_pages (md_range m))) s') ->
  (forall e s', e <> 0 -> Q (e, []) s') -> post (ioctl_map dev va) Q s.
Proof.
  intros Hva HQ He. apply post_bind, post_deref. intros o Ho. rewrite Hva in Ho. injection Ho as <-.
  destruct (match md_type m with MAP_TYPE_DMABUF => _ | _ => _ end); [|by apply post_ret, He].
  apply post_bind, post_deref. intros fd _. apply post_bind, post_gets, post_bind, post_sys_call.
  case_decide as Hs; [by apply post_ret, He|]. apply post_bind, post_modify, post_ret. by apply HQ.
Qed.

(** [dma_map] on a container whose mapping and range are known. *)
Lemma post_dma_map container k md ct m Q s :
  l_heap s !! container = Some (OCont k) -> l_heap s !! k_map k = Some (OMapping md) ->
  l_heap s !! m_ctrl md = Some (OCtrl ct) -> l_heap s !! m_va md = Some (OVa (VA_IOCTL m)) ->
  m_va md <> l_next s -> container <> l_next s ->
  (forall d s', answered_by (S (l_calls s)) (k_handle k) (k_cap k) (md_range m) (c_handle ct) d ->
     l_heap s' !! container = Some (OCont (mk_cont (k_map k) (k_cap k) d)) -> Q 0 s') ->
  (forall e s', e <> 0 -> Q e s') -> post (dma_map container) Q s.
Proof.
  intros Hk Hmd Hct Hva Hn1 Hn2 HQ He. apply post_bind, post_deref. intros k' Ek. rewrite Hk in Ek. injection Ek as <-.
  apply post_bind, post_deref. intros md' Em. rewrite Hmd in Em. injection Em as <-.
  apply post_bind, post_deref. intros ct' Ec. rewrite Hct in Ec. injection Ec as <-.
  destruct (c_ops ct); [by apply post_ret, He|].
  apply post_bind, post_deref. intros o Eo. rewrite Hva in Eo. injection Eo as <-.
  apply post_bind, post_malloc; [|intros s'; case_decide; [by apply post_ret, He|done]]. intros _.
  case_decide as Hnull; [by apply post_ret, He|].
  apply post_bind. apply (post_ioctl_map _ _ m); [simpl; by rewrite lookup_insert_ne| |].
  - intros Hs s1 Hh1 Hne1 Hc1. cbn [fst snd]. rewrite decide_False by tauto.
    apply post_bind, post_store, post_bind, post_of_option. intros d Hd. apply post_bind, post_store, post_bind, post_free.
    intros s2 _ _ Hh2. apply post_ret, (HQ d); [done|]. rewrite Hh2 by done. simpl. apply lookup_insert_eq.
  - intros e s1 Hne. cbn [fst]. rewrite decide_True by done. apply post_then. intros _ s2. by apply post_ret, He.
Qed.

(** ** The whole call *)

(** A call that maps [va] for the controller [c] either fails or returns a handle made from the
    answer to call number [n]. *)
Definition mapping_result (n : nat) (va : va_range) (c : nvm_ctrl_t) (r : Z * Z) (s : lib) : Prop :=
  fst r <> 0 \/
  fst r = 0 /\ exists map cap d, l_heap s !! snd r = Some (OCont (mk_cont map cap d)) /\
    cap = n_ctrl_pages c (va_page_size va) (va_n_pages va) /\
    answered_by n (mk_dma NULL (negb (va_remote va)) true 0 0 []) cap va c d.

Lemma post_create_map ctrl va rel ct Q s :
  l_heap s !! ctrl = Some (OCtrl ct) -> ctrl < l_next s ->
  (forall s', let md := l_next s in l_calls s' = S (S (l_calls s)) -> l_next s' = md + 1 ->
     l_heap s' !! md = Some (OMapping (mk_map 1 ctrl va rel false)) ->
     (exists n, l_heap s' !! ctrl = Some (OCtrl (c_set_count ct n))) ->
     (forall a, a <> md -> a <> ctrl -> l_heap s' !! a = l_heap s !! a) -> Q (0, md) s') ->
  (forall e s', e <> 0 -> Q (e, NULL) s') -> post (create_map ctrl va rel) Q s.
Proof.
  intros Hct Hlt HQ He. unfold create_map, _nvm_ctrl_get. case_decide as Hc0; apply post_bind; [|by apply post_ret, post_ret, He].
  apply post_bind, post_deref. intros c' Ec. rewrite Hct in Ec. injection Ec as <-.
  apply post_bind, post_ret. rewrite decide_False by tauto. apply post_bind, post_store, post_ret. rewrite decide_False by done.
  apply post_bind, post_malloc; [|intros s'; case_decide; [apply post_then; intros; by apply post_ret, He|done]].
  intros _. case_decide as Hm; [apply post_then; intros; by apply post_ret, He|]. simpl.
  apply post_bind, post_sys_call. case_decide as Hi; [do 2 (apply post_then; intros); by apply post_ret, He|].
  apply post_bind, post_store, post_ret, HQ; simpl; try done.
  - apply lookup_insert_eq.
  - eexists. rewrite !lookup_insert_ne, lookup_insert_eq by lia. done.
  - intros a Ha Hb. by rewrite !lookup_insert_ne.
Qed.

Lemma post_create_container md map ct m Q s :
  l_heap s !! md = Some (OMapping map) -> l_heap s !! m_ctrl map = Some (OCtrl ct) ->
  l_heap s !! m_va map = Some (OVa (VA_IOCTL m)) ->
  (forall s', let va := md_range m in let k := l_next s in
     l_calls s' = S (l_calls s) -> l_next s' = k + 1 ->
     l_heap s' !! k = Some (OCont (mk_cont md (n_ctrl_pages (c_handle ct) (va_page_size va) (va_n_pages va))
       (mk_dma NULL (negb (va_remote va)) true 0 0 []))) ->
     (forall a, a <> k -> l_heap s' !! a = l_heap s !! a) -> Q (0, k) s') ->
  (forall e s', e <> 0 -> Q (e, NULL) s') -> post (create_container md) Q s.
Proof.
  intros Hm Hct Hva HQ He. apply post_bind, post_deref. intros x Ex. rewrite Hm in Ex. injection Ex as <-.
  apply post_bind, post_deref. intros x Ex. rewrite Hct in Ex. injection Ex as <-.
  apply post_bind, post_deref. intros x Ex. rewrite Hva in Ex. injection Ex as <-. cbn [va_of].
  case_decide; [apply post_undefined|]. case_decide; [by apply post_ret, He|].
  apply post_bind, post_malloc; [|intros s'; case_decide; [by apply post_ret, He|done]].
  intros _. case_decide; [by apply post_ret, He|]. apply post_bind, post_store, post_ret, HQ; simpl; try done.
  - apply lookup_insert_eq.
  - intros a Ha. by rewrite !lookup_insert_ne.
Qed.

Lemma post_dma_init ctrl va m rel ct s :
  l_heap s !! ctrl = Some (OCtrl ct) -> l_heap s !! va = Some (OVa (VA_IOCTL m)) -> ctrl < l_next s -> va < l_next s ->
  post (_nvm_dma_init ctrl va rel) (mapping_result (4 + l_calls s) (md_range m) (c_handle ct)) s.
Proof.
  intros Hct Hva Hlt Hlv. apply post_bind, (post_create_map _ _ _ ct); [done|done| |].
  2: { intros e s' Hne. cbn [fst]. rewrite decide_True by done. apply post_ret. by left. }
  intros s1 md Hc1 Hn1 Hm1 [n Hct1] Hh1. cbn [fst snd]. rewrite decide_False by tauto.
  assert (Hva1 : l_heap s1 !! va = Some (OVa (VA_IOCTL m))).
  { rewrite Hh1; [done|unfold md; lia|]. intros ->. by rewrite Hct in Hva. }
  apply post_bind, (post_create_container _ _ _ m _ _ Hm1 Hct1 Hva1).
  2: { intros e s' Hne. cbn [fst]. rewrite decide_True by done. apply post_then. intros _ s2. apply post_ret. by left. }
  intros s2 va2 k Hc2 Hn2 Hk2 Hh2. cbn [fst snd]. rewrite decide_False by tauto. subst md k.
  apply post_bind. eapply post_dma_map; [exact Hk2| | | | | | |]; cbn [k_map k_cap k_handle].
  - rewrite Hh2 by lia. exact Hm1.
  - cbn [m_ctrl]. rewrite Hh2 by lia. exact Hct1.
  - cbn [m_va]. rewrite Hh2 by lia. exact Hva1.
  - cbn [m_va]. lia.
  - lia.
  - intros d s3 Hd Hk3. rewrite decide_False by tauto. apply post_ret. right. split; [done|].
    eexists _, _, d. split; [exact Hk3|]. split; [done|]. rewrite Hc2, Hc1 in Hd. exact Hd.
  - intros e s3 Hne. rewrite decide_True by done. do 2 (apply post_then; intros). apply post_ret. by left.
Qed.

(** The descriptor [create_mapping_descriptor] makes. *)
Definition range_of (vaddr size page_size : Z) : va_range := mk_va false vaddr page_size (NVM_PAGE_ALIGN size page_size / page_size).
Definition md_of (type : mapping_type) (vaddr size page_size : Z) (fd off : Z) : ioctl_mapping :=
  mk_md type vaddr (range_of vaddr size page_size) fd off.

Lemma post_create_md ps type buffer size Q s :
  (forall s', let md := l_next s in l_calls s' = S (l_calls s) -> l_next s' = md + 1 ->
     l_heap s' !! md = Some (OVa (VA_IOCTL (md_of type buffer size ps 0 0))) ->
     (forall a, a <> md -> l_heap s' !! a = l_heap s !! a) -> Q (0, md) s') ->
  (forall e s', e <> 0 -> Q (e, NULL) s') -> post (create_mapping_descriptor ps type buffer size) Q s.
Proof.
  intros HQ He. unfold create_mapping_descriptor. case_decide; [apply post_undefined|].
  case_decide; [by apply post_ret, He|].
  apply post_bind, post_malloc; [|intros s'; case_decide; [by apply post_ret, He|done]].
  intros _. case_decide; [by apply post_ret, He|]. apply post_bind, post_store, post_ret, HQ; simpl; try done.
  - apply lookup_insert_eq.
  - intros a Ha. by rewrite !lookup_insert_ne.
Qed.

(** [nvm_dma_map_host] that returns has failed, or its handle is made from the answer to the fifth
    call it makes, which asks to map the range rounded up to controller pages. *)
Lemma map_host_run ctrl vaddr size ct s :
  l_heap s !! ctrl = Some (OCtrl ct) -> ctrl < l_next s ->
  post (nvm_dma_map_host ctrl vaddr size)
    (mapping_result (5 + l_calls s)
       (range_of vaddr (NVM_CTRL_ALIGN (c_handle ct) size) (ctrl_page_size (c_handle ct))) (c_handle ct)) s.
Proof.
  intros Hct Hlt. apply post_bind, post_deref. intros x Ex. rewrite Hct in Ex. injection Ex as <-. cbv zeta.
  case_decide; [apply post_ret; by left|]. case_decide; [apply post_ret; by left|].
  apply post_bind, post_create_md; [|intros e s' Hne; cbn [fst]; rewrite decide_True by done; apply post_ret; by left].
  intros s1 md Hc1 Hn1 Hm1 Hh1. cbn [fst snd]. rewrite decide_False by tauto. subst md.
  apply post_bind. intros r s2 Hr. eapply (post_dma_init ctrl) in Hr; [|rewrite Hh1 by lia; exact Hct|exact Hm1|lia|lia].
  rewrite Hc1 in Hr. case_decide as He; [apply post_then; intros; apply post_ret; by left|]. apply post_ret. exact Hr.
Qed.

Lemma map_cuda_run hip ctrl devptr size ct s :
  l_heap s !! ctrl = Some (OCtrl ct) -> ctrl < l_next s -> backend = BACKEND_CUDA ->
  post (nvm_dma_map_device hip ctrl devptr size)
    (mapping_result (5 + l_calls s) (range_of devptr size (2 ^ 16)) (c_handle ct)) s.
Proof.
  intros Hct Hlt Hb. apply post_bind, post_deref. intros x Ex. rewrite Hct in Ex. injection Ex as <-.
  case_decide; [apply post_ret; by left|]. rewrite Hb.
  apply post_bind, post_create_md; [|intros e s' Hne; cbn [fst]; rewrite decide_True by done; apply post_ret; by left].
  intros s1 md Hc1 Hn1 Hm1 Hh1. cbn [fst snd]. rewrite decide_False by tauto. subst md.
  apply post_bind. intros r s2 Hr. eapply (post_dma_init ctrl) in Hr; [|rewrite Hh1 by lia; exact Hct|exact Hm1|lia|lia].
  rewrite Hc1 in Hr. case_decide as He; [apply post_then; intros; apply post_ret; by left|]. apply post_ret. exact Hr.
Qed.

Lemma post_close_fd a Q s :
  (forall s', (forall b o, l_heap s !! b = Some o -> o <> OFd -> l_heap s' !! b = Some o) -> Q tt s') ->
  post (close_dmabuf a) Q s.
Proof.
  intros HQ. apply post_modify, HQ. intros b o Hb Ho. destruct (l_heap s !! a) as [[]|] eqn:Ha; try done. simpl.
  rewrite lookup_delete_ne; [done|]. intros ->. congruence.
Qed.

(** So for GPU memory that the HIP runtime exports as a dma-buf. *)
Lemma map_hip_run hip ctrl devptr size off ct s :
  l_heap s !! ctrl = Some (OCtrl ct) -> ctrl < l_next s -> backend = BACKEND_HIP -> hip_export hip = Some off ->
  post (nvm_dma_map_device hip ctrl devptr size)
    (mapping_result (5 + l_calls s) (range_of devptr size hip_page_size) (c_handle ct)) s.
Proof.
  intros Hct Hlt Hb He. apply post_bind, post_deref. intros x Ex. rewrite Hct in Ex. injection Ex as <-.
  case_decide; [apply post_ret; by left|]. rewrite Hb. unfold map_device_hip. destruct (hip_checks hip devptr size) as [err sz].
  case_decide; [apply post_ret; by left|]. destruct (hip_have_v2 hip); [|apply post_ret; by left]. rewrite He.
  apply post_bind. intros fd s0 [= <- <-]. case_decide; [apply post_then; intros; apply post_ret; by left|].
  apply post_bind, post_create_md; [|intros e s' Hne; cbn [fst]; rewrite decide_True by done; apply post_then; intros; apply post_ret; by left].
  intros s1 md Hc1 Hn1 Hm1 Hh1. cbn [fst snd l_next l_calls l_heap] in *. rewrite decide_False by tauto. subst md.
  apply post_bind, post_deref. intros o Eo. rewrite Hm1 in Eo. injection Eo as <-. apply post_bind, post_store, post_bind.
  intros r s2 Hr. eapply (post_dma_init ctrl) in Hr; [| |simpl; apply lookup_insert_eq|simpl; lia|simpl; lia].
  2: { simpl. rewrite lookup_insert_ne by lia. rewrite Hh1 by lia. rewrite lookup_insert_ne by lia. exact Hct. }
  simpl in Hr. rewrite Hc1 in Hr. case_decide as Hz; [do 2 (apply post_then; intros); apply post_ret; by left|].
  apply post_bind, post_close_fd. intros s3 Hh3. apply post_ret. destruct Hr as [Hr|(_ & map & cap & d & Hk & Hd)]; [by left|].
  right. split; [tauto|]. exists map, cap, d. split; [|done]. by apply Hh3.
Qed.

(** ** Byte for byte *)

(** The handle covers the range, and every byte in the pages [addrs] that the kernel reported has
    its bus address in them. *)
Lemma mapping_bytes n va c h s addrs :
  let hps := ctrl_page_size c in
  let ps := va_page_size va in
  mapping_result n va c (0, h) s ->
  0 < hps -> 0 < ps -> (hps | ps) -> 0 <= va_n_pages va -> ps * va_n_pages va < 2 ^ 64 ->
  (forall i a, addrs !! i = Some a -> io_addr n (Z.of_nat i) = a /\ 0 <= a /\ a + ps <= 2 ^ 64) ->
  Z.of_nat (length addrs) <= va_n_pages va ->
  exists k, l_heap s !! h = Some (OCont k) /\
    dma_page_size (k_handle k) = hps /\ dma_vaddr (k_handle k) = va_vaddr va /\
    dma_n_ioaddrs (k_handle k) * hps = ps * va_n_pages va /\
    forall b, 0 <= b < ps * Z.of_nat (length addrs) ->
      bus_addr hps (dma_ioaddrs (k_handle k)) b = bus_addr ps addrs b.
Proof.
  intros hps ps [Hr|(_ & map & cap & d & Hk & -> & _ & Hd)] Hh Hp Hdiv Hn H64 Ha Hl; [done|].
  set (l := io_addr n <$> seqZ 0 (va_n_pages va)) in *.
  assert (Hlen : va_n_pages va = Z.of_nat (length l)) by (unfold l; rewrite length_fmap, length_seqZ; lia).
  destruct (populate_handle_pages (mk_dma NULL (negb (va_remote va)) true 0 0 [])
    (n_ctrl_pages c (va_page_size va) (va_n_pages va)) va c l) as (ct & N & as' & E & HN & Hcov & Hnth & _); try done.
  rewrite E in Hd. injection Hd as <-. fold hps ps in Hcov, Hnth. eexists. split; [exact Hk|]. simpl. split_and!; try done.
  intros b Hb. assert (Hbp : 0 <= b / ps < Z.of_nat (length addrs)).
  { split; [apply Z.div_pos; lia|]. apply Z.div_lt_upper_bound; lia. }
  destruct (lookup_lt_is_Some_2 addrs (Z.to_nat (b / ps))) as [a Hla]; [lia|].
  destruct (Ha _ _ Hla) as (Hio & Ha0 & Ha1).
  assert (Hll : l !! Z.to_nat (b / ps) = Some a).
  { unfold l. rewrite list_lookup_fmap, lookup_seqZ_lt by lia. rewrite <- Hio. simpl. do 2 f_equal. }
  trans (bus_addr ps l b); [|unfold bus_addr; by rewrite !nth_lookup, Hll, Hla].
  rewrite <- (page_addr_bytes hps ps l b); [|done|done|done|nia| |lia].
  - unfold bus_addr. rewrite Hnth; [done|]. split; [apply Z.div_pos; lia|]. apply Z.div_lt_upper_bound; nia.
  - intros a' Ea. rewrite Hll in Ea. by injection Ea as <-.
Qed.
End run.
