(* ===== verification/Abi.v ===== *)
(** * The interface between libnvm and the kernel module

    The library (src/libnvm/internal/ioctl.h) and the module (drv/ioctl.h) have a header each with
    the structs and numbers of the ioctls.  Here are the library's, the bytes of the structs, the
    requests src/libnvm/linux_device.cpp makes, and the proof that the module reads from them what
    the library wrote. *)
From stdpp Require Import prelude gmap list.
From Stdlib Require Import ZArith Lia.
From S2P Require Import Prelude NvmTypes NvmUtil LibState DrvState DrvPci.
Local Open Scope Z_scope.

(** ** Structs in memory: little endian, each member at its natural alignment *)

Definition le_bytes (w : nat) (z : Z) : list Z := Z_to_little_endian (Z.of_nat w) 8 z.
Definition le_val (l : list Z) : Z := little_endian_to_Z 8 l.

Definition encode (ws : list nat) (vs : list Z) : list Z := mjoin (zip_with le_bytes ws vs).
Fixpoint decode (ws : list nat) (l : list Z) : list Z :=
  match ws with [] => [] | w :: ws => le_val (take w l) :: decode ws (drop w l) end.

Lemma length_le_bytes w z : length (le_bytes w z) = w.
Proof. unfold le_bytes. pose proof (length_Z_to_little_endian (Z.of_nat w) 8 z). lia. Qed.

Lemma le_val_bytes w z : 0 <= z < 2 ^ (8 * Z.of_nat w) -> le_val (le_bytes w z) = z.
Proof.
  intros Hz. unfold le_val, le_bytes. rewrite little_endian_to_Z_to_little_endian by lia.
  rewrite Z.mul_comm. by apply Z.mod_small.
Qed.

Lemma decode_encode ws vs :
  Forall2 (fun w v => 0 <= v < 2 ^ (8 * Z.of_nat w)) ws vs -> decode ws (encode ws vs) = vs.
Proof.
  unfold encode. induction 1 as [|w v ws vs Hv _ IH]; simpl; [done|].
  rewrite take_app_length', drop_app_length' by (by rewrite length_le_bytes). by rewrite le_val_bytes, IH.
Qed.

Lemma length_encode ws vs : length ws = length vs -> length (encode ws vs) = sum_list ws.
Proof.
  unfold encode. revert vs. induction ws as [|w ws IH]; intros [|v vs] Hl; simpl; try done.
  rewrite length_app, length_le_bytes, IH; [done|]. simpl in Hl. lia.
Qed.

(** ** The library's header *)

Module LibIoctl.
Definition NVM_IOCTL_TYPE : Z := 0x80.

Record nvm_ioctl_map := mk_map { vaddr_start : Z; n_pages : Z; ioaddrs : Z }.

(** [dmabuf_fd] is signed; the others, and [__pad], are unsigned. *)
Record nvm_ioctl_dmabuf := mk_dmabuf {
  gpu_ptr : Z; dmabuf_fd : Z; __pad : Z; dmabuf_offset : Z; size : Z; ioaddrs_capacity : Z; dmabuf_ioaddrs : Z }.

Definition map_layout : list nat := [8; 8; 8]%nat.
Definition dmabuf_layout : list nat := [8; 4; 4; 8; 8; 8; 8]%nat.
Definition sizeof (ws : list nat) : Z := Z.of_nat (sum_list ws).

Definition NVM_MAP_HOST_MEMORY : Z := _IOC 1 NVM_IOCTL_TYPE 1 (sizeof map_layout).
Definition NVM_MAP_DEVICE_MEMORY : Z := _IOC 1 NVM_IOCTL_TYPE 2 (sizeof map_layout).
Definition NVM_UNMAP_MEMORY : Z := _IOC 1 NVM_IOCTL_TYPE 3 8.
Definition NVM_MAP_DMABUF_MEMORY : Z := _IOC 3 NVM_IOCTL_TYPE 4 (sizeof dmabuf_layout).

Definition map_bytes (r : nvm_ioctl_map) : list Z := encode map_layout [vaddr_start r; n_pages r; ioaddrs r].
Definition dmabuf_bytes (r : nvm_ioctl_dmabuf) : list Z :=
  encode dmabuf_layout
    [gpu_ptr r; u32 (dmabuf_fd r); __pad r; dmabuf_offset r; size r; ioaddrs_capacity r; dmabuf_ioaddrs r].
End LibIoctl.

(** ** What the library asks for (linux_device.cpp) *)

Section requests.
Context `{Env}.

(** [ioctl_map]: the command and the bytes behind the pointer, or [None] for EINVAL. *)
Definition map_request (m : ioctl_mapping) (ioaddrs : Z) : option (Z * list Z) :=
  let va := md_range m in
  let simple := LibIoctl.map_bytes (LibIoctl.mk_map (md_buffer m) (va_n_pages va) ioaddrs) in
  match md_type m with
  | MAP_TYPE_API | MAP_TYPE_HOST => Some (LibIoctl.NVM_MAP_HOST_MEMORY, simple)
  | MAP_TYPE_CUDA => Some (LibIoctl.NVM_MAP_DEVICE_MEMORY, simple)
  | MAP_TYPE_DMABUF =>
      if decide (backend = BACKEND_HIP) then
        Some (LibIoctl.NVM_MAP_DMABUF_MEMORY,
          LibIoctl.dmabuf_bytes (LibIoctl.mk_dmabuf (md_buffer m) (md_dmabuf_fd m) 0 (md_dmabuf_offset m)
            (u64 (va_page_size va * va_n_pages va)) (va_n_pages va) ioaddrs))
      else None
  end.

(** [ioctl_unmap]. *)
Definition unmap_request (m : ioctl_mapping) : Z * list Z := (LibIoctl.NVM_UNMAP_MEMORY, le_bytes 8 (md_buffer m)).
End requests.

(** ** What the module reads: [copy_from_user] into its own structs *)

Definition read_map (l : list Z) : option nvm_ioctl_map :=
  match decode [8; 8; 8]%nat l with [a; n; p] => Some (mk_request a n p) | _ => None end.
Definition read_dmabuf (l : list Z) : option nvm_ioctl_dmabuf :=
  match decode [8; 4; 4; 8; 8; 8; 8]%nat l with
  | [p; fd; _; off; size; cap; io] => Some (mk_dreq p (s32 fd) off size cap io)
  | _ => None
  end.
Definition read_addr (l : list Z) : option Z := Some (le_val (take 8 l)).

Lemma read_map_bytes a n p :
  fits 64 a -> fits 64 n -> fits 64 p ->
  read_map (LibIoctl.map_bytes (LibIoctl.mk_map a n p)) = Some (mk_request a n p).
Proof.
  intros Ha Hn Hp. unfold read_map, LibIoctl.map_bytes, LibIoctl.map_layout. rewrite decode_encode; [done|].
  repeat constructor; simpl; unfold fits in *; lia.
Qed.

Lemma s32_u32 z : - 2 ^ 31 <= z < 2 ^ 31 -> s32 (u32 z) = z.
Proof. intros Hz. unfold s32, wrap. rewrite Zplus_mod_idemp_l, Z.mod_small; lia. Qed.

Lemma read_dmabuf_bytes p fd off size cap io :
  fits 64 p -> - 2 ^ 31 <= fd < 2 ^ 31 -> fits 64 off -> fits 64 size -> fits 64 cap -> fits 64 io ->
  read_dmabuf (LibIoctl.dmabuf_bytes (LibIoctl.mk_dmabuf p fd 0 off size cap io)) =
    Some (mk_dreq p fd off size cap io).
Proof.
  intros. unfold read_dmabuf, LibIoctl.dmabuf_bytes, LibIoctl.dmabuf_layout. rewrite decode_encode.
  - by rewrite s32_u32.
  - repeat constructor; simpl; unfold fits in *; try lia; apply wrap_range; lia.
Qed.

(** The request of a mapping, as the module understands it. *)
Record understood `{Env} (m : ioctl_mapping) (ioaddrs : Z) (cmd : Z) (l : list Z) : Prop := {
  un_map : md_type m <> MAP_TYPE_DMABUF ->
    cmd = (if decide (md_type m = MAP_TYPE_CUDA) then NVM_MAP_DEVICE_MEMORY else NVM_MAP_HOST_MEMORY) /\
    read_map l = Some (mk_request (md_buffer m) (va_n_pages (md_range m)) ioaddrs);
  un_dmabuf : md_type m = MAP_TYPE_DMABUF ->
    cmd = NVM_MAP_DMABUF_MEMORY /\
    read_dmabuf l = Some (mk_dreq (md_buffer m) (md_dmabuf_fd m) (md_dmabuf_offset m)
      (u64 (va_page_size (md_range m) * va_n_pages (md_range m))) (va_n_pages (md_range m)) ioaddrs);
}.

(** The values of a mapping descriptor fit its members. *)
Definition md_fits (m : ioctl_mapping) : Prop :=
  fits 64 (md_buffer m) /\ fits 64 (va_n_pages (md_range m)) /\
  - 2 ^ 31 <= md_dmabuf_fd m < 2 ^ 31 /\ fits 64 (md_dmabuf_offset m).

Lemma map_request_understood `{Env} m ioaddrs cmd l :
  md_fits m -> fits 64 ioaddrs -> map_request m ioaddrs = Some (cmd, l) -> understood m ioaddrs cmd l.
Proof.
  intros (Hb & Hn & Hfd & Hoff) Hio. unfold map_request. destruct (md_type m) eqn:Ht; intros Hr; try case_decide; simplify_eq;
    constructor; rewrite Ht; try done; intros _; (split; [done|]); first [by apply read_map_bytes|apply read_dmabuf_bytes; try done].
  apply wrap_fits. lia.
Qed.

(** C19: library and module agree on the interface.  The numbers of the four ioctls are the same
    in both headers and different from each other, the sizes they carry are those of the structs,
    and for every mapping the module reads from the bytes of the library's request the number,
    the address, the pages, the descriptor and the array the library meant; so it does for
    unmapping. *)
Theorem ioctl_abi `{Env} m ioaddrs cmd l :
  md_fits m -> fits 64 ioaddrs -> map_request m ioaddrs = Some (cmd, l) ->
  understood m ioaddrs cmd l /\ Z.of_nat (length l) = Z.shiftr cmd 16 mod 2 ^ 14 /\
  (unmap_request m).1 = NVM_UNMAP_MEMORY /\ read_addr (unmap_request m).2 = Some (md_buffer m) /\
  NoDup [NVM_MAP_HOST_MEMORY; NVM_MAP_DEVICE_MEMORY; NVM_UNMAP_MEMORY; NVM_MAP_DMABUF_MEMORY].
Proof.
  intros Hm Hio Hr. split; [by apply map_request_understood|]. split.
  { unfold map_request in Hr. destruct (md_type m); try case_decide; simplify_eq;
      unfold LibIoctl.map_bytes, LibIoctl.dmabuf_bytes; by rewrite length_encode. }
  split; [done|]. split.
  { unfold read_addr, unmap_request. cbn [snd]. rewrite take_ge by (by rewrite length_le_bytes). rewrite le_val_bytes; [done|].
    apply Hm. }
  apply (bool_decide_unpack _). by vm_compute.
Qed.
