(* ===== verification/Stack.v ===== *)
(** * From a buffer to the bus

    Library and module together: the library's mapping call in LinuxDma.v, the request it makes in
    Abi.v and the module's handler in DrvPci.v.  The theorems follow a byte of a buffer through
    the handle of the library to the page the module pinned or to the dma-buf of the GPU. *)
From stdpp Require Import prelude gmap list.
From Stdlib Require Import ZArith Lia.
From S2P Require Import Prelude NvmTypes NvmUtil LibState Ctrl Dma LinuxDma DmaSpec LinuxDmaRun.
From S2P Require Import DrvSg DrvState DrvMap DrvPci DrvProofs DrvLife DrvSpec DrvCases Abi.
Local Open Scope Z_scope.

(** ** A system call of the library served by the module *)

Section link.
Context `{Env} `{Kernel}.

(** The library's call number [n] is an ioctl with the request [req]; the module in state [c] serves
    it.  The module's copy_from_user reads the bytes of the request, the library sees the negated
    result as errno, and it reads from its array at [p] what the module wrote there. *)
Definition served (n : nat) (req : option (Z * list Z)) (np p : Z) (c c' : machine) : Prop :=
  exists cmd bytes current i_cdev arg r,
    req = Some (cmd, bytes) /\
    do_event (Ioctl current i_cdev cmd arg) c = Some (r, c') /\ sys n = - r /\
    (cmd <> NVM_MAP_DMABUF_MEMORY -> forall k x, user_map k arg = Some x -> read_map bytes = Some x) /\
    (cmd = NVM_MAP_DMABUF_MEMORY -> forall k x, user_dmabuf k arg = Some x -> read_dmabuf bytes = Some x) /\
    (forall i a, 0 <= i < np -> v_user (d_vars (mc_drv c')) !! (p + 8 * i) = Some a -> io_addr n i = a).

(** The requests of [nvm_dma_map_host] and, for HIP, [nvm_dma_map_device]. *)
Definition host_request (c : nvm_ctrl_t) (vaddr size p : Z) : option (Z * list Z) :=
  map_request (md_of MAP_TYPE_HOST vaddr (NVM_CTRL_ALIGN c size) (ctrl_page_size c) 0 0) p.
Definition hip_request (devptr size fd off p : Z) : option (Z * list Z) :=
  map_request (md_of MAP_TYPE_DMABUF devptr size hip_page_size fd off) p.

Definition cuda_request (devptr size p : Z) : option (Z * list Z) :=
  map_request (md_of MAP_TYPE_CUDA devptr size (2 ^ 16) 0 0) p.

Lemma served_host n c vaddr size p np d d' :
  fits 64 vaddr -> fits 64 p ->
  fits 64 (NVM_PAGE_ALIGN (NVM_CTRL_ALIGN c size) (ctrl_page_size c) / ctrl_page_size c) ->
  served n (host_request c vaddr size p) np p d d' -> sys n = 0 ->
  exists current i_cdev arg,
    do_event (Ioctl current i_cdev NVM_MAP_HOST_MEMORY arg) d = Some (0, d') /\
    (forall k x, user_map k arg = Some x ->
       x = mk_request vaddr (NVM_PAGE_ALIGN (NVM_CTRL_ALIGN c size) (ctrl_page_size c) / ctrl_page_size c) p) /\
    (forall i a, 0 <= i < np -> v_user (d_vars (mc_drv d')) !! (p + 8 * i) = Some a -> io_addr n i = a).
Proof.
  intros Hv Hp Hn (cmd & l & current & i_cdev & arg & r & Hreq & He & Hs & Hum & _ & Hio) Hz.
  apply map_request_understood in Hreq as [Hu _]; [|by split_and!|done]. destruct (Hu ltac:(done)) as [-> Hrd]. simpl in He.
  exists current, i_cdev, arg. replace r with 0 in He by lia. split_and!; [done| |done].
  intros k x Hx. specialize (Hum ltac:(done) k x Hx). simpl in Hrd. congruence.
Qed.

Lemma served_cuda n devptr size p np d d' :
  fits 64 devptr -> fits 64 p -> fits 64 (NVM_PAGE_ALIGN size (2 ^ 16) / 2 ^ 16) ->
  served n (cuda_request devptr size p) np p d d' -> sys n = 0 ->
  exists current i_cdev arg,
    do_event (Ioctl current i_cdev NVM_MAP_DEVICE_MEMORY arg) d = Some (0, d') /\
    (forall k x, user_map k arg = Some x -> x = mk_request devptr (NVM_PAGE_ALIGN size (2 ^ 16) / 2 ^ 16) p) /\
    (forall i a, 0 <= i < np -> v_user (d_vars (mc_drv d')) !! (p + 8 * i) = Some a -> io_addr n i = a).
Proof.
  intros Hv Hp Hn (cmd & l & current & i_cdev & arg & r & Hreq & He & Hs & Hum & _ & Hio) Hz.
  apply map_request_understood in Hreq as [Hu _]; [|by split_and!|done]. destruct (Hu ltac:(done)) as [-> Hrd]. simpl in He.
  exists current, i_cdev, arg. replace r with 0 in He by lia. split_and!; [done| |done].
  intros k x Hx. specialize (Hum ltac:(done) k x Hx). simpl in Hrd. congruence.
Qed.

Lemma served_hip n devptr size fd off p np d d' :
  fits 64 devptr -> fits 64 p -> - 2 ^ 31 <= fd < 2 ^ 31 -> fits 64 off ->
  fits 64 (NVM_PAGE_ALIGN size hip_page_size / hip_page_size) ->
  served n (hip_request devptr size fd off p) np p d d' -> sys n = 0 ->
  exists current i_cdev arg,
    do_event (Ioctl current i_cdev NVM_MAP_DMABUF_MEMORY arg) d = Some (0, d') /\
    (forall k x, user_dmabuf k arg = Some x ->
       let n := NVM_PAGE_ALIGN size hip_page_size / hip_page_size in
       x = mk_dreq devptr fd off (u64 (hip_page_size * n)) n p) /\
    (forall i a, 0 <= i < np -> v_user (d_vars (mc_drv d')) !! (p + 8 * i) = Some a -> io_addr n i = a).
Proof.
  intros Hv Hp Hfd Hoff Hn (cmd & l & current & i_cdev & arg & r & Hreq & He & Hs & _ & Hum & Hio) Hz.
  apply map_request_understood in Hreq as [_ Hu]; [|by destruct Hfd; split_and!|done]. destruct (Hu ltac:(done)) as [-> Hrd].
  exists current, i_cdev, arg. replace r with 0 in He by lia. split_and!; [done| |done].
  intros k x Hx. specialize (Hum ltac:(done) k x Hx). rewrite Hrd in Hum. by injection Hum as <-.
Qed.
End link.

Section stack.
Context `{Env} `{KernelOk}.
Context `{!Benign}.

Lemma page_size_pow2 : is_pow2 PAGE_SIZE.
Proof. exists page_shift. pose proof ok_shift. split; [lia|done]. Qed.

(** The number of pages the library asks for. *)
Lemma aligned_pages size ps :
  is_pow2 ps -> 0 < ps -> 0 <= size -> size + 2 * ps <= 2 ^ 64 ->
  NVM_PAGE_ALIGN size ps / ps = cdiv size ps /\ NVM_PAGE_ALIGN (NVM_PAGE_ALIGN size ps) ps / ps = cdiv size ps /\
  0 <= cdiv size ps /\ size <= ps * cdiv size ps < size + ps.
Proof.
  intros Hp Hps Hs Hle. pose proof (cdiv_spec size ps Hps). assert (0 <= cdiv size ps) by nia.
  rewrite (page_align_val size) by (done || lia). rewrite (page_align_val (cdiv size ps * ps)) by (done || nia).
  rewrite cdiv_mul, Z.div_mul by lia. split_and!; [done|done|done|nia..].
Qed.

Lemma aligned_mask vaddr : fits 64 vaddr -> vaddr mod PAGE_SIZE = 0 -> Z.land vaddr PAGE_MASK = vaddr.
Proof.
  intros Hv Hm. unfold PAGE_MASK, PAGE_SIZE in *. pose proof ok_shift. rewrite land_page_mask by (done || lia). lia.
Qed.


(** A page of a scatter list lies inside the address space. *)
Lemma sg_page_fits sgl ps off a :
  Forall sg_ok sgl -> 0 <= off -> 0 < ps -> sg_page sgl ps off = Some a -> 0 <= a /\ a + ps <= 2 ^ 64.
Proof.
  intros Hok. revert off. induction Hok as [|sg sgl (Hl & Ha0 & Ha1) Hok IH]; intros off Ho Hps; cbn [sg_page]; [done|].
  case_decide; [case_decide; [|done]; intros [= <-]; lia|]. apply IH; lia.
Qed.

(** Every byte of a buffer made of the pages of a scatter list is the byte of the list. *)
Lemma sg_pages_bytes sgl ps off n addrs b :
  0 < ps -> sg_pages sgl ps off n = Some addrs -> 0 <= b < ps * Z.of_nat n ->
  sg_byte sgl (off + b) = Some (bus_addr ps addrs b).
Proof.
  intros Hps Hp Hb. pose proof (sg_pages_length _ _ _ _ _ Hp) as Hl.
  assert (0 <= b / ps < Z.of_nat n) by (split; [apply Z.div_pos; lia|apply Z.div_lt_upper_bound; lia]).
  destruct (lookup_lt_is_Some_2 addrs (Z.to_nat (b / ps))) as [a Ha]; [lia|].
  pose proof (sg_pages_lookup _ _ _ _ _ _ _ Hp Ha) as Hpage. rewrite Z2Nat.id in Hpage by lia.
  unfold bus_addr. rewrite nth_lookup, Ha. simpl. pose proof (Z.mod_pos_bound b ps Hps).
  rewrite <- (sg_page_byte _ ps _ _ (b mod ps) ltac:(lia) Hpage). f_equal. pose proof (Z.div_mod b ps). lia.
Qed.

Lemma gpu_aligned_mask vaddr : fits 64 vaddr -> vaddr mod GPU_PAGE_SIZE = 0 -> Z.land vaddr GPU_PAGE_MASK = vaddr.
Proof.
  intros Hv Hm. unfold GPU_PAGE_MASK, GPU_PAGE_SIZE, GPU_PAGE_SHIFT in *. rewrite land_page_mask by (done || lia). lia.
Qed.

(** A device buffer with CUDA: GPU memory at a GPU page boundary. *)
Lemma cuda_buffer_bytes u d d' hip ctrl ct devptr size p s s' h :
  let np := cdiv size GPU_PAGE_SIZE in
  let hps := ctrl_page_size (c_handle ct) in
  l_heap s !! ctrl = Some (OCtrl ct) -> ctrl < l_next s -> backend = BACKEND_CUDA -> build_hip = false ->
  0 < hps -> (hps | GPU_PAGE_SIZE) ->
  fits 64 devptr -> devptr mod GPU_PAGE_SIZE = 0 -> 0 < size -> size + 2 * GPU_PAGE_SIZE <= 2 ^ 64 -> fits 64 p ->
  (forall mp i a, p2p_addresses mp !! i = Some a -> 0 <= a /\ a + GPU_PAGE_SIZE <= 2 ^ 64) ->
  reach u d -> served (5 + l_calls s) (cuda_request devptr size p) np p d d' ->
  nvm_dma_map_device hip ctrl devptr size s = Some ((0, h), s') ->
  exists k table ms mp,
    l_heap s' !! h = Some (OCont k) /\ dma_vaddr (k_handle k) = devptr /\
    dma_page_size (k_handle k) = hps /\ size <= hps * dma_n_ioaddrs (k_handle k) /\
    length ms = length (mc_bound d) /\ head ms = Some mp /\
    (forall b, 0 <= b < size -> exists a, p2p_addresses mp !! Z.to_nat (b / GPU_PAGE_SIZE) = Some a /\
       bus_addr hps (dma_ioaddrs (k_handle k)) b = a + b mod GPU_PAGE_SIZE) /\
    d_res (mc_drv d') ≡ₚ gpu_res (mc_bound d) table ms ++ RP2pPages devptr table :: d_res (mc_drv d).
Proof.
  intros np hps Hct Hlt Hback Hhip Hh Hdiv Hv Hva Hs Hs64 Hp Haddr Hd Hserved Hrun.
  assert (Hg : GPU_PAGE_SIZE = 2 ^ 16) by done. pose proof (map_cuda_run hip ctrl devptr size ct s Hct Hlt Hback _ _ Hrun) as Hres.
  destruct (aligned_pages size GPU_PAGE_SIZE) as (Hnp & _ & Hnp0 & Hcov); [by exists 16|rewrite Hg; lia|lia|lia|]. fold np in Hnp, Hnp0, Hcov.
  assert (Hsys : sys (5 + l_calls s) = 0) by (by destruct Hres as [|(_ & map & cap & dd & _ & _ & Hz & _)]).
  rewrite Hg in Hnp. apply served_cuda in Hserved as (current & i_cdev & arg & He & Hreq & Hio); [|done|done| |done].
  2: { rewrite Hnp. unfold fits. rewrite Hg in *. nia. }
  unfold range_of in Hres. rewrite Hnp in Hreq. rewrite Hnp in Hres.
  destruct (map_device_spec u d current i_cdev arg d' Hd Hhip He) as (k & req & table & ms & mp & Hk & Hms & Hhd & Hlen & Huser & Hd').
  apply Hreq in Hk as ->. cbn [vaddr_start n_pages ioaddrs] in *.
  set (addrs := take (Z.to_nat np) (p2p_addresses mp)) in *.
  assert (length addrs = Z.to_nat np) as Hla by (unfold addrs; rewrite length_take; lia).
  destruct (mapping_bytes _ _ _ _ _ addrs Hres) as (c & Hc & Hcps & Hcv & Hcn & Hbytes);
    cbn [va_page_size va_n_pages]; rewrite <- ?Hg; try done || lia.
  - intros i a Ha. split.
    + apply Hio; [|by apply Huser]. apply lookup_lt_Some in Ha. lia.
    + unfold addrs in Ha. apply lookup_take_Some in Ha as [Ha _]. by eapply Haddr.
  - cbn [va_page_size va_n_pages va_vaddr] in *. rewrite <- Hg in *. fold hps in Hcn, Hbytes.
    exists c, table, ms, mp. split_and!; try done; [lia| |].
    + intros b Hb. assert (0 <= b / GPU_PAGE_SIZE < np).
      { split; [apply Z.div_pos; lia|]. apply Z.div_lt_upper_bound; [rewrite Hg; lia|]. lia. }
      destruct (lookup_lt_is_Some_2 addrs (Z.to_nat (b / GPU_PAGE_SIZE))) as [a Ha]; [lia|].
      exists a. pose proof Ha as Ha'. unfold addrs in Ha'. apply lookup_take_Some in Ha' as [Ha' _]. split; [done|].
      rewrite Hbytes by nia. unfold bus_addr. by rewrite nth_lookup, Ha.
    + rewrite Hd'. rewrite (gpu_aligned_mask devptr) by done. done.
Qed.

(** A device buffer, byte by byte. *)
Lemma gpu_buffer_bytes u d d' hip ctrl ct devptr size fd off p s s' h :
  let np := cdiv size PAGE_SIZE in
  let hps := ctrl_page_size (c_handle ct) in
  l_heap s !! ctrl = Some (OCtrl ct) -> ctrl < l_next s -> backend = BACKEND_HIP -> build_hip = true ->
  hip_export hip = Some off -> hip_page_size = PAGE_SIZE -> 0 < hps -> (hps | PAGE_SIZE) ->
  fits 64 devptr -> 0 < size -> size + 2 * PAGE_SIZE <= 2 ^ 64 -> fits 64 p -> fits 64 off -> - 2 ^ 31 <= fd < 2 ^ 31 ->
  reach u d -> served (5 + l_calls s) (hip_request devptr size fd off p) np p d d' ->
  nvm_dma_map_device hip ctrl devptr size s = Some ((0, h), s') ->
  exists k dr,
    l_heap s' !! h = Some (OCont k) /\ dma_vaddr (k_handle k) = devptr /\
    dma_page_size (k_handle k) = hps /\ size <= hps * dma_n_ioaddrs (k_handle k) /\
    (forall b, 0 <= b < size ->
       sg_byte (sgt_entries (dr_sgt dr)) (off + b) = Some (bus_addr hps (dma_ioaddrs (k_handle k)) b)) /\
    d_res (mc_drv d') ≡ₚ dmabuf_res dr ++ d_res (mc_drv d).
Proof.
  intros np hps Hct Hlt Hback Hhip Hexp Hpage Hh Hdiv Hv Hs Hs64 Hp Hoff Hfd Hd Hserved Hrun. pose proof page_size_pos as Hps.
  destruct (aligned_pages size PAGE_SIZE) as (Hnp & _ & Hnp0 & Hcov); [apply page_size_pow2|lia|lia|lia|]. fold np in Hnp, Hnp0, Hcov.
  pose proof (map_hip_run hip ctrl devptr size off ct s Hct Hlt Hback Hexp _ _ Hrun) as Hres.
  assert (Hsys : sys (5 + l_calls s) = 0) by (by destruct Hres as [|(_ & map & cap & dd & _ & _ & Hz & _)]).
  apply served_hip in Hserved as (current & i_cdev & arg & He & Hreq & Hio); [|done|done|done|done| |done].
  2: { rewrite Hpage, Hnp. unfold fits. nia. }
  unfold range_of in Hres. rewrite Hpage, Hnp in Hreq. rewrite Hpage, Hnp in Hres.
  destruct (map_dmabuf_spec u d current i_cdev arg d' Hd Hhip He) as (k & req & dr & addrs & Hk & _ & Hsg & Huser & Hd').
  apply Hreq in Hk as ->. cbn [dmabuf_size dmabuf_offset dmabuf_ioaddrs] in Hsg, Huser.
  rewrite wrap_small in Hsg by (unfold fits; lia). rewrite (Z.mul_comm PAGE_SIZE), Z.div_mul in Hsg by lia.
  pose proof (sg_pages_length _ _ _ _ _ Hsg) as Hlen.
  destruct (mapping_bytes _ _ _ _ _ addrs Hres) as (c & Hc & Hcps & Hcv & Hcn & Hbytes); cbn [va_page_size va_n_pages]; try done || lia.
  - intros i a Ha. pose proof (sg_pages_lookup _ _ _ _ _ _ _ Hsg Ha) as Hpg. split.
    + apply Hio; [|by apply Huser]. apply lookup_lt_Some in Ha. lia.
    + eapply sg_page_fits; [apply ok_sgt| | |exact Hpg]; unfold fits in Hoff; nia.
  - cbn [va_page_size va_n_pages va_vaddr] in *. fold hps in Hcn, Hbytes. exists c, dr. split_and!; try done; [lia|].
    intros b Hb. rewrite Hbytes by nia. eapply sg_pages_bytes; [lia|exact Hsg|nia].
Qed.

(** GPU memory mapped through library and module reaches the device as the memory it is.  When
    [nvm_dma_map_device] of the HIP build returns a handle and the module served its ioctl, the
    handle covers the buffer and every byte of it has, through the handle, the bus address of that
    byte of the exported dma-buf, counted from the offset the runtime reported; the module holds
    the buffer, the attachment, the pin and the table. *)
Theorem gpu_buffer_on_bus u d d' hip ctrl ct devptr size fd off p s s' h :
  let np := cdiv size PAGE_SIZE in
  let hps := ctrl_page_size (c_handle ct) in
  l_heap s !! ctrl = Some (OCtrl ct) -> ctrl < l_next s -> backend = BACKEND_HIP -> build_hip = true ->
  hip_export hip = Some off -> hip_page_size = PAGE_SIZE -> 0 < hps -> (hps | PAGE_SIZE) ->
  fits 64 devptr -> 0 < size -> size + 2 * PAGE_SIZE <= 2 ^ 64 -> fits 64 p -> fits 64 off -> - 2 ^ 31 <= fd < 2 ^ 31 ->
  reach u d -> served (5 + l_calls s) (hip_request devptr size fd off p) np p d d' ->
  nvm_dma_map_device hip ctrl devptr size s = Some ((0, h), s') ->
  exists k dr,
    l_heap s' !! h = Some (OCont k) /\ dma_vaddr (k_handle k) = devptr /\
    dma_page_size (k_handle k) = hps /\ size <= hps * dma_n_ioaddrs (k_handle k) /\
    (forall b, 0 <= b < size ->
       sg_byte (sgt_entries (dr_sgt dr)) (off + b) = Some (bus_addr hps (dma_ioaddrs (k_handle k)) b)) /\
    d_res (mc_drv d') ≡ₚ dmabuf_res dr ++ d_res (mc_drv d).
Proof. apply gpu_buffer_bytes. Qed.
End stack.

(** ** A process on a machine with two controllers *)

(** The operating system of a process whose array at [p] has the words [user]. *)
Definition process_env (user : gmap Z Z) (p : Z) : Env := {|
  sys _ := 0; mmap_ok _ := true; cap_reg _ := 0x3ff; sc_pagesize := 4096;
  io_addr _ i := default 0 (user !! (p + 8 * i)); backend := BACKEND_HIP;
  uninit := mk_queue 0 0 0 0 0 0 0 0 0 0 false 0 0 0 0 |}.

(** A process that has opened a controller, which has the address 4. *)
Definition opened (E : Env) : lib :=
  match @nvm_ctrl_init E 3 (mk_lib 0 1 ∅ ∅) with Some (_, s) => s | None => mk_lib 0 1 ∅ ∅ end.
Definition opened_ctrl (E : Env) : controller :=
  match l_heap (opened E) !! 4 with Some (OCtrl ct) => ct | _ => mk_controller 0 DEVICE_TYPE_UNKNOWN 0 OPS_NULL zero_ctrl end.
Definition next_state {A} (s : lib) (r : option (A * lib)) : lib := match r with Some (_, s') => s' | None => s end.
Definition next_machine (c : machine) (r : option (Z * machine)) : machine := match r with Some (_, c') => c' | None => c end.

(** A kernel where it maps 10000 bytes at a page boundary. *)
Definition aligned_choice : choice := mk_choice true (mk_request 0x7f0000001000 3 0x9000) true true 77 78 64.
Definition aligned_kernel : Kernel := demo_kernel aligned_choice.

#[local] Instance aligned_benign : @Benign aligned_kernel.
Proof. split; simpl; try done. by intros n arg r [= <-]. Qed.

Definition idle_machine : machine := default (mk_machine (drv_start ∅) []) (after aligned_kernel [Probe 7; Probe 8]).
Definition served_machine (cmd : Z) : machine := next_machine idle_machine (@do_event aligned_kernel (Ioctl 900 4 cmd 0) idle_machine).

(** The module of [aligned_kernel] serves the ioctl the library makes. *)
Lemma demo_served n E cmd bytes req np p :
  req = Some (cmd, bytes) -> @sys E n = 0 ->
  (forall i a, v_user (d_vars (mc_drv (served_machine cmd))) !! (p + 8 * i) = Some a -> @io_addr E n i = a) ->
  (match @do_event aligned_kernel (Ioctl 900 4 cmd 0) idle_machine with Some (r, _) => r | None => 1 end) = 0 ->
  (if decide (cmd = NVM_MAP_DMABUF_MEMORY) then read_dmabuf bytes = Some demo_dreq
   else read_map bytes = Some (ch_request aligned_choice)) ->
  @served E aligned_kernel n req np p idle_machine (served_machine cmd).
Proof.
  intros -> Hsys Hio Hr Hb. exists cmd, bytes, 900, 4, 0, 0. unfold served_machine in *.
  destruct (@do_event _ _ _) as [[r c']|]; [|done]. subst r. split_and!; try done.
  - intros Hc k x [= <-]. by rewrite decide_False in Hb.
  - intros Hc k x [= <-]. by rewrite decide_True in Hb.
  - intros i a _ Ha. by apply Hio.
Qed.

Lemma process_words user p n i a : user !! (p + 8 * i) = Some a -> @io_addr (process_env user p) n i = a.
Proof. intros Ha. simpl. by rewrite Ha. Qed.


(** The runtime exports the buffer of [demo_dreq] with the offset 4096. *)
Definition demo_hip : hip_info := mk_hip true (Some (0x7f0000000000, 0x10000)) true (Some 4096).

Lemma gpu_buffer_on_bus_witness :
  let d' := served_machine NVM_MAP_DMABUF_MEMORY in
  let E := process_env (v_user (d_vars (mc_drv d'))) 0x5000 in
  let s' := next_state (opened E) (@nvm_dma_map_device E demo_hip 4 0x7f0000000000 8000 (opened E)) in
  exists k dr,
    l_heap s' !! 8 = Some (OCont k) /\ dma_vaddr (k_handle k) = 0x7f0000000000 /\
    dma_page_size (k_handle k) = 4096 /\ 8000 <= 4096 * dma_n_ioaddrs (k_handle k) /\
    (forall b, 0 <= b < 8000 ->
       sg_byte (@sgt_entries aligned_kernel (dr_sgt dr)) (4096 + b) = Some (bus_addr 4096 (dma_ioaddrs (k_handle k)) b)) /\
    d_res (mc_drv d') ≡ₚ dmabuf_res dr ++ d_res (mc_drv idle_machine).
Proof.
  intros d' E s'.
  apply (@gpu_buffer_on_bus E aligned_kernel _ _ ∅ idle_machine d' demo_hip 4 (opened_ctrl E) 0x7f0000000000 8000 5 4096 0x5000 (opened E)).
  - vm_compute. reflexivity.
  - vm_compute. reflexivity.
  - reflexivity.
  - reflexivity.
  - reflexivity.
  - vm_compute. reflexivity.
  - vm_compute. reflexivity.
  - exists 1. vm_compute. reflexivity.
  - unfold fits. lia.
  - lia.
  - vm_compute. discriminate.
  - unfold fits. lia.
  - unfold fits. lia.
  - lia.
  - apply (after_reach _ [Probe 7; Probe 8]). vm_compute. reflexivity.
  - eapply (demo_served _ E NVM_MAP_DMABUF_MEMORY); [vm_compute; reflexivity|reflexivity|by apply process_words|vm_compute; reflexivity|vm_compute; reflexivity].
  - vm_compute. reflexivity.
Defined.

(** The request for that buffer. *)
Lemma ioctl_abi_witness :
  let E := process_env ∅ 0x5000 in
  let m := md_of MAP_TYPE_DMABUF 0x7f0000000000 8000 4096 5 4096 in
  let l := LibIoctl.dmabuf_bytes (LibIoctl.mk_dmabuf 0x7f0000000000 5 0 4096 8192 2 0x5000) in
  @understood E m 0x5000 NVM_MAP_DMABUF_MEMORY l /\ read_dmabuf l = Some demo_dreq.
Proof.
  intros E m l. destruct (@ioctl_abi E m 0x5000 NVM_MAP_DMABUF_MEMORY l) as [Hu _].
  - vm_compute. split_and!; (discriminate || reflexivity).
  - vm_compute. split; [discriminate|reflexivity].
  - vm_compute. reflexivity.
  - split; [exact Hu|]. destruct Hu as [_ Hu]. by apply Hu.
Defined.
