(* ===== verification/StackIo.v ===== *)
(** * From a transfer to the bus

    uGDS, libnvm and the kernel module together: a buffer in GPU memory is registered, the module
    serving the ioctl, and later a transfer uses it.  The commands the controller is given move
    the bytes of the request between the namespace and the bytes of the dma-buf. *)
From stdpp Require Import prelude gmap gmultiset list sorting.
From Stdlib Require Import ZArith Lia.
From S2P Require Import DrvSg DrvState DrvMap DrvPci DrvProofs DrvLife DrvCases.
From S2P Require Import Prelude NvmTypes NvmUtil NvmError NvmQueue NvmCmd NvmDevice Admin UgdsTypes.
From S2P Require Import UgdsIo UgdsIoSpec LibState Ctrl Dma LinuxDma DmaSpec Aq Rpc UgdsHandle UgdsRw.
From S2P Require Import LibInv LibProofs LibClient Ledger UgdsApi UgdsLink UgdsClient UgdsCases UgdsTestsCases Stack.
Local Open Scope Z_scope.

(** The bytes of a transfer through the pages of a handle, from the page of [start] on. *)
Lemma xfer_bytes_bus ps disk pages start n (i : nat) :
  0 < ps -> 0 <= start -> start mod ps = 0 -> Z.of_nat i < n ->
  xfer_bytes ps disk (drop (Z.to_nat (start / ps)) pages) n !! i =
    Some (disk + Z.of_nat i, bus_addr ps pages (start + Z.of_nat i)).
Proof.
  intros Hps Hs Hm Hi. rewrite lookup_xfer_bytes by done. do 2 f_equal. unfold bus_addr.
  apply Z.div_exact in Hm; [|lia]. replace (start + Z.of_nat i) with (Z.of_nat i + start / ps * ps) by lia.
  rewrite Z.div_add, Z.mod_add by lia.
  f_equal. rewrite !nth_lookup, lookup_drop. do 2 f_equal.
  pose proof (Z.div_pos start ps). pose proof (Z.div_pos (Z.of_nat i) ps). lia.
Qed.

(** The pages of a part of a buffer that starts at a page. *)
Lemma part_pages ps start size len n :
  0 < ps -> 0 <= start -> start mod ps = 0 -> start + size <= len -> len <= ps * n -> start / ps + cdiv size ps <= n.
Proof.
  intros Hps Hs Hm Hle Hn. apply Z.div_exact in Hm; [|lia]. unfold cdiv.
  assert ((size + ps - 1) / ps < n - start / ps + 1); [|lia]. apply Z.div_lt_upper_bound; [lia|]. nia.
Qed.

Section stack_io.
Context `{Env} {E : Type} `{Device E, HostMem E}.
Context `{KernelOk}.
Context `{!Benign}.

(** What registering a buffer did. *)
Lemma buf_register_run hip buf len (g : ugds E) g' :
  uGDSBufRegister hip buf len g = Some (UGDS_OK, g') ->
  exists ctrl a, drv_default_ctrl (g_driver g) = Some ctrl /\ drv_buf_registry (g_driver g') !! buf = Some a /\
    nvm_dma_map_device hip ctrl buf len (g_lib g) = Some ((0, a), g_lib g').
Proof.
  unfold uGDSBufRegister, mbind at 1, M_bind at 1, get. destruct (drv_initialized (g_driver g)); simpl; [|done].
  case_decide; [done|]. destruct (drv_buf_registry (g_driver g) !! buf); [done|].
  destruct (drv_default_ctrl (g_driver g)) as [ctrl|]; [|done]. unfold mbind, M_bind at 1, on_lib.
  destruct (nvm_dma_map_device hip ctrl buf len (g_lib g)) as [[[r a] l]|] eqn:Emap; simpl; [|done].
  case_decide as Hr; [done|]. simpl in Hr. assert (r = 0) as -> by (destruct (decide (r = 0)); tauto).
  intros [= <-]. exists ctrl, a. simpl. split_and!; [done|apply lookup_insert_eq|done].
Qed.

(** The controllers of a process have the pages of the host. *)
Lemma default_ctrl_pages (g : ugds E) ctrl : ugds_inv g -> drv_default_ctrl (g_driver g) = Some ctrl ->
  exists ct, l_heap (g_lib g) !! ctrl = Some (OCtrl ct) /\ ctrl < l_next (g_lib g) /\
    ctrl_page_size (c_handle ct) = sc_pagesize /\ 0 < sc_pagesize.
Proof.
  intros [Hh _ _ Hd _] Hc. destruct (Hd ctrl Hc) as (fh & hs & Hfh & <-).
  destruct (holds_live _ _ _ (RCtrl (hs_ctrl hs)) Hh) as (ct & Hct & Hps & Hsc & _).
  { apply elem_of_app. left. by eapply handles_ledger_ctrl. }
  exists ct. pose proof (h_dom _ _ _ (ho_inv _ _ _ Hh) _ _ Hct). rewrite <- Hsc. split_and!; [done|lia|done|done].
Qed.

(** The page and the block size a transfer uses. *)
Lemma world_pages (g : ugds E) fh hs buf size fo bo w :
  machine_ok (E := E) -> ugds_inv g -> io_legal g fh size fo bo -> fh <> NULL -> g_handles g !! fh = Some hs ->
  io_at g hs buf = Some w -> ctrl_page_size (hs_ctrl (w_hs w)) = sc_pagesize /\ hs_block_size (w_hs w) = hs_block_size hs.
Proof.
  intros Hm [Hh _ Hhs _ _] (_ & _ & _ & _ & Hu) Hne Hfh Ew. rewrite Hfh in Hu. destruct Hu as [|Hu]; [done|].
  destruct (io_at_live (mo_pow Hm) 0 _ g hs buf Hh (handle_in_ledger _ _ _ Hfh) (proj2 (Hhs _ _ Hfh)) Hu)
    as (w0 & Ew0 & _ & Hsc & _ & _ & _ & Ebs); [intros b; apply buf_in_ledger|].
  rewrite Ew in Ew0. by injection Ew0 as <-.
Qed.

(** The byte moves [moves] are the first [n] bytes of a request at [fo] in the namespace, each with the
    bus address [at_byte] gives for the byte of the buffer, from [start] on. *)
Definition moves_bytes (at_byte : Z -> Z -> Prop) (fo start n : Z) (moves : list (Z * Z)) : Prop :=
  length moves = Z.to_nat n /\
  forall i, 0 <= i < n -> exists x, moves !! Z.to_nat i = Some (fo + i, x) /\ at_byte (start + i) x.

(** A request for a part of a buffer of [len] bytes, from a page of the host on. *)
Record part_of (hs : HandleState Z Z) (buf len size fo bo : Z) : Prop := {
  po_buf : buf <> NULL;
  po_size : size <> 0 /\ size mod hs_block_size hs = 0;
  po_file : 0 <= fo /\ fo mod hs_block_size hs = 0;
  po_start : 0 <= bo /\ bo mod sc_pagesize = 0;
  po_len : bo + size <= len;
}.

(** What a read or write does: its doorbells ask for the first [n] bytes of the request. *)
Definition transfers (at_byte : Z -> Z -> Prop) (rd : bool) hip (g : ugds E) fh (hs : HandleState Z Z) buf size fo bo : Prop :=
  exists w qp r w' evs n,
    io_at g hs buf = Some w /\ cur_qp w = Some qp /\
    do_ucall ((if rd then Read else Write) hip fh buf size fo bo) g = Some (inr r, io_back g fh hs w') /\
    w_trace w' = w_trace w ++ evs /\
    Forall (event_ok (qp_sq qp) (io_opcode (if rd then NVM_IO_READ else NVM_IO_WRITE)) (hs_ns_id (w_hs w))) evs /\
    moves_bytes at_byte fo bo n (mjoin (event_bytes sc_pagesize (hs_block_size hs) (qp_sq qp) (qp_prp_dma qp) <$> evs)) /\
    0 <= n <= size /\ (r = size /\ n = size \/ r = - EIO \/ r = - EINVAL /\ n = 0).

(** A transfer through a handle in which the bytes of the buffer have the addresses [at_byte]. *)
Lemma transfer_bytes at_byte (rd : bool) hip (g : ugds E) fh hs buf a k len size fo bo :
  machine_ok (E := E) -> ureach g -> io_legal g fh size fo bo -> fh <> NULL -> g_handles g !! fh = Some hs ->
  drv_buf_registry (g_driver g) !! buf = Some a -> dma_at (g_lib g) a = Some (k_handle k) ->
  part_of hs buf len size fo bo -> 0 < sc_pagesize -> len <= sc_pagesize * dma_n_ioaddrs (k_handle k) ->
  (forall b, 0 <= b < len -> at_byte b (bus_addr sc_pagesize (dma_ioaddrs (k_handle k)) b)) ->
  transfers at_byte rd hip g fh hs buf size fo bo.
Proof.
  intros Hm Hg Hl Hfh Hhs Hreg Hd [Hnull Hsz Hfo [Hb0 Hbm] Hfit] Hps Hn Hbytes. pose proof (ureach_inv g Hm Hg) as Hinv.
  destruct (handle_io_moves g hip fh hs buf a (k_handle k) size fo bo (io_opcode (if rd then NVM_IO_READ else NVM_IO_WRITE)))
    as (w & r & w' & Ew & Hrun & qp & n & Hqp & Hnr & (evs & Htr & Hevs & Hmoves) & Hend); try done; [apply Hm| |by destruct rd|].
  { constructor; try done. eapply part_pages; [done|done|done|exact Hfit|done]. }
  destruct (world_pages g fh hs buf size fo bo w Hm Hinv Hl Hfh Hhs Ew) as [Hwp Hwb]. rewrite Hwp, Hwb in Hmoves.
  exists w, qp, r, w', evs, n. split_and!; try done; try lia.
  - destruct rd; cbn [do_ucall]; unfold mbind, M_bind; by rewrite Hrun.
  - unfold moves_bytes. rewrite Hmoves. split; [apply length_xfer_bytes|]. intros i Hi. eexists.
    rewrite xfer_bytes_bus by (done || lia). rewrite Z2Nat.id by lia. split; [done|]. apply Hbytes. lia.
Qed.


End stack_io.

(** ** Processes that register GPU memory and read into it *)

(** The operating system of a process with the words [user] in memory; its call number 43 is the
    ioctl for the buffer with the array at [p], the others map host memory of the library. *)
Definition proc_env (b : gpu_backend) (user : gmap Z Z) (p : Z) : Env := {|
  sys _ := 0; mmap_ok _ := true; cap_reg _ := 0x3ff; sc_pagesize := 4096;
  io_addr n i := if decide (n = 43%nat) then default 0 (user !! (p + 8 * i)) else 0x10000 * (i + 1);
  backend := b; uninit := mk_queue 0 0 0 0 0 0 0 0 0 0 false 0 0 0 0 |}.

Section proc.
Context (env : Env).

Fixpoint proc_run (cs : list ucall) (g : ugds nines) : ugds nines :=
  match cs with
  | [] => g
  | c :: cs => match @do_ucall env nines _ _ c g with Some (_, g) => proc_run cs g | None => g end
  end.
Fixpoint proc_legal (cs : list ucall) (g : ugds nines) : Prop :=
  match cs with
  | [] => True
  | c :: cs => @ulegal env nines g c /\
      match @do_ucall env nines _ _ c g with Some (_, g) => proc_legal cs g | None => False end
  end.
Definition proc_start : ugds nines := ugds_start no_cmds no_prp mk_nines.

Lemma proc_reach cs : proc_legal cs proc_start -> @ureach env nines _ _ (proc_run cs proc_start).
Proof.
  generalize (ureach_start (H := env) no_cmds no_prp mk_nines). fold proc_start. generalize proc_start.
  induction cs as [|c cs IH]; intros g Hg; [done|]. simpl. intros [Hl Hc].
  destruct (do_ucall c g) as [[r g']|] eqn:E; [|done]. apply IH; [|done]. by eapply ureach_call.
Qed.

Definition with_fd : list ucall := [DriverOpen; HandleRegister false fd3].
Definition before_buf : ugds nines := proc_run with_fd proc_start.
Definition after_buf (hip : hip_info) (len : Z) : ugds nines :=
  proc_run (with_fd ++ [BufRegister hip 0x7f0000000000 len]) proc_start.
Definition proc_handle (hip : hip_info) (len : Z) : HandleState Z Z :=
  default (mk_hs 0 0 0 None 0 zero_ctrl_info (mk_ns_info 0 0 0 0 0 0) 0 0 0 0 0 [] 0) (g_handles (after_buf hip len) !! 1).
Definition proc_dma (hip : hip_info) (len : Z) : Z :=
  default 0 (drv_buf_registry (g_driver (after_buf hip len)) !! 0x7f0000000000).
End proc.

Lemma proc_words b user p i x : user !! (p + 8 * i) = Some x -> @io_addr (proc_env b user p) 43 i = x.
Proof. intros Hx. simpl. by rewrite Hx. Qed.

Definition dmabuf_served : machine := served_machine NVM_MAP_DMABUF_MEMORY.
Definition hip_env : Env := proc_env BACKEND_HIP (v_user (d_vars (mc_drv dmabuf_served))) 0x5000.


(** The same with CUDA: 100000 bytes are two GPU pages. *)
Definition cuda_choice : choice := mk_choice false (mk_request 0x7f0000000000 2 0x9000) true true 77 78 64.
Definition cuda_machine : Kernel := demo_kernel cuda_choice.

#[local] Instance cuda_benign : @Benign cuda_machine.
Proof. split; simpl; try done. by intros n arg r [= <-]. Qed.

Definition cuda_idle : machine := default (mk_machine (drv_start ∅) []) (DrvCases.after cuda_machine [Probe 7; Probe 8]).
Definition cuda_served : machine :=
  next_machine cuda_idle (@do_event cuda_machine (Ioctl 900 4 NVM_MAP_DEVICE_MEMORY 0) cuda_idle).
Definition cuda_env : Env := proc_env BACKEND_CUDA (v_user (d_vars (mc_drv cuda_served))) 0x9000.

Lemma cuda_is_served :
  @served cuda_env cuda_machine 43 (cuda_request 0x7f0000000000 100000 0x9000) 2 0x9000 cuda_idle cuda_served.
Proof.
  eexists NVM_MAP_DEVICE_MEMORY, _, 900, 4, 0, 0. split_and!; [vm_compute; reflexivity|vm_compute; reflexivity|reflexivity| |done|].
  - intros _ k x [= <-]. vm_compute. reflexivity.
  - intros i a _ Ha. by apply proc_words.
Qed.

